(** * Connect6 engine: board model, Zobrist hashing, transposition table,
      pattern recognition, move generation and the search's game-end check.

    A shallow embedding of the Python sources under [Connect6-ecojmb/]
    ([tools.py], [zobrist_hash.py], [pattern_recognition.py], [evaluation.py],
    [move_generator.py], [search_engine.py], [game_engine.py],
    [opening_book.py]), the properties of the specification stated over it,
    and further properties of the code. *)

From Stdlib Require Import ZArith List Lia Bool String QArith.
From Stdlib Require Import Sorting.Permutation.
From stdpp Require Import base option list sorting gmap strings.

Local Open Scope Z_scope.

(* ===================================================================== *)
(** * Python run-time model *)
(* ===================================================================== *)

(** Exceptions the modelled code can raise.  [FuelExhausted] is not a Python
    exception: it marks a [while] loop of the model that was given too little
    fuel.  The scans of the engine never end that way: see
    [analyze_line_fuel] (any board) and [is_win_by_premove_fuel] (any grid of
    side 21). *)
Inductive exn : Set :=
| IndexError
| KeyError
| AttributeError
| FuelExhausted.

Inductive result (A : Type) : Type :=
| Ok (a : A)
| Raise (e : exn).
Arguments Ok {A} a.
Arguments Raise {A} e.

Definition bind {A B : Type} (r : result A) (k : A -> result B) : result B :=
  match r with
  | Ok a => k a
  | Raise e => Raise e
  end.

Notation "'do' x <- c ; k" := (bind c (fun x => k))
  (at level 10, x name, c at level 100, k at level 200, only parsing).
Notation "'do' ' p <- c ; k" := (bind c (fun x => match x with p => k end))
  (at level 10, p pattern, c at level 100, k at level 200, only parsing).

(** [for a in l: acc = f(acc, a)] with exceptions. *)
Fixpoint foldM {A S : Type} (f : S -> A -> result S) (l : list A) (s : S)
  : result S :=
  match l with
  | [] => Ok s
  | a :: l' => do s' <- f s a ; foldM f l' s'
  end.

(** A loop whose body may [return True] out of the enclosing function. *)
Fixpoint anyM {A : Type} (f : A -> result bool) (l : list A) : result bool :=
  match l with
  | [] => Ok false
  | a :: l' => do r <- f a ; if r then Ok true else anyM f l'
  end.

(** [range(lo, hi)]. *)
Definition range (lo hi : Z) : list Z :=
  map (fun i => lo + Z.of_nat i) (seq 0 (Z.to_nat (hi - lo))).

(** [l[i]] on a Python list: a negative index counts from the end, and an
    index outside [-len, len) raises [IndexError]. *)
Definition py_index {A : Type} (l : list A) (i : Z) : option nat :=
  let n := Z.of_nat (length l) in
  let j := if i <? 0 then i + n else i in
  if (0 <=? j) && (j <? n) then Some (Z.to_nat j) else None.

Definition getitem {A : Type} (l : list A) (i : Z) : result A :=
  match py_index l i with
  | Some j => match l !! j with Some a => Ok a | None => Raise IndexError end
  | None => Raise IndexError
  end.

(** [l[i] = a]. *)
Definition setitem {A : Type} (l : list A) (i : Z) (a : A) : result (list A) :=
  match py_index l i with
  | Some j => Ok (<[j := a]> l)
  | None => Raise IndexError
  end.

(** The board is a list of rows, [board[x][y]]. *)
Abbreviation Board := (list (list Z)).

Definition board_get (board : Board) (x y : Z) : result Z :=
  do row <- getitem board x ; getitem row y.

(** [board[x][y] = v]: the row object is fetched and updated in place. *)
Definition board_set (board : Board) (x y v : Z) : result Board :=
  do row <- getitem board x ;
  do row' <- setitem row y v ;
  setitem board x row'.

(** Specification-level view of a cell: [None] outside the stored grid. *)
Definition cell_at (board : Board) (x y : Z) : option Z :=
  if (0 <=? x) && (0 <=? y)
  then row ← board !! Z.to_nat x; row !! Z.to_nat y
  else None.

(** The interpreter's built-ins the sources call and whose results the
    sources do not determine: [hash] of the tuple of row tuples of a board,
    the iteration order of a [set] of coordinate pairs, and the [k]-th value
    [random.getrandbits(64)] returns after [random.seed(seed)]. *)
Class Python : Type := {
  hash_rows : list (list Z) -> Z;
  set_to_list : gset (Z * Z) -> list (Z * Z);
  getrandbits64 : Z -> nat -> Z
}.

(** Iterating over a set yields each of its elements once. *)
Definition PythonSets `{Python} : Prop :=
  forall s : gset (Z * Z), Permutation (set_to_list s) (elements s).

(** A Python [str] as the list of its code points; [ord] of a
    one-character string is its element. *)
Abbreviation PyStr := (list Z).

(** [chr(i)]: the one-character string of code point [i]; [None] stands for
    the [ValueError] raised outside [range(0x110000)]. *)
Definition chr (i : Z) : option Z :=
  if (0 <=? i) && (i <? 1114112) then Some i else None.

(** [c.isspace()] for a character of a [str]. *)
Definition isspace (c : Z) : bool :=
  ((9 <=? c) && (c <=? 13)) || ((28 <=? c) && (c <=? 32))
  || (c =? 133) || (c =? 160) || (c =? 5760)
  || ((8192 <=? c) && (c <=? 8202))
  || (c =? 8232) || (c =? 8233) || (c =? 8239) || (c =? 8287) || (c =? 12288).

(** [s.lstrip()] *)
Fixpoint lstrip (s : PyStr) : PyStr :=
  match s with
  | [] => []
  | c :: s' => if isspace c then lstrip s' else s
  end.

(** [s.strip()]: the white space on both sides is removed. *)
Definition strip (s : PyStr) : PyStr := rev (lstrip (rev (lstrip s))).

(** [str.upper], which depends on the interpreter's character tables. *)
Class PyUpper : Type := {
  upper : PyStr -> PyStr
}.

(** The upper-case mapping of an ASCII character. *)
Definition ascii_upper (c : Z) : Z :=
  if (97 <=? c) && (c <=? 122) then c - 32 else c.

(** On a string of ASCII characters [upper] maps each character on its
    own. *)
Definition UpperAscii `{PyUpper} : Prop :=
  forall s : PyStr, Forall (fun c => 0 <= c < 128) s -> upper s = map ascii_upper s.

(* ===================================================================== *)
(** * defines.py *)
(* ===================================================================== *)

(** Modelled from the spec: [defines.py] (class [Defines] and the move types)
    is not among the sources.  The constants are taken as parameters: the
    cell codes for empty, the two colours and the border, the grid side and
    the two score bounds. *)
Class Defines : Type := {
  GRID_NUM : Z;
  NOSTONE : Z;
  BLACK : Z;
  WHITE : Z;
  BORDER : Z;
  MAXINT : Z;
  MININT : Z
}.

(** Modelled from the spec: a board coordinate, [StonePosition(x, y)]. *)
Module StonePosition.
Record t : Set := mk { x : Z; y : Z }.
End StonePosition.

(** Modelled from the spec: a Move is an ordered pair of board coordinates
    (the two stones placed this turn) and carries a heuristic score used
    only for ordering.  Scores mix Python ints and floats; they are modelled
    as exact rationals. *)
Module StoneMove.
Record t : Set := mk {
  pos0 : StonePosition.t;
  pos1 : StonePosition.t;
  score : Q
}.

(** [move.positions] *)
Definition positions (m : t) : list StonePosition.t := [pos0 m; pos1 m].

(** A move on the two coordinate pairs [p] and [q]. *)
Definition of_pairs (p q : Z * Z) (s : Q) : t :=
  {| pos0 := StonePosition.mk (fst p) (snd p);
     pos1 := StonePosition.mk (fst q) (snd q);
     score := s |}.
End StoneMove.

(** The chained comparison [1 <= x <= 19 and 1 <= y <= 19]. *)
Definition in_1_19 (x y : Z) : bool :=
  (1 <=? x) && (x <=? 19) && (1 <=? y) && (y <=? 19).

(** [max(1, min(19, v))] *)
Definition clamp_1_19 (v : Z) : Z := Z.max 1 (Z.min 19 v).

(* ===================================================================== *)
(** * tools.py *)
(* ===================================================================== *)

Module Tools.
Section Tools.
Context `{Defines}.

Definition isValidPos (x y : Z) : bool :=
  (0 <? x) && (x <? GRID_NUM - 1) && (0 <? y) && (y <? GRID_NUM - 1).

(** [board[i][0] = board[0][i] = board[i][G-1] = board[G-1][i] = BORDER]:
    the targets are assigned left to right. *)
Definition init_board_border (board : Board) (i : Z) : result Board :=
  do b1 <- board_set board i 0 BORDER ;
  do b2 <- board_set b1 0 i BORDER ;
  do b3 <- board_set b2 i (GRID_NUM - 1) BORDER ;
  board_set b3 (GRID_NUM - 1) i BORDER.

Definition init_board (board : Board) : result Board :=
  do b <- foldM init_board_border (range 0 21) board ;
  foldM (fun b i =>
           foldM (fun b j => board_set b i j NOSTONE)
                 (range 1 (GRID_NUM - 1)) b)
        (range 1 (GRID_NUM - 1)) b.

Definition make_move (board : Board) (move : StoneMove.t) (color : Z)
  : result Board :=
  let p0 := StoneMove.pos0 move in
  let p1 := StoneMove.pos1 move in
  do b1 <- (if in_1_19 (StonePosition.x p0) (StonePosition.y p0)
         then board_set board (StonePosition.x p0) (StonePosition.y p0) color
         else Ok board) ;
  if in_1_19 (StonePosition.x p1) (StonePosition.y p1)
  then board_set b1 (StonePosition.x p1) (StonePosition.y p1) color
  else Ok b1.

Definition unmake_move (board : Board) (move : StoneMove.t) : result Board :=
  let p0 := StoneMove.pos0 move in
  let p1 := StoneMove.pos1 move in
  do b1 <- (if in_1_19 (StonePosition.x p0) (StonePosition.y p0)
         then board_set board (StonePosition.x p0) (StonePosition.y p0) NOSTONE
         else Ok board) ;
  if in_1_19 (StonePosition.x p1) (StonePosition.y p1)
  then board_set b1 (StonePosition.x p1) (StonePosition.y p1) NOSTONE
  else Ok b1.

Definition directions : list (Z * Z) := [(1, 0); (0, 1); (1, 1); (1, -1)].

(** [while board[tx][ty] == movStone: count += 1; tx += dx; ty += dy] *)
Fixpoint count_while (fuel : nat) (board : Board) (movStone : Z)
         (tx ty dx dy count : Z) : result Z :=
  match fuel with
  | O => Raise FuelExhausted
  | S fuel' =>
      do c <- board_get board tx ty ;
      if c =? movStone
      then count_while fuel' board movStone (tx + dx) (ty + dy) dx dy (count + 1)
      else Ok count
  end.

(** Fuel of the two scans: more than the indices a row can be read at. *)
Definition scan_fuel : nat := 64.

(** One iteration of the inner loop of [is_win_by_premove]: [true] when the
    iteration executes [return True]. *)
Definition premove_check (board : Board) (direction : Z * Z)
           (position : StonePosition.t) : result bool :=
  let x := StonePosition.x position in
  let y := StonePosition.y position in
  if negb (in_1_19 x y) then Ok false
  else
    do movStone <- board_get board x y ;
    if (movStone =? BORDER) || (movStone =? NOSTONE) then Ok false
    else
      let dx := fst direction in
      let dy := snd direction in
      do count <- count_while scan_fuel board movStone (x + dx) (y + dy) dx dy 1 ;
      do count <- count_while scan_fuel board movStone (x - dx) (y - dy) (- dx) (- dy) count ;
      Ok (6 <=? count).

Definition is_win_by_premove (board : Board) (preMove : StoneMove.t)
  : result bool :=
  anyM (fun direction => anyM (premove_check board direction) (StoneMove.positions preMove))
       directions.

(** [move2msg]: column letter then row letter of each stone, one stone
    when the two clamped coordinates coincide; [None] is the [ValueError]
    of [chr]. *)
Definition move2msg (move : StoneMove.t) : option PyStr :=
  let x1 := clamp_1_19 (StonePosition.x (StoneMove.pos0 move)) in
  let y1 := clamp_1_19 (StonePosition.y (StoneMove.pos0 move)) in
  let x2 := clamp_1_19 (StonePosition.x (StoneMove.pos1 move)) in
  let y2 := clamp_1_19 (StonePosition.y (StoneMove.pos1 move)) in
  if (x1 =? x2) && (y1 =? y2) then
    c1 ← chr (y1 + 65 - 1) ;
    r1 ← chr (83 - x1 + 1) ;
    Some [c1; r1]
  else
    c1 ← chr (y1 + 65 - 1) ;
    r1 ← chr (83 - x1 + 1) ;
    c2 ← chr (y2 + 65 - 1) ;
    r2 ← chr (83 - x2 + 1) ;
    Some [c1; r1; c2; r2].

Context `{PyUpper}.

Definition msg2move (msg : PyStr) : result StoneMove.t :=
  let msg := upper (strip msg) in
  if (length msg =? 2)%nat then
    do c0 <- getitem msg 0 ;
    let col := c0 - 65 + 1 in
    do c1 <- getitem msg 1 ;
    let row := 83 - c1 + 1 in
    let col := clamp_1_19 col in
    let row := clamp_1_19 row in
    Ok (StoneMove.of_pairs (row, col) (row, col) 0)
  else
    do c0 <- getitem msg 0 ;
    let col1 := c0 - 65 + 1 in
    do c1 <- getitem msg 1 ;
    let row1 := 83 - c1 + 1 in
    do c2 <- getitem msg 2 ;
    let col2 := c2 - 65 + 1 in
    do c3 <- getitem msg 3 ;
    let row2 := 83 - c3 + 1 in
    let col1 := clamp_1_19 col1 in
    let row1 := clamp_1_19 row1 in
    let col2 := clamp_1_19 col2 in
    let row2 := clamp_1_19 row2 in
    Ok (StoneMove.of_pairs (row1, col1) (row2, col2) 0).

End Tools.
End Tools.

(* ===================================================================== *)
(** * zobrist_hash.py *)
(* ===================================================================== *)

(** [d[k]] on a dict: [KeyError] when the key is absent. *)
Definition dict_get `{Countable K} {V : Type} (d : gmap K V) (k : K) : result V :=
  match d !! k with
  | Some v => Ok v
  | None => Raise KeyError
  end.

Module ZobristHash.
Section ZobristHash.
Context `{Defines} `{Python}.

Record t : Type := mk {
  hash_table : gmap (Z * Z * Z) Z;
  side_to_move_hash : Z
}.

(** Body of the two nested loops of [__init__]; the state is the table
    and the number of values drawn so far. *)
Definition init_cell (seed : Z) (x : Z) (st : gmap (Z * Z * Z) Z * nat) (y : Z)
  : gmap (Z * Z * Z) Z * nat :=
  let '(tbl, k) := st in
  let tbl := <[(x, y, BLACK) := getrandbits64 seed k]> tbl in
  let tbl := <[(x, y, WHITE) := getrandbits64 seed (S k)]> tbl in
  (tbl, S (S k)).

Definition __init__ (seed : Z) : t :=
  let '(tbl, k) :=
    foldl (fun st x => foldl (init_cell seed x) st (range 1 20))
          (∅, O) (range 1 20) in
  {| hash_table := tbl; side_to_move_hash := getrandbits64 seed k |}.

(** Body of the scan of [compute_hash] at cell [(x, y)]. *)
Definition hash_cell (self : t) (board : Board) (x : Z) (hash_value : Z) (y : Z)
  : result Z :=
  do c <- board_get board x y ;
  if c =? BLACK then
    do v <- dict_get (hash_table self) (x, y, BLACK) ;
    Ok (Z.lxor hash_value v)
  else if c =? WHITE then
    do v <- dict_get (hash_table self) (x, y, WHITE) ;
    Ok (Z.lxor hash_value v)
  else Ok hash_value.

Definition compute_hash (self : t) (board : Board) (color : Z) : result Z :=
  do hash_value <-
    foldM (fun h x => foldM (hash_cell self board x) (range 1 20) h)
          (range 1 20) 0 ;
  if color =? WHITE
  then Ok (Z.lxor hash_value (side_to_move_hash self))
  else Ok hash_value.

(** [is_place] is accepted and ignored by the source. *)
Definition update_hash (self : t) (current_hash x y color : Z) (is_place : bool)
  : result Z :=
  do v <- dict_get (hash_table self) (x, y, color) ;
  Ok (Z.lxor current_hash v).

Definition toggle_side (self : t) (current_hash : Z) : Z :=
  Z.lxor current_hash (side_to_move_hash self).

End ZobristHash.
End ZobristHash.

(** A Python dict kept in insertion order (the order [items()] iterates
    in): assigning to a present key keeps its place, a new key goes last. *)
Module PyDict.
Section PyDict.
Context {K V : Type} `{EqDecision K}.

Fixpoint get (d : list (K * V)) (k : K) : option V :=
  match d with
  | [] => None
  | (k', v) :: d' => if decide (k' = k) then Some v else get d' k
  end.

Fixpoint set (d : list (K * V)) (k : K) (v : V) : list (K * V) :=
  match d with
  | [] => [(k, v)]
  | (k', v') :: d' =>
      if decide (k' = k) then (k', v) :: d' else (k', v') :: set d' k v
  end.

Fixpoint del (d : list (K * V)) (k : K) : list (K * V) :=
  match d with
  | [] => []
  | (k', v') :: d' => if decide (k' = k) then d' else (k', v') :: del d' k
  end.

Definition mem (d : list (K * V)) (k : K) : bool :=
  match get d k with Some _ => true | None => false end.

End PyDict.
End PyDict.

(** [list.sort] is stable, so its result is the one of any stable sort: here
    insertion from the right, each element going before the first element it
    is not above. *)
Fixpoint insert_by {A : Type} (leb : A -> A -> bool) (a : A) (l : list A) : list A :=
  match l with
  | [] => [a]
  | b :: l' => if leb a b then a :: b :: l' else b :: insert_by leb a l'
  end.

Definition sort_by {A : Type} (leb : A -> A -> bool) (l : list A) : list A :=
  foldr (insert_by leb) [] l.

(** Order of Python tuples of two integers. *)
Definition pair_leb (a b : Z * Z) : bool :=
  (fst a <? fst b) || ((fst a =? fst b) && (snd a <=? snd b)).

Module TranspositionTable.
Section TranspositionTable.
Context `{Defines} `{Python}.

Definition EXACT : Z := 0.
Definition LOWER_BOUND : Z := 1.
Definition UPPER_BOUND : Z := 2.

Record entry : Type := mk_entry {
  depth : Z;
  score : Z;
  flag : Z;
  best_move : option StoneMove.t;
  age : Z;
  threat_level : Z
}.

Record t : Type := mk {
  table : list (Z * entry);
  max_size : Z;
  zobrist : ZobristHash.t;
  current_age : Z;
  hits : Z;
  misses : Z;
  collisions : Z
}.

Definition __init__ (max_size : Z) : t :=
  {| table := [];
     max_size := max_size;
     zobrist := ZobristHash.__init__ 42;
     current_age := 0;
     hits := 0;
     misses := 0;
     collisions := 0 |}.

Definition with_table (self : t) (tbl : list (Z * entry)) : t :=
  {| table := tbl;
     max_size := max_size self;
     zobrist := zobrist self;
     current_age := current_age self;
     hits := hits self;
     misses := misses self;
     collisions := collisions self |}.

(** The [(key, age, depth)] triples of [_cleanup] and their sort key
    [(age, -depth)]. *)
Definition cleanup_key (e : Z * Z * Z) : Z * Z :=
  let '(_, a, d) := e in (a, - d).

Definition _cleanup (self : t) : t :=
  let entries_by_age :=
    map (fun kv => (fst kv, age (snd kv), depth (snd kv))) (table self) in
  let entries_by_age :=
    sort_by (fun a b => pair_leb (cleanup_key a) (cleanup_key b)) entries_by_age in
  let remove_count := Z.of_nat (length entries_by_age) / 5 in
  with_table self
    (foldl (fun tbl e =>
              let key := fst (fst e) in
              if PyDict.mem tbl key then PyDict.del tbl key else tbl)
           (table self)
           (take (Z.to_nat remove_count) entries_by_age)).

(** The test of [store] on an entry already present. *)
Definition replaces (self : t) (old_entry : entry) (depth flag : Z) : bool :=
  (depth >? TranspositionTable.depth old_entry)
  || ((depth =? TranspositionTable.depth old_entry)
      && (current_age self >? age old_entry))
  || ((flag =? EXACT) && negb (TranspositionTable.flag old_entry =? EXACT)).

Definition store (self : t) (hash_key depth score flag : Z)
           (best_move : option StoneMove.t) (threat_level : Z) : t :=
  let keep :=
    match PyDict.get (table self) hash_key with
    | Some old_entry => negb (replaces self old_entry depth flag)
    | None => false
    end in
  if keep then self
  else
    let self' :=
      with_table self
        (PyDict.set (table self) hash_key
           {| depth := depth; score := score; flag := flag;
              best_move := best_move; age := current_age self;
              threat_level := threat_level |}) in
    if Z.of_nat (length (table self')) >? max_size self'
    then _cleanup self'
    else self'.

Definition count_miss (self : t) : t :=
  {| table := table self; max_size := max_size self; zobrist := zobrist self;
     current_age := current_age self; hits := hits self;
     misses := misses self + 1; collisions := collisions self |}.

Definition count_hit (self : t) : t :=
  {| table := table self; max_size := max_size self; zobrist := zobrist self;
     current_age := current_age self; hits := hits self + 1;
     misses := misses self; collisions := collisions self |}.

(** [probe] returns the triple [(found, score, best_move)] and updates the
    hit and miss counters. *)
Definition probe (self : t) (hash_key depth alpha beta : Z)
  : (bool * option Z * option StoneMove.t) * t :=
  match PyDict.get (table self) hash_key with
  | None => ((false, None, None), count_miss self)
  | Some entry =>
      if TranspositionTable.depth entry <? depth
      then ((false, None, best_move entry), count_miss self)
      else
        let self' := count_hit self in
        let score := TranspositionTable.score entry in
        let flag := TranspositionTable.flag entry in
        if flag =? EXACT then ((true, Some score, best_move entry), self')
        else if (flag =? LOWER_BOUND) && (score >=? beta)
        then ((true, Some score, best_move entry), self')
        else if (flag =? UPPER_BOUND) && (score <=? alpha)
        then ((true, Some score, best_move entry), self')
        else ((false, None, best_move entry), self')
  end.

Definition get_pv_move (self : t) (hash_key : Z) : option StoneMove.t :=
  match PyDict.get (table self) hash_key with
  | Some entry => best_move entry
  | None => None
  end.

Definition resize (self : t) (new_max_size : Z) : t :=
  let self' :=
    {| table := table self; max_size := new_max_size; zobrist := zobrist self;
       current_age := current_age self; hits := hits self;
       misses := misses self; collisions := collisions self |} in
  if Z.of_nat (length (table self')) >? new_max_size
  then _cleanup self'
  else self'.

Definition clear (self : t) : t :=
  {| table := []; max_size := max_size self; zobrist := zobrist self;
     current_age := current_age self + 1; hits := 0; misses := 0;
     collisions := 0 |}.

(** [del d[key]]: [KeyError] when the key is absent. *)
Definition del_key (tbl : list (Z * entry)) (key : Z) : result (list (Z * entry)) :=
  if PyDict.mem tbl key then Ok (PyDict.del tbl key) else Raise KeyError.

(** [soft_clear].  The threshold [self.max_size * 0.8] is a float product;
    it is taken as the exact rational, with which it compares alike against
    an integer for the capacities below 2^50. *)
Definition soft_clear (self : t) : result t :=
  do tbl <-
    (if negb (Qle_bool (inject_Z (Z.of_nat (length (table self))))
                       (inject_Z (max_size self) * (8 # 10)))
     then
       let to_remove :=
         map fst (filter (fun kv => age (snd kv) < current_age self - 2) (table self)) in
       foldM del_key to_remove (table self)
     else Ok (table self)) ;
  Ok {| table := tbl; max_size := max_size self; zobrist := zobrist self;
        current_age := current_age self + 1; hits := hits self;
        misses := misses self; collisions := collisions self |}.

End TranspositionTable.
End TranspositionTable.

(* ===================================================================== *)
(** * pattern_recognition.py *)
(* ===================================================================== *)

(** The loop and branch condition used throughout the engine,
    [1 <= tx <= 19 and 1 <= ty <= 19 and board[tx][ty] == color]: the cell is
    read only when the coordinates are in range. *)
Definition stone_at (board : Board) (tx ty color : Z) : result bool :=
  if in_1_19 tx ty
  then do c <- board_get board tx ty ; Ok (c =? color)
  else Ok false.

(** Fuel of the range-guarded scans along a line. *)
Definition line_fuel : nat := 21.

(** [while stone_at(tx, ty): count += 1; tx += dx; ty += dy] *)
Fixpoint count_line (fuel : nat) (board : Board) (color tx ty dx dy count : Z)
  : result Z :=
  match fuel with
  | O => Raise FuelExhausted
  | S fuel' =>
      do c <- stone_at board tx ty color ;
      if c then count_line fuel' board color (tx + dx) (ty + dy) dx dy (count + 1)
      else Ok count
  end.

(** [while stone_at(tx, ty): start = (tx, ty); tx -= dx; ty -= dy] *)
Fixpoint line_start (fuel : nat) (board : Board) (color tx ty dx dy : Z)
         (start : Z * Z) : result (Z * Z) :=
  match fuel with
  | O => Raise FuelExhausted
  | S fuel' =>
      do c <- stone_at board tx ty color ;
      if c then line_start fuel' board color (tx - dx) (ty - dy) dx dy (tx, ty)
      else Ok start
  end.

Module ThreatPattern.
Record t : Type := mk {
  pattern_type : string;
  positions : list (Z * Z);
  threat_level : Z;
  win_positions : list (Z * Z)
}.
End ThreatPattern.

Module PatternRecognizer.
Section PatternRecognizer.
Context `{Defines} `{Python}.

Definition pattern_scores : gmap string Z :=
  list_to_map
    [("SIX_IN_ROW", 10000000); ("FIVE_IN_ROW", 5000000);
     ("OPEN_FOUR", 5000000); ("DOUBLE_FOUR", 800000);
     ("STRAIGHT_FOUR", 2000000); ("FOUR_THREE", 400000);
     ("OPEN_THREE", 200000); ("DOUBLE_THREE", 80000);
     ("STRAIGHT_THREE", 5000); ("OPEN_TWO", 1000);
     ("SPLIT_THREE", 500); ("LOOSE_TWO", 100);
     ("DIAMOND", 2000); ("SQUARE", 1500); ("BRIDGE", 800)]%string.

Definition directions : list (Z * Z) := [(1, 0); (0, 1); (1, 1); (1, -1)].

(** The pair [(pattern_type, threat_level)]; [None] is Python's [None]. *)
Definition _classify_threat (length : Z) (before_open after_open : bool)
  : option string * Z :=
  let both_open := before_open && after_open in
  let one_open := before_open || after_open in
  if length >=? 6 then (Some "SIX_IN_ROW"%string, 5)
  else if length =? 5 then (Some "FIVE_IN_ROW"%string, 5)
  else if length =? 4 then
    if both_open then (Some "OPEN_FOUR"%string, 5)
    else if one_open then (Some "STRAIGHT_FOUR"%string, 4)
    else (None, 0)
  else if length =? 3 then
    if both_open then (Some "OPEN_THREE"%string, 3)
    else if one_open then (Some "STRAIGHT_THREE"%string, 2)
    else (None, 0)
  else if length =? 2 then
    if both_open then (Some "OPEN_TWO"%string, 2)
    else if one_open then (Some "LOOSE_TWO"%string, 1)
    else (None, 0)
  else (None, 0).

Definition _analyze_line (board : Board) (x y : Z) (direction : Z * Z) (color : Z)
  : result (option ThreatPattern.t) :=
  let '(dx, dy) := direction in
  do consecutive <- count_line line_fuel board color (x + dx) (y + dy) dx dy 1 ;
  if consecutive <? 2 then Ok None
  else
    do start <- line_start line_fuel board color (x - dx) (y - dy) dx dy (x, y) ;
    let '(start_x, start_y) := start in
    let positions :=
      map (fun i => (start_x + i * dx, start_y + i * dy)) (range 0 consecutive) in
    let before_x := start_x - dx in
    let before_y := start_y - dy in
    let after_x := start_x + consecutive * dx in
    let after_y := start_y + consecutive * dy in
    do before_open <- stone_at board before_x before_y NOSTONE ;
    do after_open <- stone_at board after_x after_y NOSTONE ;
    let '(pattern_type, threat_level) :=
      _classify_threat consecutive before_open after_open in
    let win_positions := [] in
    let win_positions :=
      if before_open then win_positions ++ [(before_x, before_y)]
      else win_positions in
    let win_positions :=
      if after_open then win_positions ++ [(after_x, after_y)]
      else win_positions in
    do win_positions <-
      (if after_open && (consecutive >=? 3) then
         let gap_x := after_x + dx in
         let gap_y := after_y + dy in
         do g <- stone_at board gap_x gap_y color ;
         if g then Ok (win_positions ++ [(after_x, after_y)])
         else Ok win_positions
       else Ok win_positions) ;
    match pattern_type with
    | Some ty => Ok (Some (ThreatPattern.mk ty positions threat_level win_positions))
    | None => Ok None
    end.

(** The dict [analyze_position] returns.  While the scan runs, the two move
    lists are the plain lists being extended. *)
Record analysis : Type := mk_analysis {
  threats : list ThreatPattern.t;
  score : Z;
  critical_level : Z;
  winning_moves : list (Z * Z);
  defensive_moves : list (Z * Z)
}.

(** Body of the loop over [self.directions]. *)
Definition analyze_direction (board : Board) (x y color : Z) (acc : analysis)
           (direction : Z * Z) : result analysis :=
  do threat <- _analyze_line board x y direction color ;
  match threat with
  | None => Ok acc
  | Some threat =>
      let lvl := ThreatPattern.threat_level threat in
      Ok {| threats := threats acc ++ [threat];
            score := score acc
                     + default 0 (pattern_scores !! ThreatPattern.pattern_type threat);
            critical_level := Z.max (critical_level acc) lvl;
            winning_moves :=
              if lvl >=? 5
              then winning_moves acc ++ ThreatPattern.win_positions threat
              else winning_moves acc;
            defensive_moves :=
              if lvl >=? 5 then defensive_moves acc
              else if lvl >=? 4
                   then defensive_moves acc ++ ThreatPattern.win_positions threat
                   else defensive_moves acc |}
  end.

Definition analyze_cell (board : Board) (color x : Z) (acc : analysis) (y : Z)
  : result analysis :=
  do c <- board_get board x y ;
  if c =? color
  then foldM (analyze_direction board x y color) directions acc
  else Ok acc.

Definition analyze_position (board : Board) (color : Z) : result analysis :=
  do acc <-
    foldM (fun acc x => foldM (analyze_cell board color x) (range 1 20) acc)
          (range 1 20)
          {| threats := []; score := 0; critical_level := 0;
             winning_moves := []; defensive_moves := [] |} ;
  Ok {| threats := threats acc;
        score := score acc;
        critical_level := critical_level acc;
        winning_moves := set_to_list (list_to_set (winning_moves acc));
        defensive_moves := set_to_list (list_to_set (defensive_moves acc)) |}.

Record combination : Type := mk_combination {
  combo_type : string;
  combo_score : Z;
  combo_moves : list (Z * Z)
}.

(** [set(t.win_positions)] *)
Definition win_set (t : ThreatPattern.t) : gset (Z * Z) :=
  list_to_set (ThreatPattern.win_positions t).

(** The intersection of all the sets of a list ([set.intersection] applied
    to the unpacked list), the empty set for the empty list. *)
Definition intersection_all (sets : list (gset (Z * Z))) : gset (Z * Z) :=
  match sets with
  | [] => ∅
  | s :: rest => foldl (fun a b => a ∩ b) s rest
  end.

(** Truth value of a set: non-empty. *)
Definition nonempty_set (s : gset (Z * Z)) : bool := bool_decide (s <> ∅).

Definition find_threat_combinations (board : Board) (color : Z)
  : result (list combination) :=
  do analysis <- analyze_position board color ;
  let threats := threats analysis in
  let combinations := [] in
  let fours := filter (fun t => 4 <= ThreatPattern.threat_level t) threats in
  let combinations :=
    if 2 <=? Z.of_nat (length fours) then
      let shared := intersection_all (map win_set fours) in
      if nonempty_set shared
      then combinations ++ [mk_combination "DOUBLE_FOUR" 900000 (set_to_list shared)]
      else combinations
    else combinations in
  let threes := filter (fun t => ThreatPattern.threat_level t = 3) threats in
  let combinations :=
    if negb (bool_decide (fours = [])) && negb (bool_decide (threes = [])) then
      let four_wins := foldl (fun s f => s ∪ win_set f) ∅ fours in
      let three_wins := foldl (fun s t => s ∪ win_set t) ∅ threes in
      let shared := four_wins ∩ three_wins in
      if nonempty_set shared
      then combinations ++ [mk_combination "FOUR_THREE" 400000 (set_to_list shared)]
      else combinations
    else combinations in
  let open_threes :=
    filter (fun t => ThreatPattern.pattern_type t = "OPEN_THREE"%string) threats in
  let combinations :=
    if 2 <=? Z.of_nat (length open_threes) then
      let shared := intersection_all (map win_set open_threes) in
      if nonempty_set shared
      then combinations ++ [mk_combination "DOUBLE_THREE" 80000 (set_to_list shared)]
      else combinations
    else combinations in
  Ok combinations.

End PatternRecognizer.
End PatternRecognizer.

(* ===================================================================== *)
(** * evaluation.py (tactical analysis methods) *)
(* ===================================================================== *)

Module Evaluator.
Section Evaluator.
Context `{Defines} `{Python}.

Definition opponent_of (color : Z) : Z :=
  if color =? WHITE then BLACK else WHITE.

(** A scan of [_is_won] from [(tx, ty)]: [None] when the loop body executed
    [return True], the count otherwise. *)
Fixpoint won_scan (fuel : nat) (board : Board) (color tx ty dx dy count : Z)
  : result (option Z) :=
  match fuel with
  | O => Raise FuelExhausted
  | S fuel' =>
      do c <- stone_at board tx ty color ;
      if c then
        let count := count + 1 in
        if count >=? 6 then Ok None
        else won_scan fuel' board color (tx + dx) (ty + dy) dx dy count
      else Ok (Some count)
  end.

(** Body of the loop of [_is_won] over the directions: [true] when it
    returned [True]. *)
Definition won_direction (board : Board) (color x y : Z) (direction : Z * Z)
  : result bool :=
  let '(dx, dy) := direction in
  do r <- won_scan line_fuel board color (x + dx) (y + dy) dx dy 1 ;
  match r with
  | None => Ok true
  | Some count =>
      do r <- won_scan line_fuel board color (x - dx) (y - dy) (- dx) (- dy) count ;
      match r with
      | None => Ok true
      | Some _ => Ok false
      end
  end.

Definition won_cell (board : Board) (color x y : Z) : result bool :=
  do c <- board_get board x y ;
  if c =? color
  then anyM (won_direction board color x y) [(1, 0); (0, 1); (1, 1); (1, -1)]
  else Ok false.

Definition _is_won (board : Board) (color : Z) : result bool :=
  anyM (fun x => anyM (won_cell board color x) (range 1 20)) (range 1 20).

Definition detect_immediate_win (board : Board) (color : Z)
  : result (list (Z * Z)) :=
  do analysis <- PatternRecognizer.analyze_position board color ;
  Ok (PatternRecognizer.winning_moves analysis).

Definition detect_immediate_threat (board : Board) (color : Z)
  : result (list (Z * Z)) :=
  detect_immediate_win board (opponent_of color).

(** An element of the list [detect_critical_moves] returns. *)
Record critical_move : Type := mk_critical {
  position : Z * Z;
  threat_level : Z;
  score : Z
}.

(** Body of the scan of [detect_critical_moves] at the cell [(x, y)].  The
    stone is placed on the caller's board and taken off again, so the board
    is part of the loop state. *)
Definition critical_cell (color x : Z) (st : list critical_move * Board) (y : Z)
  : result (list critical_move * Board) :=
  let '(critical_moves, board) := st in
  do c <- board_get board x y ;
  if c =? NOSTONE then
    do board <- board_set board x y color ;
    do analysis <- PatternRecognizer.analyze_position board color ;
    let critical_moves :=
      if PatternRecognizer.critical_level analysis >=? 3
      then critical_moves
           ++ [mk_critical (x, y)
                 (PatternRecognizer.critical_level analysis)
                 (PatternRecognizer.score analysis)]
      else critical_moves in
    do board <- board_set board x y NOSTONE ;
    Ok (critical_moves, board)
  else Ok (critical_moves, board).

(** Returns the sorted list and the board as the call leaves it. *)
Definition detect_critical_moves (board : Board) (color : Z)
  : result (list critical_move * Board) :=
  do '(critical_moves, board) <-
    foldM (fun st x => foldM (critical_cell color x) (range 1 20) st)
          (range 1 20) ([], board) ;
  Ok (sort_by (fun a b => pair_leb (threat_level b, score b)
                                   (threat_level a, score a))
              critical_moves,
      board).

Definition find_forcing_moves (board : Board) (color : Z)
  : result (list (Z * Z) * Board) :=
  do '(critical, board) <- detect_critical_moves board color ;
  Ok (map position (filter (fun m => 4 <= threat_level m) critical), board).

(** The dict [get_threat_analysis] returns. *)
Record threat_info : Type := mk_threat_info {
  our_analysis : PatternRecognizer.analysis;
  opp_analysis : PatternRecognizer.analysis;
  our_combinations : list PatternRecognizer.combination;
  opp_combinations : list PatternRecognizer.combination;
  critical_situation : bool
}.

Definition get_threat_analysis (board : Board) (color : Z) : result threat_info :=
  do our_analysis <- PatternRecognizer.analyze_position board color ;
  let opponent := opponent_of color in
  do opp_analysis <- PatternRecognizer.analyze_position board opponent ;
  do our_combos <- PatternRecognizer.find_threat_combinations board color ;
  do opp_combos <- PatternRecognizer.find_threat_combinations board opponent ;
  Ok {| our_analysis := our_analysis;
        opp_analysis := opp_analysis;
        our_combinations := our_combos;
        opp_combinations := opp_combos;
        critical_situation :=
          (PatternRecognizer.critical_level our_analysis >=? 4)
          || (PatternRecognizer.critical_level opp_analysis >=? 4) |}.

End Evaluator.
End Evaluator.

(* ===================================================================== *)
(** * move_generator.py *)
(* ===================================================================== *)

(** [l[:n]]: a negative bound counts from the end. *)
Definition slice_to {A : Type} (l : list A) (n : Z) : list A :=
  if n <? 0 then take (Z.to_nat (Z.of_nat (length l) + n)) l
  else take (Z.to_nat n) l.

(** Truth value of a list: non-empty. *)
Definition nonempty {A : Type} (l : list A) : bool :=
  match l with [] => false | _ :: _ => true end.

Module MoveGenerator.
Section MoveGenerator.
Context `{Defines} `{Python}.

(** The generator's own state is the history table; its evaluator holds
    nothing the generation reads. *)
Record t : Type := mk {
  move_history : gmap ((Z * Z) * (Z * Z)) Z
}.

(** Modelled from the spec: the constants class holds the grid size, the
    four cell codes and the score bounds; it has no member [opponent], so
    reading [Defines.opponent] raises [AttributeError]. *)
Definition Defines_opponent : result Z := Raise AttributeError.

Definition _create_center_move : StoneMove.t :=
  StoneMove.of_pairs (10, 10) (11, 11) 0.

Definition by_score_desc (a b : StoneMove.t) : bool :=
  Qle_bool (StoneMove.score b) (StoneMove.score a).

Definition pos_eqb (p q : Z * Z) : bool := bool_decide (p = q).

(** The fallback loop of [_create_winning_moves] at offset [(dx, dy)];
    once ten moves are collected the function has returned. *)
Definition nearby_cell (board : Board) (win_pos : Z * Z) (dx : Z)
           (moves : list StoneMove.t) (dy : Z) : result (list StoneMove.t) :=
  if 10 <=? Z.of_nat (length moves) then Ok moves
  else
    let x2 := fst win_pos + dx in
    let y2 := snd win_pos + dy in
    do e <- stone_at board x2 y2 NOSTONE ;
    if e && negb (pos_eqb (x2, y2) win_pos)
    then Ok (moves ++ [StoneMove.of_pairs win_pos (x2, y2) (inject_Z 100000000)])
    else Ok moves.

Definition _create_winning_moves (win_positions : list (Z * Z)) (board : Board)
           (color : Z) : result (list StoneMove.t * Board) :=
  if 2 <=? Z.of_nat (length win_positions) then
    do p0 <- getitem win_positions 0 ;
    do p1 <- getitem win_positions 1 ;
    Ok ([StoneMove.of_pairs p0 p1 (inject_Z 100000000)], board)
  else
    do win_pos <- getitem win_positions 0 ;
    do '(candidates, board) <- Evaluator.detect_critical_moves board color ;
    let moves :=
      foldl (fun moves candidate =>
               if negb (pos_eqb (Evaluator.position candidate) win_pos)
               then moves
                    ++ [StoneMove.of_pairs win_pos (Evaluator.position candidate)
                          (inject_Z (100000000 + Evaluator.score candidate))]
               else moves)
            [] (take 10 candidates) in
    do moves <-
      (if nonempty moves then Ok moves
       else foldM (fun moves dx => foldM (nearby_cell board win_pos dx)
                                         [-2; -1; 0; 1; 2] moves)
                  [-2; -1; 0; 1; 2] moves) ;
    Ok (if nonempty moves then moves else [_create_center_move], board).

Definition _create_desperate_defense (threat_positions : list (Z * Z))
           (board : Board) (color : Z) : result (list StoneMove.t) :=
  if 2 <=? Z.of_nat (length threat_positions) then
    do p0 <- getitem threat_positions 0 ;
    do p1 <- getitem threat_positions 1 ;
    Ok [StoneMove.of_pairs p0 p1 (inject_Z 90000000)]
  else Ok [_create_center_move].

Definition _create_defensive_counterattack (threat_pos : Z * Z) (board : Board)
           (color max_moves : Z) : result (list StoneMove.t * Board) :=
  do '(our_critical, board) <- Evaluator.detect_critical_moves board color ;
  let moves :=
    foldl (fun moves critical =>
             if negb (pos_eqb (Evaluator.position critical) threat_pos)
             then moves
                  ++ [StoneMove.of_pairs threat_pos (Evaluator.position critical)
                        (inject_Z (80000000
                                   + Evaluator.threat_level critical * 1000000
                                   + Evaluator.score critical))]
             else moves)
          [] (take 30 our_critical) in
  let moves := sort_by by_score_desc moves in
  Ok (if nonempty moves then slice_to moves max_moves else [_create_center_move],
      board).

Definition _count_line_length (board : Board) (x y dx dy color : Z) : result Z :=
  do count <- count_line line_fuel board color (x + dx) (y + dy) dx dy 1 ;
  count_line line_fuel board color (x - dx) (y - dy) (- dx) (- dy) count.

Definition _quick_eval_position (board : Board) (x y color : Z)
  : result (Z * Board) :=
  do board <- board_set board x y color ;
  do max_length <-
    foldM (fun max_length d =>
             do length <- _count_line_length board x y (fst d) (snd d) color ;
             Ok (Z.max max_length length))
          [(1, 0); (0, 1); (1, 1); (1, -1)] 0 ;
  let score :=
    if max_length >=? 5 then 50000
    else if max_length =? 4 then 5000
    else if max_length =? 3 then 500
    else if max_length =? 2 then 50
    else 0 in
  do board <- board_set board x y NOSTONE ;
  let center_dist := Z.abs (x - 10) + Z.abs (y - 10) in
  let score := score + (20 - center_dist) * 3 in
  do adjacent <-
    foldM (fun adjacent dx =>
             foldM (fun adjacent dy =>
                      if (dx =? 0) && (dy =? 0) then Ok adjacent
                      else
                        do s <- stone_at board (x + dx) (y + dy) color ;
                        Ok (if s then adjacent + 1 else adjacent))
                   [-1; 0; 1] adjacent)
          [-1; 0; 1] 0 ;
  Ok (score + adjacent * 15, board).

(** State of the candidate scan of [_generate_standard_moves]. *)
Record scan : Type := mk_scan {
  candidate_positions : list ((Z * Z) * Z);
  positions_checked : Z;
  scan_board : Board
}.

Definition max_checks : Z := 400.

(** Innermost body, at the neighbour [(x + dx, y + dy)].  Once
    [positions_checked] has passed [max_checks] every enclosing loop has
    been left, which the guard at the head of each body expresses. *)
Definition scan_neighbour (color x y dx : Z) (st : scan) (dy : Z) : result scan :=
  if positions_checked st >? max_checks then Ok st
  else
    let checked := positions_checked st + 1 in
    if checked >? max_checks
    then Ok (mk_scan (candidate_positions st) checked (scan_board st))
    else
      let nx := x + dx in
      let ny := y + dy in
      do e <- stone_at (scan_board st) nx ny NOSTONE ;
      if e then
        do '(score, board) <- _quick_eval_position (scan_board st) nx ny color ;
        Ok (mk_scan (candidate_positions st ++ [((nx, ny), score)]) checked board)
      else Ok (mk_scan (candidate_positions st) checked (scan_board st)).

Definition scan_cell (color x : Z) (st : scan) (y : Z) : result scan :=
  if positions_checked st >? max_checks then Ok st
  else
    do c <- board_get (scan_board st) x y ;
    if negb (c =? NOSTONE) then
      foldM (fun st dx =>
               if positions_checked st >? max_checks then Ok st
               else foldM (scan_neighbour color x y dx) [-2; -1; 0; 1; 2] st)
            [-2; -1; 0; 1; 2] st
    else Ok st.

(** The centre cells used when the scan found nothing. *)
Definition center_cell (board : Board) (x : Z) (cands : list ((Z * Z) * Z)) (y : Z)
  : result (list ((Z * Z) * Z)) :=
  do c <- board_get board x y ;
  if c =? NOSTONE
  then Ok (cands ++ [((x, y), 100 - (Z.abs (x - 10) + Z.abs (y - 10)))])
  else Ok cands.

(** Body of the pairing loops.  The state is the moves so far and whether
    the loop was left because [max_moves] was reached; the outer loop
    repeats the test after each inner loop. *)
Definition pair_moves (self : t) (top_positions : list (Z * Z))
           (unique_candidates : list ((Z * Z) * Z)) (max_moves : Z) (i : Z)
           (st : list StoneMove.t * bool) (j : Z)
  : result (list StoneMove.t * bool) :=
  let '(moves, stopped) := st in
  if stopped then Ok st
  else
    do pi <- getitem top_positions i ;
    do pj <- getitem top_positions j ;
    do score1 <- match PyDict.get unique_candidates pi with
                 | Some v => Ok v | None => Raise KeyError end ;
    do score2 <- match PyDict.get unique_candidates pj with
                 | Some v => Ok v | None => Raise KeyError end ;
    let dist := Z.abs (fst pi - fst pj) + Z.abs (snd pi - snd pj) in
    let proximity_bonus := Z.max 0 (20 - dist * 2) in
    let score := score1 + score2 + proximity_bonus in
    let score :=
      match move_history self !! (pi, pj) with
      | Some h => score + h
      | None => score
      end in
    let moves := moves ++ [StoneMove.of_pairs pi pj (inject_Z score)] in
    Ok (moves, Z.of_nat (length moves) >=? max_moves).

Definition _generate_standard_moves (self : t) (board : Board)
           (color depth max_moves : Z) : result (list StoneMove.t * Board) :=
  do st <-
    foldM (fun st x =>
             if positions_checked st >? max_checks then Ok st
             else foldM (scan_cell color x) (range 1 20) st)
          (range 1 20) (mk_scan [] 0 board) ;
  let board := scan_board st in
  do candidate_positions <-
    (if nonempty (candidate_positions st) then Ok (candidate_positions st)
     else foldM (fun cands x => foldM (center_cell board x) (range 7 14) cands)
                (range 7 14) (candidate_positions st)) ;
  let unique_candidates :=
    foldl (fun unique ps =>
             match PyDict.get unique (fst ps) with
             | Some old => if old <? snd ps then PyDict.set unique (fst ps) (snd ps)
                           else unique
             | None => PyDict.set unique (fst ps) (snd ps)
             end)
          [] candidate_positions in
  let sorted_candidates :=
    sort_by (fun a b => snd b <=? snd a) unique_candidates in
  let top_positions :=
    map fst (slice_to sorted_candidates
               (Z.min 30 (Z.of_nat (length sorted_candidates)))) in
  let n := Z.of_nat (length top_positions) in
  do '(moves, _) <-
    foldM (fun (st : list StoneMove.t * bool) i =>
             if snd st then Ok st
             else
               do st' <-
                 foldM (pair_moves self top_positions unique_candidates max_moves i)
                       (range (i + 1) (Z.min 20 n)) st ;
               Ok (fst st', Z.of_nat (length (fst st')) >=? max_moves))
          (range 0 (Z.min 15 n)) ([], false) ;
  let moves := sort_by by_score_desc moves in
  Ok (if nonempty moves then slice_to moves max_moves else [_create_center_move],
      board).

(** State of the pairing loops of [_generate_critical_moves]. *)
Definition attack_pair (move1 : Evaluator.critical_move)
           (st : list StoneMove.t * gset (Z * Z)) (move2 : Evaluator.critical_move)
  : list StoneMove.t * gset (Z * Z) :=
  let '(moves, seen) := st in
  let pos1 := Evaluator.position move1 in
  let pos2 := Evaluator.position move2 in
  if negb (pos_eqb pos2 pos1) && negb (bool_decide (pos2 ∈ seen)) then
    let score :=
      Evaluator.score move1 + Evaluator.score move2
      + (Evaluator.threat_level move1 + Evaluator.threat_level move2) * 100000 in
    (moves ++ [StoneMove.of_pairs pos1 pos2 (inject_Z score)],
     seen ∪ {[pos1]} ∪ {[pos2]})
  else st.

Definition block_pair (move1 : Evaluator.critical_move) (seen : gset (Z * Z))
           (moves : list StoneMove.t) (move2 : Evaluator.critical_move)
  : list StoneMove.t :=
  let pos1 := Evaluator.position move1 in
  let pos2 := Evaluator.position move2 in
  if negb (pos_eqb pos2 pos1) && negb (bool_decide (pos2 ∈ seen)) then
    let score :=
      (inject_Z (Evaluator.score move1)
       - inject_Z (Evaluator.score move2) * (8 # 10)
       + inject_Z (Evaluator.threat_level move1 * 100000))%Q in
    moves ++ [StoneMove.of_pairs pos1 pos2 score]
  else moves.

Definition _generate_critical_moves (self : t) (board : Board) (color : Z)
           (threat_info : Evaluator.threat_info) (max_moves : Z)
  : result (list StoneMove.t * Board) :=
  do '(our_critical, board) <- Evaluator.detect_critical_moves board color ;
  do opponent <- (if color =? WHITE then Ok BLACK else Defines_opponent) ;
  do '(opp_critical, board) <- Evaluator.detect_critical_moves board opponent ;
  let '(moves, _) :=
    foldl (fun (st : list StoneMove.t * gset (Z * Z)) move1 =>
             if bool_decide (Evaluator.position move1 ∈ snd st) then st
             else
               let '(moves, seen) :=
                 foldl (attack_pair move1) st (take 15 our_critical) in
               (foldl (block_pair move1 seen) moves (take 10 opp_critical), seen))
          ([], ∅) (take 20 our_critical) in
  let moves := sort_by by_score_desc moves in
  if nonempty moves then Ok (slice_to moves max_moves, board)
  else _generate_standard_moves self board color 0 max_moves.

Definition generate_moves (self : t) (board : Board) (color depth max_moves : Z)
           (pv_move : option StoneMove.t) : result (list StoneMove.t * Board) :=
  let opponent := if color =? WHITE then BLACK else WHITE in
  match pv_move with
  | Some pv => Ok ([pv], board)
  | None =>
      do our_wins <- Evaluator.detect_immediate_win board color ;
      if nonempty our_wins then _create_winning_moves our_wins board color
      else
        do opp_wins <- Evaluator.detect_immediate_win board opponent ;
        if nonempty opp_wins then
          if 2 <=? Z.of_nat (length opp_wins) then
            do moves <- _create_desperate_defense opp_wins board color ;
            Ok (moves, board)
          else
            do threat_pos <- getitem opp_wins 0 ;
            _create_defensive_counterattack threat_pos board color max_moves
        else
          do threat_info <- Evaluator.get_threat_analysis board color ;
          if Evaluator.critical_situation threat_info
          then _generate_critical_moves self board color threat_info max_moves
          else _generate_standard_moves self board color depth max_moves
  end.

Definition update_history (self : t) (move : StoneMove.t) (depth : Z)
           (caused_cutoff : bool) : t :=
  if caused_cutoff then
    let p0 := StoneMove.pos0 move in
    let p1 := StoneMove.pos1 move in
    let move_key := ((StonePosition.x p0, StonePosition.y p0),
                     (StonePosition.x p1, StonePosition.y p1)) in
    let old := default 0 (move_history self !! move_key) in
    {| move_history := <[move_key := old + depth * depth]> (move_history self) |}
  else self.

End MoveGenerator.
End MoveGenerator.

(* ===================================================================== *)
(** * search_engine.py (the parts the properties are about) *)
(* ===================================================================== *)

Module SearchEngine.
Section SearchEngine.
Context `{Defines} `{Python}.

Record t : Type := mk {
  m_board : Board;
  m_chess_type : Z;
  move_generator : MoveGenerator.t;
  transposition_table : TranspositionTable.t
}.

(** [hash(tuple(tuple(row) for row in self.m_board))] *)
Definition _hash_board (self : t) : Z := hash_rows (m_board self).

(** [_find_second_stone]: the first empty cell around [pos1] in the scan
    order of the two loops, [(10, 10)] when there is none. *)
Definition _find_second_stone (pos1 : Z * Z) (board : Board) : result (Z * Z) :=
  do found <-
    foldM (fun found dx =>
             foldM (fun (found : option (Z * Z)) dy =>
                      match found with
                      | Some _ => Ok found
                      | None =>
                          let x2 := fst pos1 + dx in
                          let y2 := snd pos1 + dy in
                          do e <- stone_at board x2 y2 NOSTONE ;
                          if e && negb (bool_decide ((x2, y2) = pos1))
                          then Ok (Some (x2, y2))
                          else Ok None
                      end)
                   [-1; 0; 1] found)
          [-1; 0; 1] None ;
  Ok (default (10, 10) found).

(** The tactical shortcut at the head of [iterative_deepening_search]
    (before the opening book): [Some (best_move, score)] when the function
    returns there, [None] when it goes on to the book and the search. *)
Definition tactical_shortcut (self : t) (our_color : Z) (best_move : StoneMove.t)
  : result (option (StoneMove.t * Z)) :=
  do immediate_wins <- Evaluator.detect_immediate_win (m_board self) our_color ;
  match immediate_wins with
  | w :: _ =>
      do second <- _find_second_stone w (m_board self) ;
      Ok (Some (StoneMove.of_pairs w second (StoneMove.score best_move),
                MAXINT - 1))
  | [] =>
      let opponent := if our_color =? WHITE then BLACK else WHITE in
      do opponent_wins <- Evaluator.detect_immediate_win (m_board self) opponent ;
      match opponent_wins with
      | w0 :: w1 :: _ =>
          Ok (Some (StoneMove.of_pairs w0 w1 (StoneMove.score best_move),
                    MININT + 1))
      | _ => Ok None
      end
  end.

(** The game-end check at the head of [_alpha_beta]: [Some s] when the
    function returns [s] there, [None] when it goes on to the table probe.
    [depth] is the remaining depth the node was called with. *)
Definition game_end_check (self : t) (depth color : Z) (pre_move : StoneMove.t)
  : result (option Z) :=
  do won <- Tools.is_win_by_premove (m_board self) pre_move ;
  if won then
    if color =? m_chess_type self
    then Ok (Some (MININT + depth))
    else Ok (Some (MAXINT - depth))
  else Ok None.

(** The table probe of [_alpha_beta]: the key is [self._hash_board()],
    whatever the side to move [color]. *)
Definition probe_node (self : t) (depth alpha beta color : Z)
  : (bool * option Z * option StoneMove.t) * TranspositionTable.t :=
  let board_hash := _hash_board self in
  TranspositionTable.probe (transposition_table self) board_hash depth alpha beta.

(** The table store that ends [_alpha_beta], under the same key. *)
Definition store_node (self : t) (depth best_score flag color : Z)
           (best_local_move : option StoneMove.t) : TranspositionTable.t :=
  let board_hash := _hash_board self in
  TranspositionTable.store (transposition_table self) board_hash depth
    best_score flag best_local_move 0.

(** [_validate_move]: the coordinates are clamped in place. *)
Definition _validate_move (move : StoneMove.t) : StoneMove.t :=
  {| StoneMove.pos0 :=
       StonePosition.mk (clamp_1_19 (StonePosition.x (StoneMove.pos0 move)))
                        (clamp_1_19 (StonePosition.y (StoneMove.pos0 move)));
     StoneMove.pos1 :=
       StonePosition.mk (clamp_1_19 (StonePosition.x (StoneMove.pos1 move)))
                        (clamp_1_19 (StonePosition.y (StoneMove.pos1 move)));
     StoneMove.score := StoneMove.score move |}.

(** [_moves_equal]: [None] is equal to nothing. *)
Definition _moves_equal (move1 move2 : option StoneMove.t) : bool :=
  match move1, move2 with
  | Some m1, Some m2 =>
      (StonePosition.x (StoneMove.pos0 m1) =? StonePosition.x (StoneMove.pos0 m2))
      && (StonePosition.y (StoneMove.pos0 m1) =? StonePosition.y (StoneMove.pos0 m2))
      && (StonePosition.x (StoneMove.pos1 m1) =? StonePosition.x (StoneMove.pos1 m2))
      && (StonePosition.y (StoneMove.pos1 m1) =? StonePosition.y (StoneMove.pos1 m2))
  | _, _ => false
  end.

Definition _copy_move (move : StoneMove.t) : StoneMove.t :=
  {| StoneMove.pos0 :=
       StonePosition.mk (StonePosition.x (StoneMove.pos0 move))
                        (StonePosition.y (StoneMove.pos0 move));
     StoneMove.pos1 :=
       StonePosition.mk (StonePosition.x (StoneMove.pos1 move))
                        (StonePosition.y (StoneMove.pos1 move));
     StoneMove.score := StoneMove.score move |}.

(** [_update_killers] on the table [self.killer_moves], a list of two-slot
    lists indexed by depth. *)
Definition _update_killers (killer_moves : list (list (option StoneMove.t)))
           (move : StoneMove.t) (depth : Z)
  : result (list (list (option StoneMove.t))) :=
  if depth <? Z.of_nat (length killer_moves) then
    do slots <- getitem killer_moves depth ;
    do first <- getitem slots 0 ;
    if negb (_moves_equal (Some move) first) then
      do slots <- setitem slots 1 first ;
      do slots <- setitem slots 0 (Some (_copy_move move)) ;
      setitem killer_moves depth slots
    else Ok killer_moves
  else Ok killer_moves.

End SearchEngine.
End SearchEngine.

(* ===================================================================== *)
(** * game_engine.py (the move checks) *)
(* ===================================================================== *)

Module GameEngine.
Section GameEngine.
Context `{Defines}.

Definition fix_coordinate (v : Z) : Z :=
  if v <? 1 then 1 else if v >? 19 then 19 else v.

Definition validate_and_fix_move (move : StoneMove.t) : StoneMove.t :=
  {| StoneMove.pos0 :=
       StonePosition.mk (fix_coordinate (StonePosition.x (StoneMove.pos0 move)))
                        (fix_coordinate (StonePosition.y (StoneMove.pos0 move)));
     StoneMove.pos1 :=
       StonePosition.mk (fix_coordinate (StonePosition.x (StoneMove.pos1 move)))
                        (fix_coordinate (StonePosition.y (StoneMove.pos1 move)));
     StoneMove.score := StoneMove.score move |}.

(** [find_empty_near] on the engine's board: the first empty cell of the
    five by five window around [(x, y)] in the order of the two loops,
    [(10, 10)] when there is none. *)
Definition find_empty_near (m_board : Board) (x y : Z) : result (Z * Z) :=
  do found <-
    foldM (fun found dx =>
             foldM (fun (found : option (Z * Z)) dy =>
                      match found with
                      | Some _ => Ok found
                      | None =>
                          let nx := x + dx in
                          let ny := y + dy in
                          do e <- stone_at m_board nx ny NOSTONE ;
                          if e then Ok (Some (nx, ny)) else Ok None
                      end)
                   (range (-2) 3) found)
          (range (-2) 3) None ;
  Ok (default (10, 10) found).

(** The test [not (1 <= x <= 19 and 1 <= y <= 19) or board[x][y] != NOSTONE];
    the cell is read only when the coordinates are in range. *)
Definition not_valid_empty (m_board : Board) (p : StonePosition.t) : result bool :=
  if negb (in_1_19 (StonePosition.x p) (StonePosition.y p)) then Ok true
  else
    do c <- board_get m_board (StonePosition.x p) (StonePosition.y p) ;
    Ok (negb (c =? NOSTONE)).

Definition ensure_valid_empty_move (m_board : Board) (move : StoneMove.t)
  : result StoneMove.t :=
  do bad0 <- not_valid_empty m_board (StoneMove.pos0 move) ;
  do p0 <-
    (if bad0 then
       do xy <- find_empty_near m_board 10 10 ;
       Ok (StonePosition.mk (fst xy) (snd xy))
     else Ok (StoneMove.pos0 move)) ;
  do bad1 <- not_valid_empty m_board (StoneMove.pos1 move) ;
  do p1 <-
    (if bad1 then
       do xy <- find_empty_near m_board (StonePosition.x p0) (StonePosition.y p0) ;
       do xy <-
         (if (fst xy =? StonePosition.x p0) && (snd xy =? StonePosition.y p0)
          then find_empty_near m_board (fst xy + 1) (snd xy + 1)
          else Ok xy) ;
       Ok (StonePosition.mk (fst xy) (snd xy))
     else Ok (StoneMove.pos1 move)) ;
  Ok {| StoneMove.pos0 := p0; StoneMove.pos1 := p1;
        StoneMove.score := StoneMove.score move |}.

End GameEngine.
End GameEngine.

(* ===================================================================== *)
(** * opening_book.py (the parts that do not draw random numbers) *)
(* ===================================================================== *)

Module OpeningBook.
Section OpeningBook.
Context `{Defines}.

Definition _is_empty_board (board : Board) : result bool :=
  do found <-
    anyM (fun i =>
            anyM (fun j => do c <- board_get board i j ; Ok (negb (c =? NOSTONE)))
                 (range 1 20))
         (range 1 20) ;
  Ok (negb found).

Definition _extract_stones (board : Board) : result (list (Z * Z * Z)) :=
  foldM (fun stones i =>
           foldM (fun stones j =>
                    do c <- board_get board i j ;
                    if negb (c =? NOSTONE)
                    then
                      do c' <- board_get board i j ;
                      Ok (stones ++ [(i, j, c')])
                    else Ok stones)
                 (range 1 20) stones)
        (range 1 20) [].

(** The two stone lists of [_generate_principle_move]. *)
Definition collect_stones (board : Board) (color opponent : Z)
  : result (list (Z * Z) * list (Z * Z)) :=
  foldM (fun st i =>
           foldM (fun (st : list (Z * Z) * list (Z * Z)) j =>
                    do c <- board_get board i j ;
                    if c =? color then Ok (fst st ++ [(i, j)], snd st)
                    else
                      do c' <- board_get board i j ;
                      if c' =? opponent then Ok (fst st, snd st ++ [(i, j)])
                      else Ok st)
                 (range 1 20) st)
        (range 1 20) ([], []).

(** Candidates around one of our stones. *)
Definition near_own (board : Board) (o : Z * Z) (candidates : list (Z * Z * Z))
  : result (list (Z * Z * Z)) :=
  foldM (fun candidates dx =>
           foldM (fun candidates dy =>
                    if Z.abs dx + Z.abs dy <? 2 then Ok candidates
                    else if Z.abs dx + Z.abs dy >? 5 then Ok candidates
                    else
                      let nx := fst o + dx in
                      let ny := snd o + dy in
                      if in_1_19 nx ny then
                        do c <- board_get board nx ny ;
                        if c =? NOSTONE then
                          let center_dist := Z.abs (nx - 10) + Z.abs (ny - 10) in
                          Ok (candidates ++ [(nx, ny, 50 - center_dist)])
                        else Ok candidates
                      else Ok candidates)
                 (range (-3) 4) candidates)
        (range (-3) 4) candidates.

(** Candidates around one of the opponent's stones. *)
Definition near_opponent (board : Board) (o : Z * Z) (candidates : list (Z * Z * Z))
  : result (list (Z * Z * Z)) :=
  foldM (fun candidates dx =>
           foldM (fun candidates dy =>
                    if (dx =? 0) && (dy =? 0) then Ok candidates
                    else
                      let nx := fst o + dx in
                      let ny := snd o + dy in
                      if in_1_19 nx ny then
                        do c <- board_get board nx ny ;
                        if c =? NOSTONE then Ok (candidates ++ [(nx, ny, 40)])
                        else Ok candidates
                      else Ok candidates)
                 (range (-2) 3) candidates)
        (range (-2) 3) candidates.

(** Candidates near the centre, used when there are no others. *)
Definition near_center (board : Board) (candidates : list (Z * Z * Z))
  : result (list (Z * Z * Z)) :=
  foldM (fun candidates x =>
           foldM (fun candidates y =>
                    do c <- board_get board x y ;
                    if c =? NOSTONE then
                      let center_dist := Z.abs (x - 10) + Z.abs (y - 10) in
                      Ok (candidates ++ [(x, y, 50 - center_dist)])
                    else Ok candidates)
                 (range 8 13) candidates)
        (range 8 13) candidates.

(** The search for a second position around [pos1] when one candidate is
    all there is. *)
Definition second_near (board : Board) (pos1 : Z * Z) : result (option (Z * Z)) :=
  foldM (fun found dx =>
           foldM (fun (found : option (Z * Z)) dy =>
                    match found with
                    | Some _ => Ok found
                    | None =>
                        let x2 := fst pos1 + dx in
                        let y2 := snd pos1 + dy in
                        do e <- stone_at board x2 y2 NOSTONE ;
                        if e && negb (bool_decide ((x2, y2) = pos1))
                        then Ok (Some (x2, y2))
                        else Ok None
                    end)
                 [-2; -1; 0; 1; 2] found)
        [-2; -1; 0; 1; 2] None.

(** [_generate_principle_move]: [Some (pos1, pos2)] for the result
    [(pos1, pos2, True)], [None] for [(None, None, False)]. *)
Definition _generate_principle_move (board : Board) (color : Z)
  : result (option ((Z * Z) * (Z * Z))) :=
  let opponent := if color =? WHITE then BLACK else WHITE in
  do '(our_stones, opp_stones) <- collect_stones board color opponent ;
  do candidates <- foldM (fun cands o => near_own board o cands) our_stones [] ;
  do candidates <- foldM (fun cands o => near_opponent board o cands) opp_stones candidates ;
  do candidates <-
    (if nonempty candidates then Ok candidates else near_center board candidates) ;
  let unique_candidates :=
    foldl (fun unique c =>
             let key := fst c in
             match PyDict.get unique key with
             | Some old => if old <? snd c then PyDict.set unique key (snd c)
                           else unique
             | None => PyDict.set unique key (snd c)
             end)
          [] candidates in
  let sorted_candidates :=
    sort_by (fun a b => snd b <=? snd a) unique_candidates in
  match sorted_candidates with
  | c0 :: c1 :: _ => Ok (Some (fst c0, fst c1))
  | [c0] =>
      let pos1 := fst c0 in
      do second <- second_near board pos1 ;
      match second with
      | Some p => Ok (Some (pos1, p))
      | None => Ok None
      end
  | [] => Ok None
  end.

End OpeningBook.
End OpeningBook.

(* ===================================================================== *)
(** * Concrete instances used to run the model *)
(* ===================================================================== *)

(** An instance of the constants, to run the model on: the colours are 1 and
    2, which [color ^ 3] swaps; the empty cell is 0 and the border 3; the
    score bounds are 20000 and its opposite. *)
Definition connect6_defines : Defines :=
  {| GRID_NUM := 21; NOSTONE := 0; BLACK := 1; WHITE := 2; BORDER := 3;
     MAXINT := 20000; MININT := -20000 |}.

(** An interpreter whose sets iterate in the order of [elements], whose board
    hash is the sum of the cells and whose generator counts upwards. *)
Definition simple_python : Python :=
  {| hash_rows := fun rows => foldr Z.add 0 (concat rows);
     set_to_list := elements;
     getrandbits64 := fun seed k => seed + Z.of_nat k |}.

(** A 21 by 21 grid of zeros, [[[0] * 21 for _ in range(21)]]. *)
Definition zero_board : Board := replicate 21 (replicate 21 0).

(** [zero_board] after [init_board]. *)
Definition empty_board : Board :=
  match @Tools.init_board connect6_defines zero_board with
  | Ok b => b
  | Raise _ => []
  end.

(** [board[x][y] = v] for each listed stone, on top of [board]. *)
Definition place_all (board : Board) (stones : list (Z * Z * Z)) : Board :=
  foldl (fun b s =>
           match board_set b (fst (fst s)) (snd (fst s)) (snd s) with
           | Ok b' => b'
           | Raise _ => b
           end)
        board stones.

(** Six black stones in row 10, columns 5 to 10, on the initialised board. *)
Definition six_in_row_board : Board :=
  place_all empty_board
    [(10, 5, 1); (10, 6, 1); (10, 7, 1); (10, 8, 1); (10, 9, 1); (10, 10, 1)].

(** Five black stones in row 10, columns 10 to 14, both ends open. *)
Definition five_in_row_board : Board :=
  place_all empty_board
    [(10, 10, 1); (10, 11, 1); (10, 12, 1); (10, 13, 1); (10, 14, 1)].

(** Four black stones in row 10 from the edge, columns 1 to 4: a straight
    four, closed by the border on one side and open at (10, 5). *)
Definition straight_four_board : Board :=
  place_all empty_board [(10, 1, 1); (10, 2, 1); (10, 3, 1); (10, 4, 1)].

(** A black stone at the centre and a white one next to it. *)
Definition two_stones_board : Board :=
  place_all empty_board [(10, 10, 1); (11, 11, 2)].

(** The move that put down the stones at (10, 9) and (10, 10). *)
Definition last_black_move : StoneMove.t := StoneMove.of_pairs (10, 9) (10, 10) 0.

(** A move on the empty cells (9, 9) and (9, 10). *)
Definition quiet_move : StoneMove.t := StoneMove.of_pairs (9, 9) (9, 10) 0.

(** White is the engine and to move; black's last move put down the stones
    at (10, 9) and (10, 10). *)
Definition lost_node : SearchEngine.t :=
  {| SearchEngine.m_board := six_in_row_board;
     SearchEngine.m_chess_type := 2;
     SearchEngine.move_generator := MoveGenerator.mk ∅;
     SearchEngine.transposition_table :=
       @TranspositionTable.__init__ connect6_defines simple_python 500000 |}.

(** The engine at the start of a game, on the initialised board. *)
Definition opening_node : SearchEngine.t :=
  {| SearchEngine.m_board := empty_board;
     SearchEngine.m_chess_type := 1;
     SearchEngine.move_generator := MoveGenerator.mk ∅;
     SearchEngine.transposition_table :=
       @TranspositionTable.__init__ connect6_defines simple_python 500000 |}.

(** The hasher built from the simple generator. *)
Definition simple_hasher : ZobristHash.t :=
  @ZobristHash.__init__ connect6_defines simple_python 42.

(** A table of capacity 1000 after one store at depth 5 under the key 77. *)
Definition tested_table : TranspositionTable.t :=
  TranspositionTable.store
    (@TranspositionTable.__init__ connect6_defines simple_python 1000)
    77 5 1000 TranspositionTable.EXACT None 0.

(** A table of capacity 4 filled, within one generation, with five entries of
    depths 1 to 5 under the keys 101 to 105. *)
Definition cleanup_scenario : TranspositionTable.t :=
  foldl (fun tt i =>
           TranspositionTable.store tt (100 + i) i 0 TranspositionTable.EXACT None 0)
        (@TranspositionTable.__init__ connect6_defines simple_python 4)
        [1; 2; 3; 4; 5].



(** A table of capacity 6: one entry stored in generation 0 under the key 1,
    three calls of [soft_clear], then four entries stored in generation 3
    under the keys 2 to 5. *)
Definition aged_table : TranspositionTable.t :=
  let tt0 := TranspositionTable.store
               (@TranspositionTable.__init__ connect6_defines simple_python 6)
               1 1 10 TranspositionTable.EXACT None 0 in
  let next tt := match TranspositionTable.soft_clear tt with
                 | Ok tt' => tt'
                 | Raise _ => tt
                 end in
  foldl (fun tt k => TranspositionTable.store tt k 1 10 TranspositionTable.EXACT None 0)
        (next (next (next tt0))) [2; 3; 4; 5].

(** A table of capacity 1000 with five entries of depths 1 to 5 under the
    keys 101 to 105. *)
Definition five_entries_table : TranspositionTable.t :=
  foldl (fun tt i =>
           TranspositionTable.store tt (100 + i) i 0 TranspositionTable.EXACT None 0)
        (@TranspositionTable.__init__ connect6_defines simple_python 1000)
        [1; 2; 3; 4; 5].

(** Five black stones in row 1, columns 1 to 5, closed by the border on one
    side; the winning cell (1, 6) has white stones on all its playable
    neighbours that are not black, and the centre cell holds a white
    stone. *)
Definition blocked_win_board : Board :=
  place_all empty_board
    [(1, 1, 1); (1, 2, 1); (1, 3, 1); (1, 4, 1); (1, 5, 1);
     (1, 7, 2); (2, 5, 2); (2, 6, 2); (2, 7, 2); (10, 10, 2)].

(** The engine with black to move on [blocked_win_board]. *)
Definition blocked_win_node : SearchEngine.t :=
  {| SearchEngine.m_board := blocked_win_board;
     SearchEngine.m_chess_type := 1;
     SearchEngine.move_generator := MoveGenerator.mk ∅;
     SearchEngine.transposition_table :=
       @TranspositionTable.__init__ connect6_defines simple_python 500000 |}.

(** Two black stones side by side at the centre. *)
Definition two_in_row_board : Board :=
  place_all empty_board [(10, 10, 1); (10, 11, 1)].

(* ===================================================================== *)
(** * Vocabulary of the properties *)
(* ===================================================================== *)

Section Vocabulary.
Context `{Defines} `{Python}.

(** The cell of a board at natural-number indices. *)
Definition cells (board : Board) (i j : nat) : option Z :=
  match board !! i with
  | Some row => row !! j
  | None => None
  end.

(** The classification table as the specification words it: by run length
    and by the number of open ends. *)
Definition spec_threat_table (L : Z) (before_open after_open : bool)
  : option string * Z :=
  let open_ends := ((if before_open then 1 else 0) + (if after_open then 1 else 0))%nat in
  if 6 <=? L then (Some "SIX_IN_ROW"%string, 5)
  else match L, open_ends with
       | 5, _ => (Some "FIVE_IN_ROW"%string, 5)
       | 4, 2%nat => (Some "OPEN_FOUR"%string, 5)
       | 4, 1%nat => (Some "STRAIGHT_FOUR"%string, 4)
       | 3, 2%nat => (Some "OPEN_THREE"%string, 3)
       | 3, 1%nat => (Some "STRAIGHT_THREE"%string, 2)
       | 2, 2%nat => (Some "OPEN_TWO"%string, 2)
       | 2, 1%nat => (Some "LOOSE_TWO"%string, 1)
       | _, _ => (None, 0)
       end.

(** The order in which the specification lists the patterns, strongest
    first. *)
Definition threat_order : list string :=
  ["SIX_IN_ROW"; "FIVE_IN_ROW"; "OPEN_FOUR"; "STRAIGHT_FOUR";
   "OPEN_THREE"; "STRAIGHT_THREE"; "OPEN_TWO"; "LOOSE_TWO"]%string.

(** The position of the first occurrence of [s] in [l], the length of [l]
    when there is none. *)
Fixpoint index_of (s : string) (l : list string) : nat :=
  match l with
  | [] => O
  | s' :: l' => if String.eqb s s' then O else S (index_of s l')
  end.

(** The place of a pattern in [threat_order]. *)
Definition threat_rank (s : string) : nat := index_of s threat_order.

(** The representation invariant of a dict: no key occurs twice. *)
Definition dict_wf {K V : Type} (d : list (K * V)) : Prop := NoDup (map fst d).

(** The entry a call of [store] writes. *)
Definition new_entry (self : TranspositionTable.t) (depth score flag : Z)
           (best_move : option StoneMove.t) (threat_level : Z)
  : TranspositionTable.entry :=
  TranspositionTable.mk_entry depth score flag best_move
    (TranspositionTable.current_age self) threat_level.

(** A bound kind and window under which [probe] may use a stored score. *)
Definition window_matches (flag score alpha beta : Z) : Prop :=
  flag = TranspositionTable.EXACT
  \/ (flag = TranspositionTable.LOWER_BOUND /\ beta <= score)
  \/ (flag = TranspositionTable.UPPER_BOUND /\ score <= alpha).


(** A grid that has all its playable cells. *)
Definition playable_grid (board : Board) : Prop :=
  forall x y, 1 <= x <= 19 -> 1 <= y <= 19 -> is_Some (cell_at board x y).

(** The stone of the cell [(x, y)], as the key of its table value: a list of
    no or one element. *)
Definition cell_stone (board : Board) (x y : Z) : list (Z * Z * Z) :=
  match cell_at board x y with
  | Some c => if (c =? BLACK) || (c =? WHITE) then [(x, y, c)] else []
  | None => []
  end.

(** The occupied playable cells of a board with their colours. *)
Definition stones (board : Board) : list (Z * Z * Z) :=
  flat_map (fun x => flat_map (cell_stone board x) (range 1 20)) (range 1 20).

(** The hash built incrementally: start from 0, XOR in every placed stone
    with [update_hash] in the order of the list, and the side marker when
    white is to move. *)
Definition incremental_hash (zh : ZobristHash.t) (placed : list (Z * Z * Z))
           (color : Z) : result Z :=
  do h <- foldM (fun h k => ZobristHash.update_hash zh h (fst (fst k)) (snd (fst k))
                              (snd k) true)
                placed 0 ;
  Ok (if color =? WHITE then ZobristHash.toggle_side zh h else h).

(** The table value of a key, 0 for a key the table lacks. *)
Definition table_value (zh : ZobristHash.t) (k : Z * Z * Z) : Z :=
  default 0 (ZobristHash.hash_table zh !! k).

(** The XOR of the table values of a list of keys. *)
Definition xor_values (zh : ZobristHash.t) (l : list (Z * Z * Z)) : Z :=
  foldr (fun k acc => Z.lxor (table_value zh k) acc) 0 l.

(** The keys of the playable cells and the two colours. *)
Definition stone_key (k : Z * Z * Z) : Prop :=
  1 <= fst (fst k) <= 19 /\ 1 <= snd (fst k) <= 19
  /\ (snd k = BLACK \/ snd k = WHITE).

(** A table that holds a value for every such key. *)
Definition complete_table (zh : ZobristHash.t) : Prop :=
  forall k, stone_key k -> is_Some (ZobristHash.hash_table zh !! k).

(** The shape of a board: 21 rows of 21 cells. *)
Definition is_grid21 (board : Board) : bool :=
  (length board =? 21)%nat && forallb (fun row => (length row =? 21)%nat) board.

(** A coordinate pair that lies in [1,19] x [1,19] and names an empty cell
    of the board. *)
Definition empty_playable (board : Board) (p : Z * Z) : Prop :=
  in_1_19 (fst p) (snd p) = true /\ board_get board (fst p) (snd p) = Ok NOSTONE.

(** The invariant of the scan of [analyze_position]. *)
Definition moves_ok (board : Board) (acc : PatternRecognizer.analysis) : Prop :=
  forall p,
    In p (PatternRecognizer.winning_moves acc ++ PatternRecognizer.defensive_moves acc) ->
    empty_playable board p.

(** A step of a scan along a line, in either sense. *)
Definition unit_step (sx sy : Z) : Prop :=
  (sx = 1 \/ sx = 0 \/ sx = -1) /\ (sy = 1 \/ sy = 0 \/ sy = -1)
  /\ (sx <> 0 \/ sy <> 0).

(** How many more cells a scan can visit from [(tx, ty)] before it leaves
    the playable area. *)
Definition steps_left (tx ty sx sy : Z) : Z :=
  if sx =? 1 then 20 - tx
  else if sx =? -1 then tx
  else if sy =? 1 then 20 - ty
  else ty.

(** How many more cells an unguarded scan can read from [(tx, ty)] on a grid
    of side 21 before an index leaves [-21, 20], the indices Python accepts. *)
Definition reads_left (tx ty sx sy : Z) : Z :=
  if sx =? 1 then 21 - tx
  else if sx =? -1 then tx + 22
  else if sy =? 1 then 21 - ty
  else ty + 22.

(** The coordinate pair of a stone of a move. *)
Definition pair_of (p : StonePosition.t) : Z * Z :=
  (StonePosition.x p, StonePosition.y p).

(** The four border lines of a grid hold the border value. *)
Definition border_line (board : Board) (i : Z) : bool :=
  bool_decide (cell_at board 0 i = Some BORDER)
  && bool_decide (cell_at board 20 i = Some BORDER)
  && bool_decide (cell_at board i 0 = Some BORDER)
  && bool_decide (cell_at board i 20 = Some BORDER).

(** A well-formed board: a grid of side 21 with the border on rows and
    columns 0 and 20. *)
Definition well_formed (board : Board) : bool :=
  is_grid21 board && forallb (border_line board) (range 0 21).

(** A run of six cells of colour [s] along the line of direction [(dx, dy)]
    that passes through [(x, y)], the [i]-th of the six. *)
Definition six_through (board : Board) (s x y dx dy : Z) : Prop :=
  exists i, 0 <= i <= 5
    /\ forall k, 0 <= k <= 5 ->
         cell_at board (x + (k - i) * dx) (y + (k - i) * dy) = Some s.


End Vocabulary.

(* ===================================================================== *)
(** * Vocabulary of the further properties *)
(* ===================================================================== *)

Section FurtherVocabulary.
Context `{Defines} `{Python}.

(** The border cells of index [i]. *)
Definition border_cells (board : Board) (i : Z) : Prop :=
  cell_at board 0 i = Some BORDER /\ cell_at board 20 i = Some BORDER
  /\ cell_at board i 0 = Some BORDER /\ cell_at board i 20 = Some BORDER.

(** The state the second loop of [init_board] keeps: a grid whose border
    cells hold the border and whose cells listed so far are empty. *)
Definition fill_inv (done : Z -> Z -> Prop) (b : Board) : Prop :=
  is_grid21 b = true
  /\ (forall i, 0 <= i <= 20 -> border_cells b i)
  /\ forall x y, done x y -> cell_at b x y = Some NOSTONE.

(** The cells a move writes: its coordinates that lie in [1,19] x [1,19]. *)
Definition move_cell (move : StoneMove.t) (x y : Z) : Prop :=
  in_1_19 x y = true
  /\ (pair_of (StoneMove.pos0 move) = (x, y) \/ pair_of (StoneMove.pos1 move) = (x, y)).

(** A move with both coordinates clamped into [1,19] and the score 0. *)
Definition clamped_move (move : StoneMove.t) : StoneMove.t :=
  StoneMove.of_pairs
    (clamp_1_19 (StonePosition.x (StoneMove.pos0 move)),
     clamp_1_19 (StonePosition.y (StoneMove.pos0 move)))
    (clamp_1_19 (StonePosition.x (StoneMove.pos1 move)),
     clamp_1_19 (StonePosition.y (StoneMove.pos1 move)))
    0.

(** A letter from A to S. *)
Definition board_letter (c : Z) : Prop := 65 <= c <= 83.

(** An interpreter whose [upper] handles ASCII letters only. *)
Definition ascii_python_upper : PyUpper := {| upper := map ascii_upper |}.

(** A value that is none of the two colours. *)
Definition no_stone (v : Z) : Prop := v <> BLACK /\ v <> WHITE.

(** One call of [store], as the tuple of its arguments. *)
Definition store_args : Type := (Z * Z * Z * Z * option StoneMove.t * Z)%type.

(** [store] with its arguments taken from a tuple. *)
Definition store_with (tt : TranspositionTable.t) (a : store_args) : TranspositionTable.t :=
  let '(h, d, s, f, m, tl) := a in TranspositionTable.store tt h d s f m tl.

(** The killer table as the search keeps it: two slots per depth that never
    hold the same move twice. *)
Definition killers_ok (killer_moves : list (list (option StoneMove.t))) : Prop :=
  Forall (fun slots => exists k0 k1,
              slots = [k0; k1] /\ SearchEngine._moves_equal k0 k1 = false)
         killer_moves.

(** The table [__init__] builds, [[[None, None] for _ in range(30)]]. *)
Definition initial_killers : list (list (option StoneMove.t)) :=
  replicate 30 [None; None].

(** A stone that is in range and on an empty cell, or the centre cell. *)
Definition empty_or_center (board : Board) (p : StonePosition.t) : Prop :=
  in_1_19 (StonePosition.x p) (StonePosition.y p) = true
  /\ (board_get board (StonePosition.x p) (StonePosition.y p) = Ok NOSTONE
      \/ pair_of p = (10, 10)).

(** A stone of [color] on a playable cell. *)
Definition stone_on (board : Board) (color : Z) (p : Z * Z) : Prop :=
  in_1_19 (fst p) (snd p) = true /\ board_get board (fst p) (snd p) = Ok color.

(** The cells of a line of [n] cells from [start] in the direction [d]. *)
Definition line_cells (start d : Z * Z) (n : Z) : list (Z * Z) :=
  map (fun i => (fst start + i * fst d, snd start + i * snd d)) (range 0 n).

(** The score the table gives a threat. *)
Definition threat_score (t : ThreatPattern.t) : Z :=
  default 0 (PatternRecognizer.pattern_scores !! ThreatPattern.pattern_type t).

(** A threat record that describes the board: its positions are a line of
    two or more stones of the colour, its type and level are the
    classifier's for that length, its winning positions are empty cells at
    one of the two ends of the line. *)
Definition threat_sound (board : Board) (color : Z) (t : ThreatPattern.t) : Prop :=
  exists n start d bo ao,
    2 <= n /\ In d PatternRecognizer.directions
    /\ ThreatPattern.positions t = line_cells start d n
    /\ (forall p, In p (ThreatPattern.positions t) -> stone_on board color p)
    /\ PatternRecognizer._classify_threat n bo ao
       = (Some (ThreatPattern.pattern_type t), ThreatPattern.threat_level t)
    /\ (forall p, In p (ThreatPattern.win_positions t) ->
          empty_playable board p
          /\ (p = (fst start - fst d, snd start - snd d)
              \/ p = (fst start + n * fst d, snd start + n * snd d))).

(** The relations between the fields of an analysis under construction. *)
Definition summary_ok (acc : PatternRecognizer.analysis) : Prop :=
  0 <= PatternRecognizer.critical_level acc <= 5
  /\ (forall t, In t (PatternRecognizer.threats acc) ->
        1 <= ThreatPattern.threat_level t <= PatternRecognizer.critical_level acc)
  /\ (PatternRecognizer.threats acc = [] -> PatternRecognizer.critical_level acc = 0)
  /\ (PatternRecognizer.threats acc <> [] ->
      exists t, In t (PatternRecognizer.threats acc)
                /\ ThreatPattern.threat_level t = PatternRecognizer.critical_level acc)
  /\ PatternRecognizer.score acc
     = foldr (fun t s => threat_score t + s) 0 (PatternRecognizer.threats acc)
  /\ (forall p, In p (PatternRecognizer.winning_moves acc) <->
        exists t, In t (PatternRecognizer.threats acc)
                  /\ ThreatPattern.threat_level t = 5
                  /\ In p (ThreatPattern.win_positions t))
  /\ (forall p, In p (PatternRecognizer.defensive_moves acc) <->
        exists t, In t (PatternRecognizer.threats acc)
                  /\ ThreatPattern.threat_level t = 4
                  /\ In p (ThreatPattern.win_positions t)).

(** The record [detect_critical_moves] makes for a cell: the cell is an
    empty playable cell, and the level and the score are those of the
    analysis of the board with a stone of the colour on it, the level being
    3 or more. *)
Definition critical_placement (board : Board) (color : Z)
           (m : Evaluator.critical_move) : Prop :=
  empty_playable board (Evaluator.position m)
  /\ exists b' a,
      board_set board (fst (Evaluator.position m)) (snd (Evaluator.position m)) color
      = Ok b'
      /\ PatternRecognizer.analyze_position b' color = Ok a
      /\ 3 <= PatternRecognizer.critical_level a
      /\ Evaluator.threat_level m = PatternRecognizer.critical_level a
      /\ Evaluator.score m = PatternRecognizer.score a.

(** The order of the result: by level, then by score, greatest first. *)
Definition critical_order (a b : Evaluator.critical_move) : Prop :=
  Evaluator.threat_level b < Evaluator.threat_level a
  \/ (Evaluator.threat_level b = Evaluator.threat_level a
      /\ Evaluator.score b <= Evaluator.score a).

(** The state of the scan of [detect_critical_moves]: the board is the one
    given, and the list holds the records of the cells done, once each. *)
Definition critical_inv (board : Board) (color : Z) (done : Z * Z -> Prop)
           (st : list Evaluator.critical_move * Board) : Prop :=
  snd st = board
  /\ NoDup (map Evaluator.position (fst st))
  /\ forall m, In m (fst st) <->
               done (Evaluator.position m) /\ critical_placement board color m.

(** Six stones of the colour in a row on playable cells, from [(x, y)] in
    the direction [d]. *)
Definition six_from (board : Board) (color x y : Z) (d : Z * Z) : Prop :=
  forall k, 0 <= k <= 5 -> stone_on board color (x + k * fst d, y + k * snd d).

(** Six stones of the colour in a row somewhere on the board, in one of the
    four directions. *)
Definition six_in_line (board : Board) (color : Z) : Prop :=
  exists x y d, In d [(1, 0); (0, 1); (1, 1); (1, -1)] /\ six_from board color x y d.

(** The removal of duplicates that keeps the best score of each position:
    the loop shared by the opening book and the move generator. *)
Definition keep_best (unique : list ((Z * Z) * Z)) (c : (Z * Z) * Z)
  : list ((Z * Z) * Z) :=
  match PyDict.get unique (fst c) with
  | Some old => if old <? snd c then PyDict.set unique (fst c) (snd c) else unique
  | None => PyDict.set unique (fst c) (snd c)
  end.

(** The candidates collected so far are empty playable cells. *)
Definition candidates_ok (board : Board) (cands : list ((Z * Z) * Z)) : Prop :=
  forall c, In c cands -> empty_playable board (fst c).

(** A playable cell that is not empty, with what it holds. *)
Definition occupied (board : Board) (s : Z * Z * Z) : Prop :=
  in_1_19 (fst (fst s)) (snd (fst s)) = true
  /\ board_get board (fst (fst s)) (snd (fst s)) = Ok (snd s)
  /\ snd s <> NOSTONE.

(** The state of the candidate scan: the board is the one given and the
    candidates are empty playable cells of it. *)
Definition scan_ok (board : Board) (st : MoveGenerator.scan) : Prop :=
  MoveGenerator.scan_board st = board
  /\ candidates_ok board (MoveGenerator.candidate_positions st).

(** The order of the moves returned: by score, best first. *)
Definition score_order (a b : StoneMove.t) : Prop :=
  (StoneMove.score b <= StoneMove.score a)%Q.

(** A move on two different empty playable cells of the board. *)
Definition legal_move (board : Board) (m : StoneMove.t) : Prop :=
  empty_playable board (pair_of (StoneMove.pos0 m))
  /\ empty_playable board (pair_of (StoneMove.pos1 m))
  /\ StoneMove.pos0 m <> StoneMove.pos1 m.

(** The moves the pairing loops have built: each on two different positions
    of the list. *)
Definition pairs_of (top : list (Z * Z)) (moves : list StoneMove.t) : Prop :=
  forall m, In m moves ->
    exists p q, In p top /\ In q top /\ p <> q
                /\ pair_of (StoneMove.pos0 m) = p /\ pair_of (StoneMove.pos1 m) = q.

(** What a tier of the move generation returns: a list that is not empty,
    and that is the fallback move on the centre cells alone or holds moves
    on two different empty playable cells only. *)
Definition tier_result (board : Board) (moves : list StoneMove.t) : Prop :=
  moves <> []
  /\ (moves = [MoveGenerator._create_center_move]
      \/ forall m, In m moves -> legal_move board m).

End FurtherVocabulary.

(* ===================================================================== *)
(** * Basic facts about the run-time model *)
(* ===================================================================== *)

Lemma bind_Ok {A B : Type} (c : result A) (k : A -> result B) (b : B) :
  bind c k = Ok b <-> exists a, c = Ok a /\ k a = Ok b.
Proof.
  destruct c as [a|e]; simpl; split.
  - intros Hk. exists a. split; [reflexivity | exact Hk].
  - intros (a' & Ha & Hk). injection Ha as ->. exact Hk.
  - discriminate.
  - intros (a' & Ha & _). discriminate.
Qed.

(** Split a hypothesis [bind c k = Ok b] into its two steps. *)
Ltac bind_inv H :=
  let a := fresh "a" in
  let Ha := fresh "Hstep" in
  apply bind_Ok in H; destruct H as (a & Ha & H).

Lemma elem_of_range (lo hi i : Z) : In i (range lo hi) <-> lo <= i < hi.
Proof.
  unfold range. rewrite in_map_iff. split.
  - intros (k & <- & Hk). apply in_seq in Hk. lia.
  - intros Hi. exists (Z.to_nat (i - lo)). split; [lia |].
    apply in_seq. lia.
Qed.

Lemma length_range (lo hi : Z) : length (range lo hi) = Z.to_nat (hi - lo).
Proof. unfold range. rewrite length_map, length_seq. reflexivity. Qed.

Lemma NoDup_range (lo hi : Z) : List.NoDup (range lo hi).
Proof.
  unfold range. apply Finite.Injective_map_NoDup; [| apply seq_NoDup].
  intros a b Hab. lia.
Qed.

Global Opaque range.

Lemma py_index_nonneg {A : Type} (l : list A) (i : Z) :
  0 <= i ->
  py_index l i = if i <? Z.of_nat (length l) then Some (Z.to_nat i) else None.
Proof.
  intros Hi. unfold py_index.
  destruct (Z.ltb_spec i 0); [lia |].
  destruct (Z.leb_spec 0 i); [| lia]. reflexivity.
Qed.

Lemma getitem_nonneg {A : Type} (l : list A) (i : Z) (a : A) :
  0 <= i -> (getitem l i = Ok a <-> l !! Z.to_nat i = Some a).
Proof.
  intros Hi. unfold getitem. rewrite py_index_nonneg by assumption.
  destruct (Z.ltb_spec i (Z.of_nat (length l))) as [Hlt|Hge].
  - destruct (l !! Z.to_nat i) eqn:E; split; congruence.
  - split; [discriminate |].
    intros Hl. apply lookup_lt_Some in Hl. lia.
Qed.

Lemma setitem_nonneg {A : Type} (l : list A) (i : Z) (a0 a : A) :
  0 <= i -> l !! Z.to_nat i = Some a0 ->
  setitem l i a = Ok (<[Z.to_nat i := a]> l).
Proof.
  intros Hi Hl. unfold setitem. rewrite py_index_nonneg by assumption.
  apply lookup_lt_Some in Hl.
  destruct (Z.ltb_spec i (Z.of_nat (length l))); [reflexivity | lia].
Qed.

Lemma board_get_nonneg (board : Board) (x y v : Z) :
  0 <= x -> 0 <= y ->
  (board_get board x y = Ok v <->
   exists row, board !! Z.to_nat x = Some row /\ row !! Z.to_nat y = Some v).
Proof.
  intros Hx Hy. unfold board_get. rewrite bind_Ok.
  split; intros (row & Hrow & Hv); exists row.
  - apply getitem_nonneg in Hrow; [| assumption].
    apply getitem_nonneg in Hv; [| assumption]. auto.
  - split; apply getitem_nonneg; assumption.
Qed.

Lemma board_get_cell_at (board : Board) (x y v : Z) :
  0 <= x -> 0 <= y ->
  (board_get board x y = Ok v <-> cell_at board x y = Some v).
Proof.
  intros Hx Hy. rewrite board_get_nonneg by assumption. unfold cell_at.
  destruct (Z.leb_spec 0 x); [| lia]. destruct (Z.leb_spec 0 y); [| lia].
  simpl. destruct (board !! Z.to_nat x) as [row|]; simpl.
  - split; [intros (r & [= ->] & Hv); exact Hv | intros Hv; eauto].
  - split; [intros (r & Hr & _); discriminate | discriminate].
Qed.

Lemma board_set_nonneg (board : Board) (x y v0 v : Z) (row : list Z) :
  0 <= x -> 0 <= y ->
  board !! Z.to_nat x = Some row -> row !! Z.to_nat y = Some v0 ->
  board_set board x y v = Ok (<[Z.to_nat x := <[Z.to_nat y := v]> row]> board).
Proof.
  intros Hx Hy Hrow Hv. unfold board_set.
  apply (getitem_nonneg board x row Hx) in Hrow as Hget. rewrite Hget. simpl.
  rewrite (setitem_nonneg row y v0 v Hy Hv). simpl.
  apply (setitem_nonneg board x row _ Hx Hrow).
Qed.

Lemma in_1_19_spec (x y : Z) :
  in_1_19 x y = true <-> 1 <= x <= 19 /\ 1 <= y <= 19.
Proof. unfold in_1_19. rewrite !andb_true_iff, !Z.leb_le. lia. Qed.

Lemma board_get_cells (board : Board) (x y v : Z) :
  0 <= x -> 0 <= y ->
  (board_get board x y = Ok v <-> cells board (Z.to_nat x) (Z.to_nat y) = Some v).
Proof.
  intros Hx Hy. rewrite board_get_nonneg by assumption. unfold cells.
  destruct (board !! Z.to_nat x) as [row|].
  - split; [intros (r & [= ->] & Hv); exact Hv | intros Hv; eauto].
  - split; [intros (r & Hr & _); discriminate | discriminate].
Qed.

(** Two boards with rows of the same lengths and the same cells are equal. *)
Lemma board_ext (b b' : Board) :
  map length b = map length b' ->
  (forall i j, cells b i j = cells b' i j) ->
  b = b'.
Proof.
  intros Hlen Hcells. apply list_eq. intros i.
  assert (Hi : (map length b) !! i = (map length b') !! i) by (rewrite Hlen; reflexivity).
  rewrite !list_lookup_fmap in Hi.
  specialize (Hcells i). unfold cells in Hcells.
  destruct (b !! i) as [r|] eqn:Er, (b' !! i) as [r'|] eqn:Er';
    rewrite ?Er, ?Er' in Hi; simpl in Hi; try discriminate; [| reflexivity].
  f_equal. apply list_eq. exact Hcells.
Qed.

(** Writing a cell that exists succeeds, keeps the shape and changes that
    cell only. *)
Lemma board_set_spec (board : Board) (x y v : Z) :
  0 <= x -> 0 <= y ->
  is_Some (cells board (Z.to_nat x) (Z.to_nat y)) ->
  exists board',
    board_set board x y v = Ok board'
    /\ map length board' = map length board
    /\ forall i j,
        cells board' i j =
        if decide (i = Z.to_nat x /\ j = Z.to_nat y) then Some v
        else cells board i j.
Proof.
  intros Hx Hy [v0 Hv0]. unfold cells in Hv0.
  destruct (board !! Z.to_nat x) as [row|] eqn:Hrow; [| discriminate].
  exists (<[Z.to_nat x := <[Z.to_nat y := v]> row]> board).
  split; [apply (board_set_nonneg board x y v0 v row); assumption |].
  pose proof (lookup_lt_Some _ _ _ Hrow) as Hxlt.
  pose proof (lookup_lt_Some _ _ _ Hv0) as Hylt.
  split.
  - rewrite list_fmap_insert, length_insert.
    apply list_insert_id. rewrite list_lookup_fmap, Hrow. reflexivity.
  - intros i j. unfold cells.
    destruct (decide (i = Z.to_nat x)) as [->|Hne].
    + rewrite list_lookup_insert_eq by assumption.
      destruct (decide (j = Z.to_nat y)) as [->|Hne'].
      * rewrite list_lookup_insert_eq by assumption.
        rewrite decide_True by auto. reflexivity.
      * rewrite list_lookup_insert_ne by auto.
        rewrite decide_False by tauto. rewrite Hrow. reflexivity.
    + rewrite list_lookup_insert_ne by auto.
      rewrite decide_False by tauto. reflexivity.
Qed.

(* ===================================================================== *)
(** * Placing and removing the stones of a move *)
(* ===================================================================== *)

Section MakeUnmake.
Context `{Defines}.

(** C7.  For every board, colour and move whose two coordinates lie in
    [1,19] x [1,19] and name empty cells of the board, [make_move] followed
    by [unmake_move] on the same move succeeds and gives back exactly the
    board it started from: all rows, border cells included. *)
Theorem make_unmake_restores (board : Board) (move : StoneMove.t) (color : Z) :
  in_1_19 (StonePosition.x (StoneMove.pos0 move))
          (StonePosition.y (StoneMove.pos0 move)) = true ->
  in_1_19 (StonePosition.x (StoneMove.pos1 move))
          (StonePosition.y (StoneMove.pos1 move)) = true ->
  board_get board (StonePosition.x (StoneMove.pos0 move))
            (StonePosition.y (StoneMove.pos0 move)) = Ok NOSTONE ->
  board_get board (StonePosition.x (StoneMove.pos1 move))
            (StonePosition.y (StoneMove.pos1 move)) = Ok NOSTONE ->
  exists board',
    Tools.make_move board move color = Ok board'
    /\ Tools.unmake_move board' move = Ok board.
Proof.
  destruct move as [[x0 y0] [x1 y1] s]. simpl.
  intros Hr0 Hr1 He0 He1.
  unfold Tools.make_move, Tools.unmake_move. simpl. rewrite Hr0, Hr1.
  apply in_1_19_spec in Hr0, Hr1.
  apply board_get_cells in He0, He1; try lia.
  destruct (board_set_spec board x0 y0 color) as (b1 & -> & L1 & C1);
    [lia | lia | eauto |].
  simpl.
  destruct (board_set_spec b1 x1 y1 color) as (b2 & -> & L2 & C2);
    [lia | lia | rewrite C1; case_decide; eauto |].
  exists b2. split; [reflexivity |].
  destruct (board_set_spec b2 x0 y0 NOSTONE) as (b3 & -> & L3 & C3);
    [lia | lia | rewrite C2, C1; repeat case_decide; eauto |].
  simpl.
  destruct (board_set_spec b3 x1 y1 NOSTONE) as (b4 & -> & L4 & C4);
    [lia | lia | rewrite C3, C2, C1; repeat case_decide; eauto |].
  f_equal. apply board_ext; [congruence |].
  intros i j. rewrite C4, C3, C2, C1.
  repeat case_decide; try reflexivity;
    match goal with
    | Hd : _ /\ _ |- _ => destruct Hd as [-> ->]; congruence
    end.
Qed.

End MakeUnmake.

Lemma make_unmake_restores_witness :
  (in_1_19 9 9 = true /\ in_1_19 9 10 = true
   /\ board_get two_stones_board 9 9 = Ok 0
   /\ board_get two_stones_board 9 10 = Ok 0)
  /\ exists board',
      @Tools.make_move two_stones_board quiet_move 2 = Ok board'
      /\ @Tools.unmake_move connect6_defines board' quiet_move = Ok two_stones_board.
Proof.
  split; [repeat split; vm_compute; reflexivity |].
  apply (@make_unmake_restores connect6_defines two_stones_board quiet_move 2);
    vm_compute; reflexivity.
Defined.

(* ===================================================================== *)
(** * Threat classification *)
(* ===================================================================== *)

Section Classification.
Context `{Defines} `{Python}.

(** Every answer of the classifier is one of nine pairs. *)
Lemma classify_threat_cases (L : Z) (bo ao : bool) :
  In (PatternRecognizer._classify_threat L bo ao)
     [(Some "SIX_IN_ROW", 5); (Some "FIVE_IN_ROW", 5); (Some "OPEN_FOUR", 5);
      (Some "STRAIGHT_FOUR", 4); (Some "OPEN_THREE", 3);
      (Some "STRAIGHT_THREE", 2); (Some "OPEN_TWO", 2); (Some "LOOSE_TWO", 1);
      (None, 0)]%string.
Proof.
  unfold PatternRecognizer._classify_threat.
  destruct (L >=? 6); [simpl; tauto |].
  destruct (L =? 5); [simpl; tauto |].
  destruct (L =? 4); [destruct bo, ao; simpl; tauto |].
  destruct (L =? 3); [destruct bo, ao; simpl; tauto |].
  destruct (L =? 2); [destruct bo, ao; simpl; tauto |].
  simpl; tauto.
Qed.

(** C5.  For every run length [L >= 2] and every openness of the two ends
    the classifier returns the pattern and level of the specification's
    table; and whenever two classified runs are compared, the one whose
    pattern comes earlier in the order six-in-row, five, open-four,
    straight-four, open-three, straight-three, open-two, loose-two has a
    level at least as high, strictly higher for open-three against
    straight-three. *)
Theorem classify_threat_table (L : Z) (before_open after_open : bool) :
  2 <= L ->
  PatternRecognizer._classify_threat L before_open after_open
  = spec_threat_table L before_open after_open
  /\ forall (L' : Z) (bo' ao' : bool) (t t' : string) (l l' : Z),
      PatternRecognizer._classify_threat L before_open after_open = (Some t, l) ->
      PatternRecognizer._classify_threat L' bo' ao' = (Some t', l') ->
      (threat_rank t <= threat_rank t')%nat ->
      l' <= l
      /\ (t = "OPEN_THREE"%string -> t' = "STRAIGHT_THREE"%string -> l' < l).
Proof.
  intros HL. split.
  - unfold PatternRecognizer._classify_threat, spec_threat_table.
    destruct (Z.leb_spec 6 L) as [H6|H6].
    + destruct (Z.geb_spec L 6); [reflexivity | lia].
    + destruct (Z.geb_spec L 6); [lia |].
      assert (HLc : L = 5 \/ L = 4 \/ L = 3 \/ L = 2) by lia.
      destruct HLc as [-> | [-> | [-> | ->]]];
        destruct before_open, after_open; reflexivity.
  - intros L' bo' ao' t t' l l' Hc Hc' Hrank.
    pose proof (classify_threat_cases L before_open after_open) as Hin.
    pose proof (classify_threat_cases L' bo' ao') as Hin'.
    rewrite Hc in Hin. rewrite Hc' in Hin'.
    simpl in Hin, Hin'.
    destruct_or!; try contradiction; simplify_eq;
      vm_compute in Hrank;
      (split; [lia | intros; try discriminate; lia]).
Qed.

Lemma classify_threat_table_witness :
  2 <= 3
  /\ PatternRecognizer._classify_threat 3 true true = (Some "OPEN_THREE"%string, 3)
  /\ forall L' bo' ao' t' l',
      PatternRecognizer._classify_threat L' bo' ao' = (Some t', l') ->
      (threat_rank "OPEN_THREE" <= threat_rank t')%nat -> l' <= 3.
Proof.
  split; [lia |].
  destruct (classify_threat_table 3 true true) as [Htab Hmono]; [lia |].
  split; [exact Htab |].
  intros L' bo' ao' t' l' Hc' Hr.
  exact (proj1 (Hmono L' bo' ao' _ t' 3 l' eq_refl Hc' Hr)).
Defined.

End Classification.

(* ===================================================================== *)
(** * Dictionaries in insertion order *)
(* ===================================================================== *)

Section PyDictFacts.
Context {K V : Type} `{EqDecision K}.
Implicit Types (d : list (K * V)) (k : K) (v : V).


Lemma dict_get_set_ne d k k' v :
  k <> k' -> PyDict.get (PyDict.set d k v) k' = PyDict.get d k'.
Proof.
  intros Hne. induction d as [|[k0 v0] d IH]; simpl.
  - rewrite decide_False by assumption. reflexivity.
  - destruct (decide (k0 = k)) as [->|Hne0]; simpl.
    + rewrite !decide_False by assumption. reflexivity.
    + destruct (decide (k0 = k')); [reflexivity | exact IH].
Qed.

Lemma dict_set_keys_present d k v v0 :
  PyDict.get d k = Some v0 -> map fst (PyDict.set d k v) = map fst d.
Proof.
  induction d as [|[k' v'] d IH]; simpl; [discriminate |].
  destruct (decide (k' = k)) as [->|Hne]; simpl; [reflexivity |].
  intros Hg. rewrite IH by assumption. reflexivity.
Qed.

Lemma dict_set_keys_absent d k v :
  PyDict.get d k = None -> map fst (PyDict.set d k v) = map fst d ++ [k].
Proof.
  induction d as [|[k' v'] d IH]; simpl; [reflexivity |].
  destruct (decide (k' = k)) as [->|Hne]; simpl; [discriminate |].
  intros Hg. rewrite IH by assumption. reflexivity.
Qed.

Lemma dict_get_None_keys d k : PyDict.get d k = None <-> ~ In k (map fst d).
Proof.
  induction d as [|[k' v'] d IH]; simpl; [tauto |].
  destruct (decide (k' = k)) as [->|Hne].
  - split; [discriminate | tauto].
  - rewrite IH. tauto.
Qed.

Lemma dict_wf_set d k v : dict_wf d -> dict_wf (PyDict.set d k v).
Proof.
  unfold dict_wf. intros Hwf.
  destruct (PyDict.get d k) as [v0|] eqn:Hg.
  - rewrite (dict_set_keys_present d k v v0 Hg). exact Hwf.
  - rewrite (dict_set_keys_absent d k v Hg).
    apply NoDup_app. split; [exact Hwf |]. split.
    + intros x Hx Hx'. apply list_elem_of_In in Hx, Hx'.
      destruct Hx' as [<- | []].
      apply dict_get_None_keys in Hg. contradiction.
    + apply NoDup_singleton.
Qed.

Lemma dict_length_set d k v :
  length (PyDict.set d k v)
  = if PyDict.mem d k then length d else S (length d).
Proof.
  unfold PyDict.mem.
  induction d as [|[k' v'] d IH]; simpl; [reflexivity |].
  destruct (decide (k' = k)); simpl; [reflexivity |].
  rewrite IH. destruct (PyDict.get d k); reflexivity.
Qed.

(** Deleting a key leaves the other keys alone and, in a well-formed dict,
    removes the key. *)
Lemma dict_get_del_ne d k k' :
  k <> k' -> PyDict.get (PyDict.del d k) k' = PyDict.get d k'.
Proof.
  intros Hne. induction d as [|[k0 v0] d IH]; simpl; [reflexivity |].
  destruct (decide (k0 = k)) as [->|Hne0]; simpl.
  - rewrite decide_False by assumption. reflexivity.
  - destruct (decide (k0 = k')); [reflexivity | exact IH].
Qed.

Lemma dict_get_del_eq d k : dict_wf d -> PyDict.get (PyDict.del d k) k = None.
Proof.
  unfold dict_wf. induction d as [|[k0 v0] d IH]; simpl; [reflexivity |].
  intros Hwf. apply NoDup_cons in Hwf as [Hnin Hwf].
  destruct (decide (k0 = k)) as [->|Hne0]; simpl.
  - apply dict_get_None_keys. rewrite <- list_elem_of_In. exact Hnin.
  - rewrite decide_False by assumption. apply IH. exact Hwf.
Qed.

Lemma dict_del_keys_sub d k x : In x (map fst (PyDict.del d k)) -> In x (map fst d).
Proof.
  induction d as [|[k0 v0] d IH]; simpl; [tauto |].
  destruct (decide (k0 = k)); simpl; [tauto |].
  intros [Hx | Hx]; [tauto | right; apply IH; exact Hx].
Qed.

Lemma dict_wf_del d k : dict_wf d -> dict_wf (PyDict.del d k).
Proof.
  unfold dict_wf. induction d as [|[k0 v0] d IH]; simpl; [tauto |].
  intros Hwf. apply NoDup_cons in Hwf as [Hnin Hwf].
  destruct (decide (k0 = k)); simpl; [exact Hwf |].
  apply NoDup_cons. split; [| apply IH; exact Hwf].
  rewrite list_elem_of_In in *. intros Hx. apply Hnin.
  eapply dict_del_keys_sub. exact Hx.
Qed.

(** After any run of guarded deletions a key holds what it held before or
    nothing. *)
Lemma dict_get_deletions {E : Type} (key_of : E -> K) d (es : list E) k :
  dict_wf d ->
  let d' := foldl (fun tbl e =>
                     if PyDict.mem tbl (key_of e) then PyDict.del tbl (key_of e)
                     else tbl)
                  d es in
  dict_wf d' /\ (PyDict.get d' k = PyDict.get d k \/ PyDict.get d' k = None).
Proof.
  revert d. induction es as [|e es IH]; intros d Hwf; simpl; [auto |].
  destruct (PyDict.mem d (key_of e)).
  - destruct (IH (PyDict.del d (key_of e)) (dict_wf_del d _ Hwf)) as [Hwf' Hg].
    split; [exact Hwf' |].
    destruct (decide (key_of e = k)) as [Heq|Hne].
    + right. destruct Hg as [Hg | Hg]; [| exact Hg].
      rewrite Hg, Heq. apply dict_get_del_eq. exact Hwf.
    + rewrite (dict_get_del_ne d _ k Hne) in Hg. exact Hg.
  - apply IH. exact Hwf.
Qed.

End PyDictFacts.

(* ===================================================================== *)
(** * Transposition table: store, probe and the replacement policy *)
(* ===================================================================== *)

Section StoreProbe.
Context `{Defines} `{Python}.
Import TranspositionTable.





End StoreProbe.



(* ===================================================================== *)
(** * Transposition table: the hard cleanup *)
(* ===================================================================== *)

(** ** The stable sort *)

Section SortFacts.
Context {A : Type} (leb : A -> A -> bool).
Hypothesis leb_total : forall a b, leb a b = false -> leb b a = true.
Hypothesis leb_trans : forall a b c, leb a b = true -> leb b c = true -> leb a c = true.

Lemma insert_by_perm (a : A) (l : list A) : Permutation (insert_by leb a l) (a :: l).
Proof.
  induction l as [|b l IH]; simpl; [reflexivity |].
  destruct (leb a b); [reflexivity |].
  rewrite IH. apply perm_swap.
Qed.

Lemma sort_by_perm (l : list A) : Permutation (sort_by leb l) l.
Proof.
  unfold sort_by. induction l as [|a l IH]; simpl; [reflexivity |].
  rewrite insert_by_perm, IH. reflexivity.
Qed.

Lemma insert_by_sorted (a : A) (l : list A) :
  StronglySorted (fun x y => leb x y = true) l ->
  StronglySorted (fun x y => leb x y = true) (insert_by leb a l).
Proof.
  induction l as [|b l IH]; intros Hs; simpl.
  - repeat constructor.
  - apply StronglySorted_cons in Hs as [Hb Hl].
    destruct (leb a b) eqn:Hab.
    + apply StronglySorted_cons. split.
      * constructor; [exact Hab |].
        eapply Forall_impl; [exact Hb |]. intros c Hbc. simpl in Hbc.
        exact (leb_trans a b c Hab Hbc).
      * apply StronglySorted_cons. auto.
    + apply StronglySorted_cons. split; [| apply IH; exact Hl].
      rewrite (insert_by_perm a l). constructor; [| exact Hb].
      apply leb_total. exact Hab.
Qed.

Lemma sort_by_sorted (l : list A) :
  StronglySorted (fun x y => leb x y = true) (sort_by leb l).
Proof.
  unfold sort_by. induction l as [|a l IH]; simpl; [constructor |].
  apply insert_by_sorted. exact IH.
Qed.

End SortFacts.

Lemma pair_leb_total (a b : Z * Z) : pair_leb a b = false -> pair_leb b a = true.
Proof.
  unfold pair_leb. destruct a as [a1 a2], b as [b1 b2]. cbn [fst snd].
  rewrite orb_false_iff, andb_false_iff, orb_true_iff, andb_true_iff.
  rewrite !Z.ltb_ge, !Z.ltb_lt, !Z.eqb_neq, !Z.eqb_eq, !Z.leb_gt, !Z.leb_le. lia.
Qed.

Lemma pair_leb_trans (a b c : Z * Z) :
  pair_leb a b = true -> pair_leb b c = true -> pair_leb a c = true.
Proof.
  unfold pair_leb. destruct a as [a1 a2], b as [b1 b2], c as [c1 c2]. cbn [fst snd].
  rewrite !orb_true_iff, !andb_true_iff.
  rewrite !Z.ltb_lt, !Z.eqb_eq, !Z.leb_le. lia.
Qed.

(** ** What the cleanup removes *)

Section Cleanup.
Context {K V : Type} `{EqDecision K}.
Implicit Types (d : list (K * V)) (k : K).

Lemma dict_get_In d k v : dict_wf d -> (PyDict.get d k = Some v <-> In (k, v) d).
Proof.
  unfold dict_wf. induction d as [|[k' v'] d IH]; simpl; intros Hwf.
  - split; [discriminate | tauto].
  - apply NoDup_cons in Hwf as [Hnin Hwf]. rewrite list_elem_of_In in Hnin.
    destruct (decide (k' = k)) as [-> | Hne].
    + split; [intros [= ->]; auto |].
      intros [[= ->] | Hin]; [reflexivity |].
      exfalso. apply Hnin. apply in_map_iff. exists (k, v). auto.
    + rewrite (IH Hwf). split; [auto |].
      intros [[= -> _] | Hin]; [contradiction | exact Hin].
Qed.

Lemma dict_length_del d k :
  PyDict.mem d k = true -> S (length (PyDict.del d k)) = length d.
Proof.
  unfold PyDict.mem. induction d as [|[k' v'] d IH]; simpl; [discriminate |].
  destruct (decide (k' = k)); simpl; [reflexivity |].
  intros Hm. rewrite IH by exact Hm. reflexivity.
Qed.

(** Guarded deletion of distinct keys that are all present: each of them is
    removed, the others keep their entries, and the dict shrinks by their
    number. *)
Lemma dict_deletions_exact {E : Type} (key_of : E -> K) d (es : list E) :
  dict_wf d -> NoDup (map key_of es) ->
  (forall e, In e es -> PyDict.mem d (key_of e) = true) ->
  let d' := foldl (fun tbl e =>
                     if PyDict.mem tbl (key_of e) then PyDict.del tbl (key_of e)
                     else tbl)
                  d es in
  (length d' + length es = length d)%nat
  /\ forall k, PyDict.get d' k
              = if decide (k ∈ map key_of es) then None else PyDict.get d k.
Proof.
  revert d. induction es as [|e es IH]; intros d Hwf Hnd Hmem; cbn [foldl map length].
  - split; [lia |]. intros k. rewrite decide_False by apply not_elem_of_nil.
    reflexivity.
  - apply NoDup_cons in Hnd as [Hnin Hnd].
    rewrite (Hmem e (or_introl eq_refl)).
    destruct (IH (PyDict.del d (key_of e)) (dict_wf_del d _ Hwf) Hnd) as [Hlen Hget].
    { intros e' He'. unfold PyDict.mem.
      rewrite dict_get_del_ne.
      - apply (Hmem e'). right. exact He'.
      - intros Heq. apply Hnin. rewrite Heq. apply list_elem_of_In, in_map. exact He'. }
    split.
    + pose proof (dict_length_del d (key_of e) (Hmem e (or_introl eq_refl))). lia.
    + intros k. rewrite Hget.
      destruct (decide (k ∈ map key_of es)) as [Hin | Hnin'].
      * rewrite decide_True by (apply elem_of_cons; auto). reflexivity.
      * destruct (decide (key_of e = k)) as [<- | Hne].
        -- rewrite decide_True by (apply elem_of_cons; auto).
           apply dict_get_del_eq. exact Hwf.
        -- rewrite decide_False
             by (rewrite elem_of_cons; intros [Heq | Hin]; [congruence | contradiction]).
           apply dict_get_del_ne. exact Hne.
Qed.

End Cleanup.

Lemma In_take {A : Type} (n : nat) (l : list A) (x : A) : In x (take n l) -> In x l.
Proof.
  intros Hx. rewrite <- (take_drop n l). apply in_or_app. left. exact Hx.
Qed.

Section CleanupPolicy.
Context `{Defines} `{Python}.

(** The order of the cleanup on the [(key, age, depth)] triples. *)
Definition cleanup_leb (a b : Z * Z * Z) : bool :=
  pair_leb (TranspositionTable.cleanup_key a) (TranspositionTable.cleanup_key b).

(** What [_cleanup] does on any table: it removes [len // 5] entries and
    keeps the others as they are; every removed entry is older than every
    kept one or, at the same age, at least as DEEP. *)
Lemma cleanup_policy (self : TranspositionTable.t) :
  dict_wf (TranspositionTable.table self) ->
  let tbl := TranspositionTable.table self in
  let tbl' := TranspositionTable.table (TranspositionTable._cleanup self) in
  (length tbl' + Z.to_nat (Z.of_nat (length tbl) / 5) = length tbl)%nat
  /\ (forall k e, PyDict.get tbl' k = Some e -> PyDict.get tbl k = Some e)
  /\ (forall k1 e1 k2 e2,
        PyDict.get tbl k1 = Some e1 -> PyDict.get tbl' k1 = None ->
        PyDict.get tbl' k2 = Some e2 ->
        TranspositionTable.age e1 < TranspositionTable.age e2
        \/ (TranspositionTable.age e1 = TranspositionTable.age e2
            /\ TranspositionTable.depth e2 <= TranspositionTable.depth e1)).
Proof.
  intros Hwf. cbv zeta. unfold TranspositionTable._cleanup.
  cbn [TranspositionTable.table TranspositionTable.with_table].
  fold cleanup_leb.
  set (tbl := TranspositionTable.table self) in *. clearbody tbl.
  set (entries := map (fun kv : Z * TranspositionTable.entry =>
                         (fst kv, TranspositionTable.age (snd kv),
                          TranspositionTable.depth (snd kv))) tbl).
  set (sorted := sort_by cleanup_leb entries).
  set (n := Z.to_nat (Z.of_nat (length sorted) / 5)).
  assert (Hperm : Permutation sorted entries) by apply sort_by_perm.
  assert (Hsorted : StronglySorted (fun x y => cleanup_leb x y = true) sorted).
  { apply sort_by_sorted.
    - intros a b. apply pair_leb_total.
    - intros a b c. apply pair_leb_trans. }
  assert (Hkeys : map (fun x : Z * Z * Z => fst (fst x)) entries = map fst tbl).
  { unfold entries. rewrite map_map. reflexivity. }
  assert (Hlen : length sorted = length tbl).
  { rewrite (Permutation_length Hperm). unfold entries. apply length_map. }
  assert (Hnd : NoDup (map (fun x : Z * Z * Z => fst (fst x)) sorted)).
  { rewrite (Permutation_map _ Hperm), Hkeys. exact Hwf. }
  assert (Hsplit : sorted = take n sorted ++ drop n sorted)
    by (symmetry; apply take_drop).
  assert (Hnd' : NoDup (map (fun x : Z * Z * Z => fst (fst x)) (take n sorted))).
  { rewrite Hsplit, map_app in Hnd. apply NoDup_app in Hnd. tauto. }
  assert (Hentry : forall x, In x sorted <->
                             exists e, In (fst (fst x), e) tbl
                                       /\ snd (fst x) = TranspositionTable.age e
                                       /\ snd x = TranspositionTable.depth e).
  { intros x. rewrite <- !list_elem_of_In, Hperm, list_elem_of_In.
    unfold entries. rewrite in_map_iff. split.
    - intros ([k e] & <- & Hin). exists e. auto.
    - intros (e & Hin & Ha & Hd). exists (fst (fst x), e). split; [| exact Hin].
      destruct x as [[k a] dp]. cbn [fst snd] in *. congruence. }
  destruct (dict_deletions_exact (fun x : Z * Z * Z => fst (fst x)) tbl
              (take n sorted) Hwf Hnd') as [Hcount Hget].
  { intros x Hx. apply In_take, Hentry in Hx. destruct Hx as (e & Hin & _).
    apply (dict_get_In _ _ _ Hwf) in Hin. unfold PyDict.mem. rewrite Hin. reflexivity. }
  cbv zeta in Hcount, Hget.
  assert (Hn : length (take n sorted) = n).
  { rewrite length_take. unfold n.
    assert (Z.of_nat (length sorted) / 5 <= Z.of_nat (length sorted))
      by (apply Z.div_le_upper_bound; lia).
    assert (0 <= Z.of_nat (length sorted) / 5) by (apply Z.div_pos; lia).
    lia. }
  split; [| split].
  - rewrite Hn in Hcount.
    replace (Z.to_nat (Z.of_nat (length tbl) / 5)) with n
      by (unfold n; rewrite Hlen; reflexivity).
    exact Hcount.
  - intros k e. rewrite Hget. case_decide; [discriminate | auto].
  - intros k1 e1 k2 e2 Hold Hgone Hkept.
    rewrite Hget in Hgone, Hkept.
    destruct (decide (k1 ∈ _)) as [Hin1 | _]; [| congruence].
    destruct (decide (k2 ∈ _)) as [| Hnin2]; [discriminate |].
    apply list_elem_of_In, in_map_iff in Hin1. destruct Hin1 as (x1 & Hk1 & Hx1).
    assert (Hx1s : In x1 sorted) by (apply In_take in Hx1; exact Hx1).
    apply Hentry in Hx1s as Hx1e. destruct Hx1e as (e1' & Hin1 & Ha1 & Hd1).
    rewrite Hk1 in Hin1. apply (dict_get_In _ _ _ Hwf) in Hin1.
    assert (e1' = e1) by congruence. subst e1'.
    set (x2 := (k2, TranspositionTable.age e2, TranspositionTable.depth e2)).
    assert (Hx2s : In x2 sorted).
    { apply Hentry. exists e2. cbn [fst snd].
      split; [apply (dict_get_In _ _ _ Hwf); exact Hkept | auto]. }
    rewrite Hsplit in Hx2s. apply in_app_or in Hx2s.
    destruct Hx2s as [Hx2 | Hx2].
    { exfalso. apply Hnin2. apply list_elem_of_In, in_map_iff. exists x2. auto. }
    rewrite Hsplit in Hsorted.
    pose proof (StronglySorted_app_1_elem_of _ _ _ x1 x2 Hsorted) as Hle.
    rewrite !list_elem_of_In in Hle. specialize (Hle Hx1 Hx2).
    unfold cleanup_leb, TranspositionTable.cleanup_key, pair_leb in Hle.
    destruct x1 as [[k1' a1] d1]. cbn [fst snd] in *. subst x2. cbn [fst snd] in Hle.
    rewrite orb_true_iff, andb_true_iff, Z.ltb_lt, Z.eqb_eq, Z.leb_le in Hle. lia.
Qed.

(** A table of capacity at least 4 that is within its capacity stays so
    under [store], and stays a dict: in such a table the cleanup runs only
    when a new key is added, never when an entry is replaced. *)
Lemma store_within_capacity (self : TranspositionTable.t) (h D s f : Z)
      (m : option StoneMove.t) (tl : Z) :
  dict_wf (TranspositionTable.table self) ->
  4 <= TranspositionTable.max_size self ->
  Z.of_nat (length (TranspositionTable.table self)) <= TranspositionTable.max_size self ->
  let self' := TranspositionTable.store self h D s f m tl in
  dict_wf (TranspositionTable.table self')
  /\ TranspositionTable.max_size self' = TranspositionTable.max_size self
  /\ Z.of_nat (length (TranspositionTable.table self'))
     <= TranspositionTable.max_size self'.
Proof.
  intros Hwf Hmax Hcap. cbv zeta. unfold TranspositionTable.store.
  set (e := TranspositionTable.mk_entry D s f m _ tl).
  destruct (match PyDict.get (TranspositionTable.table self) h with
            | Some old_entry => negb (TranspositionTable.replaces self old_entry D f)
            | None => false
            end); [auto |].
  pose proof (dict_length_set (TranspositionTable.table self) h e) as Hlen.
  pose proof (dict_wf_set (TranspositionTable.table self) h e Hwf) as Hwf'.
  cbn [TranspositionTable.table TranspositionTable.with_table
       TranspositionTable.max_size].
  destruct (Z.gtb_spec (Z.of_nat (length (PyDict.set (TranspositionTable.table self) h e)))
              (TranspositionTable.max_size self)) as [Hover | Hfit].
  - set (self1 := TranspositionTable.with_table self
                    (PyDict.set (TranspositionTable.table self) h e)).
    destruct (cleanup_policy self1 Hwf') as [Hcount _]. cbv zeta in Hcount.
    split; [| split].
    + unfold TranspositionTable._cleanup.
      cbn [TranspositionTable.table TranspositionTable.with_table].
      match goal with
      | |- dict_wf (foldl ?g ?d ?es) =>
          exact (proj1 (dict_get_deletions (fun x : Z * Z * Z => fst (fst x)) d es h Hwf'))
      end.
    + reflexivity.
    + cbn [TranspositionTable.max_size TranspositionTable._cleanup
           TranspositionTable.with_table] in *.
      subst self1. cbn [TranspositionTable.table TranspositionTable.with_table] in Hcount.
      destruct (PyDict.mem (TranspositionTable.table self) h);
        rewrite Hlen in *; [lia |].
      assert (1 <= Z.of_nat (S (length (TranspositionTable.table self))) / 5)
        by (apply Z.div_le_lower_bound; lia).
      cbn [TranspositionTable.max_size TranspositionTable.with_table]. lia.
  - cbn [TranspositionTable.table TranspositionTable.with_table
         TranspositionTable.max_size].
    split; [exact Hwf' |]. split; [reflexivity | lia].
Qed.

End CleanupPolicy.

(** ** The defect on a concrete table *)

(** C8 (defect).  The fifth store takes the table over its capacity of four
    and the cleanup removes one entry, 5 // 5.  All five entries have the
    same age; the one removed is the deepest, the entry just stored under
    key 105, and the shallowest one, under key 101, stays. *)
Theorem cleanup_removes_deepest_of_equal_age :
  map (fun kv => (fst kv, TranspositionTable.age (snd kv),
                  TranspositionTable.depth (snd kv)))
      (TranspositionTable.table cleanup_scenario)
  = [(101, 0, 1); (102, 0, 2); (103, 0, 3); (104, 0, 4)].
Proof. vm_compute. reflexivity. Qed.

(* ===================================================================== *)
(** * The game-end score of the recursive search *)
(* ===================================================================== *)

Section GameEnd.
Context `{Defines} `{Python}.

(** When the move that led to the node has completed a six, the check
    returns at once, with one of the two depth-adjusted bounds. *)
Lemma game_end_check_won (self : SearchEngine.t) (depth color : Z)
      (pre_move : StoneMove.t) :
  Tools.is_win_by_premove (SearchEngine.m_board self) pre_move = Ok true ->
  SearchEngine.game_end_check self depth color pre_move
  = Ok (Some (if color =? SearchEngine.m_chess_type self
              then MININT + depth else MAXINT - depth)).
Proof.
  intros Hwin. unfold SearchEngine.game_end_check. rewrite Hwin. simpl.
  destruct (color =? SearchEngine.m_chess_type self); reflexivity.
Qed.

(** C9 (defect).  A node [plies] plies below a root searched to depth [root]
    is called with the remaining depth [root - plies].  Of two won nodes the
    one reached in FEWER plies gets the score of strictly SMALLER magnitude:
    the adjustment subtracts the remaining depth, which is larger near the
    root, so the search rates the longer win (and the longer loss) as the
    more extreme one. *)
Theorem game_end_score_favours_longer_wins
        (self : SearchEngine.t) (color : Z) (pre_move : StoneMove.t)
        (root plies_short plies_long s_short s_long : Z) :
  1 <= plies_short < plies_long -> plies_long <= root ->
  root <= MAXINT -> MININT <= - root ->
  SearchEngine.game_end_check self (root - plies_short) color pre_move
  = Ok (Some s_short) ->
  SearchEngine.game_end_check self (root - plies_long) color pre_move
  = Ok (Some s_long) ->
  Z.abs s_short < Z.abs s_long.
Proof.
  intros Hp Hr Hmax Hmin Hs Hl.
  unfold SearchEngine.game_end_check in Hs, Hl.
  destruct (Tools.is_win_by_premove (SearchEngine.m_board self) pre_move)
    as [[|]|e]; simpl in Hs, Hl; try discriminate.
  destruct (color =? SearchEngine.m_chess_type self);
    injection Hs as <-; injection Hl as <-; lia.
Qed.

End GameEnd.

(** In a search of depth 5 the loss one ply below the root scores -19996 and
    the one three plies below it -19998. *)
Lemma game_end_score_favours_longer_wins_witness :
  (1 <= 1 < 3 /\ 3 <= 5 /\ 5 <= 20000 /\ -20000 <= - 5)
  /\ @SearchEngine.game_end_check connect6_defines lost_node (5 - 1) 2 last_black_move
     = Ok (Some (-19996))
  /\ @SearchEngine.game_end_check connect6_defines lost_node (5 - 3) 2 last_black_move
     = Ok (Some (-19998))
  /\ Z.abs (-19996) < Z.abs (-19998).
Proof.
  assert (H1 : @SearchEngine.game_end_check connect6_defines lost_node (5 - 1) 2
                 last_black_move = Ok (Some (-19996))) by (vm_compute; reflexivity).
  assert (H3 : @SearchEngine.game_end_check connect6_defines lost_node (5 - 3) 2
                 last_black_move = Ok (Some (-19998))) by (vm_compute; reflexivity).
  split; [lia |]. split; [exact H1 |]. split; [exact H3 |].
  apply (@game_end_score_favours_longer_wins connect6_defines lost_node 2
           last_black_move 5 1 3 (-19996) (-19998));
    [lia | lia | simpl; lia | simpl; lia | exact H1 | exact H3].
Defined.

(* ===================================================================== *)
(** * The key of the transposition table in the search *)
(* ===================================================================== *)

Section SearchKey.
Context `{Defines} `{Python}.

(** The key the search probes and stores under does not depend on the side
    to move. *)
Lemma probe_node_ignores_side (self : SearchEngine.t) (depth alpha beta c c' : Z) :
  SearchEngine.probe_node self depth alpha beta c
  = SearchEngine.probe_node self depth alpha beta c'.
Proof. reflexivity. Qed.

(** The Zobrist fingerprints of one board for the two sides differ by the
    side-to-move value. *)
Lemma compute_hash_sides (zh : ZobristHash.t) (board : Board) (hb hw : Z) :
  BLACK <> WHITE ->
  ZobristHash.compute_hash zh board BLACK = Ok hb ->
  ZobristHash.compute_hash zh board WHITE = Ok hw ->
  hw = Z.lxor hb (ZobristHash.side_to_move_hash zh).
Proof.
  intros Hbw Hb Hw. unfold ZobristHash.compute_hash in Hb, Hw.
  destruct (foldM _ _ 0) as [h|e]; simpl in Hb, Hw; [| discriminate].
  rewrite Z.eqb_refl in Hw.
  destruct (Z.eqb_spec BLACK WHITE); [contradiction |].
  congruence.
Qed.

(** C1 (defect).  The search keys its table with [_hash_board], the
    interpreter's hash of the rows, which is one value per board; the
    Zobrist hasher gives the same board two different fingerprints, one for
    each side to move, as soon as its side-to-move value is not zero.  So
    the search key cannot agree with [compute_hash] for both sides. *)
Theorem hash_board_is_not_the_zobrist_hash
        (self : SearchEngine.t) (zh : ZobristHash.t) (hb hw : Z) :
  BLACK <> WHITE ->
  ZobristHash.side_to_move_hash zh <> 0 ->
  ZobristHash.compute_hash zh (SearchEngine.m_board self) BLACK = Ok hb ->
  ZobristHash.compute_hash zh (SearchEngine.m_board self) WHITE = Ok hw ->
  ~ (SearchEngine._hash_board self = hb /\ SearchEngine._hash_board self = hw).
Proof.
  intros Hbw Hside Hb Hw [Hkb Hkw].
  pose proof (compute_hash_sides zh _ hb hw Hbw Hb Hw) as Hx.
  apply Hside. rewrite <- Hkb, <- Hkw in Hx.
  apply (f_equal (Z.lxor (SearchEngine._hash_board self))) in Hx.
  rewrite Z.lxor_nilpotent, <- Z.lxor_assoc, Z.lxor_nilpotent, Z.lxor_0_l in Hx.
  symmetry. exact Hx.
Qed.

End SearchKey.

Lemma hash_board_is_not_the_zobrist_hash_witness :
  (1 <> 2
   /\ ZobristHash.side_to_move_hash simple_hasher <> 0
   /\ @ZobristHash.compute_hash connect6_defines simple_hasher empty_board 1 = Ok 0
   /\ @ZobristHash.compute_hash connect6_defines simple_hasher empty_board 2 = Ok 764)
  /\ ~ (@SearchEngine._hash_board simple_python opening_node = 0
        /\ @SearchEngine._hash_board simple_python opening_node = 764).
Proof.
  assert (Hs : ZobristHash.side_to_move_hash simple_hasher <> 0)
    by (vm_compute; discriminate).
  assert (Hb : @ZobristHash.compute_hash connect6_defines simple_hasher empty_board 1
               = Ok 0) by (vm_compute; reflexivity).
  assert (Hw : @ZobristHash.compute_hash connect6_defines simple_hasher empty_board 2
               = Ok 764) by (vm_compute; reflexivity).
  split; [split; [lia | split; [exact Hs | split; [exact Hb | exact Hw]]] |].
  apply (@hash_board_is_not_the_zobrist_hash connect6_defines simple_python
           opening_node simple_hasher 0 764);
    [simpl; lia | exact Hs | exact Hb | exact Hw].
Defined.

(* ===================================================================== *)
(** * Zobrist hashing *)
(* ===================================================================== *)

Section Zobrist.
Context `{Defines} `{Python}.

Lemma xor_values_app zh l1 l2 :
  xor_values zh (l1 ++ l2) = Z.lxor (xor_values zh l1) (xor_values zh l2).
Proof.
  unfold xor_values. induction l1 as [|k l1 IH]; simpl.
  - rewrite Z.lxor_0_l. reflexivity.
  - rewrite IH, Z.lxor_assoc. reflexivity.
Qed.

Lemma xor_values_perm zh l1 l2 :
  Permutation l1 l2 -> xor_values zh l1 = xor_values zh l2.
Proof.
  unfold xor_values. induction 1 as [| k l l' _ IH | k k' l | l l' l'' _ IH1 _ IH2];
    simpl.
  - reflexivity.
  - rewrite IH. reflexivity.
  - rewrite <- !Z.lxor_assoc, (Z.lxor_comm (table_value zh k')). reflexivity.
  - congruence.
Qed.

(** ** The table [__init__] builds has all the keys *)

Lemma init_cell_keeps seed x st y k :
  is_Some (fst st !! k) -> is_Some (fst (ZobristHash.init_cell seed x st y) !! k).
Proof.
  destruct st as [tbl n]. simpl. intros Hk.
  rewrite !lookup_insert_is_Some'. auto.
Qed.

Lemma init_row_keeps seed x ys st k :
  is_Some (fst st !! k) ->
  is_Some (fst (foldl (ZobristHash.init_cell seed x) st ys) !! k).
Proof.
  revert st. induction ys as [|y ys IH]; intros st Hk; simpl; [exact Hk |].
  apply IH, init_cell_keeps, Hk.
Qed.

Lemma init_row_adds seed x ys st y c :
  In y ys -> c = BLACK \/ c = WHITE ->
  is_Some (fst (foldl (ZobristHash.init_cell seed x) st ys) !! (x, y, c)).
Proof.
  intros Hy Hc. revert st. induction ys as [|y' ys IH]; intros st; simpl;
    [destruct Hy |].
  destruct Hy as [-> | Hy]; [| apply IH; exact Hy].
  apply init_row_keeps. destruct st as [tbl n]. simpl.
  rewrite !lookup_insert_is_Some'. destruct Hc as [-> | ->]; auto.
Qed.

Lemma init_rows_keep seed xs ys st k :
  is_Some (fst st !! k) ->
  is_Some (fst (foldl (fun st x => foldl (ZobristHash.init_cell seed x) st ys) st xs)
           !! k).
Proof.
  revert st. induction xs as [|x xs IH]; intros st Hk; simpl; [exact Hk |].
  apply IH, init_row_keeps, Hk.
Qed.

Lemma init_rows_add seed xs ys st x y c :
  In x xs -> In y ys -> c = BLACK \/ c = WHITE ->
  is_Some (fst (foldl (fun st x => foldl (ZobristHash.init_cell seed x) st ys) st xs)
           !! (x, y, c)).
Proof.
  intros Hx Hy Hc. revert st. induction xs as [|x' xs IH]; intros st; simpl;
    [destruct Hx |].
  destruct Hx as [-> | Hx]; [| apply IH; exact Hx].
  apply init_rows_keep, init_row_adds; assumption.
Qed.

Lemma init_complete seed : complete_table (ZobristHash.__init__ seed).
Proof.
  intros [[x y] c] (Hx & Hy & Hc). simpl in Hx, Hy, Hc.
  unfold ZobristHash.__init__.
  assert (Hin : is_Some (fst (foldl (fun st x => foldl (ZobristHash.init_cell seed x)
                                                      st (range 1 20))
                                    (∅, O) (range 1 20)) !! (x, y, c))).
  { apply init_rows_add; [apply elem_of_range; lia | apply elem_of_range; lia | exact Hc]. }
  destruct (foldl _ _ _) as [tbl n]. exact Hin.
Qed.

(** The side-to-move value is the draw after the 722 draws of the table. *)
Lemma init_draw_count seed x ys st :
  snd (foldl (ZobristHash.init_cell seed x) st ys) = (snd st + 2 * length ys)%nat.
Proof.
  revert st. induction ys as [|y ys IH]; intros st; simpl; [lia |].
  rewrite IH. destruct st as [tbl n]. simpl. lia.
Qed.

Lemma init_side_to_move seed :
  ZobristHash.side_to_move_hash (ZobristHash.__init__ seed) = getrandbits64 seed 722.
Proof.
  unfold ZobristHash.__init__.
  assert (Hn : forall xs st,
             snd (foldl (fun st x => foldl (ZobristHash.init_cell seed x) st (range 1 20))
                        st xs)
             = (snd st + 38 * length xs)%nat).
  { induction xs as [|x xs IH]; intros st; cbn [foldl length]; [lia |].
    rewrite IH, init_draw_count, length_range. cbn [fst snd]. lia. }
  specialize (Hn (range 1 20) (∅, O)). rewrite length_range in Hn.
  destruct (foldl _ _ _) as [tbl n]. cbn [snd] in Hn. subst n. reflexivity.
Qed.

(** ** The full hash as an XOR over the stones *)

Lemma dict_get_complete zh k :
  complete_table zh -> stone_key k ->
  dict_get (ZobristHash.hash_table zh) k = Ok (table_value zh k).
Proof.
  intros Hc Hk. unfold dict_get, table_value.
  destruct (Hc k Hk) as [v ->]. reflexivity.
Qed.

Lemma hash_cell_value zh board x h y :
  complete_table zh ->
  1 <= x <= 19 -> 1 <= y <= 19 -> is_Some (cell_at board x y) ->
  ZobristHash.hash_cell zh board x h y
  = Ok (Z.lxor h (xor_values zh (cell_stone board x y))).
Proof.
  intros Hc Hx Hy [c Hcell].
  unfold ZobristHash.hash_cell, cell_stone. rewrite Hcell.
  apply board_get_cell_at in Hcell; [| lia | lia]. rewrite Hcell. simpl.
  destruct (Z.eqb_spec c BLACK) as [-> | Hnb]; simpl.
  - rewrite dict_get_complete; [| exact Hc | unfold stone_key; simpl; auto].
    simpl. rewrite Z.lxor_0_r. reflexivity.
  - destruct (Z.eqb_spec c WHITE) as [-> | Hnw]; simpl.
    + rewrite dict_get_complete; [| exact Hc | unfold stone_key; simpl; auto].
      simpl. rewrite Z.lxor_0_r. reflexivity.
    + rewrite Z.lxor_0_r. reflexivity.
Qed.

Lemma hash_row_value zh board x ys h :
  complete_table zh -> playable_grid board ->
  1 <= x <= 19 -> (forall y, In y ys -> 1 <= y <= 19) ->
  foldM (ZobristHash.hash_cell zh board x) ys h
  = Ok (Z.lxor h (xor_values zh (flat_map (cell_stone board x) ys))).
Proof.
  intros Hc Hgrid Hx. revert h.
  induction ys as [|y ys IH]; intros h Hys; cbn [foldM flat_map].
  - simpl. rewrite Z.lxor_0_r. reflexivity.
  - rewrite hash_cell_value; auto; [| apply Hys; left; reflexivity
                                    | apply Hgrid; [exact Hx | apply Hys; left; reflexivity]].
    simpl. rewrite IH by (intros y' Hy'; apply Hys; right; exact Hy').
    rewrite xor_values_app, Z.lxor_assoc. reflexivity.
Qed.

Lemma hash_rows_value zh board xs h :
  complete_table zh -> playable_grid board ->
  (forall x, In x xs -> 1 <= x <= 19) ->
  foldM (fun h x => foldM (ZobristHash.hash_cell zh board x) (range 1 20) h) xs h
  = Ok (Z.lxor h (xor_values zh
                    (flat_map (fun x => flat_map (cell_stone board x) (range 1 20)) xs))).
Proof.
  intros Hc Hgrid. revert h.
  induction xs as [|x xs IH]; intros h Hxs; cbn [foldM flat_map].
  - simpl. rewrite Z.lxor_0_r. reflexivity.
  - rewrite hash_row_value; auto;
      [| apply Hxs; left; reflexivity | intros y Hy; apply elem_of_range in Hy; lia].
    simpl. rewrite IH by (intros x' Hx'; apply Hxs; right; exact Hx').
    rewrite xor_values_app, Z.lxor_assoc. reflexivity.
Qed.

Lemma compute_hash_value zh board color :
  complete_table zh -> playable_grid board ->
  ZobristHash.compute_hash zh board color
  = Ok (if color =? WHITE
        then Z.lxor (xor_values zh (stones board)) (ZobristHash.side_to_move_hash zh)
        else xor_values zh (stones board)).
Proof.
  intros Hc Hgrid. unfold ZobristHash.compute_hash.
  rewrite hash_rows_value; auto; [| intros x Hx; apply elem_of_range in Hx; lia].
  simpl. fold (stones board). destruct (color =? WHITE); reflexivity.
Qed.

Lemma stones_are_keys board k : In k (stones board) -> stone_key k.
Proof.
  unfold stones. rewrite in_flat_map. intros (x & Hx & Hk).
  rewrite in_flat_map in Hk. destruct Hk as (y & Hy & Hk).
  apply elem_of_range in Hx, Hy. unfold cell_stone in Hk.
  destruct (cell_at board x y) as [c|]; [| destruct Hk].
  assert (Hcol : (c =? BLACK) || (c =? WHITE) = true -> c = BLACK \/ c = WHITE).
  { rewrite orb_true_iff, !Z.eqb_eq. tauto. }
  destruct ((c =? BLACK) || (c =? WHITE)); [| destruct Hk].
  destruct Hk as [<- | []]. unfold stone_key. cbn [fst snd].
  split; [lia | split; [lia | apply Hcol; reflexivity]].
Qed.

Lemma updates_value zh placed h :
  complete_table zh -> (forall k, In k placed -> stone_key k) ->
  foldM (fun h k => ZobristHash.update_hash zh h (fst (fst k)) (snd (fst k)) (snd k) true)
        placed h
  = Ok (Z.lxor h (xor_values zh placed)).
Proof.
  intros Hc. revert h. induction placed as [|[[x y] c] placed IH]; intros h Hk;
    cbn [foldM].
  - simpl. rewrite Z.lxor_0_r. reflexivity.
  - unfold ZobristHash.update_hash at 1. cbn [fst snd].
    rewrite dict_get_complete; [| exact Hc | apply Hk; left; reflexivity].
    simpl. rewrite IH by (intros k' Hk'; apply Hk; right; exact Hk').
    rewrite Z.lxor_assoc. reflexivity.
Qed.

(** [update_hash] is its own inverse, on any table: a second update with the
    same coordinate and colour gives back the hash the first one started
    from. *)
Lemma update_hash_involutive zh h h' x y c p p' :
  ZobristHash.update_hash zh h x y c p = Ok h' ->
  ZobristHash.update_hash zh h' x y c p' = Ok h.
Proof.
  unfold ZobristHash.update_hash.
  destruct (dict_get (ZobristHash.hash_table zh) (x, y, c)) as [v|e]; simpl;
    [| discriminate].
  intros [= <-]. rewrite Z.lxor_assoc, Z.lxor_nilpotent, Z.lxor_0_r. reflexivity.
Qed.

(** C6.  For the hasher [__init__] builds and every grid with its playable
    cells, the full hash is computed without error and equals the hash
    built by XORing in the table value of every occupied cell with
    [update_hash], in any order of the stones, and the side marker exactly
    when white is to move; and [update_hash] applied twice for the same
    coordinate and colour returns the hash it started from, so placing and
    then removing a stone restores the hash. *)
Theorem zobrist_hash_is_order_free_xor (seed : Z) (board : Board) (color : Z) :
  playable_grid board ->
  let zh := ZobristHash.__init__ seed in
  (exists h, ZobristHash.compute_hash zh board color = Ok h)
  /\ (forall placed,
        Permutation placed (stones board) ->
        ZobristHash.compute_hash zh board color = incremental_hash zh placed color)
  /\ (forall h x y c,
        1 <= x <= 19 -> 1 <= y <= 19 -> c = BLACK \/ c = WHITE ->
        exists h',
          ZobristHash.update_hash zh h x y c true = Ok h'
          /\ ZobristHash.update_hash zh h' x y c false = Ok h).
Proof.
  intros Hgrid zh.
  pose proof (init_complete seed) as Hc. fold zh in Hc.
  split; [| split].
  - rewrite compute_hash_value by assumption. eauto.
  - intros placed Hperm. rewrite compute_hash_value by assumption.
    unfold incremental_hash.
    rewrite updates_value;
      [| exact Hc
       | intros k Hk; apply (stones_are_keys board);
         apply (Permutation_in _ Hperm); exact Hk].
    simpl. rewrite Z.lxor_0_l, (xor_values_perm zh _ _ Hperm).
    unfold ZobristHash.toggle_side. reflexivity.
  - intros h x y c Hx Hy Hcol.
    assert (Hk : stone_key (x, y, c)) by (unfold stone_key; simpl; auto).
    unfold ZobristHash.update_hash at 1.
    rewrite (dict_get_complete zh _ Hc Hk). simpl.
    eexists. split; [reflexivity |].
    unfold ZobristHash.update_hash. rewrite (dict_get_complete zh _ Hc Hk). simpl.
    rewrite Z.lxor_assoc, Z.lxor_nilpotent, Z.lxor_0_r. reflexivity.
Qed.

End Zobrist.

(* ===================================================================== *)
(** * Grids of side 21 *)
(* ===================================================================== *)

Lemma grid21_cell (board : Board) (x y : Z) :
  is_grid21 board = true -> 0 <= x <= 20 -> 0 <= y <= 20 ->
  exists v, cell_at board x y = Some v /\ board_get board x y = Ok v.
Proof.
  unfold is_grid21. rewrite andb_true_iff, Nat.eqb_eq, forallb_forall.
  intros [Hlen Hrows] Hx Hy.
  destruct (lookup_lt_is_Some_2 board (Z.to_nat x)) as [row Hrow]; [lia |].
  assert (Hrl : length row = 21%nat).
  { apply Nat.eqb_eq, Hrows, list_elem_of_In, list_elem_of_lookup. eauto. }
  destruct (lookup_lt_is_Some_2 row (Z.to_nat y)) as [v Hv]; [lia |].
  exists v.
  assert (Hget : board_get board x y = Ok v).
  { apply board_get_nonneg; [lia | lia | eauto]. }
  split; [apply board_get_cell_at; [lia | lia | exact Hget] | exact Hget].
Qed.

Lemma grid21_playable (board : Board) : is_grid21 board = true -> playable_grid board.
Proof.
  intros Hg x y Hx Hy.
  destruct (grid21_cell board x y Hg) as (v & Hv & _); [lia | lia |].
  rewrite Hv. eauto.
Qed.

Lemma zobrist_hash_is_order_free_xor_witness :
  playable_grid two_stones_board
  /\ @ZobristHash.compute_hash connect6_defines simple_hasher two_stones_board 2
     = @incremental_hash connect6_defines simple_hasher [(11, 11, 2); (10, 10, 1)] 2
  /\ exists h',
      ZobristHash.update_hash simple_hasher 5 10 10 1 true = Ok h'
      /\ ZobristHash.update_hash simple_hasher h' 10 10 1 false = Ok 5.
Proof.
  assert (Hgrid : playable_grid two_stones_board)
    by (apply grid21_playable; vm_compute; reflexivity).
  split; [exact Hgrid |].
  destruct (@zobrist_hash_is_order_free_xor connect6_defines simple_python 42
              two_stones_board 2 Hgrid) as (_ & Hperm & Hinv).
  split.
  - apply Hperm. vm_compute. apply perm_swap.
  - apply (Hinv 5 10 10 1); [lia | lia | left; reflexivity].
Defined.

(* ===================================================================== *)
(** * Loops with exceptions *)
(* ===================================================================== *)

Lemma foldM_invariant {A S : Type} (P : S -> Prop) (f : S -> A -> result S)
      (l : list A) (s s' : S) :
  (forall s a s', In a l -> P s -> f s a = Ok s' -> P s') ->
  P s -> foldM f l s = Ok s' -> P s'.
Proof.
  revert s. induction l as [|a l IH]; intros s Hstep Hs Hfold; simpl in Hfold.
  - injection Hfold as <-. exact Hs.
  - bind_inv Hfold. apply (IH a0); [| | exact Hfold].
    + intros s1 b s2 Hb. apply Hstep. right. exact Hb.
    + apply (Hstep s a a0); [left; reflexivity | exact Hs | exact Hstep0].
Qed.

Lemma foldM_total {A S : Type} (P : S -> Prop) (f : S -> A -> result S)
      (l : list A) (s : S) :
  (forall s a, In a l -> P s -> exists s', f s a = Ok s' /\ P s') ->
  P s -> exists s', foldM f l s = Ok s' /\ P s'.
Proof.
  revert s. induction l as [|a l IH]; intros s Hstep Hs; simpl.
  - eauto.
  - destruct (Hstep s a) as (s1 & -> & Hs1); [left; reflexivity | exact Hs |].
    simpl. apply IH; [| exact Hs1].
    intros s2 b Hb. apply Hstep. right. exact Hb.
Qed.

(* ===================================================================== *)
(** * The scans stay within their fuel *)
(* ===================================================================== *)

Lemma getitem_raises {A : Type} (l : list A) (i : Z) (e : exn) :
  getitem l i = Raise e -> e = IndexError.
Proof.
  unfold getitem. destruct (py_index l i); [destruct (l !! n) |]; congruence.
Qed.

Lemma getitem_Ok_range {A : Type} (l : list A) (i : Z) (a : A) :
  getitem l i = Ok a -> - Z.of_nat (length l) <= i < Z.of_nat (length l).
Proof.
  unfold getitem, py_index.
  destruct (Z.ltb_spec i 0);
    match goal with
    | |- context [(0 <=? ?j) && (?j <? ?n)] =>
        destruct (Z.leb_spec 0 j); destruct (Z.ltb_spec j n)
    end; cbn [andb]; try discriminate; intros _; lia.
Qed.

Lemma board_get_raises (board : Board) (x y : Z) (e : exn) :
  board_get board x y = Raise e -> e = IndexError.
Proof.
  unfold board_get. destruct (getitem board x) as [row|e'] eqn:Hrow; cbn [bind].
  - apply getitem_raises.
  - intros [= <-]. exact (getitem_raises _ _ _ Hrow).
Qed.

Lemma board_get_Ok_range (board : Board) (x y v : Z) :
  is_grid21 board = true -> board_get board x y = Ok v ->
  -21 <= x <= 20 /\ -21 <= y <= 20.
Proof.
  unfold is_grid21. rewrite andb_true_iff, Nat.eqb_eq, forallb_forall.
  intros [Hlen Hrows] Hget. unfold board_get in Hget. bind_inv Hget.
  pose proof (getitem_Ok_range _ _ _ Hstep) as Hx.
  pose proof (getitem_Ok_range _ _ _ Hget) as Hy.
  assert (Hin : In a board).
  { unfold getitem in Hstep. destruct (py_index board x); [| discriminate].
    destruct (board !! n) eqn:Hn; [| discriminate]. injection Hstep as ->.
    apply list_elem_of_In, list_elem_of_lookup. eauto. }
  apply Hrows, Nat.eqb_eq in Hin. lia.
Qed.

(** The guarded scans never use up [line_fuel], on any board. *)
Lemma count_line_fuel board color fuel tx ty sx sy count :
  unit_step sx sy -> (0 < fuel)%nat ->
  (in_1_19 tx ty = true -> steps_left tx ty sx sy < Z.of_nat fuel) ->
  count_line fuel board color tx ty sx sy count <> Raise FuelExhausted.
Proof.
  intros Hu. revert tx ty count.
  induction fuel as [|fuel IH]; intros tx ty count Hpos Hleft; [lia |].
  cbn [count_line]. unfold stone_at.
  destruct (in_1_19 tx ty) eqn:Hr; [| cbn [bind]; discriminate].
  specialize (Hleft eq_refl). apply in_1_19_spec in Hr.
  destruct (board_get board tx ty) as [v|e] eqn:Hget; cbn [bind].
  - destruct (v =? color); [| discriminate].
    unfold unit_step in Hu. unfold steps_left in Hleft. apply IH.
    + destruct (Z.eqb_spec sx 1); [lia |]. destruct (Z.eqb_spec sx (-1)); [lia |].
      destruct (Z.eqb_spec sy 1); lia.
    + intros Hr'. apply in_1_19_spec in Hr'. unfold steps_left.
      destruct (Z.eqb_spec sx 1); [lia |]. destruct (Z.eqb_spec sx (-1)); [lia |].
      destruct (Z.eqb_spec sy 1); lia.
  - apply board_get_raises in Hget. subst e. discriminate.
Qed.

Lemma line_start_fuel board color fuel tx ty dx dy start :
  unit_step dx dy -> (0 < fuel)%nat ->
  (in_1_19 tx ty = true -> steps_left tx ty (- dx) (- dy) < Z.of_nat fuel) ->
  line_start fuel board color tx ty dx dy start <> Raise FuelExhausted.
Proof.
  intros Hu. revert tx ty start.
  induction fuel as [|fuel IH]; intros tx ty start Hpos Hleft; [lia |].
  cbn [line_start]. unfold stone_at.
  destruct (in_1_19 tx ty) eqn:Hr; [| cbn [bind]; discriminate].
  specialize (Hleft eq_refl). apply in_1_19_spec in Hr.
  destruct (board_get board tx ty) as [v|e] eqn:Hget; cbn [bind].
  - destruct (v =? color); [| discriminate].
    unfold unit_step in Hu. unfold steps_left in Hleft. apply IH.
    + destruct (Z.eqb_spec (- dx) 1); [lia |].
      destruct (Z.eqb_spec (- dx) (-1)); [lia |].
      destruct (Z.eqb_spec (- dy) 1); lia.
    + intros Hr'. apply in_1_19_spec in Hr'. unfold steps_left.
      destruct (Z.eqb_spec (- dx) 1); [lia |].
      destruct (Z.eqb_spec (- dx) (-1)); [lia |].
      destruct (Z.eqb_spec (- dy) 1); lia.
  - apply board_get_raises in Hget. subst e. discriminate.
Qed.

(** The unguarded scan of the win check never uses up its fuel on a grid of
    side 21, border or not: it stops on a different cell or on the
    [IndexError] of an index outside [-21, 20]. *)
Lemma count_while_fuel `{Defines} board s fuel tx ty sx sy count :
  is_grid21 board = true -> unit_step sx sy -> (0 < fuel)%nat ->
  (-21 <= tx <= 20 -> -21 <= ty <= 20 -> reads_left tx ty sx sy < Z.of_nat fuel) ->
  Tools.count_while fuel board s tx ty sx sy count <> Raise FuelExhausted.
Proof.
  intros Hg Hu. revert tx ty count.
  induction fuel as [|fuel IH]; intros tx ty count Hpos Hleft; [lia |].
  cbn [Tools.count_while].
  destruct (board_get board tx ty) as [v|e] eqn:Hget; cbn [bind].
  - destruct (v =? s); [| discriminate].
    destruct (board_get_Ok_range board tx ty v Hg Hget) as [Hx Hy].
    specialize (Hleft Hx Hy).
    unfold unit_step in Hu. unfold reads_left in Hleft. apply IH.
    + destruct (Z.eqb_spec sx 1); [lia |]. destruct (Z.eqb_spec sx (-1)); [lia |].
      destruct (Z.eqb_spec sy 1); lia.
    + intros Hx' Hy'. unfold reads_left.
      destruct (Z.eqb_spec sx 1); [lia |]. destruct (Z.eqb_spec sx (-1)); [lia |].
      destruct (Z.eqb_spec sy 1); lia.
  - apply board_get_raises in Hget. subst e. discriminate.
Qed.

Lemma bind_not_raise {A B : Type} (c : result A) (k : A -> result B) (e : exn) :
  c <> Raise e -> (forall a, c = Ok a -> k a <> Raise e) -> bind c k <> Raise e.
Proof.
  destruct c as [a|e']; cbn [bind]; intros Hc Hk; [apply Hk; reflexivity |].
  intros [= ->]. apply Hc. reflexivity.
Qed.

Lemma foldM_not_raise {A S : Type} (f : S -> A -> result S) (l : list A) (s : S)
      (e : exn) :
  (forall s a, In a l -> f s a <> Raise e) -> foldM f l s <> Raise e.
Proof.
  revert s. induction l as [|a l IH]; intros s Hf; cbn [foldM]; [discriminate |].
  apply bind_not_raise; [apply Hf; left; reflexivity |].
  intros s' _. apply IH. intros s1 b Hb. apply Hf. right. exact Hb.
Qed.

Lemma anyM_not_raise {A : Type} (f : A -> result bool) (l : list A) (e : exn) :
  (forall a, In a l -> f a <> Raise e) -> anyM f l <> Raise e.
Proof.
  induction l as [|a l IH]; intros Hf; cbn [anyM]; [discriminate |].
  apply bind_not_raise; [apply Hf; left; reflexivity |].
  intros [|] _; [discriminate |]. apply IH. intros b Hb. apply Hf. right. exact Hb.
Qed.

Lemma stone_at_not_fuel board tx ty c : stone_at board tx ty c <> Raise FuelExhausted.
Proof.
  unfold stone_at. destruct (in_1_19 tx ty); [| discriminate].
  destruct (board_get board tx ty) as [v|e] eqn:Hget; cbn [bind]; [discriminate |].
  apply board_get_raises in Hget. subst e. discriminate.
Qed.

(** On every board the line analysis ends with a result or an [IndexError]:
    [line_fuel] is enough. *)
Lemma analyze_line_fuel `{Defines} board x y direction color :
  In direction PatternRecognizer.directions ->
  PatternRecognizer._analyze_line board x y direction color <> Raise FuelExhausted.
Proof.
  intros Hd.
  assert (Hu : unit_step (fst direction) (snd direction)).
  { unfold PatternRecognizer.directions, unit_step in *. cbn [In] in Hd.
    destruct_or?; try contradiction; subst direction; cbn [fst snd]; lia. }
  destruct direction as [dx dy]. cbn [fst snd] in Hu.
  unfold PatternRecognizer._analyze_line.
  assert (Hb : forall tx ty sx sy, unit_step sx sy -> in_1_19 tx ty = true ->
                                   steps_left tx ty sx sy < Z.of_nat line_fuel).
  { intros tx ty sx sy Hs Hr. apply in_1_19_spec in Hr.
    unfold steps_left, line_fuel. destruct (sx =? 1), (sx =? -1), (sy =? 1); lia. }
  apply bind_not_raise;
    [apply count_line_fuel; [exact Hu | unfold line_fuel; lia | apply Hb; exact Hu] |].
  intros consecutive _. destruct (consecutive <? 2); [discriminate |].
  apply bind_not_raise;
    [apply line_start_fuel;
     [exact Hu | unfold line_fuel; lia | apply Hb; unfold unit_step in *; lia] |].
  intros [start_x start_y] _.
  apply bind_not_raise; [apply stone_at_not_fuel |]. intros before_open _.
  apply bind_not_raise; [apply stone_at_not_fuel |]. intros after_open _.
  destruct (PatternRecognizer._classify_threat consecutive before_open after_open)
    as [pattern_type threat_level].
  apply bind_not_raise.
  - destruct (after_open && (consecutive >=? 3)); [| discriminate].
    apply bind_not_raise; [apply stone_at_not_fuel |].
    intros [|] _; discriminate.
  - intros win_positions _. destruct pattern_type; discriminate.
Qed.

(** On every grid of side 21 the win check ends with a result or an
    [IndexError]: [scan_fuel] is enough. *)
Lemma is_win_by_premove_fuel `{Defines} board preMove :
  is_grid21 board = true ->
  Tools.is_win_by_premove board preMove <> Raise FuelExhausted.
Proof.
  intros Hg. unfold Tools.is_win_by_premove.
  apply anyM_not_raise. intros d Hd. apply anyM_not_raise. intros p _.
  assert (Hu : unit_step (fst d) (snd d) /\ unit_step (- fst d) (- snd d)).
  { unfold Tools.directions, unit_step in *. cbn [In] in Hd.
    destruct_or?; try contradiction; subst d; cbn [fst snd]; lia. }
  destruct Hu as [Hu Hu']. unfold Tools.premove_check.
  destruct (in_1_19 (StonePosition.x p) (StonePosition.y p)) eqn:Hr; cbn [negb];
    [| discriminate].
  apply in_1_19_spec in Hr.
  assert (Hb : forall tx ty sx sy,
             unit_step sx sy -> -1 <= tx <= 21 -> -1 <= ty <= 21 ->
             reads_left tx ty sx sy < Z.of_nat Tools.scan_fuel).
  { intros tx ty sx sy Hs Hx Hy. unfold reads_left, Tools.scan_fuel.
    destruct (sx =? 1), (sx =? -1), (sy =? 1); lia. }
  apply bind_not_raise.
  { intros Hget. apply board_get_raises in Hget. discriminate. }
  intros movStone _. destruct ((movStone =? BORDER) || (movStone =? NOSTONE));
    [discriminate |].
  unfold unit_step in Hu, Hu'.
  apply bind_not_raise.
  { apply count_while_fuel; [exact Hg | exact Hu | unfold Tools.scan_fuel; lia |].
    intros _ _. apply Hb; [exact Hu | lia | lia]. }
  intros count _. apply bind_not_raise; [| discriminate].
  apply count_while_fuel; [exact Hg | exact Hu' | unfold Tools.scan_fuel; lia |].
  intros _ _. apply Hb; [exact Hu' | lia | lia].
Qed.

(* ===================================================================== *)
(** * Winning and defensive moves of the position analysis *)
(* ===================================================================== *)

Section Analysis.
Context `{Defines} `{Python}.

Lemma stone_at_true (board : Board) (tx ty c : Z) :
  stone_at board tx ty c = Ok true ->
  in_1_19 tx ty = true /\ board_get board tx ty = Ok c.
Proof.
  unfold stone_at. destruct (in_1_19 tx ty); [| discriminate].
  intros Hs. bind_inv Hs. injection Hs as Hs.
  apply Z.eqb_eq in Hs. subst. auto.
Qed.

Lemma analyze_line_win_positions board x y direction color t :
  PatternRecognizer._analyze_line board x y direction color = Ok (Some t) ->
  forall p, In p (ThreatPattern.win_positions t) -> empty_playable board p.
Proof.
  unfold PatternRecognizer._analyze_line. destruct direction as [dx dy].
  intros Ha. bind_inv Ha. rename a into consecutive.
  destruct (consecutive <? 2); [discriminate |].
  bind_inv Ha. destruct a as [start_x start_y].
  bind_inv Ha. rename a into before_open.
  bind_inv Ha. rename a into after_open.
  destruct (PatternRecognizer._classify_threat consecutive before_open after_open)
    as [pattern_type threat_level].
  bind_inv Ha. rename a into win_positions.
  destruct pattern_type as [ty|]; [| discriminate].
  injection Ha as <-. cbn [ThreatPattern.win_positions].
  assert (Hb : before_open = true ->
               empty_playable board (start_x - dx, start_y - dy)).
  { intros ->. apply stone_at_true in Hstep1. exact Hstep1. }
  assert (Ha : after_open = true ->
               empty_playable board (start_x + consecutive * dx,
                                     start_y + consecutive * dy)).
  { intros ->. apply stone_at_true in Hstep2. exact Hstep2. }
  intros p Hp.
  destruct before_open, after_open; cbn [andb app] in Hstep3;
    try (destruct (consecutive >=? 3));
    try (bind_inv Hstep3; destruct a);
    injection Hstep3 as <-;
    repeat (rewrite in_app_iff in Hp; cbn [In] in Hp);
    cbn [In] in Hp; destruct_or?; try contradiction; subst p;
    try (apply Hb; reflexivity); try (apply Ha; reflexivity).
Qed.

Lemma analyze_direction_ok board x y color acc direction acc' :
  moves_ok board acc ->
  PatternRecognizer.analyze_direction board x y color acc direction = Ok acc' ->
  moves_ok board acc'.
Proof.
  intros Hacc Hd. unfold PatternRecognizer.analyze_direction in Hd.
  bind_inv Hd. destruct a as [t|]; [| injection Hd as <-; exact Hacc].
  pose proof (analyze_line_win_positions _ _ _ _ _ _ Hstep) as Hwin.
  injection Hd as <-. intros p. cbn [PatternRecognizer.winning_moves
                                      PatternRecognizer.defensive_moves].
  destruct (ThreatPattern.threat_level t >=? 5);
    [| destruct (ThreatPattern.threat_level t >=? 4)];
    rewrite !in_app_iff; intros Hp; destruct_or?;
    try (apply Hwin; assumption);
    apply Hacc; rewrite in_app_iff; auto.
Qed.

Lemma analyze_cell_ok board color x acc y acc' :
  moves_ok board acc ->
  PatternRecognizer.analyze_cell board color x acc y = Ok acc' ->
  moves_ok board acc'.
Proof.
  intros Hacc Hc. unfold PatternRecognizer.analyze_cell in Hc.
  bind_inv Hc. destruct (a =? color); [| injection Hc as <-; exact Hacc].
  apply (foldM_invariant (moves_ok board) _ _ _ _) in Hc; [exact Hc | | exact Hacc].
  intros s d s' _ Hs Hd. exact (analyze_direction_ok _ _ _ _ _ _ _ Hs Hd).
Qed.

Lemma set_to_list_sub (l : list (Z * Z)) (p : Z * Z) :
  PythonSets -> In p (set_to_list (list_to_set l)) -> In p l.
Proof.
  intros Hsets Hp. apply list_elem_of_In.
  apply list_elem_of_In in Hp. rewrite (Hsets (list_to_set l)) in Hp.
  apply elem_of_elements in Hp. apply elem_of_list_to_set in Hp. exact Hp.
Qed.

Lemma analyze_position_moves_ok board color a :
  PythonSets ->
  PatternRecognizer.analyze_position board color = Ok a ->
  moves_ok board a.
Proof.
  intros Hsets Ha. unfold PatternRecognizer.analyze_position in Ha.
  bind_inv Ha. rename a0 into acc. injection Ha as <-.
  assert (Hacc : moves_ok board acc).
  { apply (foldM_invariant (moves_ok board) _ _ _ _) in Hstep; [exact Hstep | |].
    - intros s x s' _ Hs Hrow.
      apply (foldM_invariant (moves_ok board) _ _ _ _) in Hrow; [exact Hrow | | exact Hs].
      intros s1 y s2 _ Hs1 Hcell. exact (analyze_cell_ok _ _ _ _ _ _ Hs1 Hcell).
    - intros p []. }
  intros p. cbn [PatternRecognizer.winning_moves PatternRecognizer.defensive_moves].
  rewrite in_app_iff. intros [Hp | Hp]; apply set_to_list_sub in Hp; try exact Hsets;
    apply Hacc; rewrite in_app_iff; auto.
Qed.

(** ** The analysis of a grid returns *)

Lemma stone_at_grid board tx ty c :
  is_grid21 board = true -> exists r, stone_at board tx ty c = Ok r.
Proof.
  intros Hg. unfold stone_at. destruct (in_1_19 tx ty) eqn:Hr; [| eauto].
  apply in_1_19_spec in Hr.
  destruct (grid21_cell board tx ty Hg) as (v & _ & ->); [lia | lia |].
  simpl. eauto.
Qed.

Lemma count_line_total board color fuel tx ty sx sy count :
  is_grid21 board = true -> unit_step sx sy ->
  (0 < fuel)%nat ->
  (in_1_19 tx ty = true -> steps_left tx ty sx sy < Z.of_nat fuel) ->
  exists n, count_line fuel board color tx ty sx sy count = Ok n.
Proof.
  intros Hg Hu. revert tx ty count.
  induction fuel as [|fuel IH]; intros tx ty count Hpos Hleft; [lia |].
  cbn [count_line]. unfold stone_at.
  destruct (in_1_19 tx ty) eqn:Hr; [| simpl; eauto].
  specialize (Hleft eq_refl). apply in_1_19_spec in Hr.
  destruct (grid21_cell board tx ty Hg) as (v & _ & ->); [lia | lia |].
  simpl. destruct (v =? color); [| eauto].
  unfold unit_step in Hu. unfold steps_left in Hleft.
  apply IH.
  - destruct (Z.eqb_spec sx 1); [lia |]. destruct (Z.eqb_spec sx (-1)); [lia |].
    destruct (Z.eqb_spec sy 1); lia.
  - intros Hr'. apply in_1_19_spec in Hr'. unfold steps_left.
    destruct (Z.eqb_spec sx 1); [lia |]. destruct (Z.eqb_spec sx (-1)); [lia |].
    destruct (Z.eqb_spec sy 1); lia.
Qed.

Lemma line_start_total board color fuel tx ty dx dy start :
  is_grid21 board = true -> unit_step dx dy ->
  (0 < fuel)%nat ->
  (in_1_19 tx ty = true -> steps_left tx ty (- dx) (- dy) < Z.of_nat fuel) ->
  exists s, line_start fuel board color tx ty dx dy start = Ok s.
Proof.
  intros Hg Hu. revert tx ty start.
  induction fuel as [|fuel IH]; intros tx ty start Hpos Hleft; [lia |].
  cbn [line_start]. unfold stone_at.
  destruct (in_1_19 tx ty) eqn:Hr; [| simpl; eauto].
  specialize (Hleft eq_refl). apply in_1_19_spec in Hr.
  destruct (grid21_cell board tx ty Hg) as (v & _ & ->); [lia | lia |].
  simpl. destruct (v =? color); [| eauto].
  unfold unit_step in Hu. unfold steps_left in Hleft.
  apply IH.
  - destruct (Z.eqb_spec (- dx) 1); [lia |]. destruct (Z.eqb_spec (- dx) (-1)); [lia |].
    destruct (Z.eqb_spec (- dy) 1); lia.
  - intros Hr'. apply in_1_19_spec in Hr'. unfold steps_left.
    destruct (Z.eqb_spec (- dx) 1); [lia |]. destruct (Z.eqb_spec (- dx) (-1)); [lia |].
    destruct (Z.eqb_spec (- dy) 1); lia.
Qed.

Lemma steps_left_bound tx ty sx sy :
  unit_step sx sy -> in_1_19 tx ty = true -> steps_left tx ty sx sy < 21.
Proof.
  intros Hu Hr. apply in_1_19_spec in Hr. unfold steps_left.
  destruct (sx =? 1), (sx =? -1), (sy =? 1); lia.
Qed.

Lemma directions_unit d :
  In d PatternRecognizer.directions -> unit_step (fst d) (snd d).
Proof.
  unfold PatternRecognizer.directions, unit_step. cbn [In].
  intros Hd. destruct_or?; try contradiction; subst d; cbn [fst snd]; lia.
Qed.

Lemma analyze_line_total board x y direction color :
  is_grid21 board = true -> In direction PatternRecognizer.directions ->
  exists r, PatternRecognizer._analyze_line board x y direction color = Ok r.
Proof.
  intros Hg Hd. apply directions_unit in Hd. destruct direction as [dx dy].
  cbn [fst snd] in Hd. unfold PatternRecognizer._analyze_line.
  destruct (count_line_total board color line_fuel (x + dx) (y + dy) dx dy 1 Hg Hd)
    as (consecutive & ->);
    [unfold line_fuel; lia | apply steps_left_bound; exact Hd |].
  cbn [bind]. destruct (consecutive <? 2); [eauto |].
  destruct (line_start_total board color line_fuel (x - dx) (y - dy) dx dy (x, y) Hg Hd)
    as ([start_x start_y] & ->);
    [unfold line_fuel; lia
    | apply steps_left_bound; unfold unit_step in *; lia |].
  cbn [bind].
  destruct (stone_at_grid board (start_x - dx) (start_y - dy) NOSTONE Hg)
    as (before_open & ->).
  cbn [bind].
  destruct (stone_at_grid board (start_x + consecutive * dx)
              (start_y + consecutive * dy) NOSTONE Hg) as (after_open & ->).
  cbn [bind].
  destruct (PatternRecognizer._classify_threat consecutive before_open after_open)
    as [pattern_type threat_level].
  destruct (after_open && (consecutive >=? 3)).
  - destruct (stone_at_grid board (start_x + consecutive * dx + dx)
                (start_y + consecutive * dy + dy) color Hg) as (g & ->).
    cbn [bind]. destruct g, pattern_type; cbn [bind]; eauto.
  - cbn [bind]. destruct pattern_type; eauto.
Qed.

Lemma analyze_position_total board color :
  is_grid21 board = true ->
  exists a, PatternRecognizer.analyze_position board color = Ok a.
Proof.
  intros Hg. unfold PatternRecognizer.analyze_position.
  match goal with
  | |- context [foldM ?f ?l ?s] =>
      destruct (foldM_total (fun _ => True) f l s) as (acc & -> & _)
  end; [| exact I | cbn [bind]; eauto].
  intros s x Hx _. apply elem_of_range in Hx.
  apply (foldM_total (fun _ => True)); [| exact I].
  intros s1 y Hy _. apply elem_of_range in Hy.
  unfold PatternRecognizer.analyze_cell.
  destruct (grid21_cell board x y Hg) as (v & _ & ->); [lia | lia |].
  cbn [bind]. destruct (v =? color); [| eauto].
  apply (foldM_total (fun _ => True)); [| exact I].
  intros s2 d Hd _. unfold PatternRecognizer.analyze_direction.
  destruct (analyze_line_total board x y d color Hg Hd) as (r & ->).
  cbn [bind]. destruct r; eauto.
Qed.

Lemma immediate_wins_ok board color wins :
  PythonSets ->
  Evaluator.detect_immediate_win board color = Ok wins ->
  forall p, In p wins -> empty_playable board p.
Proof.
  intros Hsets Hw. unfold Evaluator.detect_immediate_win in Hw.
  bind_inv Hw. injection Hw as <-.
  intros p Hp. apply (analyze_position_moves_ok _ _ _ Hsets Hstep).
  rewrite in_app_iff. auto.
Qed.

(** The second stone of the winning shortcut is an empty playable cell next
    to the first one, or the fallback (10, 10). *)
Lemma find_second_stone_ok pos1 board p :
  SearchEngine._find_second_stone pos1 board = Ok p ->
  empty_playable board p \/ p = (10, 10).
Proof.
  unfold SearchEngine._find_second_stone. intros Hf. bind_inv Hf.
  injection Hf as <-.
  pose (P := fun found : option (Z * Z) =>
               forall q, found = Some q -> empty_playable board q).
  assert (Hinv : P a).
  { refine (foldM_invariant P _ _ _ _ _ _ Hstep); [| discriminate].
    intros s dx s' _ Hs Hrow.
    refine (foldM_invariant P _ _ _ _ _ Hs Hrow).
    intros s1 dy s2 _ Hs1 Hcell. destruct s1 as [q1|].
    - injection Hcell as <-. exact Hs1.
    - bind_inv Hcell. destruct a0; cbn [andb] in Hcell.
      + destruct (negb _); injection Hcell as <-; [| discriminate].
        intros q [= <-]. apply stone_at_true in Hstep0. exact Hstep0.
      + injection Hcell as <-. discriminate. }
  destruct a as [q|]; cbn [default]; [left; apply Hinv; reflexivity | right; reflexivity].
Qed.

(** The moves of the analysis are on empty playable cells.  On every grid
    the analysis returns, and every coordinate of the [winning_moves] and
    [defensive_moves] it returns, for any colour, lies in [1,19] x [1,19]
    and names a cell that is empty on the analysed board.  So the stones
    the tactical shortcut takes from these lists go on empty playable
    cells: the first stone always, and the second one too when the shortcut
    blocks two winning cells of the opponent.  The second stone of the
    winning shortcut is not taken from a list: it is an empty neighbour of
    the first, or the fallback (10, 10) whatever that cell holds. *)
Theorem analysis_moves_are_empty_playable (board : Board) (color : Z) :
  PythonSets ->
  (is_grid21 board = true ->
   exists a, PatternRecognizer.analyze_position board color = Ok a)
  /\ (forall a,
        PatternRecognizer.analyze_position board color = Ok a ->
        forall p,
          In p (PatternRecognizer.winning_moves a)
          \/ In p (PatternRecognizer.defensive_moves a) ->
          1 <= fst p <= 19 /\ 1 <= snd p <= 19
          /\ board_get board (fst p) (snd p) = Ok NOSTONE)
  /\ (forall self best_move m s,
        SearchEngine.m_board self = board ->
        SearchEngine.tactical_shortcut self color best_move = Ok (Some (m, s)) ->
        empty_playable board (pair_of (StoneMove.pos0 m))
        /\ (Evaluator.detect_immediate_win board color = Ok [] ->
            empty_playable board (pair_of (StoneMove.pos1 m)))
        /\ (empty_playable board (pair_of (StoneMove.pos1 m))
            \/ pair_of (StoneMove.pos1 m) = (10, 10))).
Proof.
  intros Hsets. split; [| split].
  - apply analyze_position_total.
  - intros a Ha p Hp.
    destruct (analyze_position_moves_ok _ _ _ Hsets Ha p) as [Hr He];
      [rewrite in_app_iff; exact Hp |].
    apply in_1_19_spec in Hr. tauto.
  - intros self best_move m s <- Hts. unfold SearchEngine.tactical_shortcut in Hts.
    bind_inv Hts. rename a into wins.
    pose proof (immediate_wins_ok _ _ _ Hsets Hstep) as Hwins.
    destruct wins as [|w wins].
    + bind_inv Hts. rename a into opp_wins.
      pose proof (immediate_wins_ok _ _ _ Hsets Hstep0) as Hopp.
      destruct opp_wins as [|w0 [|w1 opp_wins]]; try discriminate.
      injection Hts as <- <-. unfold pair_of, StoneMove.of_pairs.
      cbn [StoneMove.pos0 StoneMove.pos1 StonePosition.x StonePosition.y].
      rewrite <- !surjective_pairing.
      assert (Hw1 : empty_playable (SearchEngine.m_board self) w1)
        by (apply Hopp; right; left; reflexivity).
      split; [apply Hopp; left; reflexivity |]. split; [intros _; exact Hw1 |].
      left. exact Hw1.
    + bind_inv Hts. injection Hts as <- <-. unfold pair_of, StoneMove.of_pairs.
      cbn [StoneMove.pos0 StoneMove.pos1 StonePosition.x StonePosition.y].
      rewrite <- !surjective_pairing.
      split; [apply Hwins; left; reflexivity |]. split.
      * intros Hnone. rewrite Hstep in Hnone. discriminate.
      * exact (find_second_stone_ok _ _ _ Hstep0).
Qed.

End Analysis.

Lemma simple_python_sets : @PythonSets simple_python.
Proof. intros s. reflexivity. Qed.

Lemma analysis_moves_are_empty_playable_witness :
  @PythonSets simple_python
  /\ exists a,
      @PatternRecognizer.analyze_position connect6_defines simple_python
        five_in_row_board 1 = Ok a
      /\ In (10, 9) (PatternRecognizer.winning_moves a)
      /\ board_get five_in_row_board 10 9 = Ok 0.
Proof.
  split; [exact simple_python_sets |].
  destruct (@analysis_moves_are_empty_playable connect6_defines simple_python
              five_in_row_board 1 simple_python_sets) as (Htot & Hok & _).
  destruct Htot as [a Ha]; [vm_compute; reflexivity |].
  exists a. split; [exact Ha |].
  assert (Hin : In (10, 9) (PatternRecognizer.winning_moves a)).
  { assert (Hw : PatternRecognizer.winning_moves <$>
                 (match @PatternRecognizer.analyze_position connect6_defines
                          simple_python five_in_row_board 1 with
                  | Ok a' => Some a' | Raise _ => None end)
                 = Some [(10, 15); (10, 9)]) by (vm_compute; reflexivity).
    rewrite Ha in Hw. injection Hw as ->. right. left. reflexivity. }
  split; [exact Hin |].
  apply (Hok a Ha (10, 9)). left. exact Hin.
Defined.

(** C10 (defect).  The tactical shortcut can put its second stone on an occupied
    cell.  On [blocked_win_board] black has one winning cell, (1, 6); none
    of its neighbours in range is empty, so [_find_second_stone] answers
    with its fallback (10, 10) without looking at the cell, which holds a
    white stone; the shortcut returns the move on (1, 6) and (10, 10). *)
Theorem tactical_shortcut_plays_an_occupied_cell :
  @well_formed connect6_defines blocked_win_board = true
  /\ @Evaluator.detect_immediate_win connect6_defines simple_python
       blocked_win_board 1 = Ok [(1, 6)]
  /\ @SearchEngine._find_second_stone connect6_defines (1, 6) blocked_win_board
     = Ok (10, 10)
  /\ @SearchEngine.tactical_shortcut connect6_defines simple_python
       blocked_win_node 1 quiet_move
     = Ok (Some (StoneMove.of_pairs (1, 6) (10, 10) 0, 19999))
  /\ board_get blocked_win_board 10 10 = Ok 2.
Proof. repeat split; vm_compute; reflexivity. Qed.

(* ===================================================================== *)
(** * The win check on the last move *)
(* ===================================================================== *)

Section WinCheck.
Context `{Defines}.

Lemma well_formed_grid board : well_formed board = true -> is_grid21 board = true.
Proof. unfold well_formed. rewrite andb_true_iff. tauto. Qed.

(** On a well-formed board a cell off the border lies in [1,19] x [1,19]. *)
Lemma well_formed_inner board x y s :
  well_formed board = true -> 0 <= x <= 20 -> 0 <= y <= 20 ->
  cell_at board x y = Some s -> s <> BORDER ->
  1 <= x <= 19 /\ 1 <= y <= 19.
Proof.
  unfold well_formed. rewrite andb_true_iff, forallb_forall.
  intros [_ Hb] Hx Hy Hs Hne.
  assert (Hbx := Hb x). assert (Hby := Hb y).
  rewrite elem_of_range in Hbx, Hby.
  specialize (Hbx ltac:(lia)). specialize (Hby ltac:(lia)).
  unfold border_line in Hbx, Hby.
  rewrite !andb_true_iff, !bool_decide_eq_true in Hbx, Hby.
  destruct Hbx as (((_ & _) & Hx0) & Hx20).
  destruct Hby as (((Hy0 & Hy20) & _) & _).
  assert (x <> 0) by (intros ->; congruence).
  assert (x <> 20) by (intros ->; congruence).
  assert (y <> 0) by (intros ->; congruence).
  assert (y <> 20) by (intros ->; congruence).
  lia.
Qed.

(** The unguarded scan of [is_win_by_premove] stops at the border at the
    latest: it returns, having counted the [n] cells of the stone's colour
    that follow one another from [(tx, ty)] on. *)
Lemma count_while_run board s fuel tx ty sx sy count :
  well_formed board = true -> s <> BORDER -> unit_step sx sy ->
  0 <= tx <= 20 -> 0 <= ty <= 20 ->
  steps_left tx ty sx sy < Z.of_nat fuel ->
  exists n,
    0 <= n
    /\ Tools.count_while fuel board s tx ty sx sy count = Ok (count + n)
    /\ (forall j, 0 <= j < n -> cell_at board (tx + j * sx) (ty + j * sy) = Some s)
    /\ cell_at board (tx + n * sx) (ty + n * sy) <> Some s.
Proof.
  intros Hwf Hs Hu. revert tx ty count.
  induction fuel as [|fuel IH]; intros tx ty count Hx Hy Hleft.
  - exfalso. unfold steps_left in Hleft.
    destruct (sx =? 1), (sx =? -1), (sy =? 1); lia.
  - cbn [Tools.count_while].
    destruct (grid21_cell board tx ty (well_formed_grid _ Hwf) Hx Hy)
      as (v & Hcell & ->).
    cbn [bind]. destruct (Z.eqb_spec v s) as [-> | Hvs].
    + destruct (well_formed_inner board tx ty s Hwf Hx Hy Hcell Hs) as [Hx' Hy'].
      assert (Hstep : steps_left (tx + sx) (ty + sy) sx sy
                      = steps_left tx ty sx sy - 1).
      { unfold unit_step in Hu. unfold steps_left.
        destruct (Z.eqb_spec sx 1); [lia |]. destruct (Z.eqb_spec sx (-1)); [lia |].
        destruct (Z.eqb_spec sy 1); lia. }
      destruct (IH (tx + sx) (ty + sy) (count + 1)) as (n & Hn & -> & Hrun & Hend).
      * unfold unit_step in Hu. lia.
      * unfold unit_step in Hu. lia.
      * lia.
      * exists (n + 1). split; [lia |]. split; [f_equal; lia |]. split.
        -- intros j Hj. destruct (Z.eq_dec j 0) as [-> | Hj0].
           ++ rewrite !Z.mul_0_l, !Z.add_0_r. exact Hcell.
           ++ specialize (Hrun (j - 1) ltac:(lia)).
              replace (tx + j * sx) with (tx + sx + (j - 1) * sx) by lia.
              replace (ty + j * sy) with (ty + sy + (j - 1) * sy) by lia.
              exact Hrun.
        -- replace (tx + (n + 1) * sx) with (tx + sx + n * sx) by lia.
           replace (ty + (n + 1) * sy) with (ty + sy + n * sy) by lia.
           exact Hend.
    + exists 0. split; [lia |]. split; [f_equal; lia |]. split.
      * intros j Hj. lia.
      * rewrite !Z.mul_0_l, !Z.add_0_r, Hcell. congruence.
Qed.

(** The two maximal runs on either side of a stone add up to five or more
    exactly when a window of six passes through it. *)
Lemma runs_six board s x y dx dy f bk :
  cell_at board x y = Some s ->
  0 <= f -> 0 <= bk ->
  (forall j, 0 <= j < f ->
     cell_at board (x + dx + j * dx) (y + dy + j * dy) = Some s) ->
  cell_at board (x + dx + f * dx) (y + dy + f * dy) <> Some s ->
  (forall j, 0 <= j < bk ->
     cell_at board (x - dx + j * - dx) (y - dy + j * - dy) = Some s) ->
  cell_at board (x - dx + bk * - dx) (y - dy + bk * - dy) <> Some s ->
  (6 <= 1 + f + bk <-> six_through board s x y dx dy).
Proof.
  intros Hc Hf Hbk Hfrun Hfend Hbrun Hbend. split.
  - intros Hsix. exists (Z.min bk 5). split; [lia |].
    intros k Hk. set (o := k - Z.min bk 5).
    destruct (Z.lt_trichotomy o 0) as [Ho | [Ho | Ho]].
    + specialize (Hbrun (- o - 1) ltac:(lia)).
      replace (x + o * dx) with (x - dx + (- o - 1) * - dx) by ring.
      replace (y + o * dy) with (y - dy + (- o - 1) * - dy) by ring.
      exact Hbrun.
    + rewrite Ho, !Z.mul_0_l, !Z.add_0_r. exact Hc.
    + specialize (Hfrun (o - 1) ltac:(lia)).
      replace (x + o * dx) with (x + dx + (o - 1) * dx) by ring.
      replace (y + o * dy) with (y + dy + (o - 1) * dy) by ring.
      exact Hfrun.
  - intros (i & Hi & Hwin).
    assert (Hfi : 5 - i <= f).
    { destruct (Z.le_gt_cases (5 - i) f) as [Hle | Hgt]; [exact Hle |].
      exfalso. apply Hfend. specialize (Hwin (i + f + 1) ltac:(lia)).
      replace (x + dx + f * dx) with (x + (i + f + 1 - i) * dx) by ring.
      replace (y + dy + f * dy) with (y + (i + f + 1 - i) * dy) by ring.
      exact Hwin. }
    assert (Hbi : i <= bk).
    { destruct (Z.le_gt_cases i bk) as [Hle | Hgt]; [exact Hle |].
      exfalso. apply Hbend. specialize (Hwin (i - bk - 1) ltac:(lia)).
      replace (x - dx + bk * - dx) with (x + (i - bk - 1 - i) * dx) by ring.
      replace (y - dy + bk * - dy) with (y + (i - bk - 1 - i) * dy) by ring.
      exact Hwin. }
    lia.
Qed.

Lemma tools_directions_unit d :
  In d Tools.directions ->
  unit_step (fst d) (snd d) /\ unit_step (- fst d) (- snd d).
Proof.
  unfold Tools.directions, unit_step. cbn [In].
  intros Hd. destruct_or?; try contradiction; subst d; cbn [fst snd]; lia.
Qed.

Lemma steps_left_fuel tx ty sx sy :
  unit_step sx sy -> 0 <= tx <= 20 -> 0 <= ty <= 20 ->
  steps_left tx ty sx sy < Z.of_nat Tools.scan_fuel.
Proof.
  intros Hu Hx Hy. unfold steps_left, Tools.scan_fuel.
  destruct (sx =? 1), (sx =? -1), (sy =? 1); lia.
Qed.

(** One iteration of the check returns and says whether a six runs through
    the stone of that iteration in its direction. *)
Lemma premove_check_spec board d p :
  well_formed board = true -> In d Tools.directions ->
  exists r,
    Tools.premove_check board d p = Ok r
    /\ (r = true <->
        1 <= StonePosition.x p <= 19 /\ 1 <= StonePosition.y p <= 19
        /\ exists s,
            cell_at board (StonePosition.x p) (StonePosition.y p) = Some s
            /\ s <> BORDER /\ s <> NOSTONE
            /\ six_through board s (StonePosition.x p) (StonePosition.y p)
                 (fst d) (snd d)).
Proof.
  intros Hwf Hd. destruct (tools_directions_unit d Hd) as [Hu Hu'].
  destruct p as [x y]. destruct d as [dx dy].
  cbn [StonePosition.x StonePosition.y fst snd] in *.
  unfold Tools.premove_check. cbn [StonePosition.x StonePosition.y fst snd].
  destruct (in_1_19 x y) eqn:Hr; cbn [negb].
  - apply in_1_19_spec in Hr. destruct Hr as [Hx Hy].
    destruct (grid21_cell board x y (well_formed_grid _ Hwf))
      as (v & Hcell & ->); [lia | lia |].
    cbn [bind].
    destruct (Z.eqb_spec v BORDER) as [Hvb | Hvb];
      [| destruct (Z.eqb_spec v NOSTONE) as [Hvn | Hvn]]; cbn [orb].
    + exists false. split; [reflexivity |]. split; [discriminate |].
      intros (_ & _ & s & Hs & Hsb & _). congruence.
    + exists false. split; [reflexivity |]. split; [discriminate |].
      intros (_ & _ & s & Hs & _ & Hsn & _). congruence.
    + unfold unit_step in Hu.
      destruct (count_while_run board v Tools.scan_fuel (x + dx) (y + dy) dx dy 1
                  Hwf Hvb)
        as (f & Hf & -> & Hfrun & Hfend);
        [exact Hu | lia | lia | apply steps_left_fuel; [exact Hu | lia | lia] |].
      cbn [bind].
      destruct (count_while_run board v Tools.scan_fuel (x - dx) (y - dy)
                  (- dx) (- dy) (1 + f) Hwf Hvb)
        as (bk & Hbk & -> & Hbrun & Hbend);
        [exact Hu' | lia | lia | apply steps_left_fuel; [exact Hu' | lia | lia] |].
      cbn [bind]. eexists. split; [reflexivity |].
      rewrite Z.leb_le.
      rewrite (runs_six board v x y dx dy f bk Hcell Hf Hbk Hfrun Hfend Hbrun Hbend).
      split.
      * intros Hsix. split; [lia |]. split; [lia |]. exists v. auto.
      * intros (_ & _ & s & Hs & _ & _ & Hsix).
        rewrite Hcell in Hs. injection Hs as <-. exact Hsix.
  - exists false. split; [reflexivity |]. split; [discriminate |].
    intros (Hx & Hy & _).
    assert (Hr' : in_1_19 x y = true) by (apply in_1_19_spec; lia).
    congruence.
Qed.

Lemma anyM_spec {A : Type} (f : A -> result bool) (l : list A) :
  (forall a, In a l -> exists r, f a = Ok r) ->
  exists r, anyM f l = Ok r /\ (r = true <-> exists a, In a l /\ f a = Ok true).
Proof.
  induction l as [|a l IH]; intros Htot; cbn [anyM].
  - exists false. split; [reflexivity |]. split; [discriminate |].
    intros (a & [] & _).
  - destruct (Htot a) as ([|] & Ha); [left; reflexivity | |]; rewrite Ha; cbn [bind].
    + exists true. split; [reflexivity |]. split; [| reflexivity].
      intros _. exists a. split; [left; reflexivity | exact Ha].
    + destruct IH as (r & -> & Hr).
      { intros b Hb. apply Htot. right. exact Hb. }
      exists r. split; [reflexivity |]. rewrite Hr. split.
      * intros (b & Hb & Hfb). exists b. split; [right; exact Hb | exact Hfb].
      * intros (b & [<- | Hb] & Hfb); [congruence |]. exists b. auto.
Qed.


End WinCheck.


(* ===================================================================== *)
(** * Move generation in a critical position *)
(* ===================================================================== *)

Section CriticalMoves.
Context `{Defines} `{Python}.

Lemma forallb_lengths (b : Board) :
  forallb (fun row => (length row =? 21)%nat) b
  = forallb (fun n => (n =? 21)%nat) (map length b).
Proof. induction b as [|row b IH]; simpl; [reflexivity | rewrite IH; reflexivity]. Qed.

Lemma is_grid21_lengths (b b' : Board) :
  map length b' = map length b -> is_grid21 b' = is_grid21 b.
Proof.
  intros Hlen. unfold is_grid21. rewrite !forallb_lengths, Hlen.
  rewrite <- (length_map length b'), <- (length_map length b), Hlen. reflexivity.
Qed.

(** Writing a cell of a grid succeeds and leaves a grid. *)
Lemma board_set_grid (board : Board) (x y v : Z) :
  is_grid21 board = true -> 0 <= x <= 20 -> 0 <= y <= 20 ->
  exists board', board_set board x y v = Ok board' /\ is_grid21 board' = true.
Proof.
  intros Hg Hx Hy.
  destruct (grid21_cell board x y Hg Hx Hy) as (v0 & _ & Hget).
  apply board_get_cells in Hget; [| lia | lia].
  destruct (board_set_spec board x y v) as (b' & Hset & Hlen & _);
    [lia | lia | eauto |].
  exists b'. split; [exact Hset |].
  rewrite (is_grid21_lengths _ _ Hlen). exact Hg.
Qed.

Lemma critical_cell_total color x st y :
  is_grid21 (snd st) = true -> 1 <= x <= 19 -> 1 <= y <= 19 ->
  exists st', Evaluator.critical_cell color x st y = Ok st'
              /\ is_grid21 (snd st') = true.
Proof.
  destruct st as [cm board]. cbn [snd]. intros Hg Hx Hy.
  unfold Evaluator.critical_cell.
  destruct (grid21_cell board x y Hg) as (v & _ & ->); [lia | lia |].
  cbn [bind]. destruct (v =? NOSTONE); [| eauto].
  destruct (board_set_grid board x y color Hg) as (b1 & -> & Hg1); [lia | lia |].
  cbn [bind].
  destruct (analyze_position_total b1 color Hg1) as (a & ->). cbn [bind].
  destruct (board_set_grid b1 x y NOSTONE Hg1) as (b2 & -> & Hg2); [lia | lia |].
  cbn [bind]. eauto.
Qed.

(** On a grid the search for critical moves returns. *)
Lemma detect_critical_moves_total board color :
  is_grid21 board = true ->
  exists r, Evaluator.detect_critical_moves board color = Ok r.
Proof.
  intros Hg. unfold Evaluator.detect_critical_moves.
  match goal with
  | |- context [foldM ?f ?l ?s] =>
      destruct (foldM_total (fun st => is_grid21 (snd st) = true) f l s)
        as ([cm b] & -> & _)
  end; [| exact Hg | cbn [bind]; eauto].
  intros st x Hx Hst. apply elem_of_range in Hx.
  apply (foldM_total (fun st => is_grid21 (snd st) = true)); [| exact Hst].
  intros st1 y Hy Hst1. apply elem_of_range in Hy.
  apply critical_cell_total; [exact Hst1 | lia | lia].
Qed.

Lemma find_threat_combinations_total board color a :
  PatternRecognizer.analyze_position board color = Ok a ->
  exists c, PatternRecognizer.find_threat_combinations board color = Ok c.
Proof.
  intros Ha. unfold PatternRecognizer.find_threat_combinations.
  rewrite Ha. cbn [bind]. eauto.
Qed.

(** The position is reported as critical when one of the two analyses
    reaches level 4. *)
Lemma get_threat_analysis_value board color a_own a_opp :
  PatternRecognizer.analyze_position board color = Ok a_own ->
  PatternRecognizer.analyze_position board (Evaluator.opponent_of color) = Ok a_opp ->
  exists ti,
    Evaluator.get_threat_analysis board color = Ok ti
    /\ Evaluator.critical_situation ti
       = (PatternRecognizer.critical_level a_own >=? 4)
         || (PatternRecognizer.critical_level a_opp >=? 4).
Proof.
  intros Hown Hopp. unfold Evaluator.get_threat_analysis.
  rewrite Hown. cbn [bind]. rewrite Hopp. cbn [bind].
  destruct (find_threat_combinations_total _ _ _ Hown) as (c1 & ->). cbn [bind].
  destruct (find_threat_combinations_total _ _ _ Hopp) as (c2 & ->). cbn [bind].
  eexists. split; reflexivity.
Qed.

(** C2 (defect).  On every grid, for every colour other than WHITE, every
    depth and every move limit: without a PV move, when neither side has a
    winning move and one of the two analyses reaches threat level 4 (the
    position is critical), [generate_moves] enters
    [_generate_critical_moves], which reads the opponent's colour from
    [Defines.opponent].  That member does not exist, so the call raises
    [AttributeError] instead of returning a list of moves.  For WHITE the
    same line reads [Defines.BLACK] and the generation goes on. *)
Theorem generate_moves_raises_in_critical_position
        (self : MoveGenerator.t) (board : Board) (color depth max_moves : Z)
        (a_own a_opp : PatternRecognizer.analysis) :
  is_grid21 board = true ->
  color <> WHITE ->
  PatternRecognizer.analyze_position board color = Ok a_own ->
  PatternRecognizer.analyze_position board WHITE = Ok a_opp ->
  PatternRecognizer.winning_moves a_own = [] ->
  PatternRecognizer.winning_moves a_opp = [] ->
  4 <= PatternRecognizer.critical_level a_own
  \/ 4 <= PatternRecognizer.critical_level a_opp ->
  MoveGenerator.generate_moves self board color depth max_moves None
  = Raise AttributeError.
Proof.
  intros Hg Hc Hown Hopp Hwo Hwp Hcrit.
  assert (Hop : Evaluator.opponent_of color = WHITE).
  { unfold Evaluator.opponent_of.
    destruct (Z.eqb_spec color WHITE); [contradiction | reflexivity]. }
  destruct (get_threat_analysis_value board color a_own a_opp Hown)
    as (ti & Hti & Hcs); [rewrite Hop; exact Hopp |].
  assert (Hcs' : Evaluator.critical_situation ti = true).
  { rewrite Hcs, orb_true_iff, !Z.geb_le. exact Hcrit. }
  destruct (detect_critical_moves_total board color Hg) as ([cm b'] & Hcm).
  unfold MoveGenerator.generate_moves.
  destruct (Z.eqb_spec color WHITE) as [Heq | _]; [contradiction |].
  unfold Evaluator.detect_immediate_win.
  rewrite Hown. cbn [bind]. rewrite Hwo. cbn [nonempty].
  rewrite Hopp. cbn [bind]. rewrite Hwp. cbn [nonempty].
  rewrite Hti. cbn [bind]. rewrite Hcs'.
  unfold MoveGenerator._generate_critical_moves.
  rewrite Hcm. cbn [bind].
  destruct (Z.eqb_spec color WHITE) as [Heq | _]; [contradiction |].
  reflexivity.
Qed.

End CriticalMoves.

(** Black to move on [straight_four_board], no PV move, the default limit
    of 40 moves: black's analysis holds the straight four, of level 4, and
    no winning move; white has no stone; the generation raises. *)
Lemma generate_moves_raises_in_critical_position_witness :
  (@is_grid21 straight_four_board = true /\ 1 <> 2)
  /\ @MoveGenerator.generate_moves connect6_defines simple_python
       (MoveGenerator.mk ∅) straight_four_board 1 3 40 None
     = Raise AttributeError.
Proof.
  assert (Hg : is_grid21 straight_four_board = true) by (vm_compute; reflexivity).
  split; [split; [exact Hg | lia] |].
  destruct (@analyze_position_total connect6_defines simple_python
              straight_four_board 1 Hg) as (a_own & Hown).
  destruct (@analyze_position_total connect6_defines simple_python
              straight_four_board 2 Hg) as (a_opp & Hopp).
  assert (Hfacts :
            (fun r => match r with
                      | Ok a => (PatternRecognizer.winning_moves a,
                                 PatternRecognizer.critical_level a)
                      | Raise _ => ([], 0)
                      end)
              (@PatternRecognizer.analyze_position connect6_defines simple_python
                 straight_four_board 1) = ([], 4)
            /\ (fun r => match r with
                         | Ok a => PatternRecognizer.winning_moves a
                         | Raise _ => [(0, 0)]
                         end)
                 (@PatternRecognizer.analyze_position connect6_defines simple_python
                    straight_four_board 2) = [])
    by (vm_compute; split; reflexivity).
  rewrite Hown, Hopp in Hfacts. destruct Hfacts as [Hf1 Hf2].
  injection Hf1 as Hw1 Hl1.
  apply (@generate_moves_raises_in_critical_position connect6_defines simple_python
           (MoveGenerator.mk ∅) straight_four_board 1 3 40 a_own a_opp);
    [exact Hg | simpl; lia | exact Hown | exact Hopp | exact Hw1 | exact Hf2
    | left; rewrite Hl1; lia].
Defined.

(* ===================================================================== *)
(** * tools.py: init_board *)
(* ===================================================================== *)

(** A loop that returns: the invariant may mention the elements handled so far. *)
Lemma foldM_total_seen {A S : Type} (I : list A -> S -> Prop) (f : S -> A -> result S)
      (l : list A) (s : S) :
  I [] s ->
  (forall seen a s, In a l -> I seen s -> exists s', f s a = Ok s' /\ I (seen ++ [a]) s') ->
  exists s', foldM f l s = Ok s' /\ I l s'.
Proof.
  intros H0 Hstep.
  assert (Hgen : forall seen, I seen s ->
            (forall seen a s, In a l -> I seen s ->
               exists s', f s a = Ok s' /\ I (seen ++ [a]) s') ->
            exists s', foldM f l s = Ok s' /\ I (seen ++ l) s').
  { clear H0 Hstep. revert s. induction l as [|a l IH]; intros s seen Hs Hstep.
    - exists s. rewrite app_nil_r. split; [reflexivity | exact Hs].
    - destruct (Hstep seen a s (or_introl eq_refl) Hs) as (s1 & Hf & Hs1).
      cbn [foldM]. rewrite Hf. cbn [bind].
      destruct (IH s1 (seen ++ [a]) Hs1) as (s2 & Hfold & Hs2).
      + intros seen' a' s' Ha'. apply Hstep. right. exact Ha'.
      + exists s2. split; [exact Hfold |].
        rewrite <- app_assoc in Hs2. exact Hs2. }
  apply (Hgen [] H0 Hstep).
Qed.

Section ToolsFacts.
Context `{Defines}.

(** Writing a cell of a grid: the call returns a grid in which that cell
    holds the value and every other cell is as before. *)
Lemma board_set_cell_at (board : Board) (x y v : Z) :
  is_grid21 board = true -> 0 <= x <= 20 -> 0 <= y <= 20 ->
  exists board',
    board_set board x y v = Ok board'
    /\ is_grid21 board' = true
    /\ forall i j, cell_at board' i j
                   = if decide (i = x /\ j = y) then Some v else cell_at board i j.
Proof.
  intros Hg Hx Hy.
  destruct (grid21_cell board x y Hg Hx Hy) as (v0 & _ & Hget).
  apply board_get_cells in Hget; [| lia | lia].
  destruct (board_set_spec board x y v) as (b' & Hset & Hlen & Hcells);
    [lia | lia | eauto |].
  exists b'. split; [exact Hset |].
  split; [rewrite (is_grid21_lengths _ _ Hlen); exact Hg |].
  intros i j. unfold cell_at.
  destruct (Z.leb_spec 0 i) as [Hi|Hi], (Z.leb_spec 0 j) as [Hj|Hj]; cbn [andb].
  - specialize (Hcells (Z.to_nat i) (Z.to_nat j)). unfold cells in Hcells.
    transitivity (match b' !! Z.to_nat i with
                  | Some row => row !! Z.to_nat j | None => None end).
    { destruct (b' !! Z.to_nat i); reflexivity. }
    rewrite Hcells.
    destruct (decide (Z.to_nat i = Z.to_nat x /\ Z.to_nat j = Z.to_nat y)) as [[E1 E2]|Hne].
    + rewrite decide_True by lia. reflexivity.
    + rewrite decide_False by lia.
      destruct (board !! Z.to_nat i); reflexivity.
  - rewrite decide_False by lia. reflexivity.
  - rewrite decide_False by lia. reflexivity.
  - rewrite decide_False by lia. reflexivity.
Qed.

(** The cell of a grid as [board_get] reads it. *)
Lemma grid21_get (board : Board) (x y v : Z) :
  is_grid21 board = true -> 0 <= x <= 20 -> 0 <= y <= 20 ->
  (board_get board x y = Ok v <-> cell_at board x y = Some v).
Proof. intros _ Hx Hy. apply board_get_cell_at; lia. Qed.

Lemma init_board_border_step (board : Board) (i : Z) :
  GRID_NUM = 21 -> is_grid21 board = true -> 0 <= i <= 20 ->
  exists b',
    Tools.init_board_border board i = Ok b'
    /\ is_grid21 b' = true
    /\ border_cells b' i
    /\ forall x y, cell_at board x y = Some BORDER -> cell_at b' x y = Some BORDER.
Proof.
  intros HG Hg Hi. unfold Tools.init_board_border. rewrite HG.
  replace (21 - 1) with 20 by lia.
  destruct (board_set_cell_at board i 0 BORDER Hg) as (b1 & -> & Hg1 & H1); [lia | lia |].
  cbn [bind].
  destruct (board_set_cell_at b1 0 i BORDER Hg1) as (b2 & -> & Hg2 & H2); [lia | lia |].
  cbn [bind].
  destruct (board_set_cell_at b2 i 20 BORDER Hg2) as (b3 & -> & Hg3 & H3); [lia | lia |].
  cbn [bind].
  destruct (board_set_cell_at b3 20 i BORDER Hg3) as (b4 & -> & Hg4 & H4); [lia | lia |].
  exists b4. split; [reflexivity |]. split; [exact Hg4 |].
  assert (Hkeep : forall x y, cell_at b4 x y = Some BORDER
                              \/ cell_at b4 x y = cell_at board x y).
  { intros x y. rewrite H4. destruct (decide (x = 20 /\ y = i)); [left; reflexivity |].
    rewrite H3. destruct (decide (x = i /\ y = 20)); [left; reflexivity |].
    rewrite H2. destruct (decide (x = 0 /\ y = i)); [left; reflexivity |].
    rewrite H1. destruct (decide (x = i /\ y = 0)); [left; reflexivity |].
    right. reflexivity. }
  split.
  - unfold border_cells. rewrite !H4, !H3, !H2, !H1.
    repeat split; repeat (destruct (decide _); try reflexivity); lia.
  - intros x y Hb. destruct (Hkeep x y) as [E|E]; [exact E | rewrite E; exact Hb].
Qed.

(** The first loop of [init_board] puts the border on the four edges. *)
Lemma init_board_border_loop (board : Board) :
  GRID_NUM = 21 -> is_grid21 board = true ->
  exists b',
    foldM Tools.init_board_border (range 0 21) board = Ok b'
    /\ is_grid21 b' = true
    /\ forall i, 0 <= i <= 20 -> border_cells b' i.
Proof.
  intros HG Hg.
  destruct (foldM_total_seen
              (fun seen b => is_grid21 b = true /\ forall i, In i seen -> border_cells b i)
              Tools.init_board_border (range 0 21) board) as (b' & Hf & Hg' & Hb').
  - split; [exact Hg | intros i []].
  - intros seen i b Hi [Hgb Hseen]. apply elem_of_range in Hi.
    destruct (init_board_border_step b i HG Hgb) as (b1 & Hs & Hg1 & Hb1 & Hk); [lia |].
    exists b1. split; [exact Hs |]. split; [exact Hg1 |].
    intros k Hk'. apply in_app_iff in Hk'. destruct Hk' as [Hk' | [<- | []]].
    + destruct (Hseen k Hk') as (B1 & B2 & B3 & B4).
      unfold border_cells. auto.
    + exact Hb1.
  - exists b'. split; [exact Hf |]. split; [exact Hg' |].
    intros i Hi. apply Hb'. apply elem_of_range. lia.
Qed.

Lemma fill_step (done : Z -> Z -> Prop) (b : Board) (i j : Z) :
  fill_inv done b -> 1 <= i <= 19 -> 1 <= j <= 19 ->
  exists b', board_set b i j NOSTONE = Ok b'
             /\ fill_inv (fun x y => done x y \/ (x = i /\ y = j)) b'.
Proof.
  intros (Hg & Hb & Hd) Hi Hj.
  destruct (board_set_cell_at b i j NOSTONE Hg) as (b' & Hs & Hg' & Hc); [lia | lia |].
  exists b'. split; [exact Hs |]. split; [exact Hg' |]. split.
  - intros k Hk. destruct (Hb k Hk) as (B1 & B2 & B3 & B4).
    unfold border_cells. rewrite !Hc.
    rewrite !decide_False by lia. auto.
  - intros x y [Hxy | [-> ->]]; rewrite Hc.
    + destruct (decide (x = i /\ y = j)); [reflexivity | apply Hd; exact Hxy].
    + rewrite decide_True by auto. reflexivity.
Qed.

Lemma fill_inv_ext (d d' : Z -> Z -> Prop) (b : Board) :
  (forall x y, d' x y -> d x y) -> fill_inv d b -> fill_inv d' b.
Proof. intros Hsub (Hg & Hb & Hd). split; [exact Hg |]. split; [exact Hb |]. auto. Qed.

(** X1.  On a grid of side 21, with the grid constant at 21, [init_board]
    returns: the result is a well-formed board (the border on rows and
    columns 0 and 20) and every playable cell is empty, whatever the grid
    held before. *)
Theorem init_board_gives_empty_well_formed (board : Board) :
  GRID_NUM = 21 -> is_grid21 board = true ->
  exists b,
    Tools.init_board board = Ok b
    /\ well_formed b = true
    /\ forall x y, 1 <= x <= 19 -> 1 <= y <= 19 -> board_get b x y = Ok NOSTONE.
Proof.
  intros HG Hg. unfold Tools.init_board.
  destruct (init_board_border_loop board HG Hg) as (b1 & -> & Hg1 & Hb1). cbn [bind].
  rewrite HG. replace (21 - 1) with 20 by lia.
  destruct (foldM_total_seen
              (fun seen b => fill_inv (fun x y => In x seen /\ 1 <= y <= 19) b)
              (fun b i => foldM (fun b j => board_set b i j NOSTONE) (range 1 20) b)
              (range 1 20) b1) as (b2 & Hf & Hg2 & Hb2 & Hd2).
  - split; [exact Hg1 |]. split; [exact Hb1 |]. intros x y [[] _].
  - intros seen i b Hi Hinv. apply elem_of_range in Hi.
    destruct (foldM_total_seen
                (fun seenj b' => fill_inv (fun x y => (In x seen /\ 1 <= y <= 19)
                                                      \/ (x = i /\ In y seenj)) b')
                (fun b j => board_set b i j NOSTONE) (range 1 20) b)
      as (b' & Hf' & Hinv').
    + eapply fill_inv_ext; [| exact Hinv]. intros x y [Hxy | [_ []]]. exact Hxy.
    + intros seenj j b' Hj Hinvj. apply elem_of_range in Hj.
      destruct (fill_step _ b' i j Hinvj) as (b'' & Hs & Hinv''); [lia | lia |].
      exists b''. split; [exact Hs |].
      eapply fill_inv_ext; [| exact Hinv''].
      intros x y [Hxy | [-> Hy]]; [left; left; exact Hxy |].
      apply in_app_iff in Hy. destruct Hy as [Hy | [<- | []]].
      * left. right. auto.
      * right. auto.
    + exists b'. split; [exact Hf' |].
      eapply fill_inv_ext; [| exact Hinv'].
      intros x y [Hx Hy]. apply in_app_iff in Hx. destruct Hx as [Hx | [<- | []]].
      * left. auto.
      * right. split; [reflexivity |]. apply elem_of_range. lia.
  - exists b2. split; [exact Hf |]. split.
    + unfold well_formed. rewrite Hg2. cbn [andb].
      apply forallb_forall. intros i Hi. apply elem_of_range in Hi.
      destruct (Hb2 i) as (B1 & B2 & B3 & B4); [lia |].
      unfold border_line. rewrite !andb_true_iff, !bool_decide_eq_true. auto.
    + intros x y Hx Hy. apply board_get_cell_at; [lia | lia |].
      apply Hd2. split; [apply elem_of_range; lia | lia].
Qed.

End ToolsFacts.

Lemma init_board_gives_empty_well_formed_witness :
  @GRID_NUM connect6_defines = 21 /\ is_grid21 two_stones_board = true
  /\ exists b,
      @Tools.init_board connect6_defines two_stones_board = Ok b
      /\ @well_formed connect6_defines b = true
      /\ board_get b 10 10 = Ok 0.
Proof.
  assert (Hg : is_grid21 two_stones_board = true) by (vm_compute; reflexivity).
  split; [reflexivity |]. split; [exact Hg |].
  destruct (@init_board_gives_empty_well_formed connect6_defines two_stones_board
              eq_refl Hg) as (b & Hb & Hwf & Hempty).
  exists b. split; [exact Hb |]. split; [exact Hwf |].
  apply (Hempty 10 10); lia.
Defined.

(* ===================================================================== *)
(** * tools.py: make_move and unmake_move on any move *)
(* ===================================================================== *)

Section MoveFacts.
Context `{Defines}.

Lemma write_if_in_range (board : Board) (p : StonePosition.t) (v : Z) :
  is_grid21 board = true ->
  exists b',
    (if in_1_19 (StonePosition.x p) (StonePosition.y p)
     then board_set board (StonePosition.x p) (StonePosition.y p) v
     else Ok board) = Ok b'
    /\ is_grid21 b' = true
    /\ forall x y, cell_at b' x y
                   = if decide (in_1_19 x y = true /\ pair_of p = (x, y))
                     then Some v else cell_at board x y.
Proof.
  intros Hg. destruct p as [px py]. unfold pair_of. cbn [StonePosition.x StonePosition.y].
  destruct (in_1_19 px py) eqn:Hin.
  - apply in_1_19_spec in Hin as Hr.
    destruct (board_set_cell_at board px py v Hg) as (b' & Hs & Hg' & Hc); [lia | lia |].
    exists b'. split; [exact Hs |]. split; [exact Hg' |].
    intros x y. rewrite Hc.
    destruct (decide (x = px /\ y = py)) as [[-> ->]|Hne].
    + rewrite decide_True by auto. reflexivity.
    + rewrite decide_False; [reflexivity |]. intros [_ [= -> ->]]. auto.
  - exists board. split; [reflexivity |]. split; [exact Hg |].
    intros x y. rewrite decide_False; [reflexivity |].
    intros [Hxy [= -> ->]]. congruence.
Qed.

Lemma make_move_spec (board : Board) (move : StoneMove.t) (color : Z) :
  is_grid21 board = true ->
  exists b',
    Tools.make_move board move color = Ok b'
    /\ is_grid21 b' = true
    /\ forall x y, cell_at b' x y
                   = if decide (move_cell move x y) then Some color
                     else cell_at board x y.
Proof.
  intros Hg. unfold Tools.make_move.
  destruct (write_if_in_range board (StoneMove.pos0 move) color Hg)
    as (b1 & -> & Hg1 & H1). cbn [bind].
  destruct (write_if_in_range b1 (StoneMove.pos1 move) color Hg1)
    as (b2 & -> & Hg2 & H2).
  exists b2. split; [reflexivity |]. split; [exact Hg2 |].
  intros x y. rewrite H2, H1. unfold move_cell.
  repeat destruct (decide _); try reflexivity; tauto.
Qed.

(** X2.  On a grid [make_move] returns for every move and colour,
    coordinates out of range included: the result is a grid in which the
    coordinates of the move that lie in [1,19] x [1,19] hold the colour and
    every other cell, the border included, is as before. *)
Theorem make_move_writes_only_the_move (board : Board) (move : StoneMove.t) (color : Z) :
  is_grid21 board = true ->
  exists b',
    Tools.make_move board move color = Ok b'
    /\ is_grid21 b' = true
    /\ forall x y, cell_at b' x y
                   = if decide (move_cell move x y) then Some color
                     else cell_at board x y.
Proof. exact (make_move_spec board move color). Qed.

Lemma unmake_move_clears_the_move (board : Board) (move : StoneMove.t) :
  is_grid21 board = true ->
  exists b',
    Tools.unmake_move board move = Ok b'
    /\ is_grid21 b' = true
    /\ forall x y, cell_at b' x y
                   = if decide (move_cell move x y) then Some NOSTONE
                     else cell_at board x y.
Proof.
  intros Hg. unfold Tools.unmake_move.
  destruct (write_if_in_range board (StoneMove.pos0 move) NOSTONE Hg)
    as (b1 & -> & Hg1 & H1). cbn [bind].
  destruct (write_if_in_range b1 (StoneMove.pos1 move) NOSTONE Hg1)
    as (b2 & -> & Hg2 & H2).
  exists b2. split; [reflexivity |]. split; [exact Hg2 |].
  intros x y. rewrite H2, H1. unfold move_cell.
  repeat destruct (decide _); try reflexivity; tauto.
Qed.

(** Two grids with the same cells are equal. *)
Lemma grid21_ext (b b' : Board) :
  is_grid21 b = true -> is_grid21 b' = true ->
  (forall x y, 0 <= x <= 20 -> 0 <= y <= 20 -> cell_at b x y = cell_at b' x y) ->
  b = b'.
Proof.
  intros Hg Hg' Hc.
  assert (Hlen : forall g : Board, is_grid21 g = true ->
                   length g = 21%nat /\ forall i row, g !! i = Some row -> length row = 21%nat).
  { intros g Hgg. unfold is_grid21 in Hgg. apply andb_true_iff in Hgg as [Hl Hr].
    apply Nat.eqb_eq in Hl. split; [exact Hl |].
    intros i row Hi. rewrite forallb_forall in Hr.
    apply Nat.eqb_eq. apply Hr. apply list_elem_of_In.
    eapply list_elem_of_lookup_2. exact Hi. }
  destruct (Hlen b Hg) as [Lb Rb]. destruct (Hlen b' Hg') as [Lb' Rb'].
  apply list_eq. intros i.
  destruct (decide (i < 21)%nat) as [Hi|Hi].
  - destruct (lookup_lt_is_Some_2 b i) as [r Hr]; [lia |].
    destruct (lookup_lt_is_Some_2 b' i) as [r' Hr']; [lia |].
    rewrite Hr, Hr'. f_equal. apply list_eq. intros j.
    destruct (decide (j < 21)%nat) as [Hj|Hj].
    + specialize (Hc (Z.of_nat i) (Z.of_nat j)). unfold cell_at in Hc.
      destruct (Z.leb_spec 0 (Z.of_nat i)); [| lia].
      destruct (Z.leb_spec 0 (Z.of_nat j)); [| lia].
      cbn [andb] in Hc. rewrite !Nat2Z.id, Hr, Hr' in Hc. cbn in Hc.
      apply Hc; lia.
    + rewrite !lookup_ge_None_2; [reflexivity | |].
      * rewrite (Rb' _ _ Hr'). lia.
      * rewrite (Rb _ _ Hr). lia.
  - rewrite !lookup_ge_None_2; [reflexivity | lia | lia].
Qed.

(** X3.  On a grid, [make_move] followed by [unmake_move] of the same move
    leaves the coordinates of the move that lie in range empty and every
    other cell as it was; so the board comes back exactly when those cells
    were empty before, and a stone the move was played over is erased. *)
Theorem make_unmake_restores_iff_cells_were_empty
        (board : Board) (move : StoneMove.t) (color : Z) :
  is_grid21 board = true ->
  exists b' b'',
    Tools.make_move board move color = Ok b'
    /\ Tools.unmake_move b' move = Ok b''
    /\ (forall x y, cell_at b'' x y
                    = if decide (move_cell move x y) then Some NOSTONE
                      else cell_at board x y)
    /\ (b'' = board
        <-> forall x y, move_cell move x y -> cell_at board x y = Some NOSTONE).
Proof.
  intros Hg.
  destruct (make_move_spec board move color Hg) as (b' & Hm & Hg' & Hc').
  destruct (unmake_move_clears_the_move b' move Hg') as (b'' & Hu & Hg'' & Hc'').
  exists b', b''. split; [exact Hm |]. split; [exact Hu |].
  assert (Hcells : forall x y, cell_at b'' x y
                               = if decide (move_cell move x y) then Some NOSTONE
                                 else cell_at board x y).
  { intros x y. rewrite Hc'', Hc'. destruct (decide (move_cell move x y)); reflexivity. }
  split; [exact Hcells |]. split.
  - intros -> x y Hxy. specialize (Hcells x y).
    rewrite decide_True in Hcells by exact Hxy. exact Hcells.
  - intros Hempty. apply grid21_ext; [exact Hg'' | exact Hg |].
    intros x y _ _. rewrite Hcells.
    destruct (decide (move_cell move x y)) as [Hxy|]; [| reflexivity].
    symmetry. apply Hempty. exact Hxy.
Qed.

End MoveFacts.

Lemma make_move_writes_only_the_move_witness :
  is_grid21 two_stones_board = true
  /\ exists b',
      @Tools.make_move two_stones_board quiet_move 2 = Ok b'
      /\ is_grid21 b' = true
      /\ cell_at b' 9 9 = Some 2
      /\ cell_at b' 10 10 = cell_at two_stones_board 10 10.
Proof.
  assert (Hg : is_grid21 two_stones_board = true) by (vm_compute; reflexivity).
  split; [exact Hg |].
  destruct (make_move_writes_only_the_move two_stones_board quiet_move 2 Hg)
    as (b' & Hb & Hg' & Hcells).
  exists b'. split; [exact Hb |]. split; [exact Hg' |].
  split; rewrite Hcells.
  - destruct (decide (move_cell quiet_move 9 9)) as [_ | Hn]; [reflexivity |].
    exfalso. apply Hn. split; [reflexivity | left; reflexivity].
  - destruct (decide (move_cell quiet_move 10 10)) as [[_ [Hc | Hc]] | _];
      [discriminate Hc | discriminate Hc | reflexivity].
Defined.

Lemma make_unmake_restores_iff_cells_were_empty_witness :
  is_grid21 six_in_row_board = true
  /\ exists b' b'',
      @Tools.make_move six_in_row_board last_black_move 2 = Ok b'
      /\ @Tools.unmake_move connect6_defines b' last_black_move = Ok b''
      /\ cell_at six_in_row_board 10 10 = Some 1
      /\ cell_at b'' 10 10 = Some 0.
Proof.
  assert (Hg : is_grid21 six_in_row_board = true) by (vm_compute; reflexivity).
  split; [exact Hg |].
  destruct (@make_unmake_restores_iff_cells_were_empty connect6_defines
              six_in_row_board last_black_move 2 Hg)
    as (b' & b'' & Hm & Hu & Hcells & _).
  exists b', b''. split; [exact Hm |]. split; [exact Hu |].
  split; [vm_compute; reflexivity |].
  rewrite Hcells.
  destruct (decide (move_cell last_black_move 10 10)) as [_ | Hn]; [reflexivity |].
  exfalso. apply Hn. split; [reflexivity | right; reflexivity].
Defined.

(* ===================================================================== *)
(** * tools.py: the move messages *)
(* ===================================================================== *)

Section Messages.
Context `{PyUpper}.

Lemma getitem_lookup {A : Type} (l : list A) (i : Z) (a : A) :
  0 <= i -> l !! Z.to_nat i = Some a -> getitem l i = Ok a.
Proof. intros Hi Hl. apply getitem_nonneg; assumption. Qed.

Lemma clamp_range v : 1 <= clamp_1_19 v <= 19.
Proof. unfold clamp_1_19. lia. Qed.

Lemma clamp_id v : 1 <= v <= 19 -> clamp_1_19 v = v.
Proof. unfold clamp_1_19. lia. Qed.

Lemma chr_letter c : 0 <= c < 1114112 -> chr c = Some c.
Proof.
  intros Hc. unfold chr.
  destruct (Z.leb_spec 0 c); [| lia]. destruct (Z.ltb_spec c 1114112); [| lia].
  reflexivity.
Qed.

Lemma isspace_letter c : board_letter c -> isspace c = false.
Proof.
  unfold board_letter, isspace. intros Hc.
  repeat match goal with
         | |- context [?a <=? ?b] => destruct (Z.leb_spec a b); try lia
         | |- context [?a =? ?b] => destruct (Z.eqb_spec a b); try lia
         end; reflexivity.
Qed.

Lemma lstrip_no_space c s : isspace c = false -> lstrip (c :: s) = c :: s.
Proof. intros Hc. cbn [lstrip]. rewrite Hc. reflexivity. Qed.

(** A string that begins and ends with a letter is left alone by [strip]. *)
Lemma strip_letters s : Forall board_letter s -> strip s = s.
Proof.
  intros Hs. unfold strip.
  assert (Hl : forall t, Forall board_letter t -> lstrip t = t).
  { intros [|c t] Ht; [reflexivity |].
    apply lstrip_no_space, isspace_letter. inversion Ht; assumption. }
  rewrite (Hl s Hs), Hl, rev_involutive; [reflexivity |].
  apply List.Forall_rev. exact Hs.
Qed.

Lemma upper_letters s : UpperAscii -> Forall board_letter s -> upper s = s.
Proof.
  intros HU Hs. rewrite HU.
  - induction Hs as [|c s Hc Hs IH]; [reflexivity |].
    cbn [map]. rewrite IH. f_equal. unfold ascii_upper, board_letter in *.
    destruct (Z.leb_spec 97 c); [lia | reflexivity].
  - eapply Forall_impl; [exact Hs |]. unfold board_letter. cbn. intros; lia.
Qed.

(** X4.  [move2msg] never fails, and [msg2move] reads its message back as
    the move with every coordinate clamped into [1,19] and the score 0: a
    move whose coordinates are in range comes back with the same two stones,
    also when both stones are on one cell and the message has two letters. *)
Theorem msg2move_reads_move2msg_back (move : StoneMove.t) :
  UpperAscii ->
  exists msg,
    Tools.move2msg move = Some msg
    /\ Forall board_letter msg
    /\ Tools.msg2move msg = Ok (clamped_move move)
    /\ (in_1_19 (StonePosition.x (StoneMove.pos0 move))
                (StonePosition.y (StoneMove.pos0 move)) = true ->
        in_1_19 (StonePosition.x (StoneMove.pos1 move))
                (StonePosition.y (StoneMove.pos1 move)) = true ->
        StoneMove.pos0 (clamped_move move) = StoneMove.pos0 move
        /\ StoneMove.pos1 (clamped_move move) = StoneMove.pos1 move).
Proof.
  intros HU. destruct move as [[x0 y0] [x1 y1] sc].
  unfold Tools.move2msg, clamped_move.
  cbn [StoneMove.pos0 StoneMove.pos1 StonePosition.x StonePosition.y].
  pose proof (clamp_range x0) as Hx0. pose proof (clamp_range y0) as Hy0.
  pose proof (clamp_range x1) as Hx1. pose proof (clamp_range y1) as Hy1.
  set (cx0 := clamp_1_19 x0) in *. set (cy0 := clamp_1_19 y0) in *.
  set (cx1 := clamp_1_19 x1) in *. set (cy1 := clamp_1_19 y1) in *.
  rewrite !chr_letter by lia. cbn [mbind option_bind].
  assert (Hlast : in_1_19 x0 y0 = true -> in_1_19 x1 y1 = true ->
                  StoneMove.pos0 (StoneMove.of_pairs (cx0, cy0) (cx1, cy1) 0)
                  = StonePosition.mk x0 y0
                  /\ StoneMove.pos1 (StoneMove.of_pairs (cx0, cy0) (cx1, cy1) 0)
                     = StonePosition.mk x1 y1).
  { intros H0 H1. apply in_1_19_spec in H0, H1. subst cx0 cy0 cx1 cy1.
    unfold StoneMove.of_pairs. cbn. rewrite !clamp_id by lia. auto. }
  destruct ((cx0 =? cx1) && (cy0 =? cy1)) eqn:Heq.
  - apply andb_true_iff in Heq as [E1 E2]. apply Z.eqb_eq in E1, E2.
    eexists. split; [reflexivity |].
    assert (Hl : Forall board_letter [cy0 + 65 - 1; 83 - cx0 + 1]).
    { repeat constructor; unfold board_letter; lia. }
    split; [exact Hl |]. split; [| exact Hlast].
    unfold Tools.msg2move. rewrite (strip_letters _ Hl), (upper_letters _ HU Hl).
    cbn [length Nat.eqb].
    erewrite !getitem_lookup by (first [lia | reflexivity]). cbn [bind].
    rewrite <- E1, <- E2. unfold StoneMove.of_pairs. cbn [fst snd].
    rewrite !clamp_id by lia.
    repeat f_equal; lia.
  - eexists. split; [reflexivity |].
    assert (Hl : Forall board_letter [cy0 + 65 - 1; 83 - cx0 + 1; cy1 + 65 - 1; 83 - cx1 + 1]).
    { repeat constructor; unfold board_letter; lia. }
    split; [exact Hl |]. split; [| exact Hlast].
    unfold Tools.msg2move. rewrite (strip_letters _ Hl), (upper_letters _ HU Hl).
    cbn [length Nat.eqb].
    erewrite !getitem_lookup by (first [lia | reflexivity]). cbn [bind].
    unfold StoneMove.of_pairs. cbn [fst snd].
    rewrite !clamp_id by lia.
    repeat f_equal; lia.
Qed.

(** X5.  A message of four letters from A to S is read as a move whose
    message is the same four letters, or the first two when both stones
    name one cell; a message of two letters comes back unchanged. *)
Theorem move2msg_writes_msg2move_back (c0 r0 c1 r1 : Z) :
  UpperAscii ->
  board_letter c0 -> board_letter r0 -> board_letter c1 -> board_letter r1 ->
  (exists m,
      Tools.msg2move [c0; r0; c1; r1] = Ok m
      /\ Tools.move2msg m
         = Some (if (c0 =? c1) && (r0 =? r1) then [c0; r0] else [c0; r0; c1; r1]))
  /\ (exists m,
         Tools.msg2move [c0; r0] = Ok m /\ Tools.move2msg m = Some [c0; r0]).
Proof.
  unfold board_letter. intros HU H0 H1 H2 H3. split.
  - assert (Hl : Forall board_letter [c0; r0; c1; r1])
      by (repeat constructor; unfold board_letter; lia).
    unfold Tools.msg2move. rewrite (strip_letters _ Hl), (upper_letters _ HU Hl).
    cbn [length Nat.eqb].
    erewrite !getitem_lookup by (first [lia | reflexivity]). cbn [bind].
    eexists. split; [reflexivity |].
    unfold Tools.move2msg, StoneMove.of_pairs.
    cbn [fst snd StoneMove.pos0 StoneMove.pos1 StonePosition.x StonePosition.y].
    rewrite !(clamp_id (clamp_1_19 _)) by apply clamp_range.
    rewrite !clamp_id by lia.
    rewrite !chr_letter by lia. cbn [mbind option_bind].
    replace (83 - r0 + 1 =? 83 - r1 + 1) with (r0 =? r1)
      by (destruct (Z.eqb_spec r0 r1), (Z.eqb_spec (83 - r0 + 1) (83 - r1 + 1));
          try reflexivity; lia).
    replace (c0 - 65 + 1 =? c1 - 65 + 1) with (c0 =? c1)
      by (destruct (Z.eqb_spec c0 c1), (Z.eqb_spec (c0 - 65 + 1) (c1 - 65 + 1));
          try reflexivity; lia).
    rewrite andb_comm.
    destruct ((c0 =? c1) && (r0 =? r1)); repeat f_equal; lia.
  - assert (Hl : Forall board_letter [c0; r0])
      by (repeat constructor; unfold board_letter; lia).
    unfold Tools.msg2move. rewrite (strip_letters _ Hl), (upper_letters _ HU Hl).
    cbn [length Nat.eqb].
    erewrite !getitem_lookup by (first [lia | reflexivity]). cbn [bind].
    eexists. split; [reflexivity |].
    unfold Tools.move2msg, StoneMove.of_pairs.
    cbn [fst snd StoneMove.pos0 StoneMove.pos1 StonePosition.x StonePosition.y].
    rewrite !(clamp_id (clamp_1_19 _)) by apply clamp_range.
    rewrite !clamp_id by lia.
    rewrite !Z.eqb_refl. cbn [andb].
    rewrite !chr_letter by lia. cbn [mbind option_bind].
    repeat f_equal; lia.
Qed.

(** X6.  What [msg2move] does with a message of any content: when what is
    left of it after [strip] and [upper] has no, one or three characters the
    call raises [IndexError]; with two, or four and more, it returns a move
    of score 0 whose coordinates all lie in [1,19], whatever the characters
    are (those after the fourth are ignored). *)
Theorem msg2move_by_length (msg : PyStr) :
  let n := length (upper (strip msg)) in
  ((n = 0 \/ n = 1 \/ n = 3)%nat -> Tools.msg2move msg = Raise IndexError)
  /\ ((n = 2 \/ 4 <= n)%nat ->
      exists m,
        Tools.msg2move msg = Ok m
        /\ in_1_19 (StonePosition.x (StoneMove.pos0 m))
                   (StonePosition.y (StoneMove.pos0 m)) = true
        /\ in_1_19 (StonePosition.x (StoneMove.pos1 m))
                   (StonePosition.y (StoneMove.pos1 m)) = true
        /\ StoneMove.score m = 0%Q).
Proof.
  cbn zeta. unfold Tools.msg2move.
  assert (Hin : forall a b, in_1_19 (clamp_1_19 a) (clamp_1_19 b) = true).
  { intros a b. apply in_1_19_spec. split; apply clamp_range. }
  assert (Hraise : forall (l : list Z) i, Z.of_nat (length l) <= i -> getitem l i = Raise IndexError).
  { intros l i Hi. unfold getitem. rewrite py_index_nonneg by lia.
    destruct (Z.ltb_spec i (Z.of_nat (length l))); [lia | reflexivity]. }
  destruct (upper (strip msg)) as [|a [|b [|c [|d s]]]]; cbn [length Nat.eqb]; split;
    intros Hn; try lia.
  - rewrite Hraise by (cbn [length]; lia). reflexivity.
  - erewrite getitem_lookup by (first [lia | reflexivity]). cbn [bind].
    rewrite Hraise by (cbn [length]; lia). reflexivity.
  - erewrite !getitem_lookup by (first [lia | reflexivity]). cbn [bind].
    eexists. split; [reflexivity |].
    unfold StoneMove.of_pairs.
    cbn [fst snd StoneMove.pos0 StoneMove.pos1 StonePosition.x StonePosition.y StoneMove.score].
    rewrite !Hin. auto.
  - erewrite !(getitem_lookup [a; b; c]) by (first [lia | reflexivity]). cbn [bind].
    rewrite Hraise by (cbn [length]; lia). reflexivity.
  - erewrite !getitem_lookup by (first [lia | reflexivity]). cbn [bind].
    eexists. split; [reflexivity |].
    unfold StoneMove.of_pairs.
    cbn [fst snd StoneMove.pos0 StoneMove.pos1 StonePosition.x StonePosition.y StoneMove.score].
    rewrite !Hin. auto.
Qed.

End Messages.

Lemma ascii_python_upper_law : @UpperAscii ascii_python_upper.
Proof. intros s _. reflexivity. Qed.

Lemma msg2move_reads_move2msg_back_witness :
  @UpperAscii ascii_python_upper
  /\ Tools.move2msg last_black_move = Some [73; 74; 74; 74]
  /\ @Tools.msg2move ascii_python_upper [73; 74; 74; 74] = Ok last_black_move.
Proof.
  split; [exact ascii_python_upper_law |].
  destruct (@msg2move_reads_move2msg_back ascii_python_upper last_black_move
              ascii_python_upper_law) as (msg & Hmsg & _ & Hback & _).
  assert (Hrun : Tools.move2msg last_black_move = Some [73; 74; 74; 74])
    by (vm_compute; reflexivity).
  split; [exact Hrun |].
  rewrite Hrun in Hmsg. injection Hmsg as <-. exact Hback.
Defined.

Lemma move2msg_writes_msg2move_back_witness :
  @UpperAscii ascii_python_upper
  /\ (board_letter 74 /\ board_letter 75)
  /\ exists m,
      @Tools.msg2move ascii_python_upper [74; 74; 75; 75] = Ok m
      /\ Tools.move2msg m = Some [74; 74; 75; 75].
Proof.
  split; [exact ascii_python_upper_law |].
  assert (H74 : board_letter 74) by (unfold board_letter; lia).
  assert (H75 : board_letter 75) by (unfold board_letter; lia).
  split; [split; assumption |].
  destruct (@move2msg_writes_msg2move_back ascii_python_upper 74 74 75 75
              ascii_python_upper_law H74 H74 H75 H75) as [Hfour _].
  exact Hfour.
Defined.

(* ===================================================================== *)
(** * Zobrist hashing: the incremental update *)
(* ===================================================================== *)

(** Changing a function at one element of a duplicate-free list adds to the
    flattened list what was added there. *)
Lemma flat_map_change {A B : Type} (f f' : A -> list B) (l : list A) (a : A) (e : list B) :
  List.NoDup l -> In a l ->
  (forall b, b <> a -> f' b = f b) ->
  Permutation (f' a) (e ++ f a) ->
  Permutation (flat_map f' l) (e ++ flat_map f l).
Proof.
  intros Hnd Ha Hne Hat. induction l as [|b l IH]; [destruct Ha |].
  inversion Hnd as [|? ? Hnb Hnd']; subst. cbn [flat_map].
  destruct Ha as [-> | Ha].
  - assert (Hrest : flat_map f' l = flat_map f l).
    { clear -Hnb Hne. induction l as [|b l IHl]; [reflexivity |].
      cbn [flat_map]. rewrite IHl by (intros Hin; apply Hnb; right; exact Hin).
      rewrite Hne; [reflexivity |]. intros ->. apply Hnb. left. reflexivity. }
    rewrite Hrest, Hat, <- app_assoc. reflexivity.
  - rewrite (IH Hnd' Ha). rewrite Hne by (intros ->; contradiction).
    rewrite !app_assoc. apply Permutation_app_tail. apply Permutation_app_comm.
Qed.

Section ZobristUpdates.
Context `{Defines} `{Python}.

(** Putting a stone on a cell that holds none adds its key to the stones of
    the board. *)
Lemma stones_after_placement (board board' : Board) (x y c v : Z) :
  1 <= x <= 19 -> 1 <= y <= 19 -> c = BLACK \/ c = WHITE ->
  cell_at board x y = Some v -> no_stone v ->
  (forall i j, cell_at board' i j
               = if decide (i = x /\ j = y) then Some c else cell_at board i j) ->
  Permutation (stones board') ((x, y, c) :: stones board).
Proof.
  intros Hx Hy Hc Hv [Hvb Hvw] Hcells. unfold stones.
  apply (flat_map_change _ _ _ x [(x, y, c)]).
  - apply NoDup_range.
  - apply elem_of_range. lia.
  - intros i Hi. apply flat_map_ext. intros j. unfold cell_stone.
    rewrite Hcells, decide_False by tauto. reflexivity.
  - apply (flat_map_change _ _ _ y [(x, y, c)]).
    + apply NoDup_range.
    + apply elem_of_range. lia.
    + intros j Hj. unfold cell_stone. rewrite Hcells, decide_False by tauto. reflexivity.
    + unfold cell_stone. rewrite Hcells, decide_True, Hv by auto.
      assert (E1 : (c =? BLACK) || (c =? WHITE) = true).
      { apply orb_true_iff. rewrite !Z.eqb_eq. exact Hc. }
      assert (E2 : (v =? BLACK) || (v =? WHITE) = false).
      { apply orb_false_iff. rewrite !Z.eqb_neq. auto. }
      rewrite E1, E2. reflexivity.
Qed.

(** The full hash of a board after a stone was put on a cell that held
    none. *)
Lemma compute_hash_after_placement (zh : ZobristHash.t) (board board' : Board)
      (x y c v side h : Z) :
  complete_table zh -> is_grid21 board = true ->
  1 <= x <= 19 -> 1 <= y <= 19 -> c = BLACK \/ c = WHITE ->
  board_get board x y = Ok v -> no_stone v ->
  board_set board x y c = Ok board' ->
  ZobristHash.compute_hash zh board side = Ok h ->
  ZobristHash.update_hash zh h x y c true
  = Ok (Z.lxor h (table_value zh (x, y, c)))
  /\ ZobristHash.compute_hash zh board' side
     = Ok (Z.lxor h (table_value zh (x, y, c)))
  /\ is_grid21 board' = true.
Proof.
  intros Hct Hg Hx Hy Hc Hv Hns Hset Hh.
  destruct (board_set_cell_at board x y c Hg) as (b' & Hset' & Hg' & Hcells);
    [lia | lia |].
  rewrite Hset in Hset'. injection Hset' as <-.
  apply board_get_cell_at in Hv; [| lia | lia].
  pose proof (stones_after_placement board board' x y c v Hx Hy Hc Hv Hns Hcells) as Hp.
  assert (Hkey : stone_key (x, y, c)) by (unfold stone_key; cbn [fst snd]; auto).
  split; [| split; [| exact Hg']].
  - unfold ZobristHash.update_hash. rewrite (dict_get_complete zh _ Hct Hkey).
    reflexivity.
  - rewrite compute_hash_value in Hh |- *;
      [| exact Hct | apply grid21_playable; exact Hg
       | exact Hct | apply grid21_playable; exact Hg'].
    rewrite (xor_values_perm zh _ _ Hp). cbn [xor_values foldr].
    fold (xor_values zh (stones board)).
    destruct (side =? WHITE); injection Hh as <-; f_equal.
    + rewrite (Z.lxor_comm (table_value zh (x, y, c))), !Z.lxor_assoc.
      f_equal. apply Z.lxor_comm.
    + apply Z.lxor_comm.
Qed.

(** X7.  The incremental update agrees with the full hash.  On a grid, for
    the hasher [__init__] builds: when a stone of one of the two colours is
    put on a playable cell that holds no stone, [update_hash] applied to the
    full hash of the board before gives the full hash of the board after,
    for either side to move; and applied to the hash of the board after it
    gives back the hash of the board before (the removal of the stone). *)
Theorem update_hash_follows_placement (seed : Z) (board board' : Board)
        (x y c v side h : Z) :
  is_grid21 board = true ->
  1 <= x <= 19 -> 1 <= y <= 19 -> c = BLACK \/ c = WHITE ->
  board_get board x y = Ok v -> no_stone v ->
  board_set board x y c = Ok board' ->
  let zh := ZobristHash.__init__ seed in
  ZobristHash.compute_hash zh board side = Ok h ->
  exists h',
    ZobristHash.update_hash zh h x y c true = Ok h'
    /\ ZobristHash.compute_hash zh board' side = Ok h'
    /\ ZobristHash.update_hash zh h' x y c false = Ok h.
Proof.
  intros Hg Hx Hy Hc Hv Hns Hset zh Hh.
  destruct (compute_hash_after_placement zh board board' x y c v side h
              (init_complete seed) Hg Hx Hy Hc Hv Hns Hset Hh) as (Hu & Hh' & _).
  eexists. split; [exact Hu |]. split; [exact Hh' |].
  eapply update_hash_involutive. exact Hu.
Qed.

(** The table [__init__] builds has the keys of the playable cells and the
    two colours only. *)
Lemma init_cell_only seed x st y k :
  1 <= x <= 19 -> 1 <= y <= 19 ->
  (is_Some (fst st !! k) -> stone_key k) ->
  is_Some (fst (ZobristHash.init_cell seed x st y) !! k) -> stone_key k.
Proof.
  intros Hx Hy Hst. destruct st as [tbl n]. cbn [ZobristHash.init_cell fst].
  rewrite !lookup_insert_is_Some'. intros [<- | [<- | Hk]].
  - unfold stone_key. cbn [fst snd]. auto.
  - unfold stone_key. cbn [fst snd]. auto.
  - apply Hst. exact Hk.
Qed.

Lemma init_only seed k :
  is_Some (ZobristHash.hash_table (ZobristHash.__init__ seed) !! k) -> stone_key k.
Proof.
  unfold ZobristHash.__init__.
  assert (Hrow : forall x ys st,
             1 <= x <= 19 -> (forall y, In y ys -> 1 <= y <= 19) ->
             (is_Some (fst st !! k) -> stone_key k) ->
             is_Some (fst (foldl (ZobristHash.init_cell seed x) st ys) !! k) ->
             stone_key k).
  { intros x ys. induction ys as [|y ys IH]; intros st Hx Hys Hst; cbn [foldl];
      [exact Hst |].
    apply IH; [exact Hx | intros y' Hy'; apply Hys; right; exact Hy' |].
    apply init_cell_only; [exact Hx | apply Hys; left; reflexivity | exact Hst]. }
  assert (Hrows : forall xs st,
             (forall x, In x xs -> 1 <= x <= 19) ->
             (is_Some (fst st !! k) -> stone_key k) ->
             is_Some (fst (foldl (fun st x => foldl (ZobristHash.init_cell seed x) st
                                                    (range 1 20)) st xs) !! k) ->
             stone_key k).
  { induction xs as [|x xs IH]; intros st Hxs Hst; cbn [foldl]; [exact Hst |].
    apply IH; [intros x' Hx'; apply Hxs; right; exact Hx' |].
    apply Hrow; [apply Hxs; left; reflexivity | | exact Hst].
    intros y Hy. apply elem_of_range in Hy. lia. }
  specialize (Hrows (range 1 20) (∅, O)).
  destruct (foldl _ _ _) as [tbl n]. cbn [ZobristHash.hash_table fst] in *.
  apply Hrows.
  - intros x Hx. apply elem_of_range in Hx. lia.
  - rewrite lookup_empty. intros [? [=]].
Qed.

(** X8.  For the hasher [__init__] builds, [update_hash] returns exactly for
    the coordinates in [1,19] x [1,19] with one of the two colours; for any
    other coordinate (a border cell, a cell off the grid) or any other
    colour value (the empty cell, the border) it raises [KeyError]. *)
Theorem update_hash_raises_outside_the_table (seed h x y c : Z) (is_place : bool) :
  let zh := ZobristHash.__init__ seed in
  (stone_key (x, y, c) -> exists h', ZobristHash.update_hash zh h x y c is_place = Ok h')
  /\ (~ stone_key (x, y, c) ->
      ZobristHash.update_hash zh h x y c is_place = Raise KeyError).
Proof.
  intros zh. split.
  - intros Hk. unfold ZobristHash.update_hash.
    rewrite (dict_get_complete zh _ (init_complete seed) Hk). cbn [bind]. eauto.
  - intros Hk. unfold ZobristHash.update_hash.
    destruct (dict_get (ZobristHash.hash_table zh) (x, y, c)) as [v|e] eqn:E.
    + exfalso. apply Hk. apply (init_only seed). unfold dict_get in E.
      fold zh. destruct (ZobristHash.hash_table zh !! (x, y, c)); [eauto | discriminate].
    + unfold dict_get in E.
      destruct (ZobristHash.hash_table zh !! (x, y, c)); [discriminate |].
      injection E as <-. reflexivity.
Qed.

(** X9.  A whole turn, hashed incrementally.  On a grid, for the hasher
    [__init__] builds and two distinct colour codes: when a move puts its
    two stones on two different playable cells that hold no stone, the full
    hash of the board after [make_move], with the opponent to move, is the
    hash before with the two stones XORed in by [update_hash] and the side
    toggled by [toggle_side]. *)
Theorem hash_after_make_move (seed : Z) (board : Board) (move : StoneMove.t)
        (color v0 v1 h : Z) :
  is_grid21 board = true -> BLACK <> WHITE -> color = BLACK \/ color = WHITE ->
  let p0 := StoneMove.pos0 move in
  let p1 := StoneMove.pos1 move in
  in_1_19 (StonePosition.x p0) (StonePosition.y p0) = true ->
  in_1_19 (StonePosition.x p1) (StonePosition.y p1) = true ->
  p0 <> p1 ->
  board_get board (StonePosition.x p0) (StonePosition.y p0) = Ok v0 -> no_stone v0 ->
  board_get board (StonePosition.x p1) (StonePosition.y p1) = Ok v1 -> no_stone v1 ->
  let zh := ZobristHash.__init__ seed in
  ZobristHash.compute_hash zh board color = Ok h ->
  exists board' h1 h2,
    Tools.make_move board move color = Ok board'
    /\ ZobristHash.update_hash zh h (StonePosition.x p0) (StonePosition.y p0) color true
       = Ok h1
    /\ ZobristHash.update_hash zh h1 (StonePosition.x p1) (StonePosition.y p1) color true
       = Ok h2
    /\ ZobristHash.compute_hash zh board' (Evaluator.opponent_of color)
       = Ok (ZobristHash.toggle_side zh h2).
Proof.
  intros Hg Hbw Hc p0 p1 Hin0 Hin1 Hne Hv0 Hns0 Hv1 Hns1 zh Hh.
  destruct move as [[x0 y0] [x1 y1] sc].
  cbn [StoneMove.pos0 StoneMove.pos1] in p0, p1. subst p0 p1.
  cbn [StonePosition.x StonePosition.y] in *.
  apply in_1_19_spec in Hin0 as Hr0. apply in_1_19_spec in Hin1 as Hr1.
  unfold Tools.make_move. cbn [StoneMove.pos0 StoneMove.pos1 StonePosition.x StonePosition.y].
  rewrite Hin0, Hin1.
  destruct (board_set_cell_at board x0 y0 color Hg) as (b1 & Hs1 & Hg1 & Hc1);
    [lia | lia |].
  rewrite Hs1. cbn [bind].
  destruct (compute_hash_after_placement zh board b1 x0 y0 color v0 color h
              (init_complete seed) Hg (proj1 Hr0) (proj2 Hr0) Hc Hv0 Hns0 Hs1 Hh)
    as (Hu1 & Hh1 & _).
  assert (Hv1' : board_get b1 x1 y1 = Ok v1).
  { apply board_get_cell_at; [lia | lia |]. rewrite Hc1, decide_False.
    - apply board_get_cell_at; [lia | lia | exact Hv1].
    - intros [-> ->]. apply Hne. reflexivity. }
  destruct (board_set_cell_at b1 x1 y1 color Hg1) as (b2 & Hs2 & Hg2 & Hc2);
    [lia | lia |].
  destruct (compute_hash_after_placement zh b1 b2 x1 y1 color v1 color _
              (init_complete seed) Hg1 (proj1 Hr1) (proj2 Hr1) Hc Hv1' Hns1 Hs2 Hh1)
    as (Hu2 & Hh2 & _).
  exists b2. eexists. eexists. split; [exact Hs2 |]. split; [exact Hu1 |].
  split; [exact Hu2 |].
  rewrite compute_hash_value in Hh2 |- *;
    [| apply init_complete | apply grid21_playable; exact Hg2
     | apply init_complete | apply grid21_playable; exact Hg2].
  unfold ZobristHash.toggle_side, Evaluator.opponent_of.
  destruct Hc as [-> | ->].
  - destruct (Z.eqb_spec BLACK WHITE) as [E|_]; [contradiction |].
    rewrite Z.eqb_refl. injection Hh2 as <-. reflexivity.
  - rewrite Z.eqb_refl in *.
    destruct (Z.eqb_spec BLACK WHITE) as [E|_]; [contradiction |].
    injection Hh2 as Hh2. rewrite <- Hh2.
    rewrite Z.lxor_assoc, Z.lxor_nilpotent, Z.lxor_0_r. reflexivity.
Qed.

End ZobristUpdates.

Lemma update_hash_follows_placement_witness :
  is_grid21 two_stones_board = true
  /\ board_get two_stones_board 9 9 = Ok 0
  /\ @no_stone connect6_defines 0
  /\ board_set two_stones_board 9 9 1 = Ok (place_all two_stones_board [(9, 9, 1)])
  /\ exists h h',
      @ZobristHash.compute_hash connect6_defines simple_hasher two_stones_board 2 = Ok h
      /\ @ZobristHash.update_hash simple_hasher h 9 9 1 true = Ok h'
      /\ @ZobristHash.compute_hash connect6_defines simple_hasher
           (place_all two_stones_board [(9, 9, 1)]) 2 = Ok h'.
Proof.
  assert (Hg : is_grid21 two_stones_board = true) by (vm_compute; reflexivity).
  assert (Hget : board_get two_stones_board 9 9 = Ok 0) by (vm_compute; reflexivity).
  assert (Hno : @no_stone connect6_defines 0) by (split; discriminate).
  assert (Hset : board_set two_stones_board 9 9 1
                 = Ok (place_all two_stones_board [(9, 9, 1)]))
    by (vm_compute; reflexivity).
  split; [exact Hg |]. split; [exact Hget |]. split; [exact Hno |].
  split; [exact Hset |].
  destruct (@ZobristHash.compute_hash connect6_defines simple_hasher two_stones_board 2)
    as [h | e] eqn:Hh; [| vm_compute in Hh; discriminate Hh].
  destruct (@update_hash_follows_placement connect6_defines simple_python 42
              two_stones_board (place_all two_stones_board [(9, 9, 1)])
              9 9 1 0 2 h Hg ltac:(lia) ltac:(lia) (or_introl eq_refl) Hget Hno Hset Hh)
    as (h' & Hup & Hafter & _).
  exists h, h'. split; [reflexivity |]. split; [exact Hup | exact Hafter].
Defined.

Lemma hash_after_make_move_witness :
  is_grid21 two_stones_board = true
  /\ board_get two_stones_board 9 9 = Ok 0
  /\ board_get two_stones_board 9 10 = Ok 0
  /\ exists h board' h1 h2,
      @ZobristHash.compute_hash connect6_defines simple_hasher two_stones_board 1 = Ok h
      /\ @Tools.make_move two_stones_board quiet_move 1 = Ok board'
      /\ @ZobristHash.update_hash simple_hasher h 9 9 1 true = Ok h1
      /\ @ZobristHash.update_hash simple_hasher h1 9 10 1 true = Ok h2
      /\ @ZobristHash.compute_hash connect6_defines simple_hasher board' 2
         = Ok (ZobristHash.toggle_side simple_hasher h2).
Proof.
  assert (Hg : is_grid21 two_stones_board = true) by (vm_compute; reflexivity).
  assert (Hget0 : board_get two_stones_board 9 9 = Ok 0) by (vm_compute; reflexivity).
  assert (Hget1 : board_get two_stones_board 9 10 = Ok 0) by (vm_compute; reflexivity).
  assert (Hno : @no_stone connect6_defines 0) by (split; discriminate).
  split; [exact Hg |]. split; [exact Hget0 |]. split; [exact Hget1 |].
  destruct (@ZobristHash.compute_hash connect6_defines simple_hasher two_stones_board 1)
    as [h | e] eqn:Hh; [| vm_compute in Hh; discriminate Hh].
  destruct (@hash_after_make_move connect6_defines simple_python 42
              two_stones_board quiet_move 1 0 0 h Hg
              ltac:(discriminate) (or_introl eq_refl) eq_refl eq_refl
              ltac:(discriminate) Hget0 Hno Hget1 Hno Hh)
    as (board' & h1 & h2 & Hm & H1 & H2 & Hafter).
  exists h, board', h1, h2. repeat split; assumption.
Defined.

(* ===================================================================== *)
(** * Transposition table: probe, soft_clear, resize and the capacity *)
(* ===================================================================== *)

Section TableFacts.
Context `{Defines} `{Python}.

(** X10.  What [probe] reports and what it changes.  It never changes the
    table, the capacity, the generation or the collision counter, and it
    adds one to exactly one of the two other counters: to [hits] when the
    key has an entry at least as deep as asked, to [misses] otherwise, the
    other counter staying as it was.  The move it returns is the stored
    best move of the key, the one [get_pv_move] returns, also when it
    reports no score.  It
    reports a score only from an entry of the key that is at least as deep
    as asked and whose bound is usable in the window, and that score is the
    entry's; without such an entry the score is [None]. *)
Theorem probe_reports_only_usable_entries
        (self : TranspositionTable.t) (h d alpha beta : Z) :
  let r := TranspositionTable.probe self h d alpha beta in
  let found := fst (fst (fst r)) in
  let score := snd (fst (fst r)) in
  TranspositionTable.table (snd r) = TranspositionTable.table self
  /\ TranspositionTable.max_size (snd r) = TranspositionTable.max_size self
  /\ TranspositionTable.current_age (snd r) = TranspositionTable.current_age self
  /\ TranspositionTable.collisions (snd r) = TranspositionTable.collisions self
  /\ (((exists e, PyDict.get (TranspositionTable.table self) h = Some e
                  /\ d <= TranspositionTable.depth e)
       /\ TranspositionTable.hits (snd r) = TranspositionTable.hits self + 1
       /\ TranspositionTable.misses (snd r) = TranspositionTable.misses self)
      \/ (~ (exists e, PyDict.get (TranspositionTable.table self) h = Some e
                      /\ d <= TranspositionTable.depth e)
          /\ TranspositionTable.hits (snd r) = TranspositionTable.hits self
          /\ TranspositionTable.misses (snd r) = TranspositionTable.misses self + 1))
  /\ snd (fst r) = TranspositionTable.get_pv_move self h
  /\ (found = true <->
      exists e,
        PyDict.get (TranspositionTable.table self) h = Some e
        /\ d <= TranspositionTable.depth e
        /\ window_matches (TranspositionTable.flag e) (TranspositionTable.score e)
             alpha beta)
  /\ (found = true ->
      exists e,
        PyDict.get (TranspositionTable.table self) h = Some e
        /\ score = Some (TranspositionTable.score e))
  /\ (found = false -> score = None).
Proof.
  cbv zeta. unfold TranspositionTable.probe, TranspositionTable.get_pv_move,
              window_matches.
  destruct (PyDict.get (TranspositionTable.table self) h) as [e|] eqn:He.
  - destruct (Z.ltb_spec (TranspositionTable.depth e) d) as [Hlt|Hge].
    + cbn [fst snd TranspositionTable.count_miss TranspositionTable.table
           TranspositionTable.max_size TranspositionTable.current_age
           TranspositionTable.hits TranspositionTable.misses
           TranspositionTable.collisions].
      split; [reflexivity |]. split; [reflexivity |]. split; [reflexivity |].
      split; [reflexivity |].
      split; [right; split; [intros (e' & [= <-] & Hd); lia | split; reflexivity] |].
      split; [reflexivity |]. split; [| split; [discriminate | reflexivity]].
      split; [discriminate |]. intros (e' & [= <-] & Hd & _). lia.
    + assert (Hcase :
        (if TranspositionTable.flag e =? TranspositionTable.EXACT
         then (true, Some (TranspositionTable.score e), TranspositionTable.best_move e,
               TranspositionTable.count_hit self)
         else if (TranspositionTable.flag e =? TranspositionTable.LOWER_BOUND)
                 && (TranspositionTable.score e >=? beta)
         then (true, Some (TranspositionTable.score e), TranspositionTable.best_move e,
               TranspositionTable.count_hit self)
         else if (TranspositionTable.flag e =? TranspositionTable.UPPER_BOUND)
                 && (TranspositionTable.score e <=? alpha)
         then (true, Some (TranspositionTable.score e), TranspositionTable.best_move e,
               TranspositionTable.count_hit self)
         else (false, None, TranspositionTable.best_move e,
               TranspositionTable.count_hit self))
        = (bool_decide (TranspositionTable.flag e = TranspositionTable.EXACT
                        \/ (TranspositionTable.flag e = TranspositionTable.LOWER_BOUND
                            /\ beta <= TranspositionTable.score e)
                        \/ (TranspositionTable.flag e = TranspositionTable.UPPER_BOUND
                            /\ TranspositionTable.score e <= alpha)),
           (if bool_decide (TranspositionTable.flag e = TranspositionTable.EXACT
                        \/ (TranspositionTable.flag e = TranspositionTable.LOWER_BOUND
                            /\ beta <= TranspositionTable.score e)
                        \/ (TranspositionTable.flag e = TranspositionTable.UPPER_BOUND
                            /\ TranspositionTable.score e <= alpha))
            then Some (TranspositionTable.score e) else None),
           TranspositionTable.best_move e, TranspositionTable.count_hit self)).
      { unfold TranspositionTable.EXACT, TranspositionTable.LOWER_BOUND,
          TranspositionTable.UPPER_BOUND.
        destruct (Z.eqb_spec (TranspositionTable.flag e) 0);
          destruct (Z.eqb_spec (TranspositionTable.flag e) 1);
          destruct (Z.eqb_spec (TranspositionTable.flag e) 2);
          destruct (Z.geb_spec (TranspositionTable.score e) beta);
          destruct (Z.leb_spec (TranspositionTable.score e) alpha);
          cbn [andb];
          first [ rewrite bool_decide_eq_true_2 by lia; reflexivity
                | rewrite bool_decide_eq_false_2 by lia; reflexivity ]. }
      rewrite Hcase.
      cbn [fst snd TranspositionTable.count_hit TranspositionTable.table
           TranspositionTable.max_size TranspositionTable.current_age
           TranspositionTable.hits TranspositionTable.misses
           TranspositionTable.collisions].
      split; [reflexivity |]. split; [reflexivity |]. split; [reflexivity |].
      split; [reflexivity |].
      split; [left; split; [exists e; split; [reflexivity | lia] | split; reflexivity] |].
      split; [reflexivity |].
      split; [| split].
      * rewrite bool_decide_eq_true. split.
        -- intros Hw. exists e. split; [reflexivity |]. split; [lia | exact Hw].
        -- intros (e' & [= <-] & _ & Hw). exact Hw.
      * intros Hf. rewrite Hf. exists e. auto.
      * intros Hf. rewrite Hf. reflexivity.
  - cbn [fst snd TranspositionTable.count_miss TranspositionTable.table
         TranspositionTable.max_size TranspositionTable.current_age
         TranspositionTable.hits TranspositionTable.misses
           TranspositionTable.collisions].
    split; [reflexivity |]. split; [reflexivity |]. split; [reflexivity |].
    split; [reflexivity |].
    split; [right; split; [intros (e' & [=] & _) | split; reflexivity] |].
    split; [reflexivity |]. split; [| split; [discriminate | reflexivity]].
    split; [discriminate |]. intros (e' & [=] & _).
Qed.

(** The deletions of [soft_clear]: every listed key is present, so no
    [del] fails, and what is left is the table without those keys. *)
Lemma del_keys_total (tbl : list (Z * TranspositionTable.entry)) (keys : list Z) :
  dict_wf tbl -> NoDup keys -> (forall k, In k keys -> PyDict.mem tbl k = true) ->
  exists tbl',
    foldM TranspositionTable.del_key keys tbl = Ok tbl'
    /\ dict_wf tbl'
    /\ forall k, PyDict.get tbl' k
                 = if decide (k ∈ keys) then None else PyDict.get tbl k.
Proof.
  revert tbl. induction keys as [|k keys IH]; intros tbl Hwf Hnd Hmem.
  - exists tbl. split; [reflexivity |]. split; [exact Hwf |].
    intros k. rewrite decide_False; [reflexivity | apply not_elem_of_nil].
  - apply NoDup_cons in Hnd as [Hk Hnd].
    cbn [foldM]. unfold TranspositionTable.del_key at 1.
    rewrite (Hmem k) by (left; reflexivity). cbn [bind].
    destruct (IH (PyDict.del tbl k)) as (tbl' & Hf & Hwf' & Hget).
    + apply dict_wf_del. exact Hwf.
    + exact Hnd.
    + intros k' Hk'. unfold PyDict.mem.
      rewrite dict_get_del_ne.
      * apply (Hmem k'). right. exact Hk'.
      * intros ->. apply Hk. apply list_elem_of_In. exact Hk'.
    + exists tbl'. split; [exact Hf |]. split; [exact Hwf' |].
      intros k'. rewrite Hget.
      destruct (decide (k' = k)) as [->|Hne].
      * rewrite (decide_True (P := k ∈ k :: keys)) by (left).
        destruct (decide (k ∈ keys)); [reflexivity |].
        apply dict_get_del_eq. exact Hwf.
      * rewrite dict_get_del_ne by auto.
        destruct (decide (k' ∈ keys)) as [Hin|Hnin].
        -- rewrite decide_True by (right; exact Hin). reflexivity.
        -- rewrite decide_False; [reflexivity |].
           intros Hin. apply elem_of_cons in Hin as [? | ?]; contradiction.
Qed.

(** The keys [soft_clear] collects. *)
Lemma old_keys_spec (self : TranspositionTable.t) (k : Z) :
  dict_wf (TranspositionTable.table self) ->
  let keys := map fst (filter (fun kv => TranspositionTable.age (snd kv)
                                         < TranspositionTable.current_age self - 2)
                              (TranspositionTable.table self)) in
  NoDup keys
  /\ (k ∈ keys <->
      exists e, PyDict.get (TranspositionTable.table self) k = Some e
                /\ TranspositionTable.age e < TranspositionTable.current_age self - 2).
Proof.
  intros Hwf. cbv zeta.
  set (tbl := TranspositionTable.table self) in *.
  set (P := fun kv : Z * TranspositionTable.entry =>
              TranspositionTable.age (snd kv) < TranspositionTable.current_age self - 2).
  split.
  - unfold dict_wf in Hwf. clearbody tbl. induction tbl as [|[k' e'] tbl IH].
    + constructor.
    + cbn [map fst] in Hwf. apply NoDup_cons in Hwf as [Hk' Hwf].
      rewrite filter_cons. destruct (decide (P (k', e'))).
      * cbn [map fst]. apply NoDup_cons. split; [| apply IH; exact Hwf].
        intros Hin. apply Hk'. apply list_elem_of_fmap in Hin as ([k2 e2] & -> & Hin).
        apply list_elem_of_filter in Hin as [_ Hin].
        apply list_elem_of_fmap. exists (k2, e2). auto.
      * apply IH. exact Hwf.
  - rewrite list_elem_of_fmap. split.
    + intros ([k' e] & -> & Hin). apply list_elem_of_filter in Hin as [Hp Hin].
      exists e. split; [| exact Hp].
      apply (dict_get_In _ _ _ Hwf). apply list_elem_of_In. exact Hin.
    + intros (e & Hget & Hage). exists (k, e). split; [reflexivity |].
      apply list_elem_of_filter. split; [exact Hage |].
      apply list_elem_of_In. apply (dict_get_In _ _ _ Hwf). exact Hget.
Qed.

Lemma soft_clear_spec (self : TranspositionTable.t) :
  dict_wf (TranspositionTable.table self) ->
  exists self',
    TranspositionTable.soft_clear self = Ok self'
    /\ TranspositionTable.current_age self' = TranspositionTable.current_age self + 1
    /\ TranspositionTable.max_size self' = TranspositionTable.max_size self
    /\ dict_wf (TranspositionTable.table self')
    /\ (forall k,
          PyDict.get (TranspositionTable.table self') k
          = if Qle_bool (inject_Z (Z.of_nat (length (TranspositionTable.table self))))
                        (inject_Z (TranspositionTable.max_size self) * (8 # 10))
            then PyDict.get (TranspositionTable.table self) k
            else match PyDict.get (TranspositionTable.table self) k with
                 | Some e =>
                     if decide (TranspositionTable.age e
                                < TranspositionTable.current_age self - 2)
                     then None else Some e
                 | None => None
                 end).
Proof.
  intros Hwf. unfold TranspositionTable.soft_clear.
  destruct (Qle_bool _ _) eqn:Hq; cbn [negb bind].
  - eexists. split; [reflexivity |].
    cbn [TranspositionTable.current_age TranspositionTable.max_size
         TranspositionTable.table].
    auto.
  - pose proof (fun k => old_keys_spec self k Hwf) as Hkeys. cbv zeta in Hkeys.
    destruct (del_keys_total (TranspositionTable.table self) _ Hwf (proj1 (Hkeys 0)))
      as (tbl' & Hf & Hwf' & Hget).
    + intros k Hk. apply list_elem_of_In, Hkeys in Hk. destruct Hk as (e & He & _).
      unfold PyDict.mem. rewrite He. reflexivity.
    + rewrite Hf. cbn [bind]. eexists. split; [reflexivity |].
      cbn [TranspositionTable.current_age TranspositionTable.max_size
           TranspositionTable.table].
      split; [reflexivity |]. split; [reflexivity |]. split; [exact Hwf' |].
      intros k. rewrite Hget.
      destruct (PyDict.get (TranspositionTable.table self) k) as [e|] eqn:He.
      * destruct (decide (TranspositionTable.age e
                          < TranspositionTable.current_age self - 2)) as [Hold|Hnew].
        -- rewrite decide_True; [reflexivity |]. apply Hkeys. eauto.
        -- rewrite decide_False; [reflexivity |].
           intros Hin. apply Hkeys in Hin. destruct Hin as (e' & He' & Hage).
           rewrite He in He'. injection He' as <-. contradiction.
      * destruct (decide _); reflexivity.
Qed.

(** X11.  [soft_clear] on a table returns, without a [KeyError] from its
    deletions, and starts the next generation.  It adds no entry and changes
    none; and whatever the size of the table, every entry of the current
    generation and of the two before it (age at least [current_age - 2]) is
    still there afterwards. *)
Theorem soft_clear_keeps_recent_entries (self : TranspositionTable.t) :
  dict_wf (TranspositionTable.table self) ->
  exists self',
    TranspositionTable.soft_clear self = Ok self'
    /\ TranspositionTable.current_age self' = TranspositionTable.current_age self + 1
    /\ TranspositionTable.max_size self' = TranspositionTable.max_size self
    /\ dict_wf (TranspositionTable.table self')
    /\ (forall k e,
          PyDict.get (TranspositionTable.table self') k = Some e ->
          PyDict.get (TranspositionTable.table self) k = Some e)
    /\ (forall k e,
          PyDict.get (TranspositionTable.table self) k = Some e ->
          TranspositionTable.current_age self - 2 <= TranspositionTable.age e ->
          PyDict.get (TranspositionTable.table self') k = Some e).
Proof.
  intros Hwf. destruct (soft_clear_spec self Hwf) as (self' & Hs & Ha & Hm & Hwf' & Hget).
  exists self'. split; [exact Hs |]. split; [exact Ha |]. split; [exact Hm |].
  split; [exact Hwf' |]. split.
  - intros k e. rewrite Hget. destruct (Qle_bool _ _); [auto |].
    destruct (PyDict.get (TranspositionTable.table self) k) as [e'|]; [| discriminate].
    destruct (decide _); [discriminate | auto].
  - intros k e He Hage. rewrite Hget, He. destruct (Qle_bool _ _); [reflexivity |].
    rewrite decide_False by lia. reflexivity.
Qed.

Lemma threshold_test (len max_size : Z) :
  Qle_bool (inject_Z len) (inject_Z max_size * (8 # 10)) = true
  <-> 10 * len <= 8 * max_size.
Proof.
  rewrite Qle_bool_iff. unfold Qle, Qmult, inject_Z. cbn [Qnum Qden].
  rewrite Pos.mul_1_l, Z.mul_1_r. cbn. lia.
Qed.

(** X12.  The threshold of [soft_clear], the float product taken exactly:
    while the table holds at most eight tenths of its capacity nothing is
    removed; above that, exactly the entries older than two generations
    (age below [current_age - 2]) are removed. *)
Theorem soft_clear_removes_old_entries_above_threshold (self self' : TranspositionTable.t) :
  dict_wf (TranspositionTable.table self) ->
  0 <= TranspositionTable.max_size self < 2 ^ 50 ->
  TranspositionTable.soft_clear self = Ok self' ->
  let len := Z.of_nat (length (TranspositionTable.table self)) in
  (10 * len <= 8 * TranspositionTable.max_size self ->
   TranspositionTable.table self' = TranspositionTable.table self)
  /\ (8 * TranspositionTable.max_size self < 10 * len ->
      forall k,
        PyDict.get (TranspositionTable.table self') k
        = match PyDict.get (TranspositionTable.table self) k with
          | Some e =>
              if decide (TranspositionTable.age e
                         < TranspositionTable.current_age self - 2)
              then None else Some e
          | None => None
          end).
Proof.
  intros Hwf _ Hs. cbv zeta.
  destruct (soft_clear_spec self Hwf) as (self1 & Hs1 & _ & _ & _ & Hget).
  rewrite Hs in Hs1. injection Hs1 as <-. split.
  - intros Hle. apply threshold_test in Hle.
    unfold TranspositionTable.soft_clear in Hs. rewrite Hle in Hs.
    cbn [negb bind] in Hs. injection Hs as <-. reflexivity.
  - intros Hgt k. rewrite Hget.
    destruct (Qle_bool _ _) eqn:Hq; [| reflexivity].
    apply threshold_test in Hq. lia.
Qed.

(** X13.  [resize] sets the new capacity and, when the table holds more
    entries than that, removes one fifth of them (rounded down) and no more:
    the entries left are entries of the table before, and the table can stay
    above the new capacity. *)
Theorem resize_removes_one_fifth (self : TranspositionTable.t) (new_max_size : Z) :
  dict_wf (TranspositionTable.table self) ->
  let self' := TranspositionTable.resize self new_max_size in
  let len := length (TranspositionTable.table self) in
  TranspositionTable.max_size self' = new_max_size
  /\ (Z.of_nat len <= new_max_size ->
      TranspositionTable.table self' = TranspositionTable.table self)
  /\ (new_max_size < Z.of_nat len ->
      (length (TranspositionTable.table self') + Z.to_nat (Z.of_nat len / 5) = len)%nat)
  /\ (forall k e,
        PyDict.get (TranspositionTable.table self') k = Some e ->
        PyDict.get (TranspositionTable.table self) k = Some e).
Proof.
  intros Hwf. cbv zeta. unfold TranspositionTable.resize.
  cbn [TranspositionTable.table].
  set (self1 := TranspositionTable.mk _ new_max_size _ _ _ _ _).
  assert (Htbl : TranspositionTable.table self1 = TranspositionTable.table self)
    by reflexivity.
  destruct (cleanup_policy self1) as (Hcount & Hsub & _); [rewrite Htbl; exact Hwf |].
  cbv zeta in Hcount, Hsub. rewrite Htbl in Hcount, Hsub.
  destruct (Z.gtb_spec (Z.of_nat (length (TranspositionTable.table self))) new_max_size)
    as [Hover|Hfit].
  - split; [reflexivity |]. split; [lia |]. split; [intros _; exact Hcount | exact Hsub].
  - split; [reflexivity |]. split; [reflexivity |]. split; [lia | auto].
Qed.

(** A store into a table of fewer than four entries evicts nothing. *)
Lemma store_small_table (self : TranspositionTable.t) (h D s f : Z)
      (m : option StoneMove.t) (tl : Z) :
  PyDict.get (TranspositionTable.table self) h = None ->
  (length (TranspositionTable.table self) <= 3)%nat ->
  TranspositionTable.table (TranspositionTable.store self h D s f m tl)
  = TranspositionTable.table self ++ [(h, new_entry self D s f m tl)].
Proof.
  intros Hnone Hlen. unfold TranspositionTable.store. rewrite Hnone.
  cbn [TranspositionTable.table TranspositionTable.with_table TranspositionTable.max_size].
  assert (Hset : forall d : list (Z * TranspositionTable.entry),
             PyDict.get d h = None ->
             forall e, PyDict.set d h e = d ++ [(h, e)]).
  { induction d as [|[k v] d IH]; intros Hd e; [reflexivity |].
    cbn [PyDict.get PyDict.set] in *. destruct (decide (k = h)); [discriminate |].
    rewrite IH by exact Hd. reflexivity. }
  rewrite Hset by exact Hnone. fold (new_entry self D s f m tl).
  destruct (_ >? _); [| reflexivity].
  unfold TranspositionTable._cleanup.
  cbn [TranspositionTable.table TranspositionTable.with_table].
  match goal with
  | |- context [take (Z.to_nat (Z.of_nat (length ?l) / 5)) _] =>
      assert (Hz : Z.to_nat (Z.of_nat (length l) / 5) = 0%nat)
  end.
  { assert (Hsl : forall (A : Type) (leb : A -> A -> bool) (l : list A),
               length (sort_by leb l) = length l).
    { intros A leb l. induction l as [|a l IH]; [reflexivity |].
      cbn [sort_by foldr length]. fold (sort_by leb l). rewrite <- IH.
      generalize (sort_by leb l). intros l'. induction l' as [|b l' IH'];
        [reflexivity |]. cbn [insert_by]. destruct (leb a b); cbn [length]; lia. }
    rewrite Hsl, length_map, length_app. cbn [length].
    rewrite Z.div_small by lia. reflexivity. }
  rewrite Hz. reflexivity.
Qed.

(** X14.  The capacity is an invariant from 4 upwards, and not below.  A
    table created with a capacity of at least 4 never holds more entries
    than its capacity, whatever sequence of stores is applied to it.  With a
    smaller capacity the cleanup removes a fifth of too few entries, that is
    none: the stores of four different keys leave four entries. *)
Theorem stores_respect_capacity_from_four (max_size : Z) (ops : list store_args) :
  let tt := foldl store_with (TranspositionTable.__init__ max_size) ops in
  (4 <= max_size ->
   dict_wf (TranspositionTable.table tt)
   /\ Z.of_nat (length (TranspositionTable.table tt)) <= max_size)
  /\ (NoDup (map (fun a : store_args => let '(h, _, _, _, _, _) := a in h) ops) ->
      (length ops <= 4)%nat ->
      length (TranspositionTable.table tt) = length ops).
Proof.
  cbv zeta. split.
  - intros Hmax.
    assert (Hinv : forall tt0,
               dict_wf (TranspositionTable.table tt0)
               /\ TranspositionTable.max_size tt0 = max_size
               /\ Z.of_nat (length (TranspositionTable.table tt0)) <= max_size ->
               let tt := foldl store_with tt0 ops in
               dict_wf (TranspositionTable.table tt)
               /\ TranspositionTable.max_size tt = max_size
               /\ Z.of_nat (length (TranspositionTable.table tt)) <= max_size).
    { induction ops as [|[[[[[h d] s] f] m] tl] ops IH]; intros tt0 Hinv0; [exact Hinv0 |].
      cbn [foldl]. apply IH. destruct Hinv0 as (Hwf & Hm & Hcap).
      destruct (store_within_capacity tt0 h d s f m tl Hwf) as (Hwf' & Hm' & Hcap');
        [lia | lia |].
      cbv zeta in Hwf', Hm', Hcap'. unfold store_with.
      split; [exact Hwf' |]. split; [lia | lia]. }
    destruct (Hinv (TranspositionTable.__init__ max_size)) as (Hwf & _ & Hcap).
    + cbn [TranspositionTable.__init__ TranspositionTable.table
           TranspositionTable.max_size length].
      split; [constructor |]. split; [reflexivity | lia].
    + auto.
  - intros Hnd Hlen.
    assert (Hinv : forall tt0,
               (forall a, In a ops ->
                  PyDict.get (TranspositionTable.table tt0)
                    (let '(h, _, _, _, _, _) := a in h) = None) ->
               (length (TranspositionTable.table tt0) + length ops <= 4)%nat ->
               length (TranspositionTable.table (foldl store_with tt0 ops))
               = (length (TranspositionTable.table tt0) + length ops)%nat).
    { clear Hlen. induction ops as [|[[[[[h d] s] f] m] tl] ops IH]; intros tt0 Hfresh Hlen0.
      - cbn [foldl length]. lia.
      - cbn [map] in Hnd. apply NoDup_cons in Hnd as [Hh Hnd].
        cbn [foldl length] in *. unfold store_with at 2.
        pose proof (store_small_table tt0 h d s f m tl) as Hst.
        rewrite IH; [| exact Hnd | |].
        + rewrite Hst; [| apply (Hfresh (h, d, s, f, m, tl)); left; reflexivity | lia].
          rewrite length_app. cbn [length]. lia.
        + intros a Ha. rewrite Hst;
            [| apply (Hfresh (h, d, s, f, m, tl)); left; reflexivity | lia].
          assert (Hget_app : forall (d0 : list (Z * TranspositionTable.entry)) k k' e',
                     k' <> k -> PyDict.get (d0 ++ [(k', e')]) k = PyDict.get d0 k).
          { induction d0 as [|[k0 v0] d0 IHd]; intros k k' e' Hne; cbn [app PyDict.get].
            - destruct (decide (k' = k)); [contradiction | reflexivity].
            - destruct (decide (k0 = k)); [reflexivity | apply IHd; exact Hne]. }
          rewrite Hget_app.
          * apply Hfresh. right. exact Ha.
          * intros ->. apply Hh. apply list_elem_of_fmap. exists a.
            split; [reflexivity | apply list_elem_of_In; exact Ha].
        + rewrite Hst; [| apply (Hfresh (h, d, s, f, m, tl)); left; reflexivity | lia].
          rewrite length_app. cbn [length]. lia. }
    rewrite Hinv.
    + reflexivity.
    + intros [[[[[h d] s] f] m] tl] _. reflexivity.
    + cbn [TranspositionTable.__init__ TranspositionTable.table length]. lia.
Qed.

End TableFacts.

Lemma tested_table_wf : dict_wf (TranspositionTable.table tested_table).
Proof.
  vm_compute. apply NoDup_cons. split; [apply not_elem_of_nil | apply NoDup_nil_2].
Qed.

Lemma soft_clear_keeps_recent_entries_witness :
  dict_wf (TranspositionTable.table tested_table)
  /\ exists self',
      TranspositionTable.soft_clear tested_table = Ok self'
      /\ TranspositionTable.current_age self' = 1
      /\ PyDict.get (TranspositionTable.table self') 77
         = Some (TranspositionTable.mk_entry 5 1000 TranspositionTable.EXACT None 0 0).
Proof.
  split; [exact tested_table_wf |].
  destruct (soft_clear_keeps_recent_entries tested_table tested_table_wf)
    as (self' & Hrun & Hage & _ & _ & _ & Hkeep).
  exists self'. split; [exact Hrun |]. split; [exact Hage |].
  apply Hkeep; [vm_compute; reflexivity | vm_compute; discriminate].
Defined.

Lemma soft_clear_removes_old_entries_above_threshold_witness :
  dict_wf (TranspositionTable.table aged_table)
  /\ 0 <= TranspositionTable.max_size aged_table < 2 ^ 50
  /\ 8 * TranspositionTable.max_size aged_table
     < 10 * Z.of_nat (length (TranspositionTable.table aged_table))
  /\ TranspositionTable.current_age aged_table = 3
  /\ PyDict.get (TranspositionTable.table aged_table) 1
     = Some (TranspositionTable.mk_entry 1 10 TranspositionTable.EXACT None 0 0)
  /\ exists self',
      TranspositionTable.soft_clear aged_table = Ok self'
      /\ PyDict.get (TranspositionTable.table self') 1 = None
      /\ PyDict.get (TranspositionTable.table self') 2
         = Some (TranspositionTable.mk_entry 1 10 TranspositionTable.EXACT None 3 0).
Proof.
  assert (Hwf : dict_wf (TranspositionTable.table aged_table)).
  { apply (bool_decide_unpack _). vm_compute. exact I. }
  assert (Hsize : 0 <= TranspositionTable.max_size aged_table < 2 ^ 50)
    by (vm_compute; split; [discriminate | reflexivity]).
  assert (Habove : 8 * TranspositionTable.max_size aged_table
                   < 10 * Z.of_nat (length (TranspositionTable.table aged_table)))
    by (vm_compute; reflexivity).
  split; [exact Hwf |]. split; [exact Hsize |]. split; [exact Habove |].
  split; [vm_compute; reflexivity |]. split; [vm_compute; reflexivity |].
  destruct (TranspositionTable.soft_clear aged_table) as [self' | e] eqn:Hrun;
    [| vm_compute in Hrun; discriminate Hrun].
  exists self'. split; [reflexivity |].
  destruct (soft_clear_removes_old_entries_above_threshold aged_table self'
              Hwf Hsize Hrun) as [_ Hremoved].
  split; rewrite (Hremoved Habove); vm_compute; reflexivity.
Defined.

Lemma resize_removes_one_fifth_witness :
  dict_wf (TranspositionTable.table five_entries_table)
  /\ length (TranspositionTable.table five_entries_table) = 5%nat
  /\ TranspositionTable.max_size (TranspositionTable.resize five_entries_table 2) = 2
  /\ length (TranspositionTable.table (TranspositionTable.resize five_entries_table 2))
     = 4%nat.
Proof.
  assert (Hwf : dict_wf (TranspositionTable.table five_entries_table)).
  { apply (bool_decide_unpack _). vm_compute. exact I. }
  assert (Hlen : length (TranspositionTable.table five_entries_table) = 5%nat)
    by (vm_compute; reflexivity).
  split; [exact Hwf |]. split; [exact Hlen |].
  destruct (resize_removes_one_fifth five_entries_table 2 Hwf) as (Hmax & _ & Hcut & _).
  split; [exact Hmax |].
  rewrite Hlen in Hcut. specialize (Hcut ltac:(lia)).
  change (Z.to_nat (Z.of_nat 5 / 5)) with 1%nat in Hcut. lia.
Defined.

(* ===================================================================== *)
(** * The coordinate checks and the second stone of the search *)
(* ===================================================================== *)

(** A search through a window of offsets that stops at the first hit: the
    result satisfies what every hit satisfies, and without a result every
    offset was a miss. *)
Lemma scan_first {A : Type} (step : Z -> option A -> Z -> result (option A))
      (G : A -> Prop) (B : Z -> Z -> Prop) (dxs dys : list Z) :
  (forall dx a dy, step dx (Some a) dy = Ok (Some a)) ->
  (forall dx dy, In dx dxs -> In dy dys ->
     (exists a, step dx None dy = Ok (Some a) /\ G a)
     \/ (step dx None dy = Ok None /\ B dx dy)) ->
  exists r,
    foldM (fun found dx => foldM (step dx) dys found) dxs None = Ok r
    /\ match r with
       | Some a => G a
       | None => forall dx dy, In dx dxs -> In dy dys -> B dx dy
       end.
Proof.
  intros Hsome Hnone.
  apply (foldM_total_seen
           (fun seen (found : option A) =>
              match found with
              | Some a => G a
              | None => forall dx dy, In dx seen -> In dy dys -> B dx dy
              end)).
  - intros dx dy [].
  - intros seen dx found Hdx Hfound.
    destruct (foldM_total_seen
                (fun seeny (found : option A) =>
                   match found with
                   | Some a => G a
                   | None => (forall dx dy, In dx seen -> In dy dys -> B dx dy)
                             /\ forall dy, In dy seeny -> B dx dy
                   end)
                (step dx) dys found) as (r & Hr & Hinv).
    + destruct found as [a|]; [exact Hfound |]. split; [exact Hfound | intros dy []].
    + intros seeny dy [a|] Hdy Hinv.
      * exists (Some a). split; [apply Hsome | exact Hinv].
      * destruct (Hnone dx dy Hdx Hdy) as [(a & Hs & Ha) | (Hs & Hb)].
        -- exists (Some a). split; [exact Hs | exact Ha].
        -- exists None. split; [exact Hs |]. destruct Hinv as [H1 H2].
           split; [exact H1 |]. intros dy' Hdy'. apply in_app_iff in Hdy'.
           destruct Hdy' as [Hdy' | [<- | []]]; [apply H2; exact Hdy' | exact Hb].
    + exists r. split; [exact Hr |]. destruct r as [a|]; [exact Hinv |].
      destruct Hinv as [H1 H2]. intros dx' dy' Hdx' Hdy'.
      apply in_app_iff in Hdx'. destruct Hdx' as [Hdx' | [<- | []]].
      * apply H1; assumption.
      * apply H2. exact Hdy'.
Qed.

Lemma stone_at_spec (board : Board) (tx ty c : Z) :
  is_grid21 board = true ->
  exists r, stone_at board tx ty c = Ok r
            /\ (r = true <-> in_1_19 tx ty = true /\ board_get board tx ty = Ok c).
Proof.
  intros Hg. unfold stone_at. destruct (in_1_19 tx ty) eqn:Hin.
  - apply in_1_19_spec in Hin as Hr.
    destruct (grid21_cell board tx ty Hg) as (v & _ & Hget); [lia | lia |].
    rewrite Hget. cbn [bind]. eexists. split; [reflexivity |].
    rewrite Z.eqb_eq. split.
    + intros ->. auto.
    + intros [_ [= ->]]. reflexivity.
  - exists false. split; [reflexivity |]. split; [discriminate | intros [[=] _]].
Qed.

Section EngineChecks.
Context `{Defines} `{Python}.

(** X15.  The two coordinate checks of the engine agree: [_validate_move]
    of the search and [validate_and_fix_move] of the game loop return the
    same move.  Its coordinates lie in [1,19], its score is the one given, a
    move in range is returned unchanged, and a second check changes
    nothing. *)
Theorem validate_move_clamps (move : StoneMove.t) :
  let m := SearchEngine._validate_move move in
  GameEngine.validate_and_fix_move move = m
  /\ in_1_19 (StonePosition.x (StoneMove.pos0 m)) (StonePosition.y (StoneMove.pos0 m)) = true
  /\ in_1_19 (StonePosition.x (StoneMove.pos1 m)) (StonePosition.y (StoneMove.pos1 m)) = true
  /\ StoneMove.score m = StoneMove.score move
  /\ SearchEngine._validate_move m = m
  /\ (in_1_19 (StonePosition.x (StoneMove.pos0 move))
              (StonePosition.y (StoneMove.pos0 move)) = true ->
      in_1_19 (StonePosition.x (StoneMove.pos1 move))
              (StonePosition.y (StoneMove.pos1 move)) = true ->
      m = move).
Proof.
  cbv zeta. destruct move as [[x0 y0] [x1 y1] sc].
  unfold SearchEngine._validate_move, GameEngine.validate_and_fix_move.
  cbn [StoneMove.pos0 StoneMove.pos1 StoneMove.score StonePosition.x StonePosition.y].
  assert (Hfix : forall v, GameEngine.fix_coordinate v = clamp_1_19 v).
  { intros v. unfold GameEngine.fix_coordinate, clamp_1_19.
    destruct (Z.ltb_spec v 1); [lia |]. destruct (Z.gtb_spec v 19); lia. }
  rewrite !Hfix. split; [reflexivity |].
  rewrite !(proj2 (in_1_19_spec _ _)) by (split; apply clamp_range).
  split; [reflexivity |]. split; [reflexivity |]. split; [reflexivity |].
  split.
  - rewrite !(clamp_id (clamp_1_19 _)) by apply clamp_range. reflexivity.
  - intros Hp0 Hp1. apply in_1_19_spec in Hp0, Hp1. rewrite !clamp_id by lia. reflexivity.
Qed.

(** X16.  [_find_second_stone] on a grid returns.  The cell it returns is
    an empty playable cell next to the first stone (at most one step away in
    each coordinate) and different from it; when no such cell exists the
    answer is [(10, 10)] whatever that cell holds. *)
Theorem find_second_stone_is_an_empty_neighbour (pos1 : Z * Z) (board : Board) :
  is_grid21 board = true ->
  exists p,
    SearchEngine._find_second_stone pos1 board = Ok p
    /\ ((empty_playable board p /\ p <> pos1
         /\ Z.abs (fst p - fst pos1) <= 1 /\ Z.abs (snd p - snd pos1) <= 1)
        \/ (p = (10, 10)
            /\ forall q, q <> pos1 ->
                 Z.abs (fst q - fst pos1) <= 1 -> Z.abs (snd q - snd pos1) <= 1 ->
                 ~ empty_playable board q)).
Proof.
  intros Hg. unfold SearchEngine._find_second_stone.
  match goal with
  | |- context [foldM (fun found dx => foldM (@?step dx) ?dys found) ?dxs None] =>
      destruct (scan_first step
                  (fun p => empty_playable board p /\ p <> pos1
                            /\ Z.abs (fst p - fst pos1) <= 1
                            /\ Z.abs (snd p - snd pos1) <= 1)
                  (fun dx dy => (fst pos1 + dx, snd pos1 + dy) <> pos1 ->
                                ~ empty_playable board (fst pos1 + dx, snd pos1 + dy))
                  dxs dys) as (r & Hr & Hspec)
  end.
  - reflexivity.
  - intros dx dy Hdx Hdy. cbn beta.
    destruct (stone_at_spec board (fst pos1 + dx) (snd pos1 + dy) NOSTONE Hg)
      as (e & He & Hiff).
    rewrite He. cbn [bind].
    destruct e; cbn [andb].
    + destruct (bool_decide_reflect ((fst pos1 + dx, snd pos1 + dy) = pos1)) as [Heq|Hne];
        cbn [negb].
      * right. split; [reflexivity |]. intros Hne. contradiction.
      * left. eexists. split; [reflexivity |].
        split; [unfold empty_playable; cbn [fst snd]; apply Hiff; reflexivity |].
        split; [exact Hne |]. cbn [fst snd].
        cbn in Hdx, Hdy. lia.
    + right. split; [reflexivity |]. intros _ [Hin Hget]. cbn [fst snd] in *.
      assert (false = true) by (apply Hiff; auto). discriminate.
  - rewrite Hr. cbn [bind]. destruct r as [p|]; cbn [default].
    + exists p. split; [reflexivity |]. left. exact Hspec.
    + exists (10, 10). split; [reflexivity |]. right. split; [reflexivity |].
      intros [qx qy] Hq Hax Hay. cbn [fst snd] in *.
      replace qx with (fst pos1 + (qx - fst pos1)) by lia.
      replace qy with (snd pos1 + (qy - snd pos1)) by lia.
      apply Hspec.
      * cbn. lia.
      * cbn. lia.
      * replace (fst pos1 + (qx - fst pos1)) with qx by lia.
        replace (snd pos1 + (qy - snd pos1)) with qy by lia. exact Hq.
Qed.

End EngineChecks.

Lemma find_second_stone_is_an_empty_neighbour_witness :
  is_grid21 two_stones_board = true
  /\ exists p,
      @SearchEngine._find_second_stone connect6_defines (10, 10) two_stones_board = Ok p
      /\ p = (9, 9) /\ @empty_playable connect6_defines two_stones_board p.
Proof.
  assert (Hg : is_grid21 two_stones_board = true) by (vm_compute; reflexivity).
  split; [exact Hg |].
  destruct (@find_second_stone_is_an_empty_neighbour connect6_defines (10, 10)
              two_stones_board Hg) as (p & Hp & Hcases).
  exists p. split; [exact Hp |].
  assert (Hrun : @SearchEngine._find_second_stone connect6_defines (10, 10)
                   two_stones_board = Ok (9, 9)) by (vm_compute; reflexivity).
  rewrite Hrun in Hp. injection Hp as <-. split; [reflexivity |].
  destruct Hcases as [(He & _) | (Hc & _)]; [exact He | discriminate Hc].
Defined.

(* ===================================================================== *)
(** * The killer table and the empty-cell fallback of the game loop *)
(* ===================================================================== *)

Lemma py_index_Some {A : Type} (l : list A) (i : Z) :
  - Z.of_nat (length l) <= i < Z.of_nat (length l) ->
  exists j, py_index l i = Some j /\ (j < length l)%nat.
Proof.
  intros Hi. unfold py_index.
  destruct (Z.ltb_spec i 0).
  - destruct (Z.leb_spec 0 (i + Z.of_nat (length l))); [| lia].
    destruct (Z.ltb_spec (i + Z.of_nat (length l)) (Z.of_nat (length l))); [| lia].
    eexists. split; [reflexivity | lia].
  - destruct (Z.leb_spec 0 i); [| lia].
    destruct (Z.ltb_spec i (Z.of_nat (length l))); [| lia].
    eexists. split; [reflexivity | lia].
Qed.

Lemma py_index_None {A : Type} (l : list A) (i : Z) :
  i < - Z.of_nat (length l) \/ Z.of_nat (length l) <= i -> py_index l i = None.
Proof.
  intros Hi. unfold py_index.
  destruct (Z.ltb_spec i 0).
  - destruct (Z.leb_spec 0 (i + Z.of_nat (length l))); [| reflexivity].
    destruct (Z.ltb_spec (i + Z.of_nat (length l)) (Z.of_nat (length l)));
      [lia | reflexivity].
  - destruct (Z.leb_spec 0 i); [| lia].
    destruct (Z.ltb_spec i (Z.of_nat (length l))); [lia | reflexivity].
Qed.

Lemma moves_equal_copy (move : StoneMove.t) (k : option StoneMove.t) :
  SearchEngine._moves_equal (Some (SearchEngine._copy_move move)) k
  = SearchEngine._moves_equal (Some move) k.
Proof. destruct k; reflexivity. Qed.

Lemma moves_equal_refl (move : StoneMove.t) :
  SearchEngine._moves_equal (Some move) (Some (SearchEngine._copy_move move)) = true.
Proof.
  unfold SearchEngine._moves_equal, SearchEngine._copy_move.
  cbn [StoneMove.pos0 StoneMove.pos1 StonePosition.x StonePosition.y].
  rewrite !Z.eqb_refl. reflexivity.
Qed.

(** X17.  The killer table.  From a table with two different killers per
    depth (as the initial table of empty slots is), [_update_killers] at a
    depth the table has, negative depths counting from the end as Python
    indexes, returns a table of the same length that still has two
    different killers per depth; the first killer at that depth is then the
    move, and the second is the first killer of before unless the move was
    that one already.  At a depth of the table length or more nothing
    changes; below minus the length the call raises [IndexError]. *)
Theorem update_killers_keeps_two_different_killers
        (killer_moves : list (list (option StoneMove.t))) (move : StoneMove.t)
        (depth : Z) :
  killers_ok killer_moves ->
  let n := Z.of_nat (length killer_moves) in
  (- n <= depth < n ->
   exists km' k0 k1 k0' k1',
     SearchEngine._update_killers killer_moves move depth = Ok km'
     /\ killers_ok km' /\ length km' = length killer_moves
     /\ getitem killer_moves depth = Ok [k0; k1]
     /\ getitem km' depth = Ok [k0'; k1']
     /\ SearchEngine._moves_equal (Some move) k0' = true
     /\ k1' = (if SearchEngine._moves_equal (Some move) k0 then k1 else k0))
  /\ (n <= depth -> SearchEngine._update_killers killer_moves move depth = Ok killer_moves)
  /\ (depth < - n -> SearchEngine._update_killers killer_moves move depth = Raise IndexError).
Proof.
  intros Hok. cbv zeta. unfold SearchEngine._update_killers.
  split; [| split].
  - intros Hd. destruct (Z.ltb_spec depth (Z.of_nat (length killer_moves))); [| lia].
    destruct (py_index_Some killer_moves depth Hd) as (j & Hj & Hlt).
    destruct (lookup_lt_is_Some_2 killer_moves j Hlt) as (slots & Hslots).
    unfold killers_ok in Hok. rewrite Forall_lookup in Hok.
    destruct (Hok j slots Hslots) as (k0 & k1 & -> & Hne).
    assert (Hget : getitem killer_moves depth = Ok [k0; k1]).
    { unfold getitem. rewrite Hj, Hslots. reflexivity. }
    rewrite Hget. cbn [bind].
    change (getitem [k0; k1] 0) with (Ok (A := option StoneMove.t) k0). cbn [bind].
    destruct (SearchEngine._moves_equal (Some move) k0) eqn:Heq; cbn [negb].
    + exists killer_moves, k0, k1, k0, k1.
      split; [reflexivity |]. split; [apply Forall_lookup; exact Hok |].
      split; [reflexivity |]. split; [reflexivity |]. split; [exact Hget |].
      split; [exact Heq | rewrite Heq; reflexivity].
    + assert (Hs1 : setitem [k0; k1] 1 k0 = Ok [k0; k0]) by reflexivity.
      rewrite Hs1. cbn [bind].
      assert (Hs2 : setitem [k0; k0] 0 (Some (SearchEngine._copy_move move))
                    = Ok [Some (SearchEngine._copy_move move); k0]) by reflexivity.
      rewrite Hs2. cbn [bind].
      unfold setitem. rewrite Hj.
      exists (<[j := [Some (SearchEngine._copy_move move); k0]]> killer_moves),
        k0, k1, (Some (SearchEngine._copy_move move)), k0.
      split; [reflexivity |]. split.
      { unfold killers_ok. apply Forall_insert; [apply Forall_lookup; exact Hok |].
        eexists. eexists. split; [reflexivity |].
        rewrite moves_equal_copy. exact Heq. }
      split; [apply length_insert |]. split; [reflexivity |]. split.
      { unfold getitem, py_index. rewrite length_insert. fold (py_index killer_moves depth).
        rewrite Hj, list_lookup_insert_eq by exact Hlt. reflexivity. }
      split; [apply moves_equal_refl | rewrite Heq; reflexivity].
  - intros Hd. destruct (Z.ltb_spec depth (Z.of_nat (length killer_moves))); [lia |].
    reflexivity.
  - intros Hd. destruct (Z.ltb_spec depth (Z.of_nat (length killer_moves))); [| lia].
    unfold getitem. rewrite py_index_None by lia. reflexivity.
Qed.

Lemma initial_killers_ok : killers_ok initial_killers.
Proof.
  unfold killers_ok, initial_killers. apply Forall_replicate.
  exists None, None. split; reflexivity.
Qed.

Section EmptyNear.
Context `{Defines}.

(** The result of [find_empty_near] on a grid. *)
Lemma find_empty_near_spec (board : Board) (x y : Z) :
  is_grid21 board = true ->
  exists p,
    GameEngine.find_empty_near board x y = Ok p
    /\ ((empty_playable board p
         /\ Z.abs (fst p - x) <= 2 /\ Z.abs (snd p - y) <= 2)
        \/ (p = (10, 10)
            /\ forall q, Z.abs (fst q - x) <= 2 -> Z.abs (snd q - y) <= 2 ->
                         ~ empty_playable board q)).
Proof.
  intros Hg. unfold GameEngine.find_empty_near.
  match goal with
  | |- context [foldM (fun found dx => foldM (@?step dx) ?dys found) ?dxs None] =>
      destruct (scan_first step
                  (fun p => empty_playable board p
                            /\ Z.abs (fst p - x) <= 2 /\ Z.abs (snd p - y) <= 2)
                  (fun dx dy => ~ empty_playable board (x + dx, y + dy))
                  dxs dys) as (r & Hr & Hspec)
  end.
  - reflexivity.
  - intros dx dy Hdx Hdy. cbn beta. apply elem_of_range in Hdx, Hdy.
    destruct (stone_at_spec board (x + dx) (y + dy) NOSTONE Hg) as (e & He & Hiff).
    rewrite He. cbn [bind]. destruct e.
    + left. eexists. split; [reflexivity |].
      split; [unfold empty_playable; cbn [fst snd]; apply Hiff; reflexivity |].
      cbn [fst snd]. lia.
    + right. split; [reflexivity |]. intros [Hin Hget]. cbn [fst snd] in *.
      assert (false = true) by (apply Hiff; auto). discriminate.
  - rewrite Hr. cbn [bind]. destruct r as [p|]; cbn [default].
    + exists p. split; [reflexivity |]. left. exact Hspec.
    + exists (10, 10). split; [reflexivity |]. right. split; [reflexivity |].
      intros [qx qy] Hax Hay. cbn [fst snd] in *.
      replace qx with (x + (qx - x)) by lia.
      replace qy with (y + (qy - y)) by lia.
      apply Hspec; apply elem_of_range; lia.
Qed.

Lemma not_valid_empty_spec (board : Board) (p : StonePosition.t) :
  is_grid21 board = true ->
  exists b, GameEngine.not_valid_empty board p = Ok b
            /\ (b = false <-> empty_playable board (pair_of p)).
Proof.
  intros Hg. unfold GameEngine.not_valid_empty, empty_playable, pair_of. cbn [fst snd].
  destruct (in_1_19 (StonePosition.x p) (StonePosition.y p)) eqn:Hin; cbn [negb].
  - apply in_1_19_spec in Hin as Hr.
    destruct (grid21_cell board (StonePosition.x p) (StonePosition.y p) Hg)
      as (v & _ & Hget); [lia | lia |].
    rewrite Hget. cbn [bind]. eexists. split; [reflexivity |].
    rewrite negb_false_iff, Z.eqb_eq. split.
    + intros ->. auto.
    + intros [_ [= ->]]. reflexivity.
  - exists true. split; [reflexivity |]. split; [discriminate | intros [[=] _]].
Qed.

(** X18.  [ensure_valid_empty_move] on a grid returns a move with the score
    it was given whose two stones are in range, each on a cell that is empty
    on the board or on the centre cell [(10, 10)], the fallback of
    [find_empty_near] that is not checked.  A move whose two stones are in
    range and on empty cells is returned unchanged. *)
Theorem ensure_valid_empty_move_result (board : Board) (move : StoneMove.t) :
  is_grid21 board = true ->
  exists m,
    GameEngine.ensure_valid_empty_move board move = Ok m
    /\ StoneMove.score m = StoneMove.score move
    /\ empty_or_center board (StoneMove.pos0 m)
    /\ empty_or_center board (StoneMove.pos1 m)
    /\ (empty_playable board (pair_of (StoneMove.pos0 move)) ->
        StoneMove.pos0 m = StoneMove.pos0 move)
    /\ (empty_playable board (pair_of (StoneMove.pos1 move)) ->
        StoneMove.pos1 m = StoneMove.pos1 move).
Proof.
  intros Hg. unfold GameEngine.ensure_valid_empty_move.
  assert (Hnear : forall x y, exists p,
             GameEngine.find_empty_near board x y = Ok p
             /\ empty_or_center board (StonePosition.mk (fst p) (snd p))).
  { intros x y. destruct (find_empty_near_spec board x y Hg) as (p & Hp & Hcase).
    exists p. split; [exact Hp |]. unfold empty_or_center, pair_of.
    cbn [StonePosition.x StonePosition.y].
    destruct Hcase as [([Hin Hget] & _) | (-> & _)].
    - split; [exact Hin | left; exact Hget].
    - split; [reflexivity | right; reflexivity]. }
  assert (Hkeep : forall p, empty_playable board (pair_of p) -> empty_or_center board p).
  { intros p [Hin Hget]. split; [exact Hin | left; exact Hget]. }
  destruct (not_valid_empty_spec board (StoneMove.pos0 move) Hg) as (b0 & -> & Hb0).
  cbn [bind].
  assert (Hp0 : exists p0,
             (if b0
              then bind (GameEngine.find_empty_near board 10 10)
                        (fun xy => Ok (StonePosition.mk (fst xy) (snd xy)))
              else Ok (StoneMove.pos0 move)) = Ok p0
             /\ empty_or_center board p0
             /\ (empty_playable board (pair_of (StoneMove.pos0 move)) ->
                 p0 = StoneMove.pos0 move)).
  { destruct b0.
    - destruct (Hnear 10 10) as (p & -> & Hp). cbn [bind]. eexists.
      split; [reflexivity |]. split; [exact Hp |].
      intros He. apply Hb0 in He. discriminate.
    - eexists. split; [reflexivity |]. split; [| reflexivity].
      apply Hkeep, Hb0. reflexivity. }
  destruct Hp0 as (p0 & -> & Hp0 & Hid0). cbn [bind].
  destruct (not_valid_empty_spec board (StoneMove.pos1 move) Hg) as (b1 & -> & Hb1).
  cbn [bind].
  destruct b1.
  - destruct (Hnear (StonePosition.x p0) (StonePosition.y p0)) as (q & -> & Hq).
    cbn [bind].
    destruct ((fst q =? StonePosition.x p0) && (snd q =? StonePosition.y p0)).
    + destruct (Hnear (fst q + 1) (snd q + 1)) as (q' & -> & Hq'). cbn [bind].
      eexists. split; [reflexivity |].
      cbn [StoneMove.pos0 StoneMove.pos1 StoneMove.score].
      split; [reflexivity |]. split; [exact Hp0 |]. split; [exact Hq' |].
      split; [exact Hid0 |]. intros He. apply Hb1 in He. discriminate.
    + cbn [bind]. eexists. split; [reflexivity |].
      cbn [StoneMove.pos0 StoneMove.pos1 StoneMove.score].
      split; [reflexivity |]. split; [exact Hp0 |]. split; [exact Hq |].
      split; [exact Hid0 |]. intros He. apply Hb1 in He. discriminate.
  - cbn [bind]. eexists. split; [reflexivity |].
    cbn [StoneMove.pos0 StoneMove.pos1 StoneMove.score].
    split; [reflexivity |]. split; [exact Hp0 |].
    split; [apply Hkeep, Hb1; reflexivity |].
    split; [exact Hid0 | reflexivity].
Qed.

End EmptyNear.

Lemma update_killers_keeps_two_different_killers_witness :
  killers_ok initial_killers
  /\ exists km',
      SearchEngine._update_killers initial_killers quiet_move (-1) = Ok km'
      /\ killers_ok km' /\ length km' = 30%nat
      /\ getitem km' 29 = Ok [Some quiet_move; None].
Proof.
  split; [exact initial_killers_ok |].
  destruct (update_killers_keeps_two_different_killers initial_killers quiet_move (-1)
              initial_killers_ok) as (Hin & _ & _).
  destruct Hin as (km' & k0 & k1 & k0' & k1' & Hrun & Hok & Hlen & _);
    [vm_compute; split; [discriminate | reflexivity] |].
  exists km'. split; [exact Hrun |]. split; [exact Hok |]. split; [exact Hlen |].
  assert (Hval : SearchEngine._update_killers initial_killers quiet_move (-1)
                 = Ok (<[29%nat := [Some quiet_move; None]]> initial_killers))
    by (vm_compute; reflexivity).
  rewrite Hval in Hrun. injection Hrun as <-. vm_compute. reflexivity.
Defined.

Lemma ensure_valid_empty_move_result_witness :
  is_grid21 two_stones_board = true
  /\ exists m,
      @GameEngine.ensure_valid_empty_move connect6_defines two_stones_board
        last_black_move = Ok m
      /\ @empty_or_center connect6_defines two_stones_board (StoneMove.pos0 m)
      /\ StoneMove.pos0 m = StoneMove.pos0 last_black_move.
Proof.
  assert (Hg : is_grid21 two_stones_board = true) by (vm_compute; reflexivity).
  split; [exact Hg |].
  destruct (@ensure_valid_empty_move_result connect6_defines two_stones_board
              last_black_move Hg) as (m & Hm & _ & H0 & _ & Hkeep & _).
  exists m. split; [exact Hm |]. split; [exact H0 |].
  apply Hkeep. split; vm_compute; reflexivity.
Defined.

(* ===================================================================== *)
(** * The threat records of the position analysis *)
(* ===================================================================== *)

Lemma stone_at_iff (board : Board) (tx ty c : Z) (b : bool) :
  stone_at board tx ty c = Ok b -> (b = true <-> stone_on board c (tx, ty)).
Proof.
  unfold stone_at, stone_on. cbn [fst snd].
  destruct (in_1_19 tx ty).
  - intros Hb. bind_inv Hb. injection Hb as <-. rewrite Hstep, Z.eqb_eq. split.
    + intros ->. auto.
    + intros [_ [= ->]]. reflexivity.
  - intros [= <-]. split; [discriminate | intros [[=] _]].
Qed.

(** What a forward scan counts: the stones of the colour from the starting
    cell up to the first cell that holds none. *)
Lemma count_line_run (board : Board) (color : Z) (fuel : nat) (tx ty sx sy count n : Z) :
  count_line fuel board color tx ty sx sy count = Ok n ->
  exists k, 0 <= k /\ n = count + k
            /\ (forall j, 0 <= j < k -> stone_on board color (tx + j * sx, ty + j * sy))
            /\ ~ stone_on board color (tx + k * sx, ty + k * sy).
Proof.
  revert tx ty count. induction fuel as [|fuel IH]; intros tx ty count Hc;
    [discriminate |].
  cbn [count_line] in Hc. bind_inv Hc. apply stone_at_iff in Hstep.
  destruct a.
  - apply IH in Hc. destruct Hc as (k & Hk & -> & Hrun & Hend).
    exists (k + 1). split; [lia |]. split; [lia |]. split.
    + intros j Hj. destruct (Z.eq_dec j 0) as [->|Hj0].
      * replace (tx + 0 * sx) with tx by lia. replace (ty + 0 * sy) with ty by lia.
        apply Hstep. reflexivity.
      * replace (tx + j * sx) with (tx + sx + (j - 1) * sx) by lia.
        replace (ty + j * sy) with (ty + sy + (j - 1) * sy) by lia.
        apply Hrun. lia.
    + replace (tx + (k + 1) * sx) with (tx + sx + k * sx) by lia.
      replace (ty + (k + 1) * sy) with (ty + sy + k * sy) by lia. exact Hend.
  - injection Hc as <-. exists 0. split; [lia |]. split; [lia |]. split.
    + intros j Hj. lia.
    + replace (tx + 0 * sx) with tx by lia. replace (ty + 0 * sy) with ty by lia.
      intros Hs. apply Hstep in Hs. discriminate.
Qed.

(** What the backward scan finds: the last of the stones of the colour
    behind the starting cell. *)
Lemma line_start_run (board : Board) (color : Z) (fuel : nat) (x y dx dy : Z)
      (k0 : Z) (s : Z * Z) :
  0 <= k0 ->
  line_start fuel board color (x - (k0 + 1) * dx) (y - (k0 + 1) * dy) dx dy
             (x - k0 * dx, y - k0 * dy) = Ok s ->
  exists k, k0 <= k /\ s = (x - k * dx, y - k * dy)
            /\ forall j, k0 < j <= k -> stone_on board color (x - j * dx, y - j * dy).
Proof.
  revert k0. induction fuel as [|fuel IH]; intros k0 Hk0 Hs; [discriminate |].
  cbn [line_start] in Hs. bind_inv Hs. apply stone_at_iff in Hstep.
  destruct a.
  - replace (x - (k0 + 1) * dx - dx) with (x - (k0 + 1 + 1) * dx) in Hs by lia.
    replace (y - (k0 + 1) * dy - dy) with (y - (k0 + 1 + 1) * dy) in Hs by lia.
    apply IH in Hs; [| lia]. destruct Hs as (k & Hk & -> & Hrun).
    exists k. split; [lia |]. split; [reflexivity |].
    intros j Hj. destruct (Z.eq_dec j (k0 + 1)) as [->|Hne].
    + apply Hstep. reflexivity.
    + apply Hrun. lia.
  - injection Hs as <-. exists k0. split; [lia |]. split; [reflexivity |].
    intros j Hj. lia.
Qed.

Section PatternFacts.
Context `{Defines} `{Python}.

Lemma analyze_line_sound (board : Board) (x y : Z) (d : Z * Z) (color : Z)
      (t : ThreatPattern.t) :
  stone_on board color (x, y) -> In d PatternRecognizer.directions ->
  PatternRecognizer._analyze_line board x y d color = Ok (Some t) ->
  threat_sound board color t.
Proof.
  intros Hxy Hd Ha.
  pose proof (analyze_line_win_positions _ _ _ _ _ _ Ha) as Hwin.
  unfold PatternRecognizer._analyze_line in Ha. destruct d as [dx dy].
  bind_inv Ha. rename a into consecutive.
  destruct (Z.ltb_spec consecutive 2) as [|Hn]; [discriminate |].
  bind_inv Ha. destruct a as [start_x start_y].
  bind_inv Ha. rename a into before_open.
  bind_inv Ha. rename a into after_open.
  destruct (PatternRecognizer._classify_threat consecutive before_open after_open)
    as [pattern_type threat_level] eqn:Hcl.
  bind_inv Ha. rename a into win_positions.
  destruct pattern_type as [ty|]; [| discriminate].
  injection Ha as <-.
  assert (Hends : forall p, In p win_positions ->
                    p = (start_x - dx, start_y - dy)
                    \/ p = (start_x + consecutive * dx, start_y + consecutive * dy)).
  { intros p Hp. clear -Hstep3 Hp.
    destruct before_open, after_open; cbn [andb app] in Hstep3;
      try (destruct (consecutive >=? 3));
      try (bind_inv Hstep3; destruct a);
      injection Hstep3 as <-;
      repeat (rewrite in_app_iff in Hp; cbn [In] in Hp);
      cbn [In] in Hp; destruct_or?; try contradiction; subst p; auto. }
  apply count_line_run in Hstep. destruct Hstep as (f & Hf & -> & Hfwd & _).
  replace (x - dx) with (x - (0 + 1) * dx) in Hstep0 by lia.
  replace (y - dy) with (y - (0 + 1) * dy) in Hstep0 by lia.
  replace (x, y) with (x - 0 * dx, y - 0 * dy) in Hstep0
    by (f_equal; lia).
  apply line_start_run in Hstep0; [| lia].
  destruct Hstep0 as (k & Hk & [= -> ->] & Hback).
  exists (1 + f), (x - k * dx, y - k * dy), (dx, dy), before_open, after_open.
  cbn [ThreatPattern.positions ThreatPattern.pattern_type ThreatPattern.threat_level
       ThreatPattern.win_positions fst snd].
  split; [lia |]. split; [exact Hd |]. split; [reflexivity |].
  split; [| split; [exact Hcl | intros p Hp; split; [apply Hwin; exact Hp | apply Hends; exact Hp]]].
  intros p Hp. apply in_map_iff in Hp. destruct Hp as (i & <- & Hi).
  apply elem_of_range in Hi. cbn [fst snd].
  destruct (Z.lt_trichotomy i k) as [Hlt | [-> | Hgt]].
  - replace (x - k * dx + i * dx) with (x - (k - i) * dx) by lia.
    replace (y - k * dy + i * dy) with (y - (k - i) * dy) by lia.
    apply Hback. lia.
  - replace (x - k * dx + k * dx) with x by lia.
    replace (y - k * dy + k * dy) with y by lia. exact Hxy.
  - replace (x - k * dx + i * dx) with (x + dx + (i - k - 1) * dx) by lia.
    replace (y - k * dy + i * dy) with (y + dy + (i - k - 1) * dy) by lia.
    apply Hfwd. lia.
Qed.

Lemma analysis_threats_spec (board : Board) (color : Z)
        (a : PatternRecognizer.analysis) :
  PatternRecognizer.analyze_position board color = Ok a ->
  forall t, In t (PatternRecognizer.threats a) -> threat_sound board color t.
Proof.
  intros Ha. unfold PatternRecognizer.analyze_position in Ha.
  bind_inv Ha. rename a0 into acc. injection Ha as <-.
  cbn [PatternRecognizer.threats].
  set (P := fun acc : PatternRecognizer.analysis =>
              forall t, In t (PatternRecognizer.threats acc) -> threat_sound board color t).
  refine (foldM_invariant P _ _ _ _ _ _ Hstep).
  - intros s x s' Hx Hs Hrow. apply elem_of_range in Hx.
    refine (foldM_invariant P _ _ _ _ _ Hs Hrow).
    intros s1 y s2 Hy Hs1 Hcell. apply elem_of_range in Hy.
    unfold PatternRecognizer.analyze_cell in Hcell. bind_inv Hcell.
    destruct (Z.eqb_spec a color) as [->|]; [| injection Hcell as <-; exact Hs1].
    refine (foldM_invariant P _ _ _ _ _ Hs1 Hcell).
    intros s3 d s4 Hd Hs3 Hdir.
    unfold PatternRecognizer.analyze_direction in Hdir. bind_inv Hdir.
    destruct a as [t|]; [| injection Hdir as <-; exact Hs3].
    injection Hdir as <-. intros t'. cbn [PatternRecognizer.threats].
    rewrite in_app_iff. intros [Ht' | [<- | []]]; [apply Hs3; exact Ht' |].
    eapply analyze_line_sound; [| exact Hd | exact Hstep1].
    split; [apply in_1_19_spec; cbn [fst snd]; lia | exact Hstep0].
  - intros t [].
Qed.

(** X19.  Every threat record of an analysis describes the board: its
    positions are the cells of a line of two or more stones of the analysed
    colour in one of the four directions, all on playable cells; its type
    and level are what the classifier gives for that number of stones; and
    its winning positions are empty playable cells at one of the two ends
    of that line. *)
Theorem analysis_threats_describe_the_board (board : Board) (color : Z)
        (a : PatternRecognizer.analysis) :
  PatternRecognizer.analyze_position board color = Ok a ->
  forall t, In t (PatternRecognizer.threats a) -> threat_sound board color t.
Proof. exact (analysis_threats_spec board color a). Qed.

Lemma analyze_line_level (board : Board) (x y : Z) (d : Z * Z) (color : Z)
      (t : ThreatPattern.t) :
  PatternRecognizer._analyze_line board x y d color = Ok (Some t) ->
  1 <= ThreatPattern.threat_level t <= 5 /\ 0 < threat_score t.
Proof.
  intros Ha. unfold PatternRecognizer._analyze_line in Ha. destruct d as [dx dy].
  bind_inv Ha. rename a into consecutive.
  destruct (consecutive <? 2); [discriminate |].
  bind_inv Ha. destruct a as [start_x start_y].
  bind_inv Ha. rename a into before_open.
  bind_inv Ha. rename a into after_open.
  pose proof (classify_threat_cases consecutive before_open after_open) as Hcases.
  destruct (PatternRecognizer._classify_threat consecutive before_open after_open)
    as [pattern_type threat_level].
  bind_inv Ha. destruct pattern_type as [ty|]; [| discriminate].
  injection Ha as <-. unfold threat_score.
  cbn [ThreatPattern.threat_level ThreatPattern.pattern_type].
  cbn [In] in Hcases.
  destruct_or!; try contradiction; simplify_eq; split; try lia; vm_compute; reflexivity.
Qed.

Lemma foldr_app_score (l : list ThreatPattern.t) (t : ThreatPattern.t) :
  foldr (fun t s => threat_score t + s) 0 (l ++ [t])
  = foldr (fun t s => threat_score t + s) 0 l + threat_score t.
Proof. induction l as [|a l IH]; cbn [app foldr]; [lia | rewrite IH; lia]. Qed.

Lemma analyze_direction_summary board x y color acc direction acc' :
  summary_ok acc ->
  PatternRecognizer.analyze_direction board x y color acc direction = Ok acc' ->
  summary_ok acc'.
Proof.
  intros Hok Hd.
  unfold PatternRecognizer.analyze_direction in Hd. bind_inv Hd.
  destruct a as [t|]; [| injection Hd as <-; exact Hok].
  destruct Hok as (Hlvl & Hall & Hnil & Hmax & Hscore & Hwin & Hdef).
  destruct (analyze_line_level _ _ _ _ _ _ Hstep) as [Ht _].
  injection Hd as <-. unfold summary_ok.
  cbn [PatternRecognizer.critical_level PatternRecognizer.threats
       PatternRecognizer.score PatternRecognizer.winning_moves
       PatternRecognizer.defensive_moves].
  split; [lia |]. split; [| split; [| split; [| split; [| split]]]].
  - intros t' Ht'. apply in_app_iff in Ht'. destruct Ht' as [Ht' | [<- | []]].
    + specialize (Hall t' Ht'). lia.
    + lia.
  - intros Hnil'. destruct (PatternRecognizer.threats acc); discriminate.
  - intros _.
    destruct (Z.max_spec (PatternRecognizer.critical_level acc)
                (ThreatPattern.threat_level t)) as [[Hlt ->] | [Hge ->]].
    + exists t. split; [apply in_app_iff; right; left; reflexivity | reflexivity].
    + destruct (PatternRecognizer.threats acc) as [|t0 ts] eqn:Hts.
      * exists t. split; [left; reflexivity |]. rewrite Hnil in * by reflexivity. lia.
      * destruct Hmax as (t1 & Ht1 & Hl1); [discriminate |].
        exists t1. split; [apply in_app_iff; left; exact Ht1 | exact Hl1].
  - rewrite foldr_app_score, Hscore. reflexivity.
  - intros p. destruct (Z.geb_spec (ThreatPattern.threat_level t) 5) as [H5|H5].
    + rewrite in_app_iff, Hwin. split.
      * intros [(t' & Ht' & Hl & Hp) | Hp].
        -- exists t'. rewrite in_app_iff. auto.
        -- exists t. rewrite in_app_iff. cbn [In]. split; [auto |]. split; [lia | exact Hp].
      * intros (t' & Ht' & Hl & Hp). apply in_app_iff in Ht'.
        destruct Ht' as [Ht' | [<- | []]]; [left; eauto | right; exact Hp].
    + rewrite Hwin. split.
      * intros (t' & Ht' & Hl & Hp). exists t'. rewrite in_app_iff. auto.
      * intros (t' & Ht' & Hl & Hp). apply in_app_iff in Ht'.
        destruct Ht' as [Ht' | [<- | []]]; [eauto | lia].
  - intros p. destruct (Z.geb_spec (ThreatPattern.threat_level t) 5) as [H5|H5];
      [| destruct (Z.geb_spec (ThreatPattern.threat_level t) 4) as [H4|H4]].
    + rewrite Hdef. split.
      * intros (t' & Ht' & Hl & Hp). exists t'. rewrite in_app_iff. auto.
      * intros (t' & Ht' & Hl & Hp). apply in_app_iff in Ht'.
        destruct Ht' as [Ht' | [<- | []]]; [eauto | lia].
    + rewrite in_app_iff, Hdef. split.
      * intros [(t' & Ht' & Hl & Hp) | Hp].
        -- exists t'. rewrite in_app_iff. auto.
        -- exists t. rewrite in_app_iff. cbn [In]. split; [auto |]. split; [lia | exact Hp].
      * intros (t' & Ht' & Hl & Hp). apply in_app_iff in Ht'.
        destruct Ht' as [Ht' | [<- | []]]; [left; eauto | right; exact Hp].
    + rewrite Hdef. split.
      * intros (t' & Ht' & Hl & Hp). exists t'. rewrite in_app_iff. auto.
      * intros (t' & Ht' & Hl & Hp). apply in_app_iff in Ht'.
        destruct Ht' as [Ht' | [<- | []]]; [eauto | lia].
Qed.

Lemma set_to_list_In (l : list (Z * Z)) (p : Z * Z) :
  PythonSets -> (In p (set_to_list (list_to_set l)) <-> In p l).
Proof.
  intros Hsets. rewrite <- !list_elem_of_In, (Hsets (list_to_set l)).
  rewrite elem_of_elements, elem_of_list_to_set. reflexivity.
Qed.

Lemma set_to_list_NoDup (s : gset (Z * Z)) : PythonSets -> NoDup (set_to_list s).
Proof. intros Hsets. rewrite (Hsets s). apply NoDup_elements. Qed.

Lemma analysis_summary_spec (board : Board) (color : Z)
        (a : PatternRecognizer.analysis) :
  PythonSets ->
  PatternRecognizer.analyze_position board color = Ok a ->
  summary_ok a
  /\ NoDup (PatternRecognizer.winning_moves a)
  /\ NoDup (PatternRecognizer.defensive_moves a).
Proof.
  intros Hsets Ha. unfold PatternRecognizer.analyze_position in Ha.
  bind_inv Ha. rename a0 into acc. injection Ha as <-.
  cbn [PatternRecognizer.winning_moves PatternRecognizer.defensive_moves].
  split; [| split; apply set_to_list_NoDup; exact Hsets].
  assert (Hacc : summary_ok acc).
  { refine (foldM_invariant summary_ok _ _ _ _ _ _ Hstep).
    - intros s x s' _ Hs Hrow.
      refine (foldM_invariant summary_ok _ _ _ _ _ Hs Hrow).
      intros s1 y s2 _ Hs1 Hcell.
      unfold PatternRecognizer.analyze_cell in Hcell. bind_inv Hcell.
      destruct (a =? color); [| injection Hcell as <-; exact Hs1].
      refine (foldM_invariant summary_ok _ _ _ _ _ Hs1 Hcell).
      intros s3 d s4 _ Hs3 Hdir.
      exact (analyze_direction_summary _ _ _ _ _ _ _ Hs3 Hdir).
    - unfold summary_ok. cbn. repeat split; try lia; try contradiction;
        try (intros []; fail); try congruence.
      + intros (t & [] & _).
      + intros (t & [] & _). }
  destruct Hacc as (Hlvl & Hall & Hnil & Hmax & Hscore & Hwin & Hdef).
  unfold summary_ok.
  cbn [PatternRecognizer.critical_level PatternRecognizer.threats
       PatternRecognizer.score PatternRecognizer.winning_moves
       PatternRecognizer.defensive_moves].
  split; [exact Hlvl |]. split; [exact Hall |]. split; [exact Hnil |].
  split; [exact Hmax |]. split; [exact Hscore |].
  split; intros p; rewrite (set_to_list_In _ _ Hsets); [apply Hwin | apply Hdef].
Qed.

(** X20.  The summary fields of an analysis, read off its threat records.
    The critical level is the highest level among the threats, 0 when there
    is none, and at most 5; every threat has a level from 1 to 5; the score
    is the sum of the table scores of the threats.  The winning moves are
    the winning positions of the threats of level 5 and the defensive moves
    those of the threats of level 4, each listed once. *)
Theorem analysis_summary_fields (board : Board) (color : Z)
        (a : PatternRecognizer.analysis) :
  PythonSets ->
  PatternRecognizer.analyze_position board color = Ok a ->
  summary_ok a
  /\ NoDup (PatternRecognizer.winning_moves a)
  /\ NoDup (PatternRecognizer.defensive_moves a).
Proof. exact (analysis_summary_spec board color a). Qed.

End PatternFacts.

Lemma analysis_threats_describe_the_board_witness :
  exists a,
    @PatternRecognizer.analyze_position connect6_defines simple_python
      five_in_row_board 1 = Ok a
    /\ PatternRecognizer.threats a <> []
    /\ forall t, In t (PatternRecognizer.threats a) ->
         @threat_sound connect6_defines five_in_row_board 1 t.
Proof.
  destruct (@PatternRecognizer.analyze_position connect6_defines simple_python
              five_in_row_board 1) as [a | e] eqn:Ha;
    [| vm_compute in Ha; discriminate Ha].
  exists a. split; [reflexivity |]. split.
  - assert (Hn : (fun r => match r with
                           | Ok a' => nonempty (PatternRecognizer.threats a')
                           | Raise _ => false
                           end)
                   (@PatternRecognizer.analyze_position connect6_defines simple_python
                      five_in_row_board 1) = true) by (vm_compute; reflexivity).
    cbv beta in Hn. rewrite Ha in Hn. intros Hnil. rewrite Hnil in Hn. discriminate Hn.
  - exact (@analysis_threats_describe_the_board connect6_defines simple_python
             five_in_row_board 1 a Ha).
Defined.

Lemma analysis_summary_fields_witness :
  @PythonSets simple_python
  /\ exists a,
      @PatternRecognizer.analyze_position connect6_defines simple_python
        five_in_row_board 1 = Ok a
      /\ summary_ok a
      /\ NoDup (PatternRecognizer.winning_moves a).
Proof.
  split; [exact simple_python_sets |].
  destruct (@PatternRecognizer.analyze_position connect6_defines simple_python
              five_in_row_board 1) as [a | e] eqn:Ha;
    [| vm_compute in Ha; discriminate Ha].
  exists a. split; [reflexivity |].
  destruct (@analysis_summary_fields connect6_defines simple_python
              five_in_row_board 1 a simple_python_sets Ha) as (Hs & Hnd & _).
  split; assumption.
Defined.

(* ===================================================================== *)
(** * detect_critical_moves *)
(* ===================================================================== *)

(** A loop that returns: the invariant may mention the elements handled so
    far, and each step knows where in the list it stands. *)
Lemma foldM_total_split {A S : Type} (I : list A -> S -> Prop) (f : S -> A -> result S)
      (l : list A) (s : S) :
  I [] s ->
  (forall seen a rest s, l = seen ++ a :: rest -> I seen s ->
     exists s', f s a = Ok s' /\ I (seen ++ [a]) s') ->
  exists s', foldM f l s = Ok s' /\ I l s'.
Proof.
  intros H0 Hstep.
  assert (Hgen : forall rest seen s, l = seen ++ rest -> I seen s ->
            exists s', foldM f rest s = Ok s' /\ I (seen ++ rest) s').
  { induction rest as [|a rest IH]; intros seen s0 Hl Hs.
    - exists s0. rewrite app_nil_r. split; [reflexivity | exact Hs].
    - destruct (Hstep seen a rest s0 Hl Hs) as (s1 & Hf & Hs1).
      cbn [foldM]. rewrite Hf. cbn [bind].
      destruct (IH (seen ++ [a]) s1) as (s2 & Hfold & Hs2).
      + rewrite <- app_assoc. exact Hl.
      + exact Hs1.
      + exists s2. split; [exact Hfold |]. rewrite <- app_assoc in Hs2. exact Hs2. }
  apply (Hgen l [] s eq_refl H0).
Qed.

(** Writing a cell of a grid and then writing back what it held gives the
    grid of before. *)
Lemma board_set_restore (board b1 : Board) (x y v c : Z) :
  is_grid21 board = true -> 0 <= x <= 20 -> 0 <= y <= 20 ->
  board_get board x y = Ok v ->
  board_set board x y c = Ok b1 ->
  is_grid21 b1 = true /\ board_set b1 x y v = Ok board.
Proof.
  intros Hg Hx Hy Hv Hs.
  destruct (board_set_cell_at board x y c Hg Hx Hy) as (b1' & Hs' & Hg1 & Hc1).
  rewrite Hs in Hs'. injection Hs' as <-.
  split; [exact Hg1 |].
  destruct (board_set_cell_at b1 x y v Hg1 Hx Hy) as (b2 & Hs2 & Hg2 & Hc2).
  rewrite Hs2. f_equal. apply grid21_ext; [exact Hg2 | exact Hg |].
  intros i j _ _. rewrite Hc2, Hc1.
  destruct (decide (i = x /\ j = y)) as [[-> ->]|]; [| reflexivity].
  symmetry. apply board_get_cell_at; [lia | lia | exact Hv].
Qed.

Lemma StronglySorted_weaken {A : Type} (R R' : A -> A -> Prop) (l : list A) :
  (forall a b, R a b -> R' a b) -> StronglySorted R l -> StronglySorted R' l.
Proof.
  intros Himp Hs. induction Hs as [|a l Hs IH Hall]; constructor.
  - exact IH.
  - eapply List.Forall_impl; [| exact Hall]. intros b. apply Himp.
Qed.

Section CriticalFacts.
Context `{Defines} `{Python}.

Lemma critical_placement_unique board color m m' :
  critical_placement board color m -> critical_placement board color m' ->
  Evaluator.position m = Evaluator.position m' -> m = m'.
Proof.
  intros (_ & b1 & a1 & Hs1 & Ha1 & _ & Hl1 & Hsc1)
         (_ & b2 & a2 & Hs2 & Ha2 & _ & Hl2 & Hsc2) Hpos.
  rewrite <- Hpos in Hs2. rewrite Hs1 in Hs2. injection Hs2 as <-.
  rewrite Ha1 in Ha2. injection Ha2 as <-.
  destruct m, m'. cbn in *. congruence.
Qed.

Lemma critical_inv_ext board color (d d' : Z * Z -> Prop) st :
  (forall p, d p <-> d' p) -> critical_inv board color d st -> critical_inv board color d' st.
Proof.
  intros Hdd (Hb & Hnd & Hin). split; [exact Hb |]. split; [exact Hnd |].
  intros m. rewrite Hin, Hdd. reflexivity.
Qed.

Lemma critical_cell_step (board : Board) (color x y : Z) (done : Z * Z -> Prop)
      (st : list Evaluator.critical_move * Board) :
  is_grid21 board = true -> 1 <= x <= 19 -> 1 <= y <= 19 ->
  ~ done (x, y) ->
  critical_inv board color done st ->
  exists st',
    Evaluator.critical_cell color x st y = Ok st'
    /\ critical_inv board color (fun p => done p \/ p = (x, y)) st'.
Proof.
  intros Hg Hx Hy Hnew (Hb & Hnd & Hin). destruct st as [cm b]. cbn [fst snd] in *.
  subst b. unfold Evaluator.critical_cell.
  destruct (grid21_cell board x y Hg) as (v & _ & Hget); [lia | lia |].
  rewrite Hget. cbn [bind].
  assert (Hskip : (forall m, Evaluator.position m = (x, y) ->
                             ~ critical_placement board color m) ->
                  critical_inv board color (fun p => done p \/ p = (x, y)) (cm, board)).
  { intros Hno. split; [reflexivity |]. split; [exact Hnd |].
    intros m. cbn [fst]. rewrite Hin. split.
    - intros [Hd Hp]. auto.
    - intros [[Hd | Hxy] Hp]; [auto |]. exfalso. exact (Hno m Hxy Hp). }
  destruct (Z.eqb_spec v NOSTONE) as [->|Hocc].
  - destruct (board_set_cell_at board x y color Hg) as (b1 & Hs1 & Hg1 & _); [lia | lia |].
    rewrite Hs1. cbn [bind].
    destruct (analyze_position_total b1 color Hg1) as (a & Ha). rewrite Ha. cbn [bind].
    destruct (board_set_restore board b1 x y NOSTONE color Hg) as [_ Hback];
      [lia | lia | exact Hget | exact Hs1 |].
    rewrite Hback. cbn [bind].
    destruct (Z.geb_spec (PatternRecognizer.critical_level a) 3) as [H3|H3].
    + eexists. split; [reflexivity |].
      set (m0 := Evaluator.mk_critical (x, y) (PatternRecognizer.critical_level a)
                   (PatternRecognizer.score a)).
      assert (Hm0 : critical_placement board color m0).
      { unfold m0. split.
        - split; cbn [Evaluator.position fst snd];
            [apply in_1_19_spec; lia | exact Hget].
        - exists b1, a. cbn [Evaluator.position Evaluator.threat_level
                              Evaluator.score fst snd].
          split; [exact Hs1 |]. split; [exact Ha |]. split; [lia |]. auto. }
      split; [reflexivity |]. cbn [fst]. split.
      * rewrite map_app. cbn [map Evaluator.position].
        apply NoDup_app. split; [exact Hnd |]. split; [| apply NoDup_singleton].
        intros p Hp Hp'. apply list_elem_of_singleton in Hp'. subst p.
        apply list_elem_of_fmap in Hp. destruct Hp as (m & Hm & Hmin).
        apply list_elem_of_In, Hin in Hmin. destruct Hmin as [Hd _].
        rewrite <- Hm in Hd. contradiction.
      * intros m. rewrite in_app_iff, Hin. cbn [In]. split.
        -- intros [[Hd Hp] | [<- | []]]; [auto |]. split; [right; reflexivity | exact Hm0].
        -- intros [[Hd | Hxy] Hp]; [auto |]. right. left.
           apply (critical_placement_unique board color _ _ Hm0 Hp).
           symmetry. exact Hxy.
    + eexists. split; [reflexivity |]. apply Hskip.
      intros m Hxy (_ & b' & a' & Hs' & Ha' & Hl' & _).
      rewrite Hxy in Hs'. cbn [fst snd] in Hs'. rewrite Hs1 in Hs'. injection Hs' as <-.
      rewrite Ha in Ha'. injection Ha' as <-. lia.
  - eexists. split; [reflexivity |]. apply Hskip.
    intros m Hxy ([_ Hempty] & _). rewrite Hxy in Hempty. cbn [fst snd] in Hempty.
    rewrite Hget in Hempty. injection Hempty as ->. contradiction.
Qed.

Lemma critical_leb_total (a b : Evaluator.critical_move) :
  pair_leb (Evaluator.threat_level b, Evaluator.score b)
           (Evaluator.threat_level a, Evaluator.score a) = false ->
  pair_leb (Evaluator.threat_level a, Evaluator.score a)
           (Evaluator.threat_level b, Evaluator.score b) = true.
Proof. apply pair_leb_total. Qed.

Lemma detect_critical_moves_spec (board : Board) (color : Z) :
  is_grid21 board = true ->
  exists cm,
    Evaluator.detect_critical_moves board color = Ok (cm, board)
    /\ (forall m, In m cm <-> critical_placement board color m)
    /\ NoDup (map Evaluator.position cm)
    /\ StronglySorted critical_order cm.
Proof.
  intros Hg. unfold Evaluator.detect_critical_moves.
  destruct (foldM_total_split
              (fun seen st => critical_inv board color
                                (fun p => In (fst p) seen /\ 1 <= snd p <= 19) st)
              (fun st x => foldM (Evaluator.critical_cell color x) (range 1 20) st)
              (range 1 20) ([], board)) as ([cm b] & Hf & Hb & Hnd & Hin).
  - split; [reflexivity |]. split; [constructor |].
    intros m. cbn [fst In]. tauto.
  - intros seen x rest st Hsplit Hinv.
    assert (Hx : 1 <= x <= 19).
    { assert (Hx : In x (range 1 20)) by (rewrite Hsplit; apply in_app_iff; right; left; reflexivity).
      apply elem_of_range in Hx. lia. }
    assert (Hxnew : ~ In x seen).
    { pose proof (NoDup_range 1 20) as Hndr. rewrite Hsplit in Hndr.
      apply List.NoDup_remove_2 in Hndr. intros Hxs. apply Hndr.
      apply in_app_iff. left. exact Hxs. }
    destruct (foldM_total_split
                (fun seeny st => critical_inv board color
                                   (fun p => (In (fst p) seen /\ 1 <= snd p <= 19)
                                             \/ (fst p = x /\ In (snd p) seeny)) st)
                (Evaluator.critical_cell color x) (range 1 20) st)
      as (st' & Hf' & Hinv').
    + eapply critical_inv_ext; [| exact Hinv]. intros p. cbn [In]. tauto.
    + intros seeny y resty st1 Hsplity Hinv1.
      assert (Hy : 1 <= y <= 19).
      { assert (Hy : In y (range 1 20))
          by (rewrite Hsplity; apply in_app_iff; right; left; reflexivity).
        apply elem_of_range in Hy. lia. }
      assert (Hynew : ~ In y seeny).
      { pose proof (NoDup_range 1 20) as Hndr. rewrite Hsplity in Hndr.
        apply List.NoDup_remove_2 in Hndr. intros Hys. apply Hndr.
        apply in_app_iff. left. exact Hys. }
      assert (Hfresh : ~ ((fun p : Z * Z => (In (fst p) seen /\ 1 <= snd p <= 19)
                                            \/ (fst p = x /\ In (snd p) seeny)) (x, y))).
      { cbn [fst snd]. intros [[Hxs _] | [_ Hys]]; contradiction. }
      destruct (critical_cell_step board color x y _ st1 Hg Hx Hy Hfresh Hinv1)
        as (st2 & Hs2 & Hinv2).
      * exists st2. split; [exact Hs2 |].
        eapply critical_inv_ext; [| exact Hinv2].
        intros [px py]. cbn [fst snd]. rewrite in_app_iff. cbn [In]. split.
        -- intros [[Hd | [-> Hd]] | [= -> ->]]; auto.
        -- intros [Hd | [-> [Hd | [<- | []]]]]; auto.
    + exists st'. split; [exact Hf' |].
      eapply critical_inv_ext; [| exact Hinv'].
      intros [px py]. cbn [fst snd]. rewrite in_app_iff, elem_of_range. cbn [In]. split.
      * intros [[Hd Hr] | [-> Hr]]; [auto |]. split; [auto | lia].
      * intros [[Hd | [<- | []]] Hr]; [auto |]. right. split; [reflexivity | lia].
  - cbn [fst snd] in *. subst b. rewrite Hf. cbn [bind].
    set (leb := fun a b : Evaluator.critical_move =>
                  pair_leb (Evaluator.threat_level b, Evaluator.score b)
                           (Evaluator.threat_level a, Evaluator.score a)).
    exists (sort_by leb cm). split; [reflexivity |].
    pose proof (sort_by_perm leb cm) as Hperm.
    split; [| split].
    + intros m. rewrite <- list_elem_of_In, Hperm, list_elem_of_In, Hin.
      split; [tauto |]. intros Hp. split; [| exact Hp].
      destruct Hp as [[Hin' _] _]. apply in_1_19_spec in Hin'.
      split; [apply elem_of_range; lia | lia].
    + rewrite (Permutation_map _ Hperm). exact Hnd.
    + assert (Hs : StronglySorted (fun a b => leb a b = true) (sort_by leb cm)).
      { apply sort_by_sorted.
        - intros a b. apply pair_leb_total.
        - intros a b c Hab Hbc. unfold leb in *. eapply pair_leb_trans; eassumption. }
      assert (Himp : forall a b, leb a b = true -> critical_order a b).
      { intros a b Hab. unfold leb, pair_leb, critical_order in *. cbn [fst snd] in Hab.
        rewrite orb_true_iff, andb_true_iff, Z.ltb_lt, Z.eqb_eq, Z.leb_le in Hab.
        exact Hab. }
      exact (StronglySorted_weaken _ _ _ Himp Hs).
Qed.

(** X21.  [detect_critical_moves] on a grid returns and leaves the board as
    it found it.  Its list holds exactly one record for every empty playable
    cell on which a stone of the colour makes the critical level 3 or more,
    with the level and the score of the analysis of the board with that
    stone; the list is in the order of the level, then the score, greatest
    first. *)
Theorem detect_critical_moves_result (board : Board) (color : Z) :
  is_grid21 board = true ->
  exists cm,
    Evaluator.detect_critical_moves board color = Ok (cm, board)
    /\ (forall m, In m cm <-> critical_placement board color m)
    /\ NoDup (map Evaluator.position cm)
    /\ StronglySorted critical_order cm.
Proof. exact (detect_critical_moves_spec board color). Qed.

End CriticalFacts.

Lemma detect_critical_moves_result_witness :
  is_grid21 two_in_row_board = true
  /\ exists cm m,
      @Evaluator.detect_critical_moves connect6_defines simple_python
        two_in_row_board 1 = Ok (cm, two_in_row_board)
      /\ In m cm
      /\ Evaluator.position m = (10, 12)
      /\ @critical_placement connect6_defines simple_python two_in_row_board 1 m
      /\ NoDup (map Evaluator.position cm)
      /\ StronglySorted critical_order cm.
Proof.
  assert (Hg : is_grid21 two_in_row_board = true) by (vm_compute; reflexivity).
  split; [exact Hg |].
  destruct (@detect_critical_moves_result connect6_defines simple_python
              two_in_row_board 1 Hg) as (cm & Hrun & Hin & Hnd & Hsorted).
  assert (Hex : (fun r => match r with
                          | Ok (cm', _) =>
                              existsb (fun m => bool_decide
                                                  (Evaluator.position m = (10, 12))) cm'
                          | Raise _ => false
                          end)
                  (@Evaluator.detect_critical_moves connect6_defines simple_python
                     two_in_row_board 1) = true) by (vm_compute; reflexivity).
  cbv beta in Hex. rewrite Hrun in Hex.
  apply existsb_exists in Hex. destruct Hex as (m & Hm & Hpos).
  apply bool_decide_eq_true in Hpos.
  exists cm, m. split; [exact Hrun |]. split; [exact Hm |]. split; [exact Hpos |].
  split; [apply Hin; exact Hm |]. split; assumption.
Defined.

(* ===================================================================== *)
(** * The win check of the evaluator *)
(* ===================================================================== *)

Section WonFacts.
Context `{Defines}.

Lemma won_scan_spec (board : Board) (color : Z) (fuel : nat) (tx ty sx sy count : Z) :
  is_grid21 board = true -> 1 <= count <= 5 -> 6 - count < Z.of_nat fuel ->
  exists r,
    Evaluator.won_scan fuel board color tx ty sx sy count = Ok r
    /\ match r with
       | None => forall j, 0 <= j < 6 - count ->
                           stone_on board color (tx + j * sx, ty + j * sy)
       | Some c =>
           exists k, 0 <= k /\ c = count + k /\ c <= 5
                     /\ (forall j, 0 <= j < k ->
                                   stone_on board color (tx + j * sx, ty + j * sy))
                     /\ ~ stone_on board color (tx + k * sx, ty + k * sy)
       end.
Proof.
  intros Hg. revert tx ty count.
  induction fuel as [|fuel IH]; intros tx ty count Hc Hfuel; [lia |].
  cbn [Evaluator.won_scan].
  destruct (stone_at_grid board tx ty color Hg) as (b & Hb). rewrite Hb. cbn [bind].
  apply stone_at_iff in Hb. destruct b.
  - assert (Hs : stone_on board color (tx, ty)) by (apply Hb; reflexivity).
    destruct (Z.geb_spec (count + 1) 6) as [H6|H6].
    + exists None. split; [reflexivity |]. intros j Hj.
      replace j with 0 by lia.
      replace (tx + 0 * sx) with tx by lia. replace (ty + 0 * sy) with ty by lia.
      exact Hs.
    + destruct (IH (tx + sx) (ty + sy) (count + 1)) as (r & Hr & Hspec); [lia | lia |].
      exists r. split; [exact Hr |]. destruct r as [c|].
      * destruct Hspec as (k & Hk & -> & Hle & Hrun & Hend).
        exists (k + 1). split; [lia |]. split; [lia |]. split; [lia |]. split.
        -- intros j Hj. destruct (Z.eq_dec j 0) as [->|Hj0].
           ++ replace (tx + 0 * sx) with tx by lia.
              replace (ty + 0 * sy) with ty by lia. exact Hs.
           ++ replace (tx + j * sx) with (tx + sx + (j - 1) * sx) by lia.
              replace (ty + j * sy) with (ty + sy + (j - 1) * sy) by lia.
              apply Hrun. lia.
        -- replace (tx + (k + 1) * sx) with (tx + sx + k * sx) by lia.
           replace (ty + (k + 1) * sy) with (ty + sy + k * sy) by lia. exact Hend.
      * intros j Hj. destruct (Z.eq_dec j 0) as [->|Hj0].
        -- replace (tx + 0 * sx) with tx by lia.
           replace (ty + 0 * sy) with ty by lia. exact Hs.
        -- replace (tx + j * sx) with (tx + sx + (j - 1) * sx) by lia.
           replace (ty + j * sy) with (ty + sy + (j - 1) * sy) by lia.
           apply Hspec. lia.
  - exists (Some count). split; [reflexivity |].
    exists 0. split; [lia |]. split; [lia |]. split; [lia |]. split.
    + intros j Hj. lia.
    + replace (tx + 0 * sx) with tx by lia. replace (ty + 0 * sy) with ty by lia.
      intros Hs. apply Hb in Hs. discriminate.
Qed.

(** The two scans from a stone say whether six stones in a row pass through
    it in that direction. *)
Lemma won_direction_spec (board : Board) (color x y : Z) (d : Z * Z) :
  is_grid21 board = true -> stone_on board color (x, y) ->
  exists b,
    Evaluator.won_direction board color x y d = Ok b
    /\ (b = true <->
        exists i, 0 <= i <= 5 /\ six_from board color (x - i * fst d) (y - i * snd d) d).
Proof.
  intros Hg Hxy. destruct d as [dx dy]. unfold Evaluator.won_direction, six_from.
  cbn [fst snd].
  destruct (won_scan_spec board color line_fuel (x + dx) (y + dy) dx dy 1 Hg)
    as (r & Hr & Hspec); [lia | unfold line_fuel; lia |].
  rewrite Hr. cbn [bind]. destruct r as [c|].
  - destruct Hspec as (f & Hf & -> & Hle & Hfwd & Hfend).
    destruct (won_scan_spec board color line_fuel (x - dx) (y - dy) (- dx) (- dy)
                (1 + f) Hg) as (r' & Hr' & Hspec'); [lia | unfold line_fuel; lia |].
    rewrite Hr'. cbn [bind]. destruct r' as [c'|].
    + destruct Hspec' as (bk & Hbk & -> & Hle' & Hback & Hbend).
      exists false. split; [reflexivity |]. split; [discriminate |].
      intros (i & Hi & Hsix). exfalso.
      destruct (Z_le_gt_dec i bk) as [Hib|Hib].
      * apply Hfend. specialize (Hsix (i + f + 1)).
        replace (x - i * dx + (i + f + 1) * dx) with (x + dx + f * dx) in Hsix by lia.
        replace (y - i * dy + (i + f + 1) * dy) with (y + dy + f * dy) in Hsix by lia.
        apply Hsix. lia.
      * apply Hbend. specialize (Hsix (i - bk - 1)).
        replace (x - i * dx + (i - bk - 1) * dx) with (x - dx + bk * - dx) in Hsix by lia.
        replace (y - i * dy + (i - bk - 1) * dy) with (y - dy + bk * - dy) in Hsix by lia.
        apply Hsix. lia.
    + exists true. split; [reflexivity |]. split; [| reflexivity]. intros _.
      exists (5 - f). split; [lia |]. intros k Hk.
      destruct (Z.lt_trichotomy k (5 - f)) as [Hlt | [-> | Hgt]].
      * replace (x - (5 - f) * dx + k * dx) with (x - dx + (5 - f - k - 1) * - dx) by lia.
        replace (y - (5 - f) * dy + k * dy) with (y - dy + (5 - f - k - 1) * - dy) by lia.
        apply Hspec'. lia.
      * replace (x - (5 - f) * dx + (5 - f) * dx) with x by lia.
        replace (y - (5 - f) * dy + (5 - f) * dy) with y by lia. exact Hxy.
      * replace (x - (5 - f) * dx + k * dx) with (x + dx + (k - (5 - f) - 1) * dx) by lia.
        replace (y - (5 - f) * dy + k * dy) with (y + dy + (k - (5 - f) - 1) * dy) by lia.
        apply Hfwd. lia.
  - exists true. split; [reflexivity |]. split; [| reflexivity]. intros _.
    exists 0. split; [lia |]. intros k Hk.
    destruct (Z.eq_dec k 0) as [->|Hk0].
    + replace (x - 0 * dx + 0 * dx) with x by lia.
      replace (y - 0 * dy + 0 * dy) with y by lia. exact Hxy.
    + replace (x - 0 * dx + k * dx) with (x + dx + (k - 1) * dx) by lia.
      replace (y - 0 * dy + k * dy) with (y + dy + (k - 1) * dy) by lia.
      apply Hspec. lia.
Qed.

Lemma won_cell_spec (board : Board) (color x y : Z) :
  is_grid21 board = true -> 1 <= x <= 19 -> 1 <= y <= 19 ->
  exists b,
    Evaluator.won_cell board color x y = Ok b
    /\ (b = true <->
        stone_on board color (x, y)
        /\ exists d i, In d [(1, 0); (0, 1); (1, 1); (1, -1)] /\ 0 <= i <= 5
                       /\ six_from board color (x - i * fst d) (y - i * snd d) d).
Proof.
  intros Hg Hx Hy. unfold Evaluator.won_cell.
  destruct (grid21_cell board x y Hg) as (v & _ & Hget); [lia | lia |].
  rewrite Hget. cbn [bind].
  destruct (Z.eqb_spec v color) as [->|Hne].
  - assert (Hxy : stone_on board color (x, y)).
    { split; [apply in_1_19_spec; cbn [fst snd]; lia | exact Hget]. }
    destruct (anyM_spec (Evaluator.won_direction board color x y)
                [(1, 0); (0, 1); (1, 1); (1, -1)]) as (b & Hb & Hiff).
    + intros d _. destruct (won_direction_spec board color x y d Hg Hxy) as (b & Hb & _).
      eauto.
    + exists b. split; [exact Hb |]. rewrite Hiff. split.
      * intros (d & Hd & Hw). split; [exact Hxy |].
        destruct (won_direction_spec board color x y d Hg Hxy) as (b' & Hb' & Hiff').
        rewrite Hw in Hb'. injection Hb' as <-.
        destruct (proj1 Hiff' eq_refl) as (i & Hi & Hsix). eauto.
      * intros (_ & d & i & Hd & Hi & Hsix). exists d. split; [exact Hd |].
        destruct (won_direction_spec board color x y d Hg Hxy) as (b' & Hb' & Hiff').
        rewrite Hb'. f_equal. apply Hiff'. eauto.
  - exists false. split; [reflexivity |]. split; [discriminate |].
    intros ([_ Hs] & _). cbn [fst snd] in Hs. rewrite Hget in Hs.
    injection Hs as ->. contradiction.
Qed.

Lemma is_won_spec (board : Board) (color : Z) :
  is_grid21 board = true ->
  exists b,
    Evaluator._is_won board color = Ok b /\ (b = true <-> six_in_line board color).
Proof.
  intros Hg. unfold Evaluator._is_won.
  assert (Hrow : forall x, In x (range 1 20) ->
            exists b, anyM (Evaluator.won_cell board color x) (range 1 20) = Ok b
                      /\ (b = true <->
                          exists y, In y (range 1 20)
                                    /\ Evaluator.won_cell board color x y = Ok true)).
  { intros x Hx. apply elem_of_range in Hx. apply anyM_spec.
    intros y Hy. apply elem_of_range in Hy.
    destruct (won_cell_spec board color x y Hg) as (b & Hb & _); [lia | lia |]. eauto. }
  destruct (anyM_spec (fun x => anyM (Evaluator.won_cell board color x) (range 1 20))
              (range 1 20)) as (b & Hb & Hiff).
  { intros x Hx. destruct (Hrow x Hx) as (b & Hb & _). eauto. }
  exists b. split; [exact Hb |]. rewrite Hiff. split.
  - intros (x & Hx & Hw). destruct (Hrow x Hx) as (b' & Hb' & Hiff').
    rewrite Hw in Hb'. injection Hb' as <-.
    destruct (proj1 Hiff' eq_refl) as (y & Hy & Hc).
    apply elem_of_range in Hx, Hy.
    destruct (won_cell_spec board color x y Hg) as (b' & Hb' & Hiff''); [lia | lia |].
    rewrite Hc in Hb'. injection Hb' as <-.
    destruct (proj1 Hiff'' eq_refl) as (_ & d & i & Hd & Hi & Hsix).
    exists (x - i * fst d), (y - i * snd d), d. auto.
  - intros (x & y & d & Hd & Hsix).
    assert (Hxy : stone_on board color (x, y)).
    { specialize (Hsix 0). replace (x + 0 * fst d) with x in Hsix by lia.
      replace (y + 0 * snd d) with y in Hsix by lia. apply Hsix. lia. }
    destruct Hxy as [Hin Hget]. cbn [fst snd] in Hin, Hget.
    apply in_1_19_spec in Hin as Hr.
    exists x. split; [apply elem_of_range; lia |].
    destruct (Hrow x) as (b' & Hb' & Hiff'); [apply elem_of_range; lia |].
    rewrite Hb'. f_equal. apply Hiff'. exists y. split; [apply elem_of_range; lia |].
    destruct (won_cell_spec board color x y Hg) as (b'' & Hb'' & Hiff''); [lia | lia |].
    rewrite Hb''. f_equal. apply Hiff''. split.
    + split; assumption.
    + exists d, 0. split; [exact Hd |]. split; [lia |].
      replace (x - 0 * fst d) with x by lia. replace (y - 0 * snd d) with y by lia.
      exact Hsix.
Qed.

(** X22.  The evaluator's win check is exact.  On a grid [_is_won] returns,
    and its answer is [True] exactly when six stones of the colour stand in
    a row on playable cells in one of the four directions. *)
Theorem is_won_iff_six_in_line (board : Board) (color : Z) :
  is_grid21 board = true ->
  exists b,
    Evaluator._is_won board color = Ok b /\ (b = true <-> six_in_line board color).
Proof. exact (is_won_spec board color). Qed.

End WonFacts.

Lemma is_won_iff_six_in_line_witness :
  is_grid21 six_in_row_board = true
  /\ Evaluator._is_won six_in_row_board 1 = Ok true
  /\ six_in_line six_in_row_board 1.
Proof.
  assert (Hg : is_grid21 six_in_row_board = true) by (vm_compute; reflexivity).
  split; [exact Hg |].
  assert (Hrun : Evaluator._is_won six_in_row_board 1 = Ok true)
    by (vm_compute; reflexivity).
  split; [exact Hrun |].
  destruct (is_won_iff_six_in_line six_in_row_board 1 Hg)
    as (b & Hb & Hiff).
  apply Hiff. rewrite Hrun in Hb. injection Hb as <-. reflexivity.
Defined.

(* ===================================================================== *)
(** * opening_book.py: the principle move *)
(* ===================================================================== *)

Lemma dict_set_keys_sub {K V : Type} `{EqDecision K} (d : list (K * V)) (k : K) (v : V)
      (x : K) :
  In x (map fst (PyDict.set d k v)) -> In x (map fst d) \/ x = k.
Proof.
  induction d as [|[k' v'] d IH]; cbn [PyDict.set map fst In].
  - intros [<- | []]. auto.
  - destruct (decide (k' = k)); cbn [map fst In]; [tauto |].
    intros [<- | Hx]; [auto |]. destruct (IH Hx); auto.
Qed.

Lemma dict_set_keys_sup {K V : Type} `{EqDecision K} (d : list (K * V)) (k : K) (v : V)
      (x : K) :
  In x (map fst d) \/ x = k -> In x (map fst (PyDict.set d k v)).
Proof.
  induction d as [|[k' v'] d IH]; cbn [PyDict.set map fst In].
  - intros [[] | ->]. auto.
  - destruct (decide (k' = k)) as [->|]; cbn [map fst In].
    + intros [[<- | Hx] | ->]; auto.
    + intros [[<- | Hx] | ->]; auto.
Qed.

(** The dict the loop builds has each position of the candidates once, and
    no other. *)
Lemma keep_best_keys (cands unique : list ((Z * Z) * Z)) :
  dict_wf unique ->
  dict_wf (foldl keep_best unique cands)
  /\ forall p, In p (map fst (foldl keep_best unique cands))
               <-> In p (map fst unique) \/ In p (map fst cands).
Proof.
  revert unique. induction cands as [|c cands IH]; intros unique Hwf; cbn [foldl].
  - split; [exact Hwf |]. intros p. cbn [map In]. tauto.
  - assert (Hstep : dict_wf (keep_best unique c)
                    /\ forall p, In p (map fst (keep_best unique c))
                                 <-> In p (map fst unique) \/ p = fst c).
    { unfold keep_best. destruct (PyDict.get unique (fst c)) as [old|] eqn:Hget.
      - assert (Hin : In (fst c) (map fst unique)).
        { destruct (in_dec (decide_rel eq) (fst c) (map fst unique)) as [Hi|Hn]; [exact Hi |].
          apply dict_get_None_keys in Hn. congruence. }
        destruct (old <? snd c).
        + split; [apply dict_wf_set; exact Hwf |]. intros p. split.
          * apply dict_set_keys_sub.
          * apply dict_set_keys_sup.
        + split; [exact Hwf |]. intros p. split; [auto |]. intros [Hp | ->]; assumption.
      - split; [apply dict_wf_set; exact Hwf |]. intros p. split.
        + apply dict_set_keys_sub.
        + apply dict_set_keys_sup. }
    destruct Hstep as [Hwf' Hkeys]. destruct (IH _ Hwf') as [Hwf'' Hkeys''].
    split; [exact Hwf'' |]. intros p. rewrite Hkeys'', Hkeys. cbn [map In]. intuition.
Qed.

Section BookFacts.
Context `{Defines}.

Lemma candidates_ok_app board cands p s :
  candidates_ok board cands -> empty_playable board p ->
  candidates_ok board (cands ++ [(p, s)]).
Proof.
  intros Hc Hp c Hin. apply in_app_iff in Hin. destruct Hin as [Hin | [<- | []]];
    [apply Hc; exact Hin | exact Hp].
Qed.

Lemma collect_stones_total (board : Board) (color opponent : Z) :
  is_grid21 board = true ->
  exists r, OpeningBook.collect_stones board color opponent = Ok r.
Proof.
  intros Hg. unfold OpeningBook.collect_stones.
  match goal with
  | |- context [foldM ?f ?l ?s] =>
      destruct (foldM_total (fun _ => True) f l s) as (r & -> & _)
  end; [| exact I | eauto].
  intros st i Hi _. apply elem_of_range in Hi.
  apply (foldM_total (fun _ => True)); [| exact I].
  intros st1 j Hj _. apply elem_of_range in Hj.
  destruct (grid21_cell board i j Hg) as (v & _ & ->); [lia | lia |].
  cbn [bind]. destruct (v =? color); [eauto |]. cbn [bind].
  destruct (v =? opponent); eauto.
Qed.

Lemma near_own_ok (board : Board) (o : Z * Z) (cands : list ((Z * Z) * Z)) :
  is_grid21 board = true -> candidates_ok board cands ->
  exists cands', OpeningBook.near_own board o cands = Ok cands'
                 /\ candidates_ok board cands'.
Proof.
  intros Hg Hc. unfold OpeningBook.near_own.
  apply (foldM_total (candidates_ok board)); [| exact Hc].
  intros c1 dx _ Hc1. apply (foldM_total (candidates_ok board)); [| exact Hc1].
  intros c2 dy _ Hc2.
  destruct (Z.abs dx + Z.abs dy <? 2); [eauto |].
  destruct (Z.abs dx + Z.abs dy >? 5); [eauto |].
  destruct (in_1_19 (fst o + dx) (snd o + dy)) eqn:Hin; [| eauto].
  apply in_1_19_spec in Hin as Hr.
  destruct (grid21_cell board (fst o + dx) (snd o + dy) Hg) as (v & _ & Hget);
    [lia | lia |].
  rewrite Hget. cbn [bind]. destruct (Z.eqb_spec v NOSTONE) as [->|]; [| eauto].
  eexists. split; [reflexivity |]. apply candidates_ok_app; [exact Hc2 |].
  split; [exact Hin | exact Hget].
Qed.

Lemma near_opponent_ok (board : Board) (o : Z * Z) (cands : list ((Z * Z) * Z)) :
  is_grid21 board = true -> candidates_ok board cands ->
  exists cands', OpeningBook.near_opponent board o cands = Ok cands'
                 /\ candidates_ok board cands'.
Proof.
  intros Hg Hc. unfold OpeningBook.near_opponent.
  apply (foldM_total (candidates_ok board)); [| exact Hc].
  intros c1 dx _ Hc1. apply (foldM_total (candidates_ok board)); [| exact Hc1].
  intros c2 dy _ Hc2.
  destruct ((dx =? 0) && (dy =? 0)); [eauto |].
  destruct (in_1_19 (fst o + dx) (snd o + dy)) eqn:Hin; [| eauto].
  apply in_1_19_spec in Hin as Hr.
  destruct (grid21_cell board (fst o + dx) (snd o + dy) Hg) as (v & _ & Hget);
    [lia | lia |].
  rewrite Hget. cbn [bind]. destruct (Z.eqb_spec v NOSTONE) as [->|]; [| eauto].
  eexists. split; [reflexivity |]. apply candidates_ok_app; [exact Hc2 |].
  split; [exact Hin | exact Hget].
Qed.

Lemma near_center_ok (board : Board) (cands : list ((Z * Z) * Z)) :
  is_grid21 board = true -> candidates_ok board cands ->
  exists cands', OpeningBook.near_center board cands = Ok cands'
                 /\ candidates_ok board cands'.
Proof.
  intros Hg Hc. unfold OpeningBook.near_center.
  apply (foldM_total (candidates_ok board)); [| exact Hc].
  intros c1 x Hx Hc1. apply elem_of_range in Hx.
  apply (foldM_total (candidates_ok board)); [| exact Hc1].
  intros c2 y Hy Hc2. apply elem_of_range in Hy.
  destruct (grid21_cell board x y Hg) as (v & _ & Hget); [lia | lia |].
  rewrite Hget. cbn [bind]. destruct (Z.eqb_spec v NOSTONE) as [->|]; [| eauto].
  eexists. split; [reflexivity |]. apply candidates_ok_app; [exact Hc2 |].
  split; [apply in_1_19_spec; cbn [fst snd]; lia | exact Hget].
Qed.

Lemma second_near_ok (board : Board) (pos1 : Z * Z) :
  is_grid21 board = true ->
  exists r, OpeningBook.second_near board pos1 = Ok r
            /\ match r with
               | Some p => empty_playable board p /\ p <> pos1
               | None => True
               end.
Proof.
  intros Hg. unfold OpeningBook.second_near.
  match goal with
  | |- context [foldM (fun found dx => foldM (@?step dx) ?dys found) ?dxs None] =>
      destruct (scan_first step (fun p => empty_playable board p /\ p <> pos1)
                  (fun _ _ => True) dxs dys) as (r & Hr & Hspec)
  end.
  - reflexivity.
  - intros dx dy _ _. cbn beta.
    destruct (stone_at_spec board (fst pos1 + dx) (snd pos1 + dy) NOSTONE Hg)
      as (e & He & Hiff).
    rewrite He. cbn [bind]. destruct e; cbn [andb]; [| right; auto].
    destruct (bool_decide_reflect ((fst pos1 + dx, snd pos1 + dy) = pos1)) as [Heq|Hne];
      cbn [negb]; [right; auto |].
    left. eexists. split; [reflexivity |]. split; [| exact Hne].
    unfold empty_playable. cbn [fst snd]. apply Hiff. reflexivity.
  - exists r. split; [exact Hr |]. destruct r; [exact Hspec | exact I].
Qed.

(** X23.  The fallback of the opening book plays legal moves.  On a grid
    [_generate_principle_move] returns; when it answers with a move, the
    two positions are two different empty playable cells of the board. *)
Theorem principle_move_is_two_empty_cells (board : Board) (color : Z) :
  is_grid21 board = true ->
  exists r,
    OpeningBook._generate_principle_move board color = Ok r
    /\ forall p1 p2, r = Some (p1, p2) ->
         empty_playable board p1 /\ empty_playable board p2 /\ p1 <> p2.
Proof.
  intros Hg. unfold OpeningBook._generate_principle_move.
  destruct (collect_stones_total board color (if color =? WHITE then BLACK else WHITE) Hg)
    as ([ours opps] & ->). cbn [bind].
  destruct (foldM_total (candidates_ok board)
              (fun cands o => OpeningBook.near_own board o cands) ours [])
    as (c1 & -> & Hc1).
  { intros s o _ Hs. apply near_own_ok; assumption. }
  { intros c []. }
  cbn [bind].
  destruct (foldM_total (candidates_ok board)
              (fun cands o => OpeningBook.near_opponent board o cands) opps c1)
    as (c2 & -> & Hc2).
  { intros s o _ Hs. apply near_opponent_ok; assumption. }
  { exact Hc1. }
  cbn [bind].
  assert (Hc3 : exists c3,
             (if nonempty c2 then Ok c2 else OpeningBook.near_center board c2) = Ok c3
             /\ candidates_ok board c3).
  { destruct (nonempty c2); [eauto |]. apply near_center_ok; assumption. }
  destruct Hc3 as (c3 & -> & Hc3). cbn [bind].
  change (foldl _ [] c3) with (foldl keep_best [] c3).
  destruct (keep_best_keys c3 []) as [Hwf Hkeys]; [constructor |].
  set (unique := foldl keep_best [] c3) in *.
  set (sorted := sort_by (fun a b : Z * Z * Z => snd b <=? snd a) unique).
  assert (Hperm : Permutation sorted unique) by apply sort_by_perm.
  assert (Hnd : NoDup (map fst sorted)).
  { rewrite (Permutation_map _ Hperm). exact Hwf. }
  assert (Hempty : forall c, In c sorted -> empty_playable board (fst c)).
  { intros c Hc. apply list_elem_of_In in Hc. rewrite Hperm in Hc.
    apply list_elem_of_In in Hc.
    assert (Hk : In (fst c) (map fst unique)) by (apply in_map; exact Hc).
    apply Hkeys in Hk. destruct Hk as [[] | Hk].
    apply in_map_iff in Hk. destruct Hk as (c' & Heq & Hc'). rewrite <- Heq.
    apply Hc3. exact Hc'. }
  clearbody sorted. destruct sorted as [|s0 [|s1 rest]].
  - eexists. split; [reflexivity |]. intros p1 p2 [=].
  - destruct (second_near_ok board (fst s0) Hg) as (r & -> & Hr). cbn [bind].
    destruct r as [p|].
    + eexists. split; [reflexivity |]. intros p1 p2 [= <- <-].
      destruct Hr as [Hp Hne]. split; [apply Hempty; left; reflexivity |].
      split; [exact Hp | auto].
    + eexists. split; [reflexivity |]. intros p1 p2 [=].
  - eexists. split; [reflexivity |]. intros p1 p2 [= <- <-].
    split; [apply Hempty; left; reflexivity |].
    split; [apply Hempty; right; left; reflexivity |].
    cbn [map] in Hnd. apply NoDup_cons in Hnd as [Hn _].
    intros Heq. apply Hn. rewrite Heq. left.
Qed.

End BookFacts.

Lemma principle_move_is_two_empty_cells_witness :
  is_grid21 two_stones_board = true
  /\ exists p1 p2,
      @OpeningBook._generate_principle_move connect6_defines two_stones_board 1
      = Ok (Some (p1, p2))
      /\ @empty_playable connect6_defines two_stones_board p1
      /\ @empty_playable connect6_defines two_stones_board p2
      /\ p1 <> p2.
Proof.
  assert (Hg : is_grid21 two_stones_board = true) by (vm_compute; reflexivity).
  split; [exact Hg |].
  destruct (@principle_move_is_two_empty_cells connect6_defines two_stones_board 1 Hg)
    as (r & Hr & Hlegal).
  assert (Hsome : (fun x => match x with Ok (Some _) => true | _ => false end)
                    (@OpeningBook._generate_principle_move connect6_defines
                       two_stones_board 1) = true) by (vm_compute; reflexivity).
  cbv beta in Hsome. rewrite Hr in Hsome.
  destruct r as [[p1 p2] |]; [| discriminate Hsome].
  exists p1, p2. split; [exact Hr |]. apply Hlegal. reflexivity.
Defined.

(* ===================================================================== *)
(** * opening_book.py: the stones of a board *)
(* ===================================================================== *)

Section ExtractFacts.
Context `{Defines}.

(** X24.  The two scans of the opening book agree.  On a grid
    [_extract_stones] returns the playable cells that are not empty, each
    with the value it holds, and [_is_empty_board] answers [True] exactly
    when that list is empty. *)
Theorem extract_stones_lists_the_occupied_cells (board : Board) :
  is_grid21 board = true ->
  exists stones b,
    OpeningBook._extract_stones board = Ok stones
    /\ OpeningBook._is_empty_board board = Ok b
    /\ (forall s, In s stones <-> occupied board s)
    /\ (b = true <-> stones = []).
Proof.
  intros Hg.
  assert (Hext : exists stones,
             OpeningBook._extract_stones board = Ok stones
             /\ forall s, In s stones <-> occupied board s).
  { unfold OpeningBook._extract_stones.
    destruct (foldM_total_seen
                (fun seen (l : list (Z * Z * Z)) =>
                   forall s, In s l <-> In (fst (fst s)) seen /\ occupied board s)
                (fun stones i =>
                   foldM (fun stones j =>
                            bind (board_get board i j)
                              (fun c => if negb (c =? NOSTONE)
                                        then bind (board_get board i j)
                                               (fun c' => Ok (stones ++ [(i, j, c')]))
                                        else Ok stones))
                         (range 1 20) stones)
                (range 1 20) []) as (l & Hl & Hin).
    - intros s. cbn [In]. tauto.
    - intros seen i l Hi Hinv. apply elem_of_range in Hi.
      destruct (foldM_total_seen
                  (fun seenj (l' : list (Z * Z * Z)) =>
                     forall s, In s l' <->
                               (In (fst (fst s)) seen /\ occupied board s)
                               \/ (fst (fst s) = i /\ In (snd (fst s)) seenj
                                   /\ occupied board s))
                  (fun stones j =>
                     bind (board_get board i j)
                       (fun c => if negb (c =? NOSTONE)
                                 then bind (board_get board i j)
                                        (fun c' => Ok (stones ++ [(i, j, c')]))
                                 else Ok stones))
                  (range 1 20) l) as (l' & Hl' & Hin').
      + intros s. rewrite Hinv. cbn [In]. tauto.
      + intros seenj j l1 Hj Hinv1. apply elem_of_range in Hj.
        destruct (grid21_cell board i j Hg) as (v & _ & Hget); [lia | lia |].
        rewrite Hget. cbn [bind].
        destruct (Z.eqb_spec v NOSTONE) as [->|Hne]; cbn [negb].
        * exists l1. split; [reflexivity |]. intros s. rewrite Hinv1. split.
          -- intros [Hs | (Hi' & Hj' & Hs)]; [auto |]. right.
             rewrite in_app_iff. auto.
          -- intros [Hs | (Hi' & Hj' & Hs)]; [auto |].
             apply in_app_iff in Hj'. destruct Hj' as [Hj' | [Hj' | []]]; [auto |].
             exfalso. destruct Hs as (_ & Hs & Hn). rewrite Hi', <- Hj', Hget in Hs.
             injection Hs as Hs. congruence.
        * cbn [bind]. eexists. split; [reflexivity |].
          intros s. rewrite in_app_iff, Hinv1. cbn [In]. split.
          -- intros [[Hs | (Hi' & Hj' & Hs)] | [<- | []]]; [auto | |].
             ++ right. rewrite in_app_iff. auto.
             ++ right. cbn [fst snd]. split; [reflexivity |].
                split; [apply in_app_iff; right; left; reflexivity |].
                split; [apply in_1_19_spec; cbn [fst snd]; lia |].
                cbn [fst snd]. auto.
          -- intros [Hs | (Hi' & Hj' & Hs)]; [auto |].
             apply in_app_iff in Hj'. destruct Hj' as [Hj' | [Hj' | []]]; [auto |].
             right. left. destruct s as [[sx sy] sc]. cbn [fst snd] in *. subst sx sy.
             destruct Hs as (_ & Hs & _). cbn [fst snd] in Hs. rewrite Hget in Hs.
             injection Hs as <-. reflexivity.
      + exists l'. split; [exact Hl' |]. intros s. rewrite Hin', in_app_iff. cbn [In].
        split.
        * intros [[Hs Ho] | (Hi' & _ & Ho)]; auto.
        * intros [[Hs | [Hs | []]] Ho]; [auto |]. right. split; [auto |].
          split; [| exact Ho]. destruct Ho as (Hr & _). apply in_1_19_spec in Hr.
          apply elem_of_range. lia.
    - exists l. split; [exact Hl |]. intros s. rewrite Hin. split; [tauto |].
      intros Ho. split; [| exact Ho]. destruct Ho as (Hr & _).
      apply in_1_19_spec in Hr. apply elem_of_range. lia. }
  destruct Hext as (stones & Hs & Hin).
  assert (Hany : exists found,
             anyM (fun i => anyM (fun j => bind (board_get board i j)
                                            (fun c => Ok (negb (c =? NOSTONE))))
                                 (range 1 20)) (range 1 20) = Ok found
             /\ (found = true <-> exists s, occupied board s)).
  { assert (Hrow : forall i, In i (range 1 20) ->
              exists r, anyM (fun j => bind (board_get board i j)
                                         (fun c => Ok (negb (c =? NOSTONE))))
                             (range 1 20) = Ok r
                        /\ (r = true <-> exists j c, 1 <= j <= 19
                                                     /\ board_get board i j = Ok c
                                                     /\ c <> NOSTONE)).
    { intros i Hi. apply elem_of_range in Hi.
      match goal with
      | |- context [anyM ?f ?l] => destruct (anyM_spec f l) as (r & Hr & Hiff)
      end.
      - intros j Hj. apply elem_of_range in Hj.
        destruct (grid21_cell board i j Hg) as (v & _ & ->); [lia | lia |].
        cbn [bind]. eauto.
      - exists r. split; [exact Hr |]. rewrite Hiff. split.
        + intros (j & Hj & Hb). apply elem_of_range in Hj. bind_inv Hb.
          injection Hb as Hb. apply negb_true_iff, Z.eqb_neq in Hb.
          exists j, a. split; [lia | auto].
        + intros (j & c & Hj & Hget & Hne). exists j.
          split; [apply elem_of_range; lia |]. rewrite Hget. cbn [bind].
          f_equal. apply negb_true_iff, Z.eqb_neq. exact Hne. }
    match goal with
    | |- context [anyM ?f (range 1 20)] =>
        destruct (anyM_spec f (range 1 20)) as (r & Hr & Hiff)
    end.
    - intros i Hi. destruct (Hrow i Hi) as (r & Hr & _). eauto.
    - exists r. split; [exact Hr |]. rewrite Hiff. split.
      + intros (i & Hi & Hb). destruct (Hrow i Hi) as (r' & Hr' & Hiff').
        rewrite Hb in Hr'. injection Hr' as <-.
        destruct (proj1 Hiff' eq_refl) as (j & c & Hj & Hget & Hne).
        apply elem_of_range in Hi.
        exists (i, j, c). split; [apply in_1_19_spec; cbn [fst snd]; lia |].
        cbn [fst snd]. auto.
      + intros ([[i j] c] & Hr' & Hget & Hne). cbn [fst snd] in *.
        apply in_1_19_spec in Hr'. exists i.
        split; [apply elem_of_range; lia |].
        destruct (Hrow i) as (r' & Hr'' & Hiff'); [apply elem_of_range; lia |].
        rewrite Hr''. f_equal. apply Hiff'. exists j, c. split; [lia | auto]. }
  destruct Hany as (found & Hf & Hfound).
  exists stones, (negb found). split; [exact Hs |]. split.
  { unfold OpeningBook._is_empty_board. rewrite Hf. reflexivity. }
  split; [exact Hin |].
  rewrite negb_true_iff. split.
  - intros Hff. destruct stones as [|s l]; [reflexivity |]. exfalso.
    assert (found = true) by (apply Hfound; exists s; apply Hin; left; reflexivity).
    congruence.
  - intros ->. destruct found; [| reflexivity]. exfalso.
    destruct (proj1 Hfound eq_refl) as (s & Ho). apply Hin in Ho. destruct Ho.
Qed.

End ExtractFacts.

Lemma extract_stones_lists_the_occupied_cells_witness :
  is_grid21 two_stones_board = true
  /\ exists stones,
      @OpeningBook._extract_stones connect6_defines two_stones_board = Ok stones
      /\ @OpeningBook._is_empty_board connect6_defines two_stones_board = Ok false
      /\ stones <> []
      /\ forall s, In s stones -> @occupied connect6_defines two_stones_board s.
Proof.
  assert (Hg : is_grid21 two_stones_board = true) by (vm_compute; reflexivity).
  split; [exact Hg |].
  destruct (@extract_stones_lists_the_occupied_cells connect6_defines
              two_stones_board Hg) as (stones & b & Hs & Hb & Hin & Hempty).
  assert (Hrun : @OpeningBook._is_empty_board connect6_defines two_stones_board
                 = Ok false) by (vm_compute; reflexivity).
  exists stones. split; [exact Hs |]. split; [exact Hrun |].
  rewrite Hrun in Hb. injection Hb as <-. split.
  - intros Hnil. apply Hempty in Hnil. discriminate Hnil.
  - intros s Hs'. apply Hin. exact Hs'.
Defined.

(* ===================================================================== *)
(** * The candidate scan of the standard move generation *)
(* ===================================================================== *)

Section StandardMoves.
Context `{Defines} `{Python}.

Lemma count_line_length_total (board : Board) (x y dx dy color : Z) :
  is_grid21 board = true -> unit_step dx dy ->
  exists n, MoveGenerator._count_line_length board x y dx dy color = Ok n.
Proof.
  intros Hg Hu. unfold MoveGenerator._count_line_length.
  destruct (count_line_total board color line_fuel (x + dx) (y + dy) dx dy 1 Hg Hu)
    as (n & ->); [unfold line_fuel; lia | apply steps_left_bound; exact Hu |].
  cbn [bind].
  assert (Hu' : unit_step (- dx) (- dy)) by (unfold unit_step in *; lia).
  apply (count_line_total board color line_fuel (x - dx) (y - dy) (- dx) (- dy) n Hg Hu');
    [unfold line_fuel; lia | apply steps_left_bound; exact Hu'].
Qed.

(** The quick evaluation of an empty playable cell returns and leaves the
    board as it found it. *)
Lemma quick_eval_restores (board : Board) (x y color : Z) :
  is_grid21 board = true -> empty_playable board (x, y) ->
  exists s, MoveGenerator._quick_eval_position board x y color = Ok (s, board).
Proof.
  intros Hg [Hin Hget]. cbn [fst snd] in Hin, Hget. apply in_1_19_spec in Hin as Hr.
  unfold MoveGenerator._quick_eval_position.
  destruct (board_set_cell_at board x y color Hg) as (b1 & Hs1 & Hg1 & _); [lia | lia |].
  rewrite Hs1. cbn [bind].
  match goal with
  | |- context [foldM ?f ?l 0] =>
      destruct (foldM_total (fun _ => True) f l 0) as (ml & -> & _)
  end.
  { intros s d Hd _.
    destruct (count_line_length_total b1 x y (fst d) (snd d) color Hg1) as (n & ->).
    - apply directions_unit. exact Hd.
    - cbn [bind]. eauto. }
  { exact I. }
  cbn [bind].
  destruct (board_set_restore board b1 x y NOSTONE color Hg) as [_ Hback];
    [lia | lia | exact Hget | exact Hs1 |].
  rewrite Hback. cbn [bind].
  match goal with
  | |- context [foldM ?f ?l 0] =>
      destruct (foldM_total (fun _ => True) f l 0) as (adj & -> & _)
  end.
  { intros s dx _ _. apply (foldM_total (fun _ => True)); [| exact I].
    intros s' dy _ _. destruct ((dx =? 0) && (dy =? 0)); [eauto |].
    destruct (stone_at_grid board (x + dx) (y + dy) color Hg) as (r & ->).
    cbn [bind]. eauto. }
  { exact I. }
  cbn [bind]. eauto.
Qed.

Lemma scan_neighbour_ok (board : Board) (color x y dx dy : Z) (st : MoveGenerator.scan) :
  is_grid21 board = true -> scan_ok board st ->
  exists st', MoveGenerator.scan_neighbour color x y dx st dy = Ok st'
              /\ scan_ok board st'.
Proof.
  intros Hg [Hb Hc]. unfold MoveGenerator.scan_neighbour.
  destruct (_ >? _); [exists st; split; [reflexivity | split; assumption] |].
  destruct (_ >? _).
  { eexists. split; [reflexivity |]. split; assumption. }
  rewrite Hb.
  destruct (stone_at_spec board (x + dx) (y + dy) NOSTONE Hg) as (e & -> & Hiff).
  cbn [bind]. destruct e.
  - assert (He : empty_playable board (x + dx, y + dy)) by (apply Hiff; reflexivity).
    destruct (quick_eval_restores board (x + dx) (y + dy) color Hg He) as (s & ->).
    cbn [bind]. eexists. split; [reflexivity |]. split; [reflexivity |].
    cbn [MoveGenerator.candidate_positions]. apply candidates_ok_app; assumption.
  - eexists. split; [reflexivity |]. split; [reflexivity | exact Hc].
Qed.

Lemma scan_cell_ok (board : Board) (color x y : Z) (st : MoveGenerator.scan) :
  is_grid21 board = true -> 1 <= x <= 19 -> 1 <= y <= 19 -> scan_ok board st ->
  exists st', MoveGenerator.scan_cell color x st y = Ok st' /\ scan_ok board st'.
Proof.
  intros Hg Hx Hy Hst. unfold MoveGenerator.scan_cell.
  destruct (_ >? _); [eauto |].
  destruct Hst as [Hb Hc]. rewrite Hb.
  destruct (grid21_cell board x y Hg) as (v & _ & ->); [lia | lia |].
  cbn [bind]. destruct (negb (v =? NOSTONE)); [| exists st; split; [reflexivity | split; assumption]].
  apply (foldM_total (scan_ok board)); [| split; assumption].
  intros st1 dx _ Hst1. destruct (_ >? _); [eauto |].
  apply (foldM_total (scan_ok board)); [| exact Hst1].
  intros st2 dy _ Hst2. apply scan_neighbour_ok; assumption.
Qed.

Lemma center_cell_ok (board : Board) (x y : Z) (cands : list ((Z * Z) * Z)) :
  is_grid21 board = true -> 7 <= x <= 13 -> 7 <= y <= 13 -> candidates_ok board cands ->
  exists cands', MoveGenerator.center_cell board x cands y = Ok cands'
                 /\ candidates_ok board cands'.
Proof.
  intros Hg Hx Hy Hc. unfold MoveGenerator.center_cell.
  destruct (grid21_cell board x y Hg) as (v & _ & Hget); [lia | lia |].
  rewrite Hget. cbn [bind]. destruct (Z.eqb_spec v NOSTONE) as [->|]; [| eauto].
  eexists. split; [reflexivity |]. apply candidates_ok_app; [exact Hc |].
  split; [apply in_1_19_spec; cbn [fst snd]; lia | exact Hget].
Qed.

(** The candidate scan of [_generate_standard_moves], with the centre cells
    when it found nothing. *)
Lemma candidate_scan_ok (board : Board) (color : Z) :
  is_grid21 board = true ->
  exists st,
    foldM (fun st x =>
             if MoveGenerator.positions_checked st >? MoveGenerator.max_checks
             then Ok st
             else foldM (MoveGenerator.scan_cell color x) (range 1 20) st)
          (range 1 20) (MoveGenerator.mk_scan [] 0 board) = Ok st
    /\ scan_ok board st.
Proof.
  intros Hg. apply (foldM_total (scan_ok board)).
  - intros st x Hx Hst. apply elem_of_range in Hx. destruct (_ >? _); [eauto |].
    apply (foldM_total (scan_ok board)); [| exact Hst].
    intros st1 y Hy Hst1. apply elem_of_range in Hy.
    apply scan_cell_ok; [exact Hg | lia | lia | exact Hst1].
  - split; [reflexivity |]. intros c [].
Qed.

End StandardMoves.

(* ===================================================================== *)
(** * The standard move generation *)
(* ===================================================================== *)

Lemma StronglySorted_take {A : Type} (R : A -> A -> Prop) (n : nat) (l : list A) :
  StronglySorted R l -> StronglySorted R (take n l).
Proof.
  intros Hs. revert n. induction Hs as [|a l Hs IH Hall]; intros [|n]; cbn [take];
    try constructor.
  - apply IH.
  - apply Forall_take. exact Hall.
Qed.

Lemma NoDup_take {A : Type} (n : nat) (l : list A) : NoDup l -> NoDup (take n l).
Proof.
  intros Hnd. rewrite <- (take_drop n l) in Hnd. apply NoDup_app in Hnd. tauto.
Qed.

Lemma map_take {A B : Type} (f : A -> B) (n : nat) (l : list A) :
  map f (take n l) = take n (map f l).
Proof.
  revert n. induction l as [|a l IH]; intros [|n]; cbn [take map]; try reflexivity.
  rewrite IH. reflexivity.
Qed.

Lemma slice_to_nonneg {A : Type} (l : list A) (n : Z) :
  0 <= n -> slice_to l n = take (Z.to_nat n) l.
Proof. intros Hn. unfold slice_to. destruct (Z.ltb_spec n 0); [lia | reflexivity]. Qed.

Lemma nonempty_iff {A : Type} (l : list A) : nonempty l = true <-> l <> [].
Proof. destruct l; cbn; split; congruence. Qed.

Lemma sort_by_length {A : Type} (leb : A -> A -> bool) (l : list A) :
  length (sort_by leb l) = length l.
Proof. apply Permutation_length, sort_by_perm. Qed.

Section StandardResult.
Context `{Defines} `{Python}.

Lemma by_score_desc_sorted (l : list StoneMove.t) :
  StronglySorted score_order (sort_by MoveGenerator.by_score_desc l).
Proof.
  apply (StronglySorted_weaken (fun a b => MoveGenerator.by_score_desc a b = true)).
  - intros a b Hab. unfold MoveGenerator.by_score_desc in Hab.
    apply Qle_bool_iff in Hab. exact Hab.
  - apply sort_by_sorted.
    + intros a b Hab. unfold MoveGenerator.by_score_desc in *.
      apply Qle_bool_iff. destruct (Qlt_le_dec (StoneMove.score a) (StoneMove.score b)) as [Hlt|Hle].
      * apply Qlt_le_weak. exact Hlt.
      * apply Qle_bool_iff in Hle. congruence.
    + intros a b c Hab Hbc. unfold MoveGenerator.by_score_desc in *.
      apply Qle_bool_iff in Hab, Hbc. apply Qle_bool_iff.
      eapply Qle_trans; eassumption.
Qed.

Lemma pair_moves_ok (self : MoveGenerator.t) (top : list (Z * Z))
      (unique : list ((Z * Z) * Z)) (max_moves i j : Z)
      (st : list StoneMove.t * bool) :
  NoDup top -> (forall p, In p top -> In p (map fst unique)) ->
  0 <= i < j -> j < Z.of_nat (length top) ->
  pairs_of top (fst st) ->
  exists st', MoveGenerator.pair_moves self top unique max_moves i st j = Ok st'
              /\ pairs_of top (fst st').
Proof.
  intros Hnd Hkeys Hi Hj Hst. destruct st as [moves stopped]. cbn [fst] in Hst.
  unfold MoveGenerator.pair_moves. destruct stopped; [eauto |].
  destruct (lookup_lt_is_Some_2 top (Z.to_nat i)) as (pi & Hpi); [lia |].
  destruct (lookup_lt_is_Some_2 top (Z.to_nat j)) as (pj & Hpj); [lia |].
  rewrite (getitem_lookup top i pi) by (lia || exact Hpi).
  rewrite (getitem_lookup top j pj) by (lia || exact Hpj).
  cbn [bind].
  assert (Hin_i : In pi top) by (apply list_elem_of_In; eapply list_elem_of_lookup_2; exact Hpi).
  assert (Hin_j : In pj top) by (apply list_elem_of_In; eapply list_elem_of_lookup_2; exact Hpj).
  assert (Hget : forall p, In p top -> exists v, PyDict.get unique p = Some v).
  { intros p Hp. apply Hkeys in Hp.
    destruct (PyDict.get unique p) as [v|] eqn:E; [eauto |].
    apply dict_get_None_keys in E. contradiction. }
  destruct (Hget pi Hin_i) as (v1 & ->). destruct (Hget pj Hin_j) as (v2 & ->).
  cbn [bind]. eexists. split; [reflexivity |]. cbn [fst].
  intros m Hm. apply in_app_iff in Hm. destruct Hm as [Hm | [<- | []]];
    [apply Hst; exact Hm |].
  exists pi, pj. split; [exact Hin_i |]. split; [exact Hin_j |]. split.
  - intros Heq. subst pj.
    pose proof (NoDup_lookup top _ _ pi Hnd Hpi Hpj). lia.
  - unfold pair_of, StoneMove.of_pairs. cbn. destruct pi, pj. auto.
Qed.

Lemma standard_moves_spec (self : MoveGenerator.t) (board : Board)
        (color depth max_moves : Z) :
  is_grid21 board = true -> 1 <= max_moves ->
  exists moves,
    MoveGenerator._generate_standard_moves self board color depth max_moves
    = Ok (moves, board)
    /\ moves <> []
    /\ Z.of_nat (length moves) <= max_moves
    /\ StronglySorted score_order moves
    /\ (moves = [MoveGenerator._create_center_move]
        \/ forall m, In m moves -> legal_move board m).
Proof.
  intros Hg Hmax. unfold MoveGenerator._generate_standard_moves.
  destruct (candidate_scan_ok board color Hg) as (st & -> & Hb & Hc). cbn [bind].
  rewrite Hb.
  assert (Hcands : exists cands,
             (if nonempty (MoveGenerator.candidate_positions st)
              then Ok (MoveGenerator.candidate_positions st)
              else foldM (fun cands x =>
                            foldM (MoveGenerator.center_cell board x) (range 7 14) cands)
                         (range 7 14) (MoveGenerator.candidate_positions st)) = Ok cands
             /\ candidates_ok board cands).
  { destruct (nonempty _); [eauto |].
    apply (foldM_total (candidates_ok board)); [| exact Hc].
    intros c1 x Hx Hc1. apply elem_of_range in Hx.
    apply (foldM_total (candidates_ok board)); [| exact Hc1].
    intros c2 y Hy Hc2. apply elem_of_range in Hy.
    apply center_cell_ok; [exact Hg | lia | lia | exact Hc2]. }
  destruct Hcands as (cands & -> & Hcands). cbn [bind].
  change (foldl _ [] cands) with (foldl keep_best [] cands).
  destruct (keep_best_keys cands []) as [Hwf Hkeys]; [constructor |].
  set (unique := foldl keep_best [] cands) in *.
  set (sorted := sort_by (fun a b : Z * Z * Z => snd b <=? snd a) unique).
  assert (Hperm : Permutation sorted unique) by apply sort_by_perm.
  rewrite slice_to_nonneg by lia.
  set (top := map fst (take (Z.to_nat (Z.min 30 (Z.of_nat (length sorted)))) sorted)).
  assert (Hnd : NoDup top).
  { unfold top. rewrite map_take. apply NoDup_take.
    rewrite (Permutation_map _ Hperm). exact Hwf. }
  assert (Htop : forall p, In p top -> In p (map fst unique)).
  { intros p Hp. unfold top in Hp. apply in_map_iff in Hp.
    destruct Hp as (c & <- & Hc'). apply In_take in Hc'.
    apply list_elem_of_In. rewrite <- (Permutation_map _ Hperm).
    apply list_elem_of_In, in_map. exact Hc'. }
  assert (Hempty : forall p, In p top -> empty_playable board p).
  { intros p Hp. apply Htop, Hkeys in Hp. destruct Hp as [[] | Hp].
    apply in_map_iff in Hp. destruct Hp as (c & <- & Hc'). apply Hcands. exact Hc'. }
  clearbody top.
  match goal with
  | |- context [foldM ?f ?l ([], false)] =>
      destruct (foldM_total (fun st => pairs_of top (fst st)) f l ([], false))
        as ([moves stopped] & -> & Hpairs)
  end.
  { intros st1 i Hi Hst1. apply elem_of_range in Hi.
    destruct (snd st1); [eauto |].
    match goal with
    | |- context [foldM ?g ?lj st1] =>
        destruct (foldM_total (fun st => pairs_of top (fst st)) g lj st1)
          as (st2 & -> & Hst2)
    end.
    - intros st2 j Hj Hst2. apply elem_of_range in Hj.
      apply pair_moves_ok; [exact Hnd | exact Htop | lia | lia | exact Hst2].
    - exact Hst1.
    - cbn [bind]. eexists. split; [reflexivity |]. exact Hst2. }
  { intros m []. }
  cbn [bind fst] in *.
  pose proof (by_score_desc_sorted moves) as Hsorted.
  pose proof (sort_by_perm MoveGenerator.by_score_desc moves) as Hpm.
  set (smoves := sort_by MoveGenerator.by_score_desc moves) in *.
  destruct (nonempty smoves) eqn:Hne.
  - rewrite slice_to_nonneg by lia.
    exists (take (Z.to_nat max_moves) smoves). split; [reflexivity |].
    split; [| split; [| split]].
    + destruct smoves as [|m0 ms]; [discriminate |].
      destruct (Z.to_nat max_moves) eqn:E; [lia | discriminate].
    + rewrite length_take. lia.
    + apply StronglySorted_take. exact Hsorted.
    + right. intros m Hm. apply In_take in Hm.
      apply list_elem_of_In in Hm. rewrite Hpm in Hm. apply list_elem_of_In in Hm.
      destruct (Hpairs m Hm) as (p & q & Hp & Hq & Hpq & H0' & H1').
      split; [rewrite H0'; apply Hempty; exact Hp |].
      split; [rewrite H1'; apply Hempty; exact Hq |].
      intros Heq. apply Hpq. rewrite <- H0', <- H1', Heq. reflexivity.
  - eexists. split; [reflexivity |]. split; [discriminate |].
    split; [cbn [length]; lia |]. split; [| left; reflexivity].
    repeat constructor.
Qed.

(** X25.  The standard move generation.  On a grid, with a limit of at
    least one move, [_generate_standard_moves] returns and leaves the board
    as it found it, the trial stones of the quick evaluation taken off
    again.  The list it returns is not empty, has no more moves than the
    limit, and is in the order of the scores, best first; it is either the
    fallback move on the centre cells alone, or every move in it puts its
    two stones on two different empty playable cells. *)
Theorem standard_moves_are_legal (self : MoveGenerator.t) (board : Board)
        (color depth max_moves : Z) :
  is_grid21 board = true -> 1 <= max_moves ->
  exists moves,
    MoveGenerator._generate_standard_moves self board color depth max_moves
    = Ok (moves, board)
    /\ moves <> []
    /\ Z.of_nat (length moves) <= max_moves
    /\ StronglySorted score_order moves
    /\ (moves = [MoveGenerator._create_center_move]
        \/ forall m, In m moves -> legal_move board m).
Proof. exact (standard_moves_spec self board color depth max_moves). Qed.

End StandardResult.

Lemma standard_moves_are_legal_witness :
  is_grid21 two_stones_board = true /\ 1 <= 10
  /\ exists moves,
      @MoveGenerator._generate_standard_moves connect6_defines
        (MoveGenerator.mk ∅) two_stones_board 1 0 10 = Ok (moves, two_stones_board)
      /\ moves <> []
      /\ Z.of_nat (length moves) <= 10.
Proof.
  assert (Hg : is_grid21 two_stones_board = true) by (vm_compute; reflexivity).
  split; [exact Hg |]. split; [lia |].
  destruct (@standard_moves_are_legal connect6_defines
              (MoveGenerator.mk ∅) two_stones_board 1 0 10 Hg ltac:(lia))
    as (moves & Hrun & Hne & Hlen & _).
  exists moves. split; [exact Hrun |]. split; assumption.
Defined.

(* ===================================================================== *)
(** * The tiers of the move generation *)
(* ===================================================================== *)

Lemma foldl_invariant {A S : Type} (P : S -> Prop) (f : S -> A -> S) (l : list A) (s : S) :
  (forall s a, In a l -> P s -> P (f s a)) -> P s -> P (foldl f s l).
Proof.
  revert s. induction l as [|a l IH]; intros s Hstep Hs; cbn [foldl]; [exact Hs |].
  apply IH.
  - intros s' a' Ha'. apply Hstep. right. exact Ha'.
  - apply Hstep; [left; reflexivity | exact Hs].
Qed.

Section Tiers.
Context `{Defines} `{Python}.

Lemma legal_of_pairs (board : Board) (p q : Z * Z) (s : Q) :
  empty_playable board p -> empty_playable board q -> p <> q ->
  legal_move board (StoneMove.of_pairs p q s).
Proof.
  intros Hp Hq Hne. unfold legal_move, pair_of, StoneMove.of_pairs. cbn.
  destruct p as [px py], q as [qx qy]. cbn [fst snd].
  split; [exact Hp |]. split; [exact Hq |]. intros [= -> ->]. apply Hne. reflexivity.
Qed.

(** The result of sorting a list of legal moves by score and cutting it at
    the limit. *)
Lemma sorted_cut_result (board : Board) (moves : list StoneMove.t) (max_moves : Z) :
  1 <= max_moves ->
  (forall m, In m moves -> legal_move board m) ->
  tier_result board
    (if nonempty (sort_by MoveGenerator.by_score_desc moves)
     then slice_to (sort_by MoveGenerator.by_score_desc moves) max_moves
     else [MoveGenerator._create_center_move]).
Proof.
  intros Hmax Hlegal.
  pose proof (sort_by_perm MoveGenerator.by_score_desc moves) as Hperm.
  destruct (sort_by MoveGenerator.by_score_desc moves) as [|m0 ms] eqn:Hs; cbn [nonempty].
  - split; [discriminate | left; reflexivity].
  - rewrite slice_to_nonneg by lia. split.
    + destruct (Z.to_nat max_moves) eqn:E; [lia | discriminate].
    + right. intros m Hm. apply In_take in Hm. apply Hlegal.
      apply list_elem_of_In. rewrite <- Hperm. apply list_elem_of_In. exact Hm.
Qed.

Lemma critical_moves_spec (board : Board) (color : Z) :
  is_grid21 board = true ->
  exists cm,
    Evaluator.detect_critical_moves board color = Ok (cm, board)
    /\ forall m, In m cm -> empty_playable board (Evaluator.position m).
Proof.
  intros Hg. destruct (detect_critical_moves_spec board color Hg) as (cm & Hcm & Hin & _).
  exists cm. split; [exact Hcm |]. intros m Hm. apply Hin in Hm. apply Hm.
Qed.

Lemma pos_eqb_false (p q : Z * Z) : MoveGenerator.pos_eqb p q = false <-> p <> q.
Proof.
  unfold MoveGenerator.pos_eqb. destruct (bool_decide_reflect (p = q)); split; congruence.
Qed.

(** The winning tier. *)
Lemma create_winning_moves_result (board : Board) (color : Z) (w : Z * Z)
      (wins : list (Z * Z)) :
  is_grid21 board = true ->
  NoDup (w :: wins) -> (forall p, In p (w :: wins) -> empty_playable board p) ->
  exists moves,
    MoveGenerator._create_winning_moves (w :: wins) board color = Ok (moves, board)
    /\ tier_result board moves
    /\ (moves = [MoveGenerator._create_center_move]
        \/ forall m, In m moves -> pair_of (StoneMove.pos0 m) = w).
Proof.
  intros Hg Hnd Hempty. unfold MoveGenerator._create_winning_moves.
  destruct wins as [|w1 wins]; cbn [length].
  - replace (2 <=? Z.of_nat 1) with false by reflexivity.
    change (getitem [w] 0) with (Ok w). cbn [bind].
    destruct (critical_moves_spec board color Hg) as (cm & -> & Hcm). cbn [bind].
    set (step := fun (moves : list StoneMove.t) (candidate : Evaluator.critical_move) =>
                   if negb (MoveGenerator.pos_eqb (Evaluator.position candidate) w)
                   then moves ++ [StoneMove.of_pairs w (Evaluator.position candidate)
                                    (inject_Z (100000000 + Evaluator.score candidate))]
                   else moves).
    set (good := fun m : StoneMove.t => legal_move board m /\ pair_of (StoneMove.pos0 m) = w).
    assert (Hw : empty_playable board w) by (apply Hempty; left; reflexivity).
    assert (Hmoves : forall m, In m (foldl step [] (take 10 cm)) -> good m).
    { apply (foldl_invariant (fun moves => forall m, In m moves -> good m)).
      - intros moves c Hc Hm m. unfold step.
        destruct (MoveGenerator.pos_eqb (Evaluator.position c) w) eqn:Heq; cbn [negb];
          [apply Hm |].
        rewrite in_app_iff. intros [Hin | [<- | []]]; [apply Hm; exact Hin |].
        apply pos_eqb_false in Heq. split.
        + apply legal_of_pairs; [exact Hw | apply Hcm; apply In_take in Hc; exact Hc | auto].
        + unfold pair_of, StoneMove.of_pairs. cbn. destruct w; reflexivity.
      - intros m []. }
    fold step. set (moves := foldl step [] (take 10 cm)) in *. clearbody moves.
    destruct (nonempty moves) eqn:Hne.
    + cbn [bind]. rewrite Hne. eexists. split; [reflexivity |].
      apply nonempty_iff in Hne. split; [split; [exact Hne |] |];
        right; intros m Hm; apply Hmoves; exact Hm.
    + destruct moves; [| discriminate].
      match goal with
      | |- context [foldM ?f ?l []] =>
          destruct (foldM_total (fun moves : list StoneMove.t => forall m, In m moves -> good m)
                      f l []) as (mv & -> & Hmv)
      end.
      { intros mv dx _ Hmv.
        apply (foldM_total (fun moves : list StoneMove.t => forall m, In m moves -> good m));
          [| exact Hmv].
        intros mv' dy _ Hmv'. unfold MoveGenerator.nearby_cell.
        destruct (10 <=? Z.of_nat (length mv')); [eauto |].
        destruct (stone_at_spec board (fst w + dx) (snd w + dy) NOSTONE Hg)
          as (e & -> & Hiff).
        cbn [bind]. destruct e; cbn [andb]; [| eauto].
        destruct (MoveGenerator.pos_eqb (fst w + dx, snd w + dy) w) eqn:Heq; cbn [negb];
          [eauto |].
        eexists. split; [reflexivity |]. intros m. rewrite in_app_iff.
        intros [Hin | [<- | []]]; [apply Hmv'; exact Hin |].
        apply pos_eqb_false in Heq. split.
        - apply legal_of_pairs; [exact Hw | | auto].
          unfold empty_playable. cbn [fst snd]. apply Hiff. reflexivity.
        - unfold pair_of, StoneMove.of_pairs. cbn. destruct w; reflexivity. }
      { intros m []. }
      cbn [bind]. eexists. split; [reflexivity |].
      destruct mv as [|m0 mv]; cbn [nonempty].
      * split; [split; [discriminate | left; reflexivity] | left; reflexivity].
      * split; [split; [discriminate |] |]; right; intros m Hm; apply Hmv; exact Hm.
  - replace (2 <=? Z.of_nat (S (S (length wins)))) with true
      by (symmetry; apply Z.leb_le; lia).
    rewrite (getitem_lookup (w :: w1 :: wins) 0 w) by (lia || reflexivity).
    rewrite (getitem_lookup (w :: w1 :: wins) 1 w1) by (lia || reflexivity).
    cbn [bind]. eexists. split; [reflexivity |].
    assert (Hl : legal_move board (StoneMove.of_pairs w w1 (inject_Z 100000000))).
    { apply legal_of_pairs.
      - apply Hempty. left. reflexivity.
      - apply Hempty. right. left. reflexivity.
      - apply NoDup_cons in Hnd as [Hn _]. intros ->. apply Hn. left. }
    split; [split; [discriminate |] |]; right; intros m [<- | []].
    + exact Hl.
    + unfold pair_of, StoneMove.of_pairs. cbn. destruct w; reflexivity.
Qed.

(** The two defensive tiers. *)
Lemma create_desperate_defense_result (board : Board) (color : Z) (w0 w1 : Z * Z)
      (wins : list (Z * Z)) :
  NoDup (w0 :: w1 :: wins) ->
  (forall p, In p (w0 :: w1 :: wins) -> empty_playable board p) ->
  exists moves,
    MoveGenerator._create_desperate_defense (w0 :: w1 :: wins) board color = Ok moves
    /\ tier_result board moves.
Proof.
  intros Hnd Hempty. unfold MoveGenerator._create_desperate_defense.
  replace (2 <=? Z.of_nat (length (w0 :: w1 :: wins))) with true
    by (symmetry; apply Z.leb_le; cbn [length]; lia).
  rewrite (getitem_lookup (w0 :: w1 :: wins) 0 w0) by (lia || reflexivity).
  rewrite (getitem_lookup (w0 :: w1 :: wins) 1 w1) by (lia || reflexivity).
  cbn [bind]. eexists. split; [reflexivity |].
  split; [discriminate |]. right. intros m [<- | []].
  apply legal_of_pairs.
  - apply Hempty. left. reflexivity.
  - apply Hempty. right. left. reflexivity.
  - apply NoDup_cons in Hnd as [Hn _]. intros ->. apply Hn. left.
Qed.

Lemma create_defensive_counterattack_result (board : Board) (color max_moves : Z)
      (threat_pos : Z * Z) :
  is_grid21 board = true -> 1 <= max_moves -> empty_playable board threat_pos ->
  exists moves,
    MoveGenerator._create_defensive_counterattack threat_pos board color max_moves
    = Ok (moves, board)
    /\ tier_result board moves.
Proof.
  intros Hg Hmax Ht. unfold MoveGenerator._create_defensive_counterattack.
  destruct (critical_moves_spec board color Hg) as (cm & -> & Hcm). cbn [bind].
  eexists. split; [reflexivity |]. apply sorted_cut_result; [exact Hmax |].
  apply (foldl_invariant (fun moves => forall m, In m moves -> legal_move board m)).
  - intros moves c Hc Hm m.
    destruct (MoveGenerator.pos_eqb (Evaluator.position c) threat_pos) eqn:Heq;
      cbn [negb]; [apply Hm |].
    rewrite in_app_iff. intros [Hin | [<- | []]]; [apply Hm; exact Hin |].
    apply pos_eqb_false in Heq.
    apply legal_of_pairs; [exact Ht | apply Hcm; apply In_take in Hc; exact Hc | auto].
  - intros m [].
Qed.

(** The critical tier, for the colour whose opponent it can name. *)
Lemma generate_critical_moves_result (self : MoveGenerator.t) (board : Board)
      (threat_info : Evaluator.threat_info) (max_moves : Z) :
  is_grid21 board = true -> 1 <= max_moves ->
  exists moves,
    MoveGenerator._generate_critical_moves self board WHITE threat_info max_moves
    = Ok (moves, board)
    /\ tier_result board moves.
Proof.
  intros Hg Hmax. unfold MoveGenerator._generate_critical_moves.
  destruct (critical_moves_spec board WHITE Hg) as (cm1 & -> & Hcm1). cbn [bind].
  rewrite Z.eqb_refl. cbn [bind].
  destruct (critical_moves_spec board BLACK Hg) as (cm2 & -> & Hcm2). cbn [bind].
  set (P := fun st : list StoneMove.t * gset (Z * Z) =>
              forall m, In m (fst st) -> legal_move board m).
  match goal with
  | |- context [foldl ?f ([], ∅) ?l] =>
      assert (Hall : P (foldl f ([], ∅) l))
  end.
  { apply (foldl_invariant P).
    - intros st move1 Hm1 Hst. destruct (bool_decide _); [exact Hst |].
      assert (Hp1 : empty_playable board (Evaluator.position move1))
        by (apply Hcm1; apply In_take in Hm1; exact Hm1).
      assert (Hatt : P (foldl (MoveGenerator.attack_pair move1) st (take 15 cm1))).
      { apply (foldl_invariant P); [| exact Hst].
        intros [moves seen] move2 Hm2 Hs. unfold MoveGenerator.attack_pair.
        destruct (MoveGenerator.pos_eqb (Evaluator.position move2) (Evaluator.position move1))
          eqn:Heq; cbn [negb andb]; [exact Hs |].
        destruct (bool_decide _); cbn [negb]; [exact Hs |].
        intros m. cbn [fst]. rewrite in_app_iff. intros [Hin | [<- | []]];
          [apply Hs; exact Hin |].
        apply pos_eqb_false in Heq.
        apply legal_of_pairs; [exact Hp1 | apply Hcm1; apply In_take in Hm2; exact Hm2 | auto]. }
      destruct (foldl (MoveGenerator.attack_pair move1) st (take 15 cm1)) as [moves seen].
      unfold P. cbn [fst] in *.
      apply (foldl_invariant (fun moves => forall m, In m moves -> legal_move board m));
        [| exact Hatt].
      intros mv move2 Hm2 Hs. unfold MoveGenerator.block_pair.
      destruct (MoveGenerator.pos_eqb (Evaluator.position move2) (Evaluator.position move1))
        eqn:Heq; cbn [negb andb]; [exact Hs |].
      destruct (bool_decide _); cbn [negb]; [exact Hs |].
      intros m. rewrite in_app_iff. intros [Hin | [<- | []]]; [apply Hs; exact Hin |].
      apply pos_eqb_false in Heq.
      apply legal_of_pairs; [exact Hp1 | apply Hcm2; apply In_take in Hm2; exact Hm2 | auto].
    - intros m []. }
  match goal with
  | |- context [foldl ?f ([], ∅) ?l] => destruct (foldl f ([], ∅) l) as [moves seen]
  end.
  unfold P in Hall. cbn [fst] in Hall.
  pose proof (sorted_cut_result board moves max_moves Hmax Hall) as Hcut.
  destruct (nonempty (sort_by MoveGenerator.by_score_desc moves)).
  - eexists. split; [reflexivity | exact Hcut].
  - destruct (standard_moves_spec self board WHITE 0 max_moves Hg Hmax)
      as (mv & -> & Hne & _ & _ & Hlegal).
    exists mv. split; [reflexivity |]. split; assumption.
Qed.

End Tiers.

(* ===================================================================== *)
(** * generate_moves *)
(* ===================================================================== *)

Section GenerateMoves.
Context `{Defines} `{Python}.

Lemma immediate_wins_spec (board : Board) (color : Z) :
  PythonSets -> is_grid21 board = true ->
  exists wins,
    Evaluator.detect_immediate_win board color = Ok wins
    /\ NoDup wins /\ forall p, In p wins -> empty_playable board p.
Proof.
  intros Hsets Hg. destruct (analyze_position_total board color Hg) as (a & Ha).
  exists (PatternRecognizer.winning_moves a).
  assert (Hw : Evaluator.detect_immediate_win board color
               = Ok (PatternRecognizer.winning_moves a)).
  { unfold Evaluator.detect_immediate_win. rewrite Ha. reflexivity. }
  split; [exact Hw |]. split.
  - destruct (analysis_summary_spec board color a Hsets Ha) as (_ & Hnd & _). exact Hnd.
  - apply (immediate_wins_ok board color _ Hsets Hw).
Qed.

Lemma threat_analysis_total (board : Board) (color : Z) :
  is_grid21 board = true ->
  exists ti, Evaluator.get_threat_analysis board color = Ok ti.
Proof.
  intros Hg. destruct (analyze_position_total board color Hg) as (a1 & Ha1).
  destruct (analyze_position_total board (Evaluator.opponent_of color) Hg) as (a2 & Ha2).
  destruct (get_threat_analysis_value board color a1 a2 Ha1 Ha2) as (ti & Hti & _).
  eauto.
Qed.

(** X26.  What [generate_moves] returns.  On a grid, with a limit of at
    least one move: with a PV move the answer is that move alone; without
    one the call either returns a list that is not empty and leaves the
    board as it found it, the list being the fallback move on the centre
    cells alone or holding only moves on two different empty playable
    cells, or it raises [AttributeError], which happens for no colour but
    the ones other than WHITE.  For WHITE the generation always returns. *)
Theorem generate_moves_returns_legal_moves
        (self : MoveGenerator.t) (board : Board) (color depth max_moves : Z)
        (pv_move : option StoneMove.t) :
  PythonSets -> is_grid21 board = true -> 1 <= max_moves ->
  (exists moves,
      MoveGenerator.generate_moves self board color depth max_moves pv_move
      = Ok (moves, board)
      /\ moves <> []
      /\ match pv_move with
         | Some pv => moves = [pv]
         | None => tier_result board moves
         end)
  \/ (MoveGenerator.generate_moves self board color depth max_moves pv_move
      = Raise AttributeError
      /\ color <> WHITE /\ pv_move = None).
Proof.
  intros Hsets Hg Hmax. unfold MoveGenerator.generate_moves.
  destruct pv_move as [pv|].
  { left. eexists. split; [reflexivity |]. split; [discriminate | reflexivity]. }
  destruct (immediate_wins_spec board color Hsets Hg) as (wins & -> & Hnd & Hempty).
  cbn [bind]. destruct wins as [|w wins]; cbn [nonempty].
  - destruct (immediate_wins_spec board (if color =? WHITE then BLACK else WHITE) Hsets Hg)
      as (owins & -> & Hndo & Hemptyo).
    cbn [bind]. destruct owins as [|w0 [|w1 owins]]; cbn [nonempty length].
    + destruct (threat_analysis_total board color Hg) as (ti & ->). cbn [bind].
      destruct (Evaluator.critical_situation ti).
      * destruct (Z.eqb_spec color WHITE) as [->|Hc].
        -- left. destruct (generate_critical_moves_result self board ti max_moves Hg Hmax)
             as (moves & -> & Ht).
           exists moves. split; [reflexivity |]. split; [apply Ht | exact Ht].
        -- right. split; [| split; [exact Hc | reflexivity]].
           unfold MoveGenerator._generate_critical_moves.
           destruct (critical_moves_spec board color Hg) as (cm & -> & _). cbn [bind].
           destruct (Z.eqb_spec color WHITE); [contradiction | reflexivity].
      * left. destruct (standard_moves_spec self board color depth max_moves Hg Hmax)
          as (moves & -> & Hne & _ & _ & Hlegal).
        exists moves. split; [reflexivity |]. split; [exact Hne | split; assumption].
    + replace (2 <=? Z.of_nat 1) with false by reflexivity.
      change (getitem [w0] 0) with (Ok w0). cbn [bind]. left.
      destruct (create_defensive_counterattack_result board color max_moves w0 Hg Hmax)
        as (moves & -> & Ht); [apply Hemptyo; left; reflexivity |].
      exists moves. split; [reflexivity |]. split; [apply Ht | exact Ht].
    + replace (2 <=? Z.of_nat (S (S (length owins)))) with true
        by (symmetry; apply Z.leb_le; lia).
      left.
      destruct (create_desperate_defense_result board color w0 w1 owins Hndo Hemptyo)
        as (moves & -> & Ht).
      cbn [bind]. exists moves. split; [reflexivity |]. split; [apply Ht | exact Ht].
  - left. destruct (create_winning_moves_result board color w wins Hg Hnd Hempty)
      as (moves & -> & Ht & _).
    exists moves. split; [reflexivity |]. split; [apply Ht | exact Ht].
Qed.

End GenerateMoves.

Lemma generate_moves_returns_legal_moves_witness :
  @PythonSets simple_python /\ is_grid21 two_stones_board = true /\ 1 <= 10
  /\ exists moves,
      @MoveGenerator.generate_moves connect6_defines simple_python
        (MoveGenerator.mk ∅) two_stones_board 2 0 10 None = Ok (moves, two_stones_board)
      /\ @tier_result connect6_defines two_stones_board moves.
Proof.
  assert (Hg : is_grid21 two_stones_board = true) by (vm_compute; reflexivity).
  split; [exact simple_python_sets |]. split; [exact Hg |]. split; [lia |].
  destruct (@generate_moves_returns_legal_moves connect6_defines simple_python
              (MoveGenerator.mk ∅) two_stones_board 2 0 10 None
              simple_python_sets Hg ltac:(lia))
    as [(moves & Hrun & _ & Htier) | (_ & Hcolor & _)].
  - exists moves. split; [exact Hrun | exact Htier].
  - exfalso. apply Hcolor. reflexivity.
Defined.

(* ===================================================================== *)
(** * Wins: the two checks, the winning positions and the winning tier *)
(* ===================================================================== *)

Section WinAgreement.
Context `{Defines}.

Lemma cell_at_bounds (board : Board) (x y v : Z) :
  is_grid21 board = true -> cell_at board x y = Some v ->
  0 <= x <= 20 /\ 0 <= y <= 20.
Proof.
  unfold is_grid21, cell_at. rewrite andb_true_iff, Nat.eqb_eq, forallb_forall.
  intros [Hlen Hrows] Hc.
  destruct (Z.leb_spec 0 x); [| discriminate].
  destruct (Z.leb_spec 0 y); [| discriminate]. cbn [andb] in Hc.
  destruct (board !! Z.to_nat x) as [row|] eqn:Hrow; [| discriminate].
  cbn in Hc.
  pose proof (lookup_lt_Some _ _ _ Hrow) as Hx.
  pose proof (lookup_lt_Some _ _ _ Hc) as Hy.
  assert (Hrl : length row = 21%nat).
  { apply Nat.eqb_eq, Hrows, list_elem_of_In, list_elem_of_lookup. eauto. }
  lia.
Qed.

(** A run of six through a cell, off the border of a well-formed board, is
    six stones in a row on playable cells. *)
Lemma six_through_in_line (board : Board) (s x y : Z) (d : Z * Z) :
  well_formed board = true -> s <> BORDER -> In d Tools.directions ->
  six_through board s x y (fst d) (snd d) -> six_in_line board s.
Proof.
  intros Hwf Hs Hd (i & Hi & Hrun).
  exists (x - i * fst d), (y - i * snd d), d. split; [exact Hd |].
  intros k Hk. specialize (Hrun k Hk).
  replace (x - i * fst d + k * fst d) with (x + (k - i) * fst d) by lia.
  replace (y - i * snd d + k * snd d) with (y + (k - i) * snd d) by lia.
  destruct (cell_at_bounds _ _ _ _ (well_formed_grid _ Hwf) Hrun) as [Hx Hy].
  destruct (well_formed_inner _ _ _ _ Hwf Hx Hy Hrun Hs) as [Hx' Hy'].
  split; cbn [fst snd].
  - apply in_1_19_spec. lia.
  - apply board_get_cell_at; [lia | lia | exact Hrun].
Qed.

(** When the check of a move answers [True], a stone of the move stands in
    a run of six. *)
Lemma premove_true_six (board : Board) (preMove : StoneMove.t) :
  well_formed board = true ->
  Tools.is_win_by_premove board preMove = Ok true ->
  exists p d s,
    In p (StoneMove.positions preMove) /\ In d Tools.directions
    /\ cell_at board (StonePosition.x p) (StonePosition.y p) = Some s
    /\ s <> BORDER /\ s <> NOSTONE
    /\ six_through board s (StonePosition.x p) (StonePosition.y p) (fst d) (snd d).
Proof.
  intros Hwf Hwin. unfold Tools.is_win_by_premove in Hwin.
  assert (Hinner : forall d, In d Tools.directions ->
            exists r,
              anyM (Tools.premove_check board d) (StoneMove.positions preMove) = Ok r
              /\ (r = true <->
                  exists p, In p (StoneMove.positions preMove)
                            /\ Tools.premove_check board d p = Ok true)).
  { intros d Hd. apply anyM_spec. intros p _.
    destruct (premove_check_spec board d p Hwf Hd) as (r & Hr & _). eauto. }
  destruct (anyM_spec
              (fun d => anyM (Tools.premove_check board d) (StoneMove.positions preMove))
              Tools.directions) as (r & Hr & Hiff).
  { intros d Hd. destruct (Hinner d Hd) as (r & Hr & _). eauto. }
  rewrite Hwin in Hr. injection Hr as <-.
  destruct Hiff as [Hex _]. destruct (Hex eq_refl) as (d & Hd & Hany).
  destruct (Hinner d Hd) as (r' & Hr' & Hiff'). rewrite Hr' in Hany.
  injection Hany as ->. destruct Hiff' as [Hex' _].
  destruct (Hex' eq_refl) as (p & Hp & Hcheck).
  destruct (premove_check_spec board d p Hwf Hd) as (r'' & Hr'' & Hspec).
  rewrite Hr'' in Hcheck. injection Hcheck as ->.
  destruct Hspec as [Hspec _].
  destruct (Hspec eq_refl) as (Hx & Hy & s & Hs & Hsb & Hsn & Hsix).
  exists p, d, s. tauto.
Qed.

(** X27.  The two win checks agree on a win.  On a well-formed board, when
    [is_win_by_premove] answers [True] for a move, one of the two
    coordinates of the move holds a stone, and the evaluator's [_is_won]
    answers [True] for the colour of that stone. *)
Theorem premove_win_is_won (board : Board) (preMove : StoneMove.t) :
  well_formed board = true ->
  Tools.is_win_by_premove board preMove = Ok true ->
  exists p s,
    In p (StoneMove.positions preMove)
    /\ board_get board (StonePosition.x p) (StonePosition.y p) = Ok s
    /\ s <> NOSTONE /\ s <> BORDER
    /\ Evaluator._is_won board s = Ok true.
Proof.
  intros Hwf Hwin.
  destruct (premove_true_six board preMove Hwf Hwin)
    as (p & d & s & Hp & Hd & Hs & Hsb & Hsn & Hsix).
  exists p, s. split; [exact Hp |].
  destruct (cell_at_bounds _ _ _ _ (well_formed_grid _ Hwf) Hs) as [Hx Hy].
  split; [apply board_get_cell_at; [lia | lia | exact Hs] |].
  split; [exact Hsn |]. split; [exact Hsb |].
  destruct (is_won_spec board s (well_formed_grid _ Hwf)) as (b & Hb & Hiff).
  rewrite Hb. f_equal. apply Hiff.
  apply (six_through_in_line board s _ _ d Hwf Hsb Hd Hsix).
Qed.

End WinAgreement.

Section FiveInRow.
Context `{Defines} `{Python}.

Lemma classify_five (n : Z) (bo ao : bool) (level : Z) :
  PatternRecognizer._classify_threat n bo ao = (Some "FIVE_IN_ROW"%string, level) ->
  n = 5.
Proof.
  unfold PatternRecognizer._classify_threat.
  destruct (n >=? 6); [discriminate |].
  destruct (Z.eqb_spec n 5) as [-> | _]; [reflexivity |].
  destruct (n =? 4); [destruct (bo && ao), (bo || ao); discriminate |].
  destruct (n =? 3); [destruct (bo && ao), (bo || ao); discriminate |].
  destruct (n =? 2); [destruct (bo && ao), (bo || ao); discriminate |].
  discriminate.
Qed.

(** Placing a stone of the colour keeps the stones of the colour and adds
    the written cell. *)
Lemma board_set_stone_on (board b' : Board) (color : Z) (p q : Z * Z) :
  is_grid21 board = true -> in_1_19 (fst p) (snd p) = true ->
  board_set board (fst p) (snd p) color = Ok b' ->
  stone_on board color q \/ q = p -> stone_on b' color q.
Proof.
  intros Hg Hp Hset Hq. apply in_1_19_spec in Hp.
  destruct (board_set_cell_at board (fst p) (snd p) color Hg)
    as (b'' & Hset' & Hg' & Hcells); [lia | lia |].
  rewrite Hset' in Hset. injection Hset as <-.
  assert (Hq1 : in_1_19 (fst q) (snd q) = true).
  { destruct Hq as [[Hq _] | ->]; [exact Hq | apply in_1_19_spec; lia]. }
  split; [exact Hq1 |]. apply in_1_19_spec in Hq1.
  apply board_get_cell_at; [lia | lia |]. rewrite Hcells.
  destruct (decide (fst q = fst p /\ snd q = snd p)) as [_ | Hne]; [reflexivity |].
  destruct Hq as [[_ Hq] | ->]; [| exfalso; apply Hne; split; reflexivity].
  apply board_get_cell_at; [lia | lia | exact Hq].
Qed.

(** X28.  A winning position of a five-in-row threat does win.  For a threat
    of type [FIVE_IN_ROW] in the analysis of a colour, placing a stone of
    that colour on any cell of the threat's [win_positions] gives a board
    on which [_is_won] answers [True] for the colour. *)
Theorem five_in_row_win_position_wins (board : Board) (color : Z)
        (a : PatternRecognizer.analysis) (t : ThreatPattern.t) (p : Z * Z) :
  is_grid21 board = true ->
  PatternRecognizer.analyze_position board color = Ok a ->
  In t (PatternRecognizer.threats a) ->
  ThreatPattern.pattern_type t = "FIVE_IN_ROW"%string ->
  In p (ThreatPattern.win_positions t) ->
  exists b',
    board_set board (fst p) (snd p) color = Ok b'
    /\ Evaluator._is_won b' color = Ok true.
Proof.
  intros Hg Ha Ht Hty Hp.
  destruct (analysis_threats_spec board color a Ha t Ht)
    as (n & start & d & bo & ao & Hn & Hd & Hpos & Hline & Hcl & Hwin).
  rewrite Hty in Hcl. apply classify_five in Hcl. subst n.
  destruct (Hwin p Hp) as [[Hin Hempty] Hend].
  pose proof Hin as Hin'. apply in_1_19_spec in Hin'.
  destruct (board_set_cell_at board (fst p) (snd p) color Hg)
    as (b' & Hset & Hg' & _); [lia | lia |].
  exists b'. split; [exact Hset |].
  destruct (is_won_spec b' color Hg') as (b & Hb & Hiff).
  rewrite Hb. f_equal. apply Hiff.
  assert (Hcell : forall i, 0 <= i < 5 ->
            stone_on b' color (fst start + i * fst d, snd start + i * snd d)).
  { intros i Hi. apply (board_set_stone_on board b' color p _ Hg Hin Hset).
    left. apply Hline. rewrite Hpos. unfold line_cells. apply in_map_iff.
    exists i. split; [reflexivity | apply elem_of_range; lia]. }
  assert (Hself : stone_on b' color p).
  { apply (board_set_stone_on board b' color p _ Hg Hin Hset). right. reflexivity. }
  destruct Hend as [-> | ->]; cbn [fst snd] in *.
  - exists (fst start - fst d), (snd start - snd d), d. split; [exact Hd |].
    intros k Hk. destruct (Z.eq_dec k 0) as [-> | Hk0].
    + replace (fst start - fst d + 0 * fst d) with (fst start - fst d) by lia.
      replace (snd start - snd d + 0 * snd d) with (snd start - snd d) by lia.
      exact Hself.
    + replace (fst start - fst d + k * fst d) with (fst start + (k - 1) * fst d) by lia.
      replace (snd start - snd d + k * snd d) with (snd start + (k - 1) * snd d) by lia.
      apply Hcell. lia.
  - exists (fst start), (snd start), d. split; [exact Hd |].
    intros k Hk. destruct (Z.eq_dec k 5) as [-> | Hk5].
    + exact Hself.
    + apply Hcell. lia.
Qed.

(** X29.  The winning tier plays the winning cell.  Given a duplicate-free
    list of empty playable winning cells that is not empty,
    [_create_winning_moves] returns, leaves the board as it was, and gives a
    list that is not empty; it is either the fallback move on the centre
    cells, or every move in it puts its two stones on two different empty
    playable cells, the first of them the first winning cell. *)
Theorem winning_tier_plays_the_first_win (board : Board) (color : Z) (w : Z * Z)
        (wins : list (Z * Z)) :
  is_grid21 board = true ->
  NoDup (w :: wins) -> (forall p, In p (w :: wins) -> empty_playable board p) ->
  exists moves,
    MoveGenerator._create_winning_moves (w :: wins) board color = Ok (moves, board)
    /\ moves <> []
    /\ (moves = [MoveGenerator._create_center_move]
        \/ forall m, In m moves ->
             legal_move board m /\ pair_of (StoneMove.pos0 m) = w).
Proof.
  intros Hg Hnd Hempty.
  destruct (create_winning_moves_result board color w wins Hg Hnd Hempty)
    as (moves & Hrun & [Hne Hlegal] & Hfirst).
  exists moves. split; [exact Hrun |]. split; [exact Hne |].
  destruct Hfirst as [-> | Hfirst]; [left; reflexivity |].
  destruct Hlegal as [-> | Hlegal]; [left; reflexivity |].
  right. intros m Hm. split; [apply Hlegal | apply Hfirst]; exact Hm.
Qed.

End FiveInRow.

Lemma premove_win_is_won_witness :
  @well_formed connect6_defines six_in_row_board = true
  /\ @Tools.is_win_by_premove connect6_defines six_in_row_board last_black_move = Ok true
  /\ exists p s,
      In p (StoneMove.positions last_black_move)
      /\ board_get six_in_row_board (StonePosition.x p) (StonePosition.y p) = Ok s
      /\ Evaluator._is_won six_in_row_board s = Ok true.
Proof.
  assert (Hwf : @well_formed connect6_defines six_in_row_board = true)
    by (vm_compute; reflexivity).
  assert (Hwin : @Tools.is_win_by_premove connect6_defines six_in_row_board
                   last_black_move = Ok true) by (vm_compute; reflexivity).
  split; [exact Hwf |]. split; [exact Hwin |].
  destruct (@premove_win_is_won connect6_defines six_in_row_board last_black_move
              Hwf Hwin) as (p & s & Hp & Hs & _ & _ & Hwon).
  exists p, s. split; [exact Hp |]. split; assumption.
Defined.

Lemma five_in_row_win_position_wins_witness :
  is_grid21 five_in_row_board = true
  /\ exists a t b',
      @PatternRecognizer.analyze_position connect6_defines simple_python
        five_in_row_board 1 = Ok a
      /\ In t (PatternRecognizer.threats a)
      /\ ThreatPattern.pattern_type t = "FIVE_IN_ROW"%string
      /\ In (10, 9) (ThreatPattern.win_positions t)
      /\ board_set five_in_row_board 10 9 1 = Ok b'
      /\ Evaluator._is_won b' 1 = Ok true.
Proof.
  assert (Hg : is_grid21 five_in_row_board = true) by (vm_compute; reflexivity).
  split; [exact Hg |].
  destruct (@PatternRecognizer.analyze_position connect6_defines simple_python
              five_in_row_board 1) as [a | e] eqn:Ha;
    [| vm_compute in Ha; discriminate Ha].
  assert (Hex : (fun r => match r with
                          | Ok a' =>
                              existsb (fun t =>
                                 String.eqb (ThreatPattern.pattern_type t) "FIVE_IN_ROW"
                                 && existsb (fun q => bool_decide (q = (10, 9)))
                                      (ThreatPattern.win_positions t))
                                (PatternRecognizer.threats a')
                          | Raise _ => false
                          end)
                  (@PatternRecognizer.analyze_position connect6_defines simple_python
                     five_in_row_board 1) = true) by (vm_compute; reflexivity).
  cbv beta in Hex. rewrite Ha in Hex.
  apply existsb_exists in Hex. destruct Hex as (t & Ht & Hprops).
  apply andb_true_iff in Hprops. destruct Hprops as [Hty Hwin].
  apply String.eqb_eq in Hty.
  apply existsb_exists in Hwin. destruct Hwin as (q & Hq & Heq).
  apply bool_decide_eq_true in Heq. subst q.
  destruct (@five_in_row_win_position_wins connect6_defines simple_python
              five_in_row_board 1 a t (10, 9) Hg Ha Ht Hty Hq) as (b' & Hset & Hwon).
  exists a, t, b'. repeat split; assumption.
Defined.

Lemma winning_tier_plays_the_first_win_witness :
  is_grid21 five_in_row_board = true
  /\ NoDup [(10, 15); (10, 9)]
  /\ (@empty_playable connect6_defines five_in_row_board (10, 15)
      /\ @empty_playable connect6_defines five_in_row_board (10, 9))
  /\ exists moves,
      @MoveGenerator._create_winning_moves connect6_defines simple_python
        [(10, 15); (10, 9)] five_in_row_board 1 = Ok (moves, five_in_row_board)
      /\ moves <> [].
Proof.
  assert (Hg : is_grid21 five_in_row_board = true) by (vm_compute; reflexivity).
  assert (Hnd : NoDup [(10, 15); (10, 9)]).
  { apply (bool_decide_unpack _). vm_compute. exact I. }
  assert (H15 : @empty_playable connect6_defines five_in_row_board (10, 15))
    by (split; vm_compute; reflexivity).
  assert (H9 : @empty_playable connect6_defines five_in_row_board (10, 9))
    by (split; vm_compute; reflexivity).
  split; [exact Hg |]. split; [exact Hnd |]. split; [split; assumption |].
  destruct (@winning_tier_plays_the_first_win connect6_defines simple_python
              five_in_row_board 1 (10, 15) [(10, 9)] Hg Hnd)
    as (moves & Hrun & Hne & _).
  { intros p [<- | [<- | []]]; assumption. }
  exists moves. split; assumption.
Defined.
